(** * pible: scan / connect pipeline, store facade, GPS state, type classifier

    A shallow embedding of the Go sources of the pible Bluetooth scanner
    (cmd/pible/main.go, internal/db/store.go, internal/gps/state.go,
    internal/bluetooth/*.go) together with the properties its specification
    states about them.

    Conventions of the embedding.
    - A Go [string] is a Rocq [string] (a sequence of bytes, UTF-8 where it
      is text).  [TrimSpace] and [Fields] know the white space of
      [unicode.IsSpace], in its UTF-8 encoding.  [ToUpper], [ToLower] and
      [EqualFold] fold the letters a-z and A-Z and leave every other byte as
      it is: that is what the Go functions do on text all of whose letters
      are ASCII (the case tables of package [unicode] are not part of these
      sources).  MAC addresses, UUIDs, family names and GPS texts are ASCII;
      a property of free text that depends on letter case says that its
      text is ASCII.
    - A Go [*T] is an [option T]; a [[]byte] is a [list Z] of values 0..255.
    - [time.Time] is the number of nanoseconds since Go's zero instant, so
      that [IsZero t] is [t = 0]; [time.Duration] is a signed 64-bit count of
      nanoseconds and [Time.Sub] saturates as in the Go library.  Every
      reading of the wall clock ([time.Now()]) is an explicit argument.
    - A [float64] is a [spec_float] (IEEE 754 binary64 datum) and [%f] prints
      its exact value rounded half-to-even to six decimals.
    - The SQLite tables are finite maps from their unique key to a row
      record.  A statement fails where its text or the schema makes it fail
      (an INSERT whose value list does not fit its column list, a foreign
      key without its parent row); I/O errors are not modelled. *)

From Stdlib Require Import ZArith String Ascii List DecimalString SpecFloat Lia Bool.
From stdpp Require Import gmap strings list fin_maps.
Import ListNotations.
Open Scope string_scope.
Open Scope Z_scope.

(** ** Package strings, encoding/hex, encoding/base64, encoding/binary *)

Module GoStrings.

Definition byteval (c : ascii) : Z := Z.of_N (N_of_ascii c).
Definition ofbyte (n : Z) : ascii := ascii_of_N (Z.to_N n).

(** unicode.IsSpace on the ASCII range: '\t' '\n' '\v' '\f' '\r' ' '. *)
Definition isSpace (c : ascii) : bool :=
  let n := byteval c in (n =? 32) || ((9 <=? n) && (n <=? 13)).

(** The other white-space runes of unicode.IsSpace, by their UTF-8 bytes:
    U+0085 and U+00A0 (C2 85, C2 A0); U+1680 (E1 9A 80); U+2000 to U+200A,
    U+2028, U+2029 and U+202F (E2 80 80..8A, A8, A9, AF); U+205F (E2 81 9F);
    U+3000 (E3 80 80). *)
Definition isSpace2 (c d : ascii) : bool :=
  (byteval c =? 0xC2) && ((byteval d =? 0x85) || (byteval d =? 0xA0)).

Definition isSpace3 (c d e : ascii) : bool :=
  ((byteval c =? 0xE1) && (byteval d =? 0x9A) && (byteval e =? 0x80))
  || ((byteval c =? 0xE2) && (byteval d =? 0x80)
      && (((0x80 <=? byteval e) && (byteval e <=? 0x8A))
          || (byteval e =? 0xA8) || (byteval e =? 0xA9) || (byteval e =? 0xAF)))
  || ((byteval c =? 0xE2) && (byteval d =? 0x81) && (byteval e =? 0x9F))
  || ((byteval c =? 0xE3) && (byteval d =? 0x80) && (byteval e =? 0x80)).

(** The text is one white-space rune. *)
Definition isSpaceRune (s : string) : bool :=
  match s with
  | String c EmptyString => isSpace c
  | String c (String d EmptyString) => isSpace2 c d
  | String c (String d (String e EmptyString)) => isSpace3 c d e
  | _ => false
  end.

(** strings.TrimLeftFunc(s, unicode.IsSpace): the encoding of a white-space
    rune is dropped from the front as long as there is one.  (A byte
    sequence that is not valid UTF-8 decodes to U+FFFD, which is not white
    space; an encoding of a white-space rune never starts inside another
    rune.) *)
Fixpoint trimLeft (s : string) : string :=
  match s with
  | EmptyString => EmptyString
  | String c r =>
      if isSpace c then trimLeft r
      else
        match r with
        | String d r1 =>
            if isSpace2 c d then trimLeft r1
            else
              match r1 with
              | String e r2 => if isSpace3 c d e then trimLeft r2 else s
              | EmptyString => s
              end
        | EmptyString => s
        end
  end.

(** strings.TrimRightFunc(s, unicode.IsSpace): likewise from the end.  What
    is left of the tail is trimmed first; if the byte in front of it then
    completes a white-space rune that reaches the end, that goes too. *)
Fixpoint trimRight (s : string) : string :=
  match s with
  | EmptyString => EmptyString
  | String c r =>
      let t := trimRight r in
      if isSpaceRune (String c t) then EmptyString else String c t
  end.

Definition TrimSpace (s : string) : string := trimRight (trimLeft s).

(** strings.ToUpper, strings.ToLower and strings.EqualFold on text whose
    letters are ASCII: the letters a-z and A-Z are folded, every other byte
    stays.  (On other text the Go functions consult the case tables of
    package [unicode].) *)
Definition upperByte (c : ascii) : ascii :=
  let n := byteval c in if (97 <=? n) && (n <=? 122) then ofbyte (n - 32) else c.

Definition lowerByte (c : ascii) : ascii :=
  let n := byteval c in if (65 <=? n) && (n <=? 90) then ofbyte (n + 32) else c.

Fixpoint mapBytes (f : ascii -> ascii) (s : string) : string :=
  match s with
  | EmptyString => EmptyString
  | String c r => String (f c) (mapBytes f r)
  end.

Definition ToUpper : string -> string := mapBytes upperByte.
Definition ToLower : string -> string := mapBytes lowerByte.

Definition EqualFold (s t : string) : bool := String.eqb (ToLower s) (ToLower t).

(** strings.Fields: the maximal runs of bytes between white-space runes, in
    order. *)
Fixpoint fieldsFrom (cur : option string) (s : string) : list string :=
  match s with
  | EmptyString => match cur with Some w => [w] | None => [] end
  | String c r =>
      let more :=
        fieldsFrom (Some (match cur with
                          | Some w => (w ++ String c EmptyString)%string
                          | None => String c EmptyString
                          end)) r in
      let cut (rest : list string) :=
        match cur with Some w => w :: rest | None => rest end in
      if isSpace c then cut (fieldsFrom None r)
      else
        match r with
        | String d r1 =>
            if isSpace2 c d then cut (fieldsFrom None r1)
            else
              match r1 with
              | String e r2 => if isSpace3 c d e then cut (fieldsFrom None r2) else more
              | EmptyString => more
              end
        | EmptyString => more
        end
  end.

Definition Fields (s : string) : list string := fieldsFrom None s.

(** strings.ReplaceAll(s, " ", ""). *)
Fixpoint dropSpaces (s : string) : string :=
  match s with
  | EmptyString => EmptyString
  | String c r => if byteval c =? 32 then dropSpaces r else String c (dropSpaces r)
  end.

(** encoding/hex *)
Definition fromHexChar (c : ascii) : option Z :=
  let n := byteval c in
  if (48 <=? n) && (n <=? 57) then Some (n - 48)
  else if (97 <=? n) && (n <=? 102) then Some (n - 97 + 10)
  else if (65 <=? n) && (n <=? 70) then Some (n - 65 + 10)
  else None.

Definition isHexDigit (c : ascii) : bool :=
  match fromHexChar c with Some _ => true | None => false end.

Fixpoint DecodeString (s : string) : option (list Z) :=
  match s with
  | EmptyString => Some []
  | String a (String b r) =>
      match fromHexChar a, fromHexChar b, DecodeString r with
      | Some x, Some y, Some bs => Some (x * 16 + y :: bs)
      | _, _, _ => None
      end
  | String _ EmptyString => None
  end.

Definition hexdigit (n : Z) : ascii :=
  if n <? 10 then ofbyte (48 + n) else ofbyte (97 + n - 10).

Fixpoint EncodeToString (b : list Z) : string :=
  match b with
  | [] => EmptyString
  | v :: r => String (hexdigit (Z.shiftr v 4)) (String (hexdigit (Z.land v 15)) (EncodeToString r))
  end.

(** binary.BigEndian.Uint16 on a two-byte slice. *)
Definition BigEndianUint16 (b : list Z) : Z :=
  Z.lor (Z.shiftl (nth 0 b 0) 8) (nth 1 b 0).

(** Go slice expression b[lo:hi]. *)
Definition slice {A} (b : list A) (lo hi : nat) : list A := firstn (hi - lo) (skipn lo b).

(** encoding/base64, StdEncoding (padded, not strict). *)
Definition b64val (c : ascii) : option Z :=
  let n := byteval c in
  if (65 <=? n) && (n <=? 90) then Some (n - 65)
  else if (97 <=? n) && (n <=? 122) then Some (n - 97 + 26)
  else if (48 <=? n) && (n <=? 57) then Some (n - 48 + 52)
  else if n =? 43 then Some 62
  else if n =? 47 then Some 63
  else None.

Definition isPad (c : ascii) : bool := byteval c =? 61.

Fixpoint b64quanta (s : list ascii) : option (list Z) :=
  match s with
  | [] => Some []
  | a :: b :: c :: d :: rest =>
      match b64val a, b64val b with
      | Some x, Some y =>
          match b64val c, b64val d with
          | Some z, Some w =>
              match b64quanta rest with
              | Some bs =>
                  Some (Z.lor (Z.shiftl x 2) (Z.shiftr y 4)
                        :: Z.lor (Z.shiftl (Z.land y 15) 4) (Z.shiftr z 2)
                        :: Z.lor (Z.shiftl (Z.land z 3) 6) w :: bs)
              | None => None
              end
          | Some z, None =>
              if isPad d && match rest with [] => true | _ => false end
              then Some [Z.lor (Z.shiftl x 2) (Z.shiftr y 4);
                         Z.lor (Z.shiftl (Z.land y 15) 4) (Z.shiftr z 2)]
              else None
          | None, _ =>
              if isPad c && isPad d && match rest with [] => true | _ => false end
              then Some [Z.lor (Z.shiftl x 2) (Z.shiftr y 4)]
              else None
          end
      | _, _ => None
      end
  | _ => None
  end.

Definition isNewline (c : ascii) : bool := (byteval c =? 10) || (byteval c =? 13).

Definition Base64DecodeString (s : string) : option (list Z) :=
  b64quanta (List.filter (fun c => negb (isNewline c)) (list_ascii_of_string s)).

(** Go's [int] and [int64]: the value wrapped to 64-bit two's complement. *)
Definition int64 (x : Z) : Z := (x + 2 ^ 63) mod 2 ^ 64 - 2 ^ 63.

(** fmt "%d". *)
Definition itoa (n : Z) : string :=
  match n with
  | Z0 => "0"
  | Zpos p => NilZero.string_of_uint (N.to_uint (Npos p))
  | Zneg p => ("-" ++ NilZero.string_of_uint (N.to_uint (Npos p)))%string
  end.

End GoStrings.
Import GoStrings.

(** ** Package time *)

Module GoTime.

Definition Time := Z.
Definition Duration := Z.

Definition Nanosecond : Duration := 1.
Definition Second : Duration := 1000000000.
Definition Minute : Duration := 60 * Second.

Definition minDuration : Duration := - 2 ^ 63.
Definition maxDuration : Duration := 2 ^ 63 - 1.

Definition IsZero (t : Time) : bool := t =? 0.

(** t.Sub(u): the difference, saturated to the range of Duration. *)
Definition Sub (t u : Time) : Duration :=
  let d := t - u in
  if d <? minDuration then minDuration
  else if maxDuration <? d then maxDuration
  else d.

(** time.Since(t) with the clock reading [now]. *)
Definition Since (now t : Time) : Duration := Sub now t.

End GoTime.
Import GoTime.

(** ** Package util (internal/util) *)

Module Util.

Definition isMacSep (c : ascii) : bool := (byteval c =? 58) || (byteval c =? 45).

(** The regular expression [^([0-9A-Fa-f]{2}[:-]){5}([0-9A-Fa-f]{2})$]:
    [macGroups n] reads [n] groups "hex hex separator" and then the final
    "hex hex" at the end of the text. *)
Fixpoint macGroups (n : nat) (s : string) : bool :=
  match n, s with
  | O, String a (String b EmptyString) => isHexDigit a && isHexDigit b
  | S k, String a (String b (String c r)) =>
      isHexDigit a && isHexDigit b && isMacSep c && macGroups k r
  | _, _ => false
  end.

Definition macRe_MatchString (s : string) : bool := macGroups 5 s.

Definition IsMACAddress (s : string) : bool := macRe_MatchString (TrimSpace s).

Definition SafeName (localName : string) : string :=
  let name := TrimSpace localName in
  if String.eqb name "" then "Unknown"
  else if IsMACAddress name then "Unknown"
  else name.

Fixpoint bytesToHexFrom (first : bool) (b : list Z) : string :=
  match b with
  | [] => EmptyString
  | v :: r =>
      let two := String (hexdigit (Z.shiftr v 4)) (String (hexdigit (Z.land v 15)) (bytesToHexFrom false r)) in
      if first then two else String " "%char two
  end.

Definition BytesToHex (b : list Z) : string := bytesToHexFrom true b.

(** One console record of [util.Linef]: its tag and its formatted message. *)
Record Line := { label : string; msg : string }.

End Util.
Import Util.

(** ** Package gps (internal/gps/state.go) *)

Module Gps.

Record State := {
  useGPS : bool;
  latestLat : spec_float;
  latestLon : spec_float;
  lastFix : Time;
  timeout : Duration;
  activeKind : string
}.

Definition NewState (use : bool) (tmo : Duration) : State :=
  {| useGPS := use; latestLat := S754_zero false; latestLon := S754_zero false;
     lastFix := 0; timeout := tmo; activeKind := "" |}.


(** [%f]: the exact value of the float, rounded half-to-even at the sixth
    decimal. *)
Definition roundHalfEven (num den : Z) : Z :=
  let q := num / den in
  let r := num mod den in
  if 2 * r <? den then q
  else if den <? 2 * r then q + 1
  else if Z.even q then q else q + 1.

Definition digitChar (d : Z) : ascii := ofbyte (48 + d).

(** The six decimals of a fraction given in millionths. *)
Definition sixDigits (n : Z) : string :=
  String (digitChar (n / 100000 mod 10))
    (String (digitChar (n / 10000 mod 10))
       (String (digitChar (n / 1000 mod 10))
          (String (digitChar (n / 100 mod 10))
             (String (digitChar (n / 10 mod 10))
                (String (digitChar (n mod 10)) EmptyString))))).

(** [q] is the absolute value in millionths. *)
Definition fixed6 (neg : bool) (q : Z) : string :=
  ((if neg then "-" else "") ++ itoa (q / 1000000) ++ "." ++ sixDigits (q mod 1000000))%string.

Definition fmtF (x : spec_float) : string :=
  match x with
  | S754_zero s => fixed6 s 0
  | S754_infinity s => if s then "-Inf" else "+Inf"
  | S754_nan => "NaN"
  | S754_finite s m e =>
      fixed6 s (if 0 <=? e then Zpos m * 2 ^ e * 1000000
                else roundHalfEven (Zpos m * 1000000) (2 ^ (- e)))
  end.

Definition Source (s : State) : string := activeKind s.

Definition FixSnapshot (now : Time) (s : State) : spec_float * spec_float * bool * bool :=
  if negb (useGPS s) then (S754_zero false, S754_zero false, false, false)
  else if IsZero (lastFix s) then (S754_zero false, S754_zero false, false, false)
  else (latestLat s, latestLon s, true, timeout s <? Since now (lastFix s)).

Definition IsFresh (now : Time) (s : State) : bool :=
  if negb (useGPS s) then false
  else if IsZero (lastFix s) then false
  else Since now (lastFix s) <=? timeout s.

Definition GPSStringIfFresh (now : Time) (s : State) : option string :=
  if negb (useGPS s) then None
  else if IsZero (lastFix s) then None
  else if timeout s <? Since now (lastFix s) then None
  else Some (fmtF (latestLat s) ++ ", " ++ fmtF (latestLon s))%string.

Definition GPSStringForRecord (now : Time) (s : State) : option string :=
  if negb (useGPS s) then None
  else if IsZero (lastFix s) then None
  else if Since now (lastFix s) <=? timeout s
       then Some (fmtF (latestLat s) ++ ", " ++ fmtF (latestLon s))%string
       else Some ("(" ++ fmtF (latestLat s) ++ ", " ++ fmtF (latestLon s) ++ ")")%string.

End Gps.

(** ** Device-type patterns (internal/bluetooth, the type classifier) *)

Module Types.

Record manufacturerEntry := { CompanyID : Z; DataHex : string }.

Record serviceDataEntry := { sd_UUID : string; sd_Name : string; sd_DataHex : string }.

Record IBeaconT := {
  AppleCompanyID : Z;
  UUID : string;
  Major : Z;
  Minor : Z
}.

Record Manufacturer5BT := { m5_CompanyID : Z; m5_Length : Z }.

Record DeviceTypePattern := {
  Name : string;
  RequireServiceUUID : string;
  IBeacon : IBeaconT;
  Manufacturer5B : Manufacturer5BT;
  NameBase645B : bool
}.

Record DeviceTypePatterns := { Types : list DeviceTypePattern }.

(** The normalisation pass at the end of [LoadDeviceTypePatterns]. *)
Definition normalizePattern (p : DeviceTypePattern) : DeviceTypePattern :=
  {| Name := ToLower (TrimSpace (Name p));
     RequireServiceUUID := ToUpper (TrimSpace (RequireServiceUUID p));
     IBeacon := {| AppleCompanyID := AppleCompanyID (IBeacon p);
                   UUID := ToUpper (TrimSpace (UUID (IBeacon p)));
                   Major := Major (IBeacon p);
                   Minor := Minor (IBeacon p) |};
     Manufacturer5B := Manufacturer5B p;
     NameBase645B := NameBase645B p |}.

Definition uint16 (x : Z) : Z := x mod 65536.

Definition isB64Char (c : ascii) : bool :=
  match b64val c with Some _ => true | None => false end.

Fixpoint skipB64 (s : string) : string :=
  match s with
  | EmptyString => EmptyString
  | String c r => if isB64Char c then skipB64 r else s
  end.

(** The regular expression [^[A-Za-z0-9+/]+={0,2}$]. *)
Definition base64Re_MatchString (s : string) : bool :=
  match s with
  | EmptyString => false
  | String c _ =>
      isB64Char c &&
      (let rest := skipB64 s in
       String.eqb rest "" || String.eqb rest "=" || String.eqb rest "==")
  end.

Definition formatUUID (b : list Z) : string :=
  if negb (Nat.eqb (List.length b) 16) then ""
  else
    let hexs := EncodeToString b in
    ToUpper (substring 0 8 hexs ++ "-" ++ substring 8 4 hexs ++ "-" ++ substring 12 4 hexs
             ++ "-" ++ substring 16 4 hexs ++ "-" ++ substring 20 12 hexs)%string.

Fixpoint parseHexFields (fields : list string) : option (list Z) :=
  match fields with
  | [] => Some []
  | f0 :: rest =>
      let f := TrimSpace f0 in
      if String.eqb f "" then parseHexFields rest
      else
        let f := if Nat.eqb (String.length f) 1 then String "0"%char f else f in
        match DecodeString f with
        | Some [b] =>
            match parseHexFields rest with
            | Some out => Some (b :: out)
            | None => None
            end
        | _ => None
        end
  end.

(** [parseHexBytes]: a nil result and an empty slice are both the empty list. *)
Definition parseHexBytes (s0 : string) : list Z :=
  let s := TrimSpace s0 in
  if String.eqb s "" then []
  else
    let fields := Fields s in
    match fields with
    | [] => []
    | [f] =>
        match DecodeString (dropSpaces f) with
        | Some b => b
        | None => match parseHexFields fields with Some out => out | None => [] end
        end
    | _ => match parseHexFields fields with Some out => out | None => [] end
    end.

Fixpoint findManufacturerBytes (mfg : list manufacturerEntry) (companyID : Z) : list Z :=
  match mfg with
  | [] => []
  | e :: rest =>
      if negb (CompanyID e =? companyID) then findManufacturerBytes rest companyID
      else
        let b := parseHexBytes (DataHex e) in
        if (0 <? Z.of_nat (List.length b)) then b else findManufacturerBytes rest companyID
  end.

(** The set of advertised service UUIDs, trimmed and upper-cased. *)
Definition svcSetOf (serviceUUIDsRaw : list string) : gset string :=
  foldr (fun u acc =>
           let u' := ToUpper (TrimSpace u) in
           if String.eqb u' "" then acc else {[ u' ]} ∪ acc) ∅ serviceUUIDsRaw.

Definition ibeaconMatches (p : DeviceTypePattern) (mfg : list manufacturerEntry) : bool :=
  negb (String.eqb (UUID (IBeacon p)) "") && (0 <? AppleCompanyID (IBeacon p)) &&
  (let payload := findManufacturerBytes mfg (uint16 (AppleCompanyID (IBeacon p))) in
   (23 <=? Z.of_nat (List.length payload)) && (nth 0 payload 0 =? 2) && (nth 1 payload 0 =? 21) &&
   (let uuid := ToUpper (formatUUID (slice payload 2 18)) in
    let major := BigEndianUint16 (slice payload 18 20) in
    let minor := BigEndianUint16 (slice payload 20 22) in
    String.eqb uuid (ToUpper (UUID (IBeacon p))) &&
    (major =? Major (IBeacon p)) && (minor =? Minor (IBeacon p)))).

Definition manufacturer5BMatches (p : DeviceTypePattern) (mfg : list manufacturerEntry) : bool :=
  (0 <? m5_CompanyID (Manufacturer5B p)) && (0 <? m5_Length (Manufacturer5B p)) &&
  (let payload := findManufacturerBytes mfg (uint16 (m5_CompanyID (Manufacturer5B p))) in
   Z.of_nat (List.length payload) =? m5_Length (Manufacturer5B p)).

Definition nameBase645BMatches (p : DeviceTypePattern) (name : string) : bool :=
  NameBase645B p &&
  (let n := TrimSpace name in
   negb (String.eqb n "") && (Z.of_nat (String.length n) <=? 64) && base64Re_MatchString n &&
   match Base64DecodeString n with
   | Some raw => Nat.eqb (List.length raw) 5
   | None => false
   end).

Fixpoint detectIn (svcSet : gset string) (ps : list DeviceTypePattern)
         (mfg : list manufacturerEntry) (name : string) : string :=
  match ps with
  | [] => ""
  | p :: rest =>
      if String.eqb (Name p) "" then detectIn svcSet rest mfg name
      else if negb (String.eqb (RequireServiceUUID p) "") &&
              negb (bool_decide (ToUpper (RequireServiceUUID p) ∈ svcSet))
      then detectIn svcSet rest mfg name
      else if ibeaconMatches p mfg then Name p
      else if manufacturer5BMatches p mfg then Name p
      else if nameBase645BMatches p name then Name p
      else detectIn svcSet rest mfg name
  end.

Definition DetectTypedDevice (patterns : option DeviceTypePatterns) (serviceUUIDsRaw : list string)
           (mfg : list manufacturerEntry) (name : string) : string :=
  match patterns with
  | None => ""
  | Some ps =>
      match Types ps with
      | [] => ""
      | _ => detectIn (svcSetOf serviceUUIDsRaw) (Types ps) mfg name
      end
  end.

End Types.

(** ** time.Parse for the layout "2006-01-02 15:04:05"

    The store reads its timestamps back with [time.Parse].  The store model
    below takes the parser as a parameter; [parseStamp] is the reading of that
    layout used to run the model on concrete timestamps: four-digit year,
    two-digit month and day, a run of spaces, a one- or two-digit hour,
    two-digit minute and second, an optional fraction of a second, and
    nothing else; the fields are range-checked and the result is the instant
    in UTC. *)

Module Layout.

Definition digit (c : ascii) : option Z :=
  let n := byteval c in if (48 <=? n) && (n <=? 57) then Some (n - 48) else None.

Definition num2 (a b : ascii) : option Z :=
  match digit a, digit b with
  | Some x, Some y => Some (10 * x + y)
  | _, _ => None
  end.

Definition isLeap (y : Z) : bool :=
  (y mod 4 =? 0) && (negb (y mod 100 =? 0) || (y mod 400 =? 0)).

Definition daysIn (m y : Z) : Z :=
  if m =? 2 then (if isLeap y then 29 else 28)
  else if (m =? 4) || (m =? 6) || (m =? 9) || (m =? 11) then 30 else 31.

(** Days from 0001-01-01 to the given civil date (proleptic Gregorian). *)
Definition daysFromCivil (y m d : Z) : Z :=
  let y' := if m <=? 2 then y - 1 else y in
  let era := y' / 400 in
  let yoe := y' - era * 400 in
  let doy := (153 * (m + (if 2 <? m then -3 else 9)) + 2) / 5 + d - 1 in
  let doe := yoe * 365 + yoe / 4 - yoe / 100 + doy in
  era * 146097 + doe - 719468 + 719162.

Fixpoint digitsPrefix (s : string) : list Z * string :=
  match s with
  | EmptyString => ([], EmptyString)
  | String c r =>
      match digit c with
      | Some d => let '(ds, rest) := digitsPrefix r in (d :: ds, rest)
      | None => ([], s)
      end
  end.

(** The nine-digit value of at most nine fraction digits. *)
Definition nanosOf (ds : list Z) : Z :=
  fold_left (fun acc d => 10 * acc + d) (firstn 9 ds) 0 * 10 ^ (9 - Z.of_nat (List.length (firstn 9 ds))).

Definition parseFraction (s : string) : option (Z * string) :=
  match s with
  | String p (String d r) =>
      if ((byteval p =? 46) || (byteval p =? 44)) && (match digit d with Some _ => true | None => false end)
      then let '(ds, rest) := digitsPrefix (String d r) in Some (nanosOf ds, rest)
      else Some (0, s)
  | _ => Some (0, s)
  end.

Fixpoint cutspace (s : string) : string :=
  match s with
  | String c r => if byteval c =? 32 then cutspace r else s
  | EmptyString => EmptyString
  end.

Definition parseClock (y mo d : Z) (s : string) : option Time :=
  let hourAndRest :=
    match s with
    | String a (String b r) =>
        match digit a, digit b with
        | Some x, Some z => Some (10 * x + z, r)
        | Some x, None => Some (x, String b r)
        | None, _ => None
        end
    | String a EmptyString => match digit a with Some x => Some (x, EmptyString) | None => None end
    | EmptyString => None
    end in
  match hourAndRest with
  | Some (h, String c1 (String m1 (String m2 (String c2 (String s1 (String s2 rest)))))) =>
      match num2 m1 m2, num2 s1 s2, parseFraction rest with
      | Some mi, Some se, Some (ns, EmptyString) =>
          if (byteval c1 =? 58) && (byteval c2 =? 58) && (h <? 24) && (mi <? 60) && (se <? 60)
             && (1 <=? mo) && (mo <=? 12) && (1 <=? d) && (d <=? daysIn mo y)
          then Some ((((daysFromCivil y mo d * 24 + h) * 60 + mi) * 60 + se) * Second + ns)
          else None
      | _, _, _ => None
      end
  | _ => None
  end.

Definition parseStamp (s : string) : option Time :=
  match s with
  | String y1 (String y2 (String y3 (String y4 (String d1 (String m1 (String m2
      (String d2 (String a1 (String a2 (String sp rest)))))))))) =>
      match num2 y1 y2, num2 y3 y4, num2 m1 m2, num2 a1 a2 with
      | Some yh, Some yl, Some mo, Some d =>
          if (byteval d1 =? 45) && (byteval d2 =? 45) && (byteval sp =? 32)
          then parseClock (100 * yh + yl) mo d (cutspace rest)
          else None
      | _, _, _, _ => None
      end
  | _ => None
  end.

End Layout.

(** ** Package db (internal/db/store.go) *)

Module Db.

Definition normalizeMAC (mac : string) : string := ToUpper (TrimSpace mac).

(** sql.NullString.String *)
Definition nullString (v : option string) : string :=
  match v with Some s => s | None => "" end.

(** SQL COALESCE(excluded.x, old.x). *)
Definition coalesce {A} (excluded old : option A) : option A :=
  match excluded with Some v => Some v | None => old end.

(** *** Rows *)

(** Table [devices]; [mac] is UNIQUE COLLATE NOCASE and every writer
    normalises it first, so the table is keyed by the normalised MAC.
    [detection_count] is never NULL: every INSERT writes 1 or takes the
    column default 1. *)
Record Device := {
  id : Z;
  session_id : option Z;
  device_type : option string;
  name : option string;
  mac : string;
  mac_type : option string;
  mac_subtype : option string;
  rssi : option Z;
  service : option string;
  timestamp : option string;
  adapter : option string;
  manufacturer_data : option string;
  manufacturer_name : option string;
  service_uuids : option string;
  service_data : option string;
  tx_power : option string;
  platform_data : option string;
  advertisement_json : option string;
  last_adv_id : option Z;
  gps : option string;
  detection_count : Z;
  last_count_update : option string;
  tag : option string;
  type_ : option string
}.

Record GattCharacteristic := {
  gc_service_handle : option Z;
  gc_char_handle : option Z;
  gc_flags_json : option string;
  gc_value_hex : option string;
  gc_value_ascii : option string;
  gc_read_error : option string;
  gc_last_read_at : option string
}.

Record Advertisement := {
  adv_id : Z;
  adv_session_id : option Z;
  adv_device_id : Z;
  adv_mac : string;
  adv_timestamp : string;
  adv_rssi : option Z;
  adv_raw : option string;
  adv_json : option string
}.

Record GpsHistory := {
  gh_session_id : option Z;
  gh_mac : string;
  gh_timestamp : string;
  gh_lat : option spec_float;
  gh_lon : option spec_float;
  gh_gps_text : string;
  gh_is_cached : Z;
  gh_source : option string
}.

Record ClassicDevice := {
  cd_class : option Z;
  cd_icon : option string;
  cd_paired : option Z;
  cd_trusted : option Z;
  cd_connected : option Z;
  cd_blocked : option Z;
  cd_legacy_pairing : option Z;
  cd_modalias : option string;
  cd_uuids : option string;
  cd_last_seen : option string;
  cd_props_json : option string
}.

Record ClassicDiscovery := {
  cdi_session_id : option Z;
  cdi_mac : string;
  cdi_timestamp : string;
  cdi_rssi : option Z;
  cdi_class : option Z;
  cdi_props_json : option string
}.

(** *** The store: its tables and the in-process GPS-history cache *)

Record Store := {
  devices : gmap string Device;
  nextDeviceID : Z;
  gatt_services : gmap string (option string);
  gatt_characteristics : gmap (string * string * string) GattCharacteristic;
  advertisements : list Advertisement;
  nextAdvID : Z;
  device_gps_history : list GpsHistory;
  classic_devices : gmap string ClassicDevice;
  classic_discoveries : list ClassicDiscovery;
  gpsHistLast : gmap string string;
  gpsHistLastAt : gmap string Time
}.

Definition emptyStore : Store :=
  {| devices := ∅; nextDeviceID := 1; gatt_services := ∅; gatt_characteristics := ∅;
     advertisements := []; nextAdvID := 1; device_gps_history := [];
     classic_devices := ∅; classic_discoveries := [];
     gpsHistLast := ∅; gpsHistLastAt := ∅ |}.

Definition withDevices (d : gmap string Device) (n : Z) (s : Store) : Store :=
  {| devices := d; nextDeviceID := n; gatt_services := gatt_services s;
     gatt_characteristics := gatt_characteristics s;
     advertisements := advertisements s; nextAdvID := nextAdvID s;
     device_gps_history := device_gps_history s;
     classic_devices := classic_devices s; classic_discoveries := classic_discoveries s;
     gpsHistLast := gpsHistLast s; gpsHistLastAt := gpsHistLastAt s |}.

Definition withGattServices (g : gmap string (option string)) (s : Store) : Store :=
  {| devices := devices s; nextDeviceID := nextDeviceID s; gatt_services := g;
     gatt_characteristics := gatt_characteristics s;
     advertisements := advertisements s; nextAdvID := nextAdvID s;
     device_gps_history := device_gps_history s;
     classic_devices := classic_devices s; classic_discoveries := classic_discoveries s;
     gpsHistLast := gpsHistLast s; gpsHistLastAt := gpsHistLastAt s |}.

Definition withGattCharacteristics (g : gmap (string * string * string) GattCharacteristic)
           (s : Store) : Store :=
  {| devices := devices s; nextDeviceID := nextDeviceID s; gatt_services := gatt_services s;
     gatt_characteristics := g;
     advertisements := advertisements s; nextAdvID := nextAdvID s;
     device_gps_history := device_gps_history s;
     classic_devices := classic_devices s; classic_discoveries := classic_discoveries s;
     gpsHistLast := gpsHistLast s; gpsHistLastAt := gpsHistLastAt s |}.

Definition withAdvertisements (a : list Advertisement) (n : Z) (s : Store) : Store :=
  {| devices := devices s; nextDeviceID := nextDeviceID s; gatt_services := gatt_services s;
     gatt_characteristics := gatt_characteristics s;
     advertisements := a; nextAdvID := n;
     device_gps_history := device_gps_history s;
     classic_devices := classic_devices s; classic_discoveries := classic_discoveries s;
     gpsHistLast := gpsHistLast s; gpsHistLastAt := gpsHistLastAt s |}.

Definition withGpsHistory (h : list GpsHistory) (l : gmap string string) (a : gmap string Time)
           (s : Store) : Store :=
  {| devices := devices s; nextDeviceID := nextDeviceID s; gatt_services := gatt_services s;
     gatt_characteristics := gatt_characteristics s;
     advertisements := advertisements s; nextAdvID := nextAdvID s;
     device_gps_history := h;
     classic_devices := classic_devices s; classic_discoveries := classic_discoveries s;
     gpsHistLast := l; gpsHistLastAt := a |}.

Definition withClassicDevices (c : gmap string ClassicDevice) (s : Store) : Store :=
  {| devices := devices s; nextDeviceID := nextDeviceID s; gatt_services := gatt_services s;
     gatt_characteristics := gatt_characteristics s;
     advertisements := advertisements s; nextAdvID := nextAdvID s;
     device_gps_history := device_gps_history s;
     classic_devices := c; classic_discoveries := classic_discoveries s;
     gpsHistLast := gpsHistLast s; gpsHistLastAt := gpsHistLastAt s |}.

Definition withClassicDiscoveries (c : list ClassicDiscovery) (s : Store) : Store :=
  {| devices := devices s; nextDeviceID := nextDeviceID s; gatt_services := gatt_services s;
     gatt_characteristics := gatt_characteristics s;
     advertisements := advertisements s; nextAdvID := nextAdvID s;
     device_gps_history := device_gps_history s;
     classic_devices := classic_devices s; classic_discoveries := c;
     gpsHistLast := gpsHistLast s; gpsHistLastAt := gpsHistLastAt s |}.

(** *** Single-column updates of a device row *)

Definition setGPS (v : option string) (r : Device) : Device :=
  {| id := id r; session_id := session_id r; device_type := device_type r; name := name r;
     mac := mac r; mac_type := mac_type r; mac_subtype := mac_subtype r; rssi := rssi r;
     service := service r; timestamp := timestamp r; adapter := adapter r;
     manufacturer_data := manufacturer_data r; manufacturer_name := manufacturer_name r;
     service_uuids := service_uuids r; service_data := service_data r; tx_power := tx_power r;
     platform_data := platform_data r; advertisement_json := advertisement_json r;
     last_adv_id := last_adv_id r; gps := v; detection_count := detection_count r;
     last_count_update := last_count_update r; tag := tag r; type_ := type_ r |}.

Definition setType (v : option string) (r : Device) : Device :=
  {| id := id r; session_id := session_id r; device_type := device_type r; name := name r;
     mac := mac r; mac_type := mac_type r; mac_subtype := mac_subtype r; rssi := rssi r;
     service := service r; timestamp := timestamp r; adapter := adapter r;
     manufacturer_data := manufacturer_data r; manufacturer_name := manufacturer_name r;
     service_uuids := service_uuids r; service_data := service_data r; tx_power := tx_power r;
     platform_data := platform_data r; advertisement_json := advertisement_json r;
     last_adv_id := last_adv_id r; gps := gps r; detection_count := detection_count r;
     last_count_update := last_count_update r; tag := tag r; type_ := v |}.

Definition setLastAdvID (v : option Z) (r : Device) : Device :=
  {| id := id r; session_id := session_id r; device_type := device_type r; name := name r;
     mac := mac r; mac_type := mac_type r; mac_subtype := mac_subtype r; rssi := rssi r;
     service := service r; timestamp := timestamp r; adapter := adapter r;
     manufacturer_data := manufacturer_data r; manufacturer_name := manufacturer_name r;
     service_uuids := service_uuids r; service_data := service_data r; tx_power := tx_power r;
     platform_data := platform_data r; advertisement_json := advertisement_json r;
     last_adv_id := v; gps := gps r; detection_count := detection_count r;
     last_count_update := last_count_update r; tag := tag r; type_ := type_ r |}.

(** [UPDATE devices SET ... WHERE mac = ?]: rewrites the row when there is one. *)
Definition updateDevice (f : Device -> Device) (m : string) (s : Store) : Store :=
  match devices s !! m with
  | Some r => withDevices (<[m := f r]> (devices s)) (nextDeviceID s) s
  | None => s
  end.

(** *** Parameters of the calls *)

Record SaveParams := {
  SessionID : option Z;
  DeviceType : option string;
  Name : option string;
  MAC : string;
  MACType : option string;
  MACSubType : option string;
  RSSI : option Z;
  Timestamp : option string;
  Adapter : option string;
  ManufacturerData : option string;
  ManufacturerName : option string;
  ServiceUUIDs : option string;
  ServiceData : option string;
  TxPower : option string;
  PlatformData : option string;
  AdvertisementJSON : option string;
  LastAdvID : option Z;
  GPS : option string;
  ServiceList : option string;
  UpdateExisting : bool;
  Tag : option string;
  MarkedType : option string
}.

Record GattCharacteristicParams := {
  gp_MAC : string;
  gp_ServiceUUID : string;
  gp_ServiceHandle : option Z;
  gp_CharUUID : string;
  gp_CharHandle : option Z;
  gp_FlagsJSON : option string;
  gp_ValueHex : option string;
  gp_ValueASCII : option string;
  gp_ReadError : option string;
  gp_LastReadAt : string
}.

Record AdvertisementParams := {
  ap_SessionID : option Z;
  ap_MAC : string;
  ap_Timestamp : string;
  ap_RSSI : option Z;
  ap_Raw : option string;
  ap_JSON : option string
}.

Record ClassicInfoParams := {
  ci_MAC : string;
  ci_Class : option Z;
  ci_Icon : option string;
  ci_Paired : option bool;
  ci_Trusted : option bool;
  ci_Connected : option bool;
  ci_Blocked : option bool;
  ci_LegacyPairing : option bool;
  ci_Modalias : option string;
  ci_UUIDsJSON : option string;
  ci_LastSeen : option string;
  ci_PropsJSON : option string
}.

Record ClassicDiscoveryParams := {
  cp_SessionID : option Z;
  cp_MAC : string;
  cp_Timestamp : string;
  cp_RSSI : option Z;
  cp_Class : option Z;
  cp_PropsJSON : option string
}.

Definition optBool (p : option bool) : option Z :=
  match p with Some true => Some 1 | Some false => Some 0 | None => None end.

Definition boolToInt (v : bool) : Z := if v then 1 else 0.

(** *** Queries and targeted updates *)

Definition DeviceExists (m0 : string) (s : Store) : bool :=
  let m := normalizeMAC m0 in
  if String.eqb m "" then false
  else match devices s !! m with Some _ => true | None => false end.

Definition HasGattServices (m0 : string) (s : Store) : bool :=
  let m := normalizeMAC m0 in
  if String.eqb m "" then false
  else match gatt_services s !! m with
       | Some (Some txt) => negb (String.eqb txt "")
       | _ => false
       end.

Definition UpdateGattServices (m0 services : string) (s : Store) : Store :=
  let m := normalizeMAC m0 in
  if String.eqb m "" then s
  else withGattServices (<[m := Some services]> (gatt_services s)) s.

Definition UpdateDeviceGPS (m0 gpsText0 : string) (s : Store) : Store :=
  let m := normalizeMAC m0 in
  if String.eqb m "" then s
  else
    let gpsText := TrimSpace gpsText0 in
    if String.eqb gpsText "" then s
    else updateDevice (setGPS (Some gpsText)) m s.

Definition UpdateDeviceMarkedType (m0 markedType0 : string) (s : Store) : Store :=
  let m := normalizeMAC m0 in
  if String.eqb m "" then s
  else
    let markedType := TrimSpace markedType0 in
    if String.eqb markedType "" then s
    else updateDevice (setType (Some markedType)) m s.

Definition UpdateDeviceLastAdvID (m0 : string) (advID : Z) (s : Store) : Store :=
  let m := normalizeMAC m0 in
  if String.eqb m "" || (advID <=? 0) then s
  else updateDevice (setLastAdvID (Some advID)) m s.

(** Go map read with the zero value for a missing key. *)
Definition strAt (m : gmap string string) (k : string) : string :=
  match m !! k with Some v => v | None => "" end.

Definition timeAt (m : gmap string Time) (k : string) : Time :=
  match m !! k with Some v => v | None => 0 end.

(** [RecordDeviceGPSHistoryIfChanged]; [nowCheck] is the clock read by
    [time.Since], [nowWrite] the clock read when the cache is refreshed.
    The table has FOREIGN KEY(mac) REFERENCES devices(mac) and the store is
    opened with foreign keys on: without a device row of the MAC the INSERT
    fails, the error is returned, and neither table nor cache changes. *)
Definition RecordDeviceGPSHistoryIfChanged (nowCheck nowWrite : Time)
           (sessionID : option Z) (m0 : string) (ts : string)
           (lat lon : option spec_float) (gpsText0 : string) (isCached : bool)
           (source : option string) (s : Store) : Store :=
  let m := normalizeMAC m0 in
  if String.eqb m "" then s
  else
    let gpsText := TrimSpace gpsText0 in
    if String.eqb gpsText "" then s
    else
      let minInterval := 30 * Second in
      let lastTxt := strAt (gpsHistLast s) m in
      let lastAt := timeAt (gpsHistLastAt s) m in
      if String.eqb lastTxt gpsText && negb (IsZero lastAt) && (Since nowCheck lastAt <? minInterval)
      then s
      else
        match devices s !! m with
        | None => s
        | Some _ =>
            withGpsHistory
              (device_gps_history s ++
                 [{| gh_session_id := sessionID; gh_mac := m; gh_timestamp := ts;
                     gh_lat := lat; gh_lon := lon; gh_gps_text := gpsText;
                     gh_is_cached := boolToInt isCached; gh_source := source |}])
              (<[m := gpsText]> (gpsHistLast s))
              (<[m := nowWrite]> (gpsHistLastAt s)) s
        end.

Definition UpsertGattCharacteristic (p : GattCharacteristicParams) (s : Store) : Store :=
  let m := normalizeMAC (gp_MAC p) in
  if String.eqb m "" || String.eqb (TrimSpace (gp_ServiceUUID p)) ""
     || String.eqb (TrimSpace (gp_CharUUID p)) ""
  then s
  else
    let key := (m, TrimSpace (gp_ServiceUUID p), TrimSpace (gp_CharUUID p)) in
    let row :=
      match gatt_characteristics s !! key with
      | None =>
          {| gc_service_handle := gp_ServiceHandle p; gc_char_handle := gp_CharHandle p;
             gc_flags_json := gp_FlagsJSON p; gc_value_hex := gp_ValueHex p;
             gc_value_ascii := gp_ValueASCII p; gc_read_error := gp_ReadError p;
             gc_last_read_at := Some (gp_LastReadAt p) |}
      | Some old =>
          {| gc_service_handle := coalesce (gp_ServiceHandle p) (gc_service_handle old);
             gc_char_handle := coalesce (gp_CharHandle p) (gc_char_handle old);
             gc_flags_json := coalesce (gp_FlagsJSON p) (gc_flags_json old);
             gc_value_hex := coalesce (gp_ValueHex p) (gc_value_hex old);
             gc_value_ascii := coalesce (gp_ValueASCII p) (gc_value_ascii old);
             gc_read_error := gp_ReadError p;
             gc_last_read_at := Some (gp_LastReadAt p) |}
      end in
    withGattCharacteristics (<[key := row]> (gatt_characteristics s)) s.

(** The minimal device row of [InsertAdvertisement]. *)
Definition stubDevice (newID : Z) (p : AdvertisementParams) (m : string) : Device :=
  {| id := newID; session_id := ap_SessionID p; device_type := Some "ble";
     name := Some "Unknown"; mac := m; mac_type := None; mac_subtype := None;
     rssi := ap_RSSI p; service := None; timestamp := Some (ap_Timestamp p);
     adapter := None; manufacturer_data := None; manufacturer_name := None;
     service_uuids := None; service_data := None; tx_power := None;
     platform_data := None; advertisement_json := None; last_adv_id := None;
     gps := None; detection_count := 1; last_count_update := None; tag := None;
     type_ := None |}.

Definition InsertAdvertisement (p : AdvertisementParams) (s : Store) : Z * Store :=
  let m := normalizeMAC (ap_MAC p) in
  if String.eqb m "" then (0, s)
  else
    let s1 :=
      match devices s !! m with
      | Some _ => s
      | None => withDevices (<[m := stubDevice (nextDeviceID s) p m]> (devices s))
                            (nextDeviceID s + 1) s
      end in
    let devID := match devices s1 !! m with Some r => id r | None => 0 end in
    let newID := nextAdvID s1 in
    (newID,
     withAdvertisements
       (advertisements s1 ++
          [{| adv_id := newID; adv_session_id := ap_SessionID p; adv_device_id := devID;
              adv_mac := m; adv_timestamp := ap_Timestamp p; adv_rssi := ap_RSSI p;
              adv_raw := ap_Raw p; adv_json := ap_JSON p |}])
       (newID + 1) s1).

Definition UpsertClassicInfo (p : ClassicInfoParams) (s : Store) : Store :=
  let m := normalizeMAC (ci_MAC p) in
  if String.eqb m "" then s
  else
    let excluded :=
      {| cd_class := ci_Class p; cd_icon := ci_Icon p; cd_paired := optBool (ci_Paired p);
         cd_trusted := optBool (ci_Trusted p); cd_connected := optBool (ci_Connected p);
         cd_blocked := optBool (ci_Blocked p);
         cd_legacy_pairing := optBool (ci_LegacyPairing p);
         cd_modalias := ci_Modalias p; cd_uuids := ci_UUIDsJSON p;
         cd_last_seen := ci_LastSeen p; cd_props_json := ci_PropsJSON p |} in
    let row :=
      match classic_devices s !! m with
      | None => excluded
      | Some old =>
          {| cd_class := coalesce (cd_class excluded) (cd_class old);
             cd_icon := coalesce (cd_icon excluded) (cd_icon old);
             cd_paired := coalesce (cd_paired excluded) (cd_paired old);
             cd_trusted := coalesce (cd_trusted excluded) (cd_trusted old);
             cd_connected := coalesce (cd_connected excluded) (cd_connected old);
             cd_blocked := coalesce (cd_blocked excluded) (cd_blocked old);
             cd_legacy_pairing := coalesce (cd_legacy_pairing excluded) (cd_legacy_pairing old);
             cd_modalias := coalesce (cd_modalias excluded) (cd_modalias old);
             cd_uuids := coalesce (cd_uuids excluded) (cd_uuids old);
             cd_last_seen := coalesce (cd_last_seen excluded) (cd_last_seen old);
             cd_props_json := coalesce (cd_props_json excluded) (cd_props_json old) |}
      end in
    withClassicDevices (<[m := row]> (classic_devices s)) s.

Definition InsertClassicDiscovery (p : ClassicDiscoveryParams) (s : Store) : Store :=
  let m := normalizeMAC (cp_MAC p) in
  if String.eqb m "" then s
  else
    withClassicDiscoveries
      (classic_discoveries s ++
         [{| cdi_session_id := cp_SessionID p; cdi_mac := m; cdi_timestamp := cp_Timestamp p;
             cdi_rssi := cp_RSSI p; cdi_class := cp_Class p; cdi_props_json := cp_PropsJSON p |}]) s.

(** *** SaveDevice *)

Section SaveDevice.

(** [time.Parse("2006-01-02 15:04:05", _)]; [None] is a parse error. *)
Variable parse : string -> option Time.

(** Merge/upgrade of device_type (ble/classic/dual). *)
Definition mergeDeviceType (existingType incomingP : option string) : string :=
  let typeStr := TrimSpace (nullString existingType) in
  match incomingP with
  | None => typeStr
  | Some d =>
      let incoming := TrimSpace d in
      if String.eqb incoming "" then typeStr
      else if String.eqb typeStr "" then incoming
      else if EqualFold typeStr "dual" then typeStr
      else if EqualFold incoming "dual" then "dual"
      else if negb (EqualFold typeStr incoming) then "dual"
      else typeStr
  end.

(** detection_count increments if >= 30 minutes since last_count_update. *)
Definition bumpDetection (count : Z) (lastUpdateStr ts : string) : Z * string :=
  if String.eqb lastUpdateStr "" then (int64 (count + 1), ts)
  else
    match parse lastUpdateStr, parse ts with
    | Some prev, Some cur =>
        if 30 * Minute <=? Sub cur prev then (int64 (count + 1), ts)
        else (count, lastUpdateStr)
    | _, _ => (int64 (count + 1), ts)
    end.

(** The row after [UPDATE devices SET <provided fields> WHERE mac = ?]. *)
Definition updatedRow (p : SaveParams) (ts : string) (r : Device) : Device :=
  let typeStr := mergeDeviceType (device_type r) (DeviceType p) in
  let bumped := bumpDetection (detection_count r) (nullString (last_count_update r)) ts in
  {| id := id r;
     session_id := coalesce (SessionID p) (session_id r);
     device_type := if String.eqb typeStr "" then device_type r else Some typeStr;
     name := coalesce (Name p) (name r);
     mac := mac r;
     mac_type := coalesce (MACType p) (mac_type r);
     mac_subtype := coalesce (MACSubType p) (mac_subtype r);
     rssi := coalesce (RSSI p) (rssi r);
     service := coalesce (ServiceList p) (service r);
     timestamp := Some ts;
     adapter := coalesce (Adapter p) (adapter r);
     manufacturer_data := coalesce (ManufacturerData p) (manufacturer_data r);
     manufacturer_name := coalesce (ManufacturerName p) (manufacturer_name r);
     service_uuids := coalesce (ServiceUUIDs p) (service_uuids r);
     service_data := coalesce (ServiceData p) (service_data r);
     tx_power := coalesce (TxPower p) (tx_power r);
     platform_data := coalesce (PlatformData p) (platform_data r);
     advertisement_json := coalesce (AdvertisementJSON p) (advertisement_json r);
     last_adv_id := coalesce (LastAdvID p) (last_adv_id r);
     gps := coalesce (GPS p) (gps r);
     detection_count := fst bumped;
     last_count_update := Some (snd bumped);
     tag := coalesce (Tag p) (tag r);
     type_ := match MarkedType p with
              | Some mt0 => if String.eqb (TrimSpace mt0) "" then type_ r
                            else Some (TrimSpace mt0)
              | None => type_ r
              end |}.

(** The insert path.  Its statement, INSERT OR IGNORE INTO devices, names 23
    columns and is given 23 arguments, but its VALUES list has 24
    placeholders: SQLite refuses it ("24 values for 23 columns") every time
    it is executed, so nothing is inserted and [SaveDevice] returns the
    error.  [insertRefused] stands for the text of that error. *)
Definition insertRefused : string := "24 values for 23 columns".

(** [SaveDevice]; [nowStr] is [time.Now().Format(layout)], used when the
    caller gives no timestamp.  The first component is the returned error. *)
Definition SaveDevice (nowStr : string) (p : SaveParams) (s : Store) : option string * Store :=
  let m := normalizeMAC (MAC p) in
  if String.eqb m "" then (Some "empty MAC", s)
  else
    let ts := match Timestamp p with Some t => t | None => nowStr end in
    match (if UpdateExisting p then devices s !! m else None) with
    | Some r =>
        (None, withDevices (<[m := updatedRow p ts r]> (devices s)) (nextDeviceID s) s)
    | None => (Some insertRefused, s)
    end.

End SaveDevice.

End Db.

(** ** Package bluetooth: address typing, BlueZ device snapshots, discovery loop *)

Module Bluetooth.
Import Types.

(** [ClassifyAddress] of internal/bluetooth/mac_type.go.  The address type of
    the Bluetooth library is seen through the two calls the function makes:
    [isRandom] is [addr.IsRandom()] and [b] is the byte slice returned by
    [addr.MAC.MarshalBinary()] ([None] when it fails). *)
Definition ClassifyAddress (isRandom : bool) (b : option (list Z)) : string * string :=
  if negb isRandom then ("public_or_unknown", "")
  else
    match b with
    | None => ("random", "")
    | Some [] => ("random", "")
    | Some (b0 :: _) =>
        let msb2 := Z.land (Z.shiftr b0 6) 3 in
        if msb2 =? 0 then ("random", "non_resolvable_private")
        else if msb2 =? 1 then ("random", "resolvable_private")
        else if msb2 =? 2 then ("random", "reserved")
        else if msb2 =? 3 then ("random", "static_random")
        else ("random", "")
    end.

(** One entry of a BlueZ snapshot. *)
Record bluezDevice := {
  bd_Name : string;
  bd_Type : option string;
  bd_AddressType : option string;
  bd_RSSI : option Z;
  bd_TxPower : option string;
  bd_UUIDs : list string;
  bd_ManufacturerEntries : list manufacturerEntry;
  bd_ServiceDataEntries : list serviceDataEntry;
  bd_Class : option Z;
  bd_Icon : option string;
  bd_Paired : option bool;
  bd_Trusted : option bool;
  bd_Connected : option bool;
  bd_Blocked : option bool;
  bd_LegacyPairing : option bool;
  bd_Modalias : option string;
  bd_UUIDsJSON : option string;
  bd_PropsJSON : option string
}.

Definition isClassicLikely (d : bluezDevice) : bool :=
  let byType :=
    match bd_Type d with
    | Some t0 =>
        let t := ToLower (TrimSpace t0) in
        if String.eqb t "bredr" || String.eqb t "dual" then Some true
        else if String.eqb t "le" then Some false
        else None
    | None => None
    end in
  match byType with
  | Some r => r
  | None =>
      if match bd_Class d with Some c => negb (c =? 0) | None => false end then true
      else if match bd_LegacyPairing d with Some v => v | None => false end then true
      else false
  end.

Definition bluezTypeToDeviceType (bd : bluezDevice) : string :=
  let byType :=
    match bd_Type bd with
    | Some t0 =>
        let t := ToLower (TrimSpace t0) in
        if String.eqb t "le" then Some "ble"
        else if String.eqb t "bredr" then Some "classic"
        else if String.eqb t "dual" then Some "dual"
        else None
    | None => None
    end in
  match byType with
  | Some r => r
  | None => if isClassicLikely bd then "classic" else "ble"
  end.

(** The "MAC type/subtype" block of the discovery loop: the pair
    [(macType, macSub)]. *)
Definition macTypeAndSub (bd : bluezDevice) : string * string :=
  match bd_AddressType bd with
  | Some a =>
      let at_ := ToLower (TrimSpace a) in
      (if String.eqb at_ "random" then "random" else "public_or_unknown", at_)
  | None => ("public_or_unknown", "")
  end.

Definition rssiStr (rssi : option Z) : string :=
  match rssi with None => "n/a" | Some v => itoa v end.

Record Resolver := {
  VendorForMAC : string -> string;
  AnnotateServiceUUID : string -> string
}.

Fixpoint annotateUUIDs (resolver : option Resolver) (uuids : list string) : list string :=
  match uuids with
  | [] => []
  | u0 :: rest =>
      let u := TrimSpace u0 in
      if String.eqb u "" then annotateUUIDs resolver rest
      else (match resolver with Some r => AnnotateServiceUUID r u | None => u end)
             :: annotateUUIDs resolver rest
  end.

Record bluezConfig := {
  SnapshotInterval : Duration;
  DeviceUpdateMinPeriod : Duration;
  AdvInsertMinPeriod : Duration;
  ClassicHistMinPeriod : Duration;
  ConnectCooldown : Duration;
  ConnectRSSIMin : Z;
  ConnectQueueSize : Z;
  DiscoverFilterRSSI : Z;
  DuplicateData : bool
}.

Definition defaultBlueZConfig : bluezConfig :=
  {| SnapshotInterval := 3 * Second;
     DeviceUpdateMinPeriod := 10 * Second;
     AdvInsertMinPeriod := 30 * Second;
     ClassicHistMinPeriod := 30 * Second;
     ConnectCooldown := 30 * Minute;
     ConnectRSSIMin := -75;
     ConnectQueueSize := 8192;
     DiscoverFilterRSSI := -90;
     DuplicateData := false |}.

(** The JSON encoders ([encoding/json] behind [jsonOrEmptyArray] and
    [buildAdvertisementJSONBlueZ]); their output is stored as opaque text. *)
Record Encoders := {
  jsonOfManufacturer : list manufacturerEntry -> option string;
  jsonOfStrings : list string -> option string;
  jsonOfServiceData : list serviceDataEntry -> option string;
  buildAdvertisementJSONBlueZ :
    string -> bluezDevice -> string -> list string -> list manufacturerEntry ->
    list serviceDataEntry -> option string
}.

(** What [runBlueZDiscoveryLoop] receives and keeps fixed. *)
Record Env := {
  cfg : bluezConfig;
  adapterID : string;
  resolver : option Resolver;
  patterns : option DeviceTypePatterns;
  sessionID : Z;
  tag : option string;
  enc : Encoders
}.

(** The per-MAC maps of the loop. *)
Record LoopState := {
  known : gmap string bool;
  inFlight : gmap string bool;
  lastConnAttempt : gmap string Time;
  seenCount : gmap string Z;
  lastDeviceWrite : gmap string Time;
  lastAdvWrite : gmap string Time;
  lastClassicHist : gmap string Time;
  lastGPSWrite : gmap string Time;
  lastGPSVal : gmap string string;
  lastMarked : gmap string string
}.

Definition emptyLoop : LoopState :=
  {| known := ∅; inFlight := ∅; lastConnAttempt := ∅; seenCount := ∅;
     lastDeviceWrite := ∅; lastAdvWrite := ∅; lastClassicHist := ∅; lastGPSWrite := ∅;
     lastGPSVal := ∅; lastMarked := ∅ |}.

(** Go map reads with the zero value for a missing key. *)
Definition boolAt (m : gmap string bool) (k : string) : bool :=
  match m !! k with Some v => v | None => false end.

Definition intAt (m : gmap string Z) (k : string) : Z :=
  match m !! k with Some v => v | None => 0 end.

(** What one pass over an observation reads from its surroundings: the
    timestamp string, the GPS state as seen by each of the three GPS calls
    with the clock of that call, and the clocks read inside the store. *)
Record Readings := {
  r_ts : string;
  r_gpsForRecord : Gps.State * Time;
  r_gpsFix : Gps.State * Time;
  r_gpsSource : Gps.State;
  r_histCheck : Time;
  r_histWrite : Time;
  r_saveNow : string
}.

(** What the loop does to the outside, in order. *)
Inductive Event :=
| Print (l : Line)
| CallUpdateDeviceGPS (mac gpsText : string)
| CallRecordDeviceGPSHistoryIfChanged (mac gpsText : string)
| CallUpdateDeviceMarkedType (mac markedType : string)
| CallSaveDevice (p : Db.SaveParams)
| CallInsertAdvertisement (p : Db.AdvertisementParams)
| CallUpdateDeviceLastAdvID (mac : string) (advID : Z)
| CallInsertClassicDiscovery (p : Db.ClassicDiscoveryParams)
| CallUpsertClassicInfo (p : Db.ClassicInfoParams)
| CallHasGattServices (mac : string)
| Enqueue (mac : string).

Record World := {
  maps : LoopState;
  store : Db.Store;
  queue : list string;
  trace : list Event
}.

Definition withMaps (f : LoopState -> LoopState) (w : World) : World :=
  {| maps := f (maps w); store := store w; queue := queue w; trace := trace w |}.

Definition withStore (f : Db.Store -> Db.Store) (w : World) : World :=
  {| maps := maps w; store := f (store w); queue := queue w; trace := trace w |}.

Definition withQueue (q : list string) (w : World) : World :=
  {| maps := maps w; store := store w; queue := q; trace := trace w |}.

Definition emit (e : Event) (w : World) : World :=
  {| maps := maps w; store := store w; queue := queue w; trace := trace w ++ [e] |}.

Definition Linef (lbl text : string) (w : World) : World :=
  emit (Print {| label := lbl; msg := text |}) w.

Definition setKnown (v : gmap string bool) (l : LoopState) : LoopState :=
  {| known := v; inFlight := inFlight l; lastConnAttempt := lastConnAttempt l;
     seenCount := seenCount l; lastDeviceWrite := lastDeviceWrite l;
     lastAdvWrite := lastAdvWrite l; lastClassicHist := lastClassicHist l;
     lastGPSWrite := lastGPSWrite l; lastGPSVal := lastGPSVal l; lastMarked := lastMarked l |}.

Definition setInFlight (v : gmap string bool) (l : LoopState) : LoopState :=
  {| known := known l; inFlight := v; lastConnAttempt := lastConnAttempt l;
     seenCount := seenCount l; lastDeviceWrite := lastDeviceWrite l;
     lastAdvWrite := lastAdvWrite l; lastClassicHist := lastClassicHist l;
     lastGPSWrite := lastGPSWrite l; lastGPSVal := lastGPSVal l; lastMarked := lastMarked l |}.

Definition setLastConnAttempt (v : gmap string Time) (l : LoopState) : LoopState :=
  {| known := known l; inFlight := inFlight l; lastConnAttempt := v;
     seenCount := seenCount l; lastDeviceWrite := lastDeviceWrite l;
     lastAdvWrite := lastAdvWrite l; lastClassicHist := lastClassicHist l;
     lastGPSWrite := lastGPSWrite l; lastGPSVal := lastGPSVal l; lastMarked := lastMarked l |}.

Definition setSeenCount (v : gmap string Z) (l : LoopState) : LoopState :=
  {| known := known l; inFlight := inFlight l; lastConnAttempt := lastConnAttempt l;
     seenCount := v; lastDeviceWrite := lastDeviceWrite l;
     lastAdvWrite := lastAdvWrite l; lastClassicHist := lastClassicHist l;
     lastGPSWrite := lastGPSWrite l; lastGPSVal := lastGPSVal l; lastMarked := lastMarked l |}.

Definition setLastDeviceWrite (v : gmap string Time) (l : LoopState) : LoopState :=
  {| known := known l; inFlight := inFlight l; lastConnAttempt := lastConnAttempt l;
     seenCount := seenCount l; lastDeviceWrite := v;
     lastAdvWrite := lastAdvWrite l; lastClassicHist := lastClassicHist l;
     lastGPSWrite := lastGPSWrite l; lastGPSVal := lastGPSVal l; lastMarked := lastMarked l |}.

Definition setLastAdvWrite (v : gmap string Time) (l : LoopState) : LoopState :=
  {| known := known l; inFlight := inFlight l; lastConnAttempt := lastConnAttempt l;
     seenCount := seenCount l; lastDeviceWrite := lastDeviceWrite l;
     lastAdvWrite := v; lastClassicHist := lastClassicHist l;
     lastGPSWrite := lastGPSWrite l; lastGPSVal := lastGPSVal l; lastMarked := lastMarked l |}.

Definition setLastClassicHist (v : gmap string Time) (l : LoopState) : LoopState :=
  {| known := known l; inFlight := inFlight l; lastConnAttempt := lastConnAttempt l;
     seenCount := seenCount l; lastDeviceWrite := lastDeviceWrite l;
     lastAdvWrite := lastAdvWrite l; lastClassicHist := v;
     lastGPSWrite := lastGPSWrite l; lastGPSVal := lastGPSVal l; lastMarked := lastMarked l |}.

Definition setLastGPS (val : gmap string string) (at_ : gmap string Time) (l : LoopState) : LoopState :=
  {| known := known l; inFlight := inFlight l; lastConnAttempt := lastConnAttempt l;
     seenCount := seenCount l; lastDeviceWrite := lastDeviceWrite l;
     lastAdvWrite := lastAdvWrite l; lastClassicHist := lastClassicHist l;
     lastGPSWrite := at_; lastGPSVal := val; lastMarked := lastMarked l |}.

Definition setLastMarked (v : gmap string string) (l : LoopState) : LoopState :=
  {| known := known l; inFlight := inFlight l; lastConnAttempt := lastConnAttempt l;
     seenCount := seenCount l; lastDeviceWrite := lastDeviceWrite l;
     lastAdvWrite := lastAdvWrite l; lastClassicHist := lastClassicHist l;
     lastGPSWrite := lastGPSWrite l; lastGPSVal := lastGPSVal l; lastMarked := v |}.

(** *** The body of the snapshot loop of [runBlueZDiscoveryLoop] *)

(** The "common fields" the loop computes for one observation. *)
Record Obs := {
  o_mac : string;
  o_name : string;
  o_ts : string;
  o_gpsStr : option string;
  o_lat : option spec_float;
  o_lon : option spec_float;
  o_gCached : bool;
  o_gpsSource : option string;
  o_devType : string;
  o_macType : string;
  o_macSub : string;
  o_vendor : option string;
  o_mfgJSON : option string;
  o_svcUUIDJSON : option string;
  o_svcDataJSON : option string;
  o_advJSON : option string;
  o_markedTypeStr : string
}.

Definition buildObs (env : Env) (mac : string) (bd : bluezDevice) (rd : Readings) : Obs :=
  let name := SafeName (bd_Name bd) in
  let fix_ := Gps.FixSnapshot (snd (r_gpsFix rd)) (fst (r_gpsFix rd)) in
  let gLat := fst (fst (fst fix_)) in
  let gLon := snd (fst (fst fix_)) in
  let gOK := snd (fst fix_) in
  let gCached := snd fix_ in
  let src := TrimSpace (Gps.Source (r_gpsSource rd)) in
  let serviceUUIDs := annotateUUIDs (resolver env) (bd_UUIDs bd) in
  {| o_mac := mac;
     o_name := name;
     o_ts := r_ts rd;
     o_gpsStr := Gps.GPSStringForRecord (snd (r_gpsForRecord rd)) (fst (r_gpsForRecord rd));
     o_lat := if gOK then Some gLat else None;
     o_lon := if gOK then Some gLon else None;
     o_gCached := gCached;
     o_gpsSource := if String.eqb src "" then None else Some src;
     o_devType := bluezTypeToDeviceType bd;
     o_macType := fst (macTypeAndSub bd);
     o_macSub := snd (macTypeAndSub bd);
     o_vendor := match resolver env with
                 | Some r => let v := TrimSpace (VendorForMAC r mac) in
                             if String.eqb v "" then None else Some v
                 | None => None
                 end;
     o_mfgJSON := jsonOfManufacturer (enc env) (bd_ManufacturerEntries bd);
     o_svcUUIDJSON := jsonOfStrings (enc env) serviceUUIDs;
     o_svcDataJSON := jsonOfServiceData (enc env) (bd_ServiceDataEntries bd);
     o_advJSON := buildAdvertisementJSONBlueZ (enc env) (adapterID env) bd name serviceUUIDs
                    (bd_ManufacturerEntries bd) (bd_ServiceDataEntries bd);
     o_markedTypeStr := DetectTypedDevice (patterns env) (bd_UUIDs bd)
                          (bd_ManufacturerEntries bd) (bd_Name bd) |}.

Definition sightingLine (env : Env) (o : Obs) (bd : bluezDevice) : string :=
  (o_name o ++ " (Interface: " ++ adapterID env ++ ") RSSI: " ++ rssiStr (bd_RSSI bd))%string.

Definition markLine (o : Obs) (mt : string) : string :=
  (o_name o ++ " (" ++ o_mac o ++ ") type=" ++ mt)%string.

Section Loop.

Variable parse : string -> option Time.
Variable env : Env.

(** [seenCount[mac]++] and the [NEW] line of a first sighting. *)
Definition sight (o : Obs) (bd : bluezDevice) (w : World) : World :=
  let mac := o_mac o in
  let w1 := withMaps (fun l => setSeenCount
                        (<[mac := int64 (intAt (seenCount l) mac + 1)]> (seenCount l)) l) w in
  if negb (boolAt (known (maps w1)) mac)
  then Linef "[NEW]" (sightingLine env o bd)
         (withMaps (fun l => setKnown (<[mac := true]> (known l)) l) w1)
  else w1.

(** UpdateDeviceGPS, RecordDeviceGPSHistoryIfChanged and the two map writes. *)
Definition gpsWrite (now : Time) (rd : Readings) (o : Obs) (gpsText : string) (w : World) : World :=
  let mac := o_mac o in
  let w1 := emit (CallUpdateDeviceGPS mac gpsText)
              (withStore (Db.UpdateDeviceGPS mac gpsText) w) in
  let w2 := emit (CallRecordDeviceGPSHistoryIfChanged mac gpsText)
              (withStore (Db.RecordDeviceGPSHistoryIfChanged (r_histCheck rd) (r_histWrite rd)
                            (Some (sessionID env)) mac (o_ts o) (o_lat o) (o_lon o) gpsText
                            (o_gCached o) (o_gpsSource o)) w1) in
  withMaps (fun l => setLastGPS (<[mac := gpsText]> (lastGPSVal l))
                                (<[mac := now]> (lastGPSWrite l)) l) w2.

(** The marker-type block, the same in both branches. *)
Definition markerUpdate (o : Obs) (w : World) : World :=
  let mac := o_mac o in
  let mt := TrimSpace (o_markedTypeStr o) in
  if String.eqb mt "" then w
  else
    let changed := match lastMarked (maps w) !! mac with
                   | Some prev => negb (String.eqb prev mt)
                   | None => true
                   end in
    let w1 := if changed
              then Linef "[MARK]" (markLine o mt)
                     (withMaps (fun l => setLastMarked (<[mac := mt]> (lastMarked l)) l) w)
              else w in
    emit (CallUpdateDeviceMarkedType mac mt) (withStore (Db.UpdateDeviceMarkedType mac mt) w1).

(** The throttled branch: only cheap updates. *)
Definition throttledUpdate (now : Time) (rd : Readings) (o : Obs) (w : World) : World :=
  let mac := o_mac o in
  let w1 :=
    match o_gpsStr o with
    | Some g =>
        let gpsText := TrimSpace g in
        if String.eqb gpsText "" then w
        else
          let need :=
            match lastGPSVal (maps w) !! mac with
            | None => true
            | Some prev =>
                if negb (String.eqb prev gpsText) then true
                else match lastGPSWrite (maps w) !! mac with
                     | None => true
                     | Some t0 => 10 * Second <=? Sub now t0
                     end
            end in
          if need then gpsWrite now rd o gpsText w else w
    | None => w
    end in
  markerUpdate o w1.

Definition saveParamsOf (o : Obs) (bd : bluezDevice) : Db.SaveParams :=
  {| Db.SessionID := Some (sessionID env);
     Db.DeviceType := Some (o_devType o);
     Db.Name := Some (o_name o);
     Db.MAC := o_mac o;
     Db.MACType := Some (o_macType o);
     Db.MACSubType := Some (o_macSub o);
     Db.RSSI := bd_RSSI bd;
     Db.Timestamp := Some (o_ts o);
     Db.Adapter := Some (adapterID env);
     Db.ManufacturerData := o_mfgJSON o;
     Db.ManufacturerName := o_vendor o;
     Db.ServiceUUIDs := o_svcUUIDJSON o;
     Db.ServiceData := o_svcDataJSON o;
     Db.TxPower := bd_TxPower bd;
     Db.PlatformData := bd_PropsJSON bd;
     Db.AdvertisementJSON := o_advJSON o;
     Db.LastAdvID := None;
     Db.GPS := o_gpsStr o;
     Db.ServiceList := None;
     Db.UpdateExisting := true;
     Db.Tag := tag env;
     Db.MarkedType := None |}.

(** The full device write. *)
Definition fullWrite (now : Time) (rd : Readings) (o : Obs) (bd : bluezDevice) (w : World) : World :=
  let mac := o_mac o in
  let w1 := withMaps (fun l => setLastDeviceWrite (<[mac := now]> (lastDeviceWrite l)) l) w in
  let w2 := if 1 <? intAt (seenCount (maps w1)) mac
            then Linef "[UPDATE]" (sightingLine env o bd) w1 else w1 in
  let w3 :=
    match o_gpsStr o with
    | Some g =>
        let gpsText := TrimSpace g in
        if String.eqb gpsText "" then w2 else gpsWrite now rd o gpsText w2
    | None => w2
    end in
  let p := saveParamsOf o bd in
  let w4 := emit (CallSaveDevice p)
              (withStore (fun s => snd (Db.SaveDevice parse (r_saveNow rd) p s)) w3) in
  markerUpdate o w4.

(** Throttle full device writes. *)
Definition deviceWrite (now : Time) (rd : Readings) (o : Obs) (bd : bluezDevice) (w : World) : World :=
  match lastDeviceWrite (maps w) !! o_mac o with
  | Some last =>
      if Sub now last <? DeviceUpdateMinPeriod (cfg env)
      then throttledUpdate now rd o w
      else fullWrite now rd o bd w
  | None => fullWrite now rd o bd w
  end.

Definition rssiOrZero (bd : bluezDevice) : Z :=
  match bd_RSSI bd with Some v => v | None => 0 end.

(** Advertisement history (throttled per MAC). *)
Definition advertisementWrite (now : Time) (o : Obs) (bd : bluezDevice) (w : World) : World :=
  let mac := o_mac o in
  let due := match lastAdvWrite (maps w) !! mac with
             | Some last => AdvInsertMinPeriod (cfg env) <=? Sub now last
             | None => true
             end in
  if due then
    let w1 := withMaps (fun l => setLastAdvWrite (<[mac := now]> (lastAdvWrite l)) l) w in
    let p := {| Db.ap_SessionID := Some (sessionID env); Db.ap_MAC := mac;
                Db.ap_Timestamp := o_ts o; Db.ap_RSSI := Some (rssiOrZero bd);
                Db.ap_Raw := None; Db.ap_JSON := o_advJSON o |} in
    let res := Db.InsertAdvertisement p (store w1) in
    let w2 := emit (CallInsertAdvertisement p) (withStore (fun _ => snd res) w1) in
    if 0 <? fst res
    then emit (CallUpdateDeviceLastAdvID mac (fst res))
           (withStore (Db.UpdateDeviceLastAdvID mac (fst res)) w2)
    else w2
  else w.

(** Classic supplemental tables when the device is likely BR/EDR. *)
Definition classicWrite (now : Time) (o : Obs) (bd : bluezDevice) (w : World) : World :=
  let mac := o_mac o in
  if isClassicLikely bd then
    let due := match lastClassicHist (maps w) !! mac with
               | Some last => ClassicHistMinPeriod (cfg env) <=? Sub now last
               | None => true
               end in
    let w1 :=
      if due then
        let p := {| Db.cp_SessionID := Some (sessionID env); Db.cp_MAC := mac;
                    Db.cp_Timestamp := o_ts o; Db.cp_RSSI := Some (rssiOrZero bd);
                    Db.cp_Class := bd_Class bd; Db.cp_PropsJSON := bd_PropsJSON bd |} in
        emit (CallInsertClassicDiscovery p)
          (withStore (Db.InsertClassicDiscovery p)
             (withMaps (fun l => setLastClassicHist (<[mac := now]> (lastClassicHist l)) l) w))
      else w in
    let q := {| Db.ci_MAC := mac; Db.ci_Class := bd_Class bd; Db.ci_Icon := bd_Icon bd;
                Db.ci_Paired := bd_Paired bd; Db.ci_Trusted := bd_Trusted bd;
                Db.ci_Connected := bd_Connected bd; Db.ci_Blocked := bd_Blocked bd;
                Db.ci_LegacyPairing := bd_LegacyPairing bd; Db.ci_Modalias := bd_Modalias bd;
                Db.ci_UUIDsJSON := bd_UUIDsJSON bd; Db.ci_LastSeen := Some (o_ts o);
                Db.ci_PropsJSON := bd_PropsJSON bd |} in
    emit (CallUpsertClassicInfo q) (withStore (Db.UpsertClassicInfo q) w1)
  else w.

(** Non-blocking send on the bounded connect queue. *)
Definition trySend (mac : string) (w : World) : World :=
  if Z.of_nat (List.length (queue w)) <? ConnectQueueSize (cfg env)
  then emit (Enqueue mac) (withQueue (queue w ++ [mac]) w)
  else withMaps (fun l => setInFlight (delete mac (inFlight l)) l) w.

(** Connection scheduling (BLE / dual only). *)
Definition connectSchedule (now : Time) (o : Obs) (bd : bluezDevice) (w : World) : World :=
  let mac := o_mac o in
  if String.eqb (o_devType o) "classic" then w
  else if match bd_RSSI bd with None => true | Some r => r <? ConnectRSSIMin (cfg env) end then w
  else if intAt (seenCount (maps w)) mac <? 2 then w
  else
    let w1 := emit (CallHasGattServices mac) w in
    if Db.HasGattServices mac (store w1) then w1
    else if boolAt (inFlight (maps w1)) mac then w1
    else if match lastConnAttempt (maps w1) !! mac with
            | Some last => Sub now last <? ConnectCooldown (cfg env)
            | None => false
            end then w1
    else
      trySend mac
        (withMaps (fun l => setInFlight (<[mac := true]> (inFlight l))
                              (setLastConnAttempt (<[mac := now]> (lastConnAttempt l)) l)) w1).

(** One iteration of [for mac, bd := range snap]. *)
Definition observe (now : Time) (mac0 : string) (bd : bluezDevice) (rd : Readings) (w : World) : World :=
  let mac := ToUpper (TrimSpace mac0) in
  if String.eqb mac "" then w
  else
    let o := buildObs env mac bd rd in
    connectSchedule now o bd
      (classicWrite now o bd
         (advertisementWrite now o bd
            (deviceWrite now rd o bd
               (sight o bd w)))).

(** Drain completed connect jobs. *)
Definition drain (done : list string) (w : World) : World :=
  fold_left (fun w mac => withMaps (fun l => setInFlight (delete mac (inFlight l)) l) w) done w.

(** One tick: [done] is what the completion channel holds, [snap] the
    snapshot in the order the map iteration yields it. *)
Definition tick (now : Time) (done : list string)
           (snap : list (string * bluezDevice * Readings)) (w : World) : World :=
  fold_left (fun w e => observe now (fst (fst e)) (snd (fst e)) (snd e) w) snap (drain done w).

End Loop.

End Bluetooth.
From Stdlib Require Import Sorted.


(** ** Outcome of a run that indexes slices

    Go panics on an index or slice expression out of range.  Functions whose
    source indexes a slice by a computed position return a [Run]: [Done] with
    the result, [Panic] for an out-of-range access, [OutOfFuel] when the
    iteration budget of the model is used up. *)

Inductive Run (A : Type) : Type :=
| Done (a : A)
| Panic
| OutOfFuel.
Arguments Done {A} a.
Arguments Panic {A}.
Arguments OutOfFuel {A}.

(** [string(b)] for a byte slice. *)
Definition stringOfBytes (b : list Z) : string :=
  string_of_list_ascii (List.map ofbyte b).

(** [[]byte(s)] for a string. *)
Definition bytesOfString (s : string) : list Z :=
  List.map byteval (list_ascii_of_string s).

(** ** Advertising data (the AD-structure decoder of the scanner) *)

Module Adv.

Record adItem := {
  TypeHex : string;
  Name : string;
  DataHex : string;
  Text : string
}.

Definition adTypeName (t : Z) : string :=
  if t =? 0x01 then "Flags"
  else if t =? 0x02 then "Incomplete List of 16-bit Service Class UUIDs"
  else if t =? 0x03 then "Complete List of 16-bit Service Class UUIDs"
  else if t =? 0x06 then "Incomplete List of 128-bit Service Class UUIDs"
  else if t =? 0x07 then "Complete List of 128-bit Service Class UUIDs"
  else if t =? 0x08 then "Shortened Local Name"
  else if t =? 0x09 then "Complete Local Name"
  else if t =? 0x0A then "Tx Power Level"
  else if t =? 0x16 then "Service Data - 16-bit UUID"
  else if t =? 0x20 then "Service Data - 32-bit UUID"
  else if t =? 0x21 then "Service Data - 128-bit UUID"
  else if t =? 0xFF then "Manufacturer Specific Data"
  else "".

Definition hex2 (b : Z) : string :=
  String (hexdigit (Z.shiftr b 4)) (String (hexdigit (Z.land b 15)) EmptyString).

Definition safeASCII (b : list Z) : string :=
  match b with
  | [] => ""
  | _ => if forallb (fun c => negb ((c <? 0x20) || (0x7e <? c))) b
         then stringOfBytes b else ""
  end.

(** The digit loop of [itoa]: [i] is the write position in the 12-byte
    buffer; [i--] at position 0 makes the next write an index out of range. *)
Fixpoint itoaLoop (i : nat) (x : Z) (buf : list Z) : option (nat * list Z) :=
  match i with
  | O => if 0 <? x then None else Some (O, buf)
  | S i' =>
      if 0 <? x then itoaLoop i' (x / 10) (<[i' := 48 + x mod 10]> buf)
      else Some (i, buf)
  end.

(** [itoa] (and its copy [strconvItoa] of bluez_scan.go); [None] is the
    run-time panic of a write before the start of the buffer. *)
Definition itoa (x : Z) : option string :=
  if x =? 0 then Some "0"
  else
    let neg := x <? 0 in
    let x1 := if neg then int64 (- x) else x in
    match itoaLoop 12 x1 (repeat 0 12) with
    | None => None
    | Some (i, buf) =>
        if neg then
          match i with
          | O => None
          | S i' => Some (stringOfBytes (skipn i' (<[i' := 45]> buf)))
          end
        else Some (stringOfBytes (skipn i buf))
    end.

(** [fmtInt] (and [formatSignedInt8Like] of bluez_scan.go). *)
Definition fmtInt (v : Z) : option string :=
  if 0 <=? v then match itoa v with Some s => Some ("+" ++ s)%string | None => None end
  else itoa v.

(** The conversion [int8(b)] of a byte. *)
Definition int8 (b : Z) : Z := if b <? 128 then b else b - 256.

(** The body of the decoding loop for one structure of type [adType] with
    payload [data]: the item and the transmit power it announces, if any. *)
Definition decodeItem (adType : Z) (data : list Z) : Run (adItem * option string) :=
  let item := {| TypeHex := ("0x" ++ ToUpper (hex2 adType))%string;
                 Name := adTypeName adType;
                 DataHex := BytesToHex data;
                 Text := "" |} in
  let item := if (adType =? 0x08) || (adType =? 0x09)
              then {| TypeHex := TypeHex item; Name := Name item; DataHex := DataHex item;
                      Text := safeASCII data |}
              else item in
  if (adType =? 0x0A) && (1 <=? Z.of_nat (List.length data)) then
    match data with
    | [] => Panic
    | d0 :: _ =>
        match fmtInt (int8 d0) with
        | None => Panic
        | Some tx =>
            Done ({| TypeHex := TypeHex item; Name := Name item; DataHex := DataHex item;
                     Text := tx |}, Some tx)
        end
    end
  else Done (item, None).

(** The loop [for i := 0; i < len(adv); { ... i += 1 + l }].  An element of
    [adv] is read with a bounds check, as the Go run time does. *)
Fixpoint decodeFrom (fuel : nat) (adv : list Z) (i : nat)
         (items : list adItem) (txPower : option string)
  : Run (list adItem * option string) :=
  match fuel with
  | O => if Nat.ltb i (List.length adv) then OutOfFuel else Done (items, txPower)
  | S fuel' =>
      if negb (Nat.ltb i (List.length adv)) then Done (items, txPower)
      else
        match adv !! i with
        | None => Panic
        | Some l0 =>
            let l := Z.to_nat l0 in
            if Nat.eqb l 0 then Done (items, txPower)
            else if Nat.ltb (List.length adv) (i + 1 + l) then Done (items, txPower)
            else
              match adv !! (i + 1)%nat with
              | None => Panic
              | Some adType =>
                  if Nat.ltb (i + 1 + l) (i + 2) || Nat.ltb (List.length adv) (i + 1 + l)
                  then Panic
                  else
                    match decodeItem adType (slice adv (i + 2) (i + 1 + l)) with
                    | Done (item, tx) =>
                        decodeFrom fuel' adv (i + 1 + l) (items ++ [item])
                          (match tx with Some _ => tx | None => txPower end)
                    | Panic => Panic
                    | OutOfFuel => OutOfFuel
                    end
              end
        end
  end.

Definition decodeADStructures (adv : list Z) : Run (list adItem * option string) :=
  decodeFrom (List.length adv) adv 0 [] None.

End Adv.

(** ** Package strconv *)

Module Strconv.

Definition decDigit (c : ascii) : option Z :=
  let n := byteval c in if (48 <=? n) && (n <=? 57) then Some (n - 48) else None.

Fixpoint digitsVal (acc : Z) (s : string) : option Z :=
  match s with
  | EmptyString => Some acc
  | String c r =>
      match decDigit c with
      | Some d => digitsVal (10 * acc + d) r
      | None => None
      end
  end.

(** [strconv.Atoi]: an optional sign, at least one decimal digit, nothing
    else, and a value in the range of [int]; [None] is a syntax or range
    error. *)
Definition Atoi (s : string) : option Z :=
  let neg := match s with String c _ => byteval c =? 45 | EmptyString => false end in
  let rest := match s with
              | String c r => if (byteval c =? 45) || (byteval c =? 43) then r else s
              | EmptyString => s
              end in
  match rest with
  | EmptyString => None
  | _ =>
      match digitsVal 0 rest with
      | None => None
      | Some n =>
          let v := if neg then - n else n in
          if (v <? - 2 ^ 63) || (2 ^ 63 - 1 <? v) then None else Some v
      end
  end.

(** The errors of [strconv.ParseUint]. *)
Inductive NumError := ErrSyntax | ErrRange.

Definition digitOf (c : ascii) : option Z :=
  let n := byteval c in
  if (48 <=? n) && (n <=? 57) then Some (n - 48)
  else
    let lo := Z.lor n 32 in
    if (97 <=? lo) && (lo <=? 122) then Some (lo - 97 + 10) else None.

(** The digit loop of [ParseUint] for an explicit base. *)
Fixpoint parseUintFrom (base maxVal n : Z) (s : string) : Z + NumError :=
  match s with
  | EmptyString => inl n
  | String c r =>
      match digitOf c with
      | None => inr ErrSyntax
      | Some d =>
          if base <=? d then inr ErrSyntax
          else if (2 ^ 64 - 1) / base + 1 <=? n then inr ErrRange
          else
            let n1 := n * base + d in
            if (2 ^ 64 <=? n1) || (maxVal <? n1) then inr ErrRange
            else parseUintFrom base maxVal n1 r
      end
  end.

(** [strconv.ParseUint(s, base, bitSize)] for [2 <= base <= 36] and
    [1 <= bitSize <= 64]. *)
Definition ParseUint (s : string) (base bitSize : Z) : Z + NumError :=
  match s with
  | EmptyString => inr ErrSyntax
  | _ => parseUintFrom base (2 ^ bitSize - 1) 0 s
  end.

End Strconv.

(** ** Further helpers of package strings and fmt *)

Module GoText.

(** strings.HasPrefix and strings.TrimPrefix *)
Definition HasPrefix (s p : string) : bool := String.prefix p s.

Definition TrimPrefix (s p : string) : string :=
  if HasPrefix s p
  then substring (String.length p) (String.length s - String.length p) s
  else s.

(** strings.HasSuffix *)
Definition HasSuffix (s p : string) : bool :=
  (String.length p <=? String.length s)%nat &&
  String.eqb (substring (String.length s - String.length p) (String.length p) s) p.

(** strings.Count(s, sep) for a one-byte separator. *)
Fixpoint CountByte (s : string) (c : ascii) : nat :=
  match s with
  | EmptyString => O
  | String a r => if Ascii.eqb a c then S (CountByte r c) else CountByte r c
  end.

(** strings.ReplaceAll(s, old, "") for a one-byte [old]. *)
Fixpoint RemoveByte (s : string) (c : ascii) : string :=
  match s with
  | EmptyString => EmptyString
  | String a r => if Ascii.eqb a c then RemoveByte r c else String a (RemoveByte r c)
  end.

(** strings.ReplaceAll(s, old, new) for one-byte [old] and [new]. *)
Fixpoint ReplaceByte (s : string) (old new : ascii) : string :=
  match s with
  | EmptyString => EmptyString
  | String a r => String (if Ascii.eqb a old then new else a) (ReplaceByte r old new)
  end.

(** strings.Contains *)
Fixpoint Contains (s sub : string) : bool :=
  String.prefix sub s ||
  match s with
  | EmptyString => false
  | String _ r => Contains r sub
  end.

(** strings.Split(s, sep) for a one-byte separator: the pieces between
    the separators, empty pieces included. *)
Fixpoint splitFrom (cur : string) (s : string) (sep : ascii) : list string :=
  match s with
  | EmptyString => [cur]
  | String a r =>
      if Ascii.eqb a sep then cur :: splitFrom EmptyString r sep
      else splitFrom (cur ++ String a EmptyString)%string r sep
  end.

Definition Split (s : string) (sep : ascii) : list string := splitFrom EmptyString s sep.

(** strings.FieldsFunc: the maximal runs of bytes that [f] rejects. *)
Fixpoint fieldsFuncFrom (f : ascii -> bool) (cur : option string) (s : string) : list string :=
  match s with
  | EmptyString => match cur with Some w => [w] | None => [] end
  | String c r =>
      if f c
      then match cur with
           | Some w => w :: fieldsFuncFrom f None r
           | None => fieldsFuncFrom f None r
           end
      else fieldsFuncFrom f (Some (match cur with
                                   | Some w => (w ++ String c EmptyString)%string
                                   | None => String c EmptyString
                                   end)) r
  end.

Definition FieldsFunc (s : string) (f : ascii -> bool) : list string := fieldsFuncFrom f None s.

(** strings.Join *)
Fixpoint Join (l : list string) (sep : string) : string :=
  match l with
  | [] => EmptyString
  | [a] => a
  | a :: r => (a ++ sep ++ Join r sep)%string
  end.

(** The hexadecimal digits of a positive number, most significant first;
    [n] bounds their number. *)
Fixpoint hexDigitsOf (upper : bool) (n : nat) (v : Z) : string :=
  match n with
  | O => EmptyString
  | S n' =>
      if 0 <? v
      then (hexDigitsOf upper n' (v / 16) ++
            String (if upper then upperByte (hexdigit (v mod 16)) else hexdigit (v mod 16))
                   EmptyString)%string
      else EmptyString
  end.

Fixpoint zeros (n : nat) : string :=
  match n with O => EmptyString | S n' => String "0"%char (zeros n') end.

(** fmt verbs [%0Nx] and [%X] of an unsigned value below 2^64. *)
Definition fmtHex (upper : bool) (width : nat) (v : Z) : string :=
  let d := if v =? 0 then "0" else hexDigitsOf upper 16 v in
  (zeros (width - String.length d) ++ d)%string.

End GoText.

(** ** Package ids (internal/ids): identifier catalogs *)

Module Ids.
Import GoText.

(** The dynamic type of a YAML scalar decoded into [any]: text, an integer
    of any of the integer kinds, or something else. *)
Inductive YamlValue :=
| VString (s : string)
| VInt (n : Z)
| VOther.

Record uuidEntry := { UUID : YamlValue; Name : string }.

Inductive UUIDError :=
| ErrBadUUID
| ErrNum (e : Strconv.NumError).

(** [fmt.Sprintf("0x%X", t)]: the sign, if any, follows the literal prefix. *)
Definition normalizeUUIDValue (v : YamlValue) : string :=
  match v with
  | VString t => TrimSpace t
  | VInt t => if t <? 0 then ("0x-" ++ fmtHex true 0 (- t))%string
              else ("0x" ++ fmtHex true 0 t)%string
  | VOther => ""
  end.

Definition baseSuffix : string := "-0000-1000-8000-00805f9b34fb".

Definition normalizeUUID (s0 : string) : string + UUIDError :=
  let s := ToLower (TrimSpace s0) in
  if String.eqb s "" then inr ErrBadUUID
  else if HasPrefix s "0x" then
    let hexStr := TrimSpace (TrimPrefix s "0x") in
    if String.eqb hexStr "" then inr ErrBadUUID
    else
      match Strconv.ParseUint hexStr 16 32 with
      | inr e => inr (ErrNum e)
      | inl v =>
          if (String.length hexStr <=? 4)%nat
          then inl ("0000" ++ fmtHex false 4 v ++ baseSuffix)%string
          else if (String.length hexStr <=? 8)%nat
          then inl (fmtHex false 8 v ++ baseSuffix)%string
          else inr ErrBadUUID
      end
  else if (String.length s =? 4)%nat then
    match Strconv.ParseUint s 16 16 with
    | inr e => inr (ErrNum e)
    | inl v => inl ("0000" ++ fmtHex false 4 v ++ baseSuffix)%string
    end
  else if (String.length s =? 8)%nat then
    match Strconv.ParseUint s 16 32 with
    | inr e => inr (ErrNum e)
    | inl v => inl (fmtHex false 8 v ++ baseSuffix)%string
    end
  else if (CountByte s "-"%char =? 4)%nat then inl s
  else inr ErrBadUUID.

(** The loop of [LoadUUIDYaml] over the entries of the decoded file. *)
Definition LoadUUIDYaml (entries : list uuidEntry) : gmap string string :=
  fold_left
    (fun out e =>
       let uuidStr := normalizeUUIDValue (UUID e) in
       let name := TrimSpace (Name e) in
       if String.eqb uuidStr "" || String.eqb name "" then out
       else match normalizeUUID uuidStr with
            | inr _ => out
            | inl uuid128 => <[uuid128 := name]> out
            end)
    entries ∅.

(** The loop of [LoadOUI] over the records that follow the header. *)
Definition LoadOUI (records : list (list string)) : gmap string string :=
  fold_left
    (fun out rec =>
       match rec with
       | _ :: r1 :: r2 :: _ =>
           let assignment := RemoveByte (RemoveByte (ToUpper (TrimSpace r1)) "-"%char) ":"%char in
           if negb (String.length assignment =? 6)%nat then out
           else
             let org := TrimSpace r2 in
             if String.eqb org "" then out else <[assignment := org]> out
       | _ => out
       end)
    records ∅.

Record Resolver := {
  vendors : gmap string string;
  serviceUUIDNames : gmap string string;
  charUUIDNames : gmap string string
}.

Definition isOUISep (c : ascii) : bool := (byteval c =? 58) || (byteval c =? 45).

Definition macToOUI (mac0 : string) : string :=
  let mac := TrimSpace mac0 in
  if String.eqb mac "" then ""
  else
    match FieldsFunc mac isOUISep with
    | p0 :: p1 :: p2 :: _ =>
        let oui := ToUpper (p0 ++ p1 ++ p2)%string in
        if negb (String.length oui =? 6)%nat then "" else oui
    | _ => ""
    end.

Definition VendorForMAC (r : option Resolver) (mac : string) : string :=
  match r with
  | None => ""
  | Some r =>
      if (size (vendors r) =? 0)%nat then ""
      else
        let oui := macToOUI mac in
        if String.eqb oui "" then ""
        else match vendors r !! oui with Some v => v | None => "" end
  end.

Definition lookupName (names : gmap string string) (uuid128Lower : string) : string :=
  if (size names =? 0)%nat then ""
  else
    let u := ToLower (TrimSpace uuid128Lower) in
    if String.eqb u "" then ""
    else match names !! u with Some v => v | None => "" end.

Definition ServiceName (r : option Resolver) (uuid128Lower : string) : string :=
  match r with None => "" | Some r => lookupName (serviceUUIDNames r) uuid128Lower end.

Definition CharacteristicName (r : option Resolver) (uuid128Lower : string) : string :=
  match r with None => "" | Some r => lookupName (charUUIDNames r) uuid128Lower end.

Definition AnnotateServiceUUID (r : option Resolver) (uuid128Lower : string) : string :=
  let name := ServiceName r uuid128Lower in
  if String.eqb name "" then uuid128Lower
  else (uuid128Lower ++ " (" ++ name ++ ")")%string.

Definition AnnotateCharacteristicUUID (r : option Resolver) (uuid128Lower : string) : string :=
  let name := CharacteristicName r uuid128Lower in
  if String.eqb name "" then uuid128Lower
  else (uuid128Lower ++ " (" ++ name ++ ")")%string.

End Ids.

(** ** The connect blacklist (internal/bluetooth/connect_blacklist.go) *)

Module Blacklist.
Import GoText.

Record ConnectBlacklist := {
  path : string;
  keywords : list string;
  modTime : Time;
  lastStat : Time;
  statEvery : Duration
}.

Definition isCommentLine (line : string) : bool :=
  HasPrefix line "#" || HasPrefix line ";" || HasPrefix line "//".

(** The scanning loop of [readBlacklistKeywords]; [lines] are the tokens the
    line scanner yields, [seen] and [out] the two accumulators. *)
Fixpoint readLines (lines : list string) (seen : gset string) (out : list string)
  : list string :=
  match lines with
  | [] => out
  | l0 :: rest =>
      let line := TrimSpace l0 in
      if String.eqb line "" then readLines rest seen out
      else if isCommentLine line then readLines rest seen out
      else
        let kw := ToLower (TrimSpace line) in
        if String.eqb kw "" then readLines rest seen out
        else if bool_decide (kw ∈ seen) then readLines rest seen out
        else readLines rest ({[ kw ]} ∪ seen) (out ++ [kw])
  end.

Definition readBlacklistKeywords (lines : list string) : list string :=
  readLines lines ∅ [].

Fixpoint matchAny (name : string) (kws : list string) : bool :=
  match kws with
  | [] => false
  | kw :: rest =>
      if String.eqb kw "" then matchAny name rest
      else if Contains name kw then true
      else matchAny name rest
  end.

Definition Match (b : option ConnectBlacklist) (deviceName : string) : bool :=
  match b with
  | None => false
  | Some b =>
      let name := ToLower (TrimSpace deviceName) in
      if String.eqb name "" then false else matchAny name (keywords b)
  end.

(** [LoadConnectBlacklist] once the path is not blank: [stat] is the
    modification time reported by [os.Stat] ([None]: the file does not
    exist), [lines] the scanned file, [now] the clock. *)
Definition LoadConnectBlacklist (now : Time) (path0 : string) (stat : option Time)
           (lines : list string) : option ConnectBlacklist :=
  let p := TrimSpace path0 in
  if String.eqb p "" then None
  else
    match stat with
    | None => None
    | Some mt =>
        Some {| path := p; keywords := readBlacklistKeywords lines; modTime := mt;
                lastStat := now; statEvery := 30 * Second |}
    end.

(** [MaybeReload]: [stat] and [file] are the results of [os.Stat] and of
    reading the file, [None] for an error. *)
Definition MaybeReload (now : Time) (stat : option Time) (file : option (list string))
           (b : ConnectBlacklist) : ConnectBlacklist :=
  if negb (IsZero (lastStat b)) && (Sub now (lastStat b) <? statEvery b) then b
  else
    match stat with
    | None => b
    | Some mt =>
        let b1 := {| path := path b; keywords := keywords b; modTime := modTime b;
                     lastStat := now; statEvery := statEvery b |} in
        if mt =? modTime b then b1
        else
          match file with
          | None => b1
          | Some lines =>
              {| path := path b; keywords := readBlacklistKeywords lines; modTime := mt;
                 lastStat := now; statEvery := statEvery b |}
          end
    end.

End Blacklist.

(** ** Adapter selection and the connection budget (cmd/pible, bluetooth) *)

Module Cli.
Import GoText.

Record InterfaceInfo := { ID : string; DisplayName : string; BusInfo : string }.

Fixpoint trimNonEmpty (parts : list string) : list string :=
  match parts with
  | [] => []
  | p0 :: rest =>
      let p := TrimSpace p0 in
      if String.eqb p "" then trimNonEmpty rest else p :: trimNonEmpty rest
  end.

Definition splitCSV (s : string) : list string := trimNonEmpty (Split s ","%char).

Fixpoint uniqueFrom (seen : gset string) (l : list string) : list string :=
  match l with
  | [] => []
  | v :: rest =>
      if bool_decide (v ∈ seen) then uniqueFrom seen rest
      else v :: uniqueFrom ({[ v ]} ∪ seen) rest
  end.

Definition uniqueStrings (l : list string) : list string := uniqueFrom ∅ l.

Inductive SelectError :=
| ErrPrompt
| ErrAdaptersEmpty
| ErrUnknownAdapter (p : string)
| ErrIndexOutOfRange
| ErrInvalidSelection
| ErrInvalidIndex (v : string)
| ErrIndexRange (idx : Z).

Section Select.

(** [fmt.Sscanf(v, "%d", &idx)]; [None] is a scan error. *)
Variable scanInt : string -> option Z.

Fixpoint checkKnown (valid : gset string) (parts : list string) : option string :=
  match parts with
  | [] => None
  | p :: rest => if bool_decide (p ∈ valid) then checkKnown valid rest else Some p
  end.

Fixpoint pickIndices (interfaces : list InterfaceInfo) (idxStrs : list string)
  : list string + SelectError :=
  match idxStrs with
  | [] => inl []
  | v :: rest =>
      match scanInt v with
      | None => inr (ErrInvalidIndex v)
      | Some idx =>
          if (idx <? 0) || (Z.of_nat (List.length interfaces) <=? idx) then inr (ErrIndexRange idx)
          else
            match interfaces !! Z.to_nat idx with
            | None => inr (ErrIndexRange idx)
            | Some inf =>
                match pickIndices interfaces rest with
                | inl out => inl (ID inf :: out)
                | inr e => inr e
                end
            end
      end
  end.

(** [selectAdapters]; [prompt] is what the user types at the interactive
    question ([None]: reading failed). *)
Definition selectAdapters (interfaces : list InterfaceInfo) (adaptersFlag : string)
           (adapterIndex : Z) (prompt : option string) : Run (list string + SelectError) :=
  if negb (String.eqb adaptersFlag "") then
    let parts := splitCSV adaptersFlag in
    match parts with
    | [] => Done (inr ErrAdaptersEmpty)
    | _ =>
        let valid : gset string := list_to_set (List.map ID interfaces) in
        match checkKnown valid parts with
        | Some p => Done (inr (ErrUnknownAdapter p))
        | None => Done (inl (uniqueStrings parts))
        end
    end
  else if 0 <=? adapterIndex then
    if Z.of_nat (List.length interfaces) <=? adapterIndex then Done (inr ErrIndexOutOfRange)
    else
      match interfaces !! Z.to_nat adapterIndex with
      | None => Panic
      | Some inf => Done (inl [ID inf])
      end
  else
    match prompt with
    | None => Done (inr ErrPrompt)
    | Some s0 =>
        let s := TrimSpace s0 in
        if String.eqb s "" then
          match interfaces !! O with
          | None => Panic
          | Some inf => Done (inl [ID inf])
          end
        else
          match splitCSV s with
          | [] => Done (inr ErrInvalidSelection)
          | idxStrs =>
              match pickIndices interfaces idxStrs with
              | inl out => Done (inl (uniqueStrings out))
              | inr e => Done (inr e)
              end
          end
    end.

End Select.

End Cli.

(** ** The multi-adapter entry point of the scanner *)

Module Multi.

(** [StartContinuousScanAndConnectMulti] up to the start of the workers: the
    adapters for which a managed worker is started, each with its limit of
    concurrent connections; [None] is the error "no adapters". *)
Definition StartContinuousScanAndConnectMulti (adapterIDs : list string) (maxConnectTotal0 : Z)
  : option (list (string * Z)) :=
  match adapterIDs with
  | [] => None
  | _ =>
      let n := Z.of_nat (List.length adapterIDs) in
      let maxConnectTotal := if maxConnectTotal0 <? 1 then 1 else maxConnectTotal0 in
      let per0 := Z.quot maxConnectTotal n in
      let rest0 := Z.rem maxConnectTotal n in
      let per := if per0 <? 1 then 1 else per0 in
      let rest := if per0 <? 1 then 0 else rest0 in
      let limits : gmap string Z :=
        fold_left (fun m ia => <[snd ia := if Z.of_nat (fst ia) <? rest then per + 1 else per]> m)
                  (imap (fun i a => (i, a)) adapterIDs) ∅ in
      Some (List.map (fun a => (a, match limits !! a with Some v => v | None => 0 end))
                     adapterIDs)
  end.

End Multi.

(** ** GPS configuration (internal/gps/state.go) *)

Module GpsConfig.

Record Config := {
  Mode : string;
  GPSDAddr : string;
  SerialDev : string;
  SerialBaud : Z
}.

Definition normalizeConfig (cfg : Config) : Config :=
  let mode := ToLower (TrimSpace (Mode cfg)) in
  let mode := if String.eqb mode "" then "auto" else mode in
  let addr := TrimSpace (GPSDAddr cfg) in
  let addr := if String.eqb addr "" then "127.0.0.1:2947" else addr in
  {| Mode := mode;
     GPSDAddr := addr;
     SerialDev := TrimSpace (SerialDev cfg);
     SerialBaud := if SerialBaud cfg <=? 0 then 9600 else SerialBaud cfg |}.

End GpsConfig.

(** ** The GATT dump of the BlueZ connect worker (cmd/pible) *)

Module Gatt.
Import Types GoText.

(** A [dbus.Variant], by the dynamic type of its value. *)
Inductive Variant :=
| VString (s : string)
| VBool (b : bool)
| VUint16 (x : Z)
| VUint32 (x : Z)
| VInt32 (x : Z)
| VStrings (x : list string)
| VOther.

(** [map[string]dbus.Variant], the interfaces of an object, and the result
    of [GetManagedObjects]. *)
Definition Props := gmap string Variant.
Definition Ifaces := gmap string Props.
Definition Managed := gmap string Ifaces.

Definition getString (props : Props) (key : string) : string * bool :=
  match props !! key with
  | Some (VString s) => (s, true)
  | _ => (EmptyString, false)
  end.

Definition getUint16Ptr (props : Props) (key : string) : option Z :=
  match props !! key with
  | Some (VUint16 x) => Some x
  | Some (VUint32 x) => Some (x mod 65536)
  | Some (VInt32 x) => if x <? 0 then None else Some (x mod 65536)
  | _ => None
  end.

Definition getStringSlice (props : Props) (key : string) : list string :=
  match props !! key with
  | Some (VStrings x) =>
      List.filter (fun s => negb (String.eqb s "")) (List.map TrimSpace x)
  | _ => []
  end.

(** [jsonOfStrings] is [json.Marshal] on a [[]string]. *)
Definition sliceToJSON (jsonOfStrings : list string -> option string) (l : list string)
  : option string :=
  match l with
  | [] => Some "[]"
  | _ => match jsonOfStrings l with
         | Some b => Some b
         | None => Some "[]"
         end
  end.

Definition hasFlag (flags : list string) (want0 : string) : bool :=
  let want := ToLower (TrimSpace want0) in
  if String.eqb want "" then false
  else existsb (fun f => String.eqb (ToLower (TrimSpace f)) want) flags.

Definition asciiIfPrintable (b : list Z) : string :=
  match b with
  | [] => EmptyString
  | _ =>
      if forallb (fun c => (c =? 10) || (c =? 13) || (c =? 9)
                           || negb ((c <? 0x20) || (0x7e <? c))) b
      then stringOfBytes b
      else EmptyString
  end.

(** *** The two tables only the connect worker writes *)

Record GattDescriptorParams := {
  dp_MAC : string;
  dp_ServiceUUID : string;
  dp_CharUUID : string;
  dp_DescUUID : string;
  dp_DescHandle : option Z;
  dp_FlagsJSON : option string;
  dp_ValueHex : option string;
  dp_ValueASCII : option string;
  dp_ReadError : option string;
  dp_LastReadAt : string
}.

Record GattDescriptor := {
  gd_desc_handle : option Z;
  gd_flags_json : option string;
  gd_value_hex : option string;
  gd_value_ascii : option string;
  gd_read_error : option string;
  gd_last_read_at : option string
}.

Record GattServicesHistory := {
  gh_timestamp : option string;
  gh_service : option string
}.

(** The store with the tables [gatt_descriptors] (primary key mac,
    service_uuid, char_uuid, desc_uuid) and [gatt_services_history] (primary
    key session_id, mac) beside the tables of [Db.Store]. *)
Record FullStore := {
  base : Db.Store;
  gatt_descriptors : gmap (string * string * string * string) GattDescriptor;
  gatt_services_history : gmap (Z * string) GattServicesHistory
}.

Definition withBase (f : Db.Store -> Db.Store) (s : FullStore) : FullStore :=
  {| base := f (base s); gatt_descriptors := gatt_descriptors s;
     gatt_services_history := gatt_services_history s |}.

Definition UpsertGattDescriptor (p : GattDescriptorParams) (s : FullStore) : FullStore :=
  let m := Db.normalizeMAC (dp_MAC p) in
  if String.eqb m "" || String.eqb (TrimSpace (dp_ServiceUUID p)) ""
     || String.eqb (TrimSpace (dp_CharUUID p)) "" || String.eqb (TrimSpace (dp_DescUUID p)) ""
  then s
  else
    let key := (m, TrimSpace (dp_ServiceUUID p), TrimSpace (dp_CharUUID p),
                TrimSpace (dp_DescUUID p)) in
    let row :=
      match gatt_descriptors s !! key with
      | None =>
          {| gd_desc_handle := dp_DescHandle p; gd_flags_json := dp_FlagsJSON p;
             gd_value_hex := dp_ValueHex p; gd_value_ascii := dp_ValueASCII p;
             gd_read_error := dp_ReadError p; gd_last_read_at := Some (dp_LastReadAt p) |}
      | Some old =>
          {| gd_desc_handle := Db.coalesce (dp_DescHandle p) (gd_desc_handle old);
             gd_flags_json := Db.coalesce (dp_FlagsJSON p) (gd_flags_json old);
             gd_value_hex := Db.coalesce (dp_ValueHex p) (gd_value_hex old);
             gd_value_ascii := Db.coalesce (dp_ValueASCII p) (gd_value_ascii old);
             gd_read_error := dp_ReadError p;
             gd_last_read_at := Some (dp_LastReadAt p) |}
      end in
    {| base := base s; gatt_descriptors := <[key := row]> (gatt_descriptors s);
       gatt_services_history := gatt_services_history s |}.

Definition InsertGattServicesHistory (sessionID : Z) (mac0 services ts : string)
           (s : FullStore) : FullStore :=
  let m := Db.normalizeMAC mac0 in
  if String.eqb m "" then s
  else
    {| base := base s; gatt_descriptors := gatt_descriptors s;
       gatt_services_history :=
         <[(sessionID, m) := {| gh_timestamp := Some ts; gh_service := Some services |}]>
           (gatt_services_history s) |}.

(** *** DumpAndStoreGATT *)

Record svcItem := { s_path : string; s_uuid : string; s_handle : option Z }.
Record chItem := {
  c_path : string; c_uuid : string; c_handle : option Z; c_flags : list string
}.
Record dItem := {
  d_path : string; d_uuid : string; d_handle : option Z; d_flags : list string
}.

(** [sort.Slice] with the paths compared as strings.  The items come from
    distinct keys of one map, so the ascending order is unique. *)
Fixpoint insertByPath {A} (path : A -> string) (x : A) (l : list A) : list A :=
  match l with
  | [] => [x]
  | y :: r => if String.ltb (path x) (path y) then x :: y :: r
              else y :: insertByPath path x r
  end.

Definition sortByPath {A} (path : A -> string) (l : list A) : list A :=
  fold_right (insertByPath path) [] l.

Definition collectServices (managed : Managed) (devPrefix : string) : list svcItem :=
  sortByPath s_path
    (omap (fun e : string * Ifaces =>
             if negb (HasPrefix (fst e) devPrefix) then None
             else match snd e !! "org.bluez.GattService1" with
                  | None => None
                  | Some svc =>
                      let uuid := TrimSpace (fst (getString svc "UUID")) in
                      if String.eqb uuid "" then None
                      else Some {| s_path := fst e; s_uuid := uuid;
                                   s_handle := getUint16Ptr svc "Handle" |}
                  end)
          (map_to_list managed)).

Definition collectCharacteristics (managed : Managed) (s : svcItem) : list chItem :=
  sortByPath c_path
    (omap (fun e : string * Ifaces =>
             if negb (HasPrefix (fst e) (s_path s ++ "/")) then None
             else match snd e !! "org.bluez.GattCharacteristic1" with
                  | None => None
                  | Some ch =>
                      let uuid := TrimSpace (fst (getString ch "UUID")) in
                      if String.eqb uuid "" then None
                      else Some {| c_path := fst e; c_uuid := uuid;
                                   c_handle := getUint16Ptr ch "Handle";
                                   c_flags := getStringSlice ch "Flags" |}
                  end)
          (map_to_list managed)).

Definition collectDescriptors (managed : Managed) (c : chItem) : list dItem :=
  sortByPath d_path
    (omap (fun e : string * Ifaces =>
             if negb (HasPrefix (fst e) (c_path c ++ "/")) then None
             else match snd e !! "org.bluez.GattDescriptor1" with
                  | None => None
                  | Some di =>
                      let uuid := TrimSpace (fst (getString di "UUID")) in
                      if String.eqb uuid "" then None
                      else Some {| d_path := fst e; d_uuid := uuid;
                                   d_handle := getUint16Ptr di "Handle";
                                   d_flags := getStringSlice di "Flags" |}
                  end)
          (map_to_list managed)).

(** The calls of [ReadValue] made on the bus. *)
Inductive IoCall :=
| ReadCharacteristicValue (path : string)
| ReadDescriptorValue (path : string).

(** The local variables of the dump and what it has done so far. *)
Record Dump := {
  lines : list string;
  readCount : Z;
  calls : list IoCall;
  dstore : option FullStore
}.

Definition addLines (l : list string) (st : Dump) : Dump :=
  {| lines := lines st ++ l; readCount := readCount st; calls := calls st;
     dstore := dstore st |}.

Definition addCall (c : IoCall) (st : Dump) : Dump :=
  {| lines := lines st; readCount := readCount st; calls := calls st ++ [c];
     dstore := dstore st |}.

Definition countRead (st : Dump) : Dump :=
  {| lines := lines st; readCount := readCount st + 1; calls := calls st;
     dstore := dstore st |}.

Definition onStore (f : FullStore -> FullStore) (st : Dump) : Dump :=
  {| lines := lines st; readCount := readCount st; calls := calls st;
     dstore := match dstore st with Some s => Some (f s) | None => None end |}.

Definition maxCharsToRead : Z := 40.

Definition flagsText (flags : list string) : string :=
  let flagsStr := match flags with [] => EmptyString | _ => Join flags ", " end in
  if String.eqb flagsStr "" then "(unknown)" else flagsStr.

Section Dump.

(** [json.Marshal] on a [[]string]; the answers of the device to the
    [ReadValue] calls, by the number of calls made before and the object
    path: the bytes read, or the text of the error. *)
Variable jsonOfStrings : list string -> option string.
Variable readCharacteristic : nat -> string -> list Z + string.
Variable readDescriptor : nat -> string -> list Z + string.

Variable managed : Managed.
Variable resolver : option Ids.Resolver.
Variable mac : string.
Variable now : string.

Definition dumpDescriptor (s : svcItem) (c : chItem) (st : Dump) (d : dItem) : Dump :=
  let st1 := addLines ["  │  Descriptor: " ++ d_uuid d;
                       "  │    Properties: " ++ flagsText (d_flags d)]%string st in
  let '(vHex, vASCII, rErr, st2) :=
    if hasFlag (d_flags d) "read" then
      let st1' := addCall (ReadDescriptorValue (d_path d)) st1 in
      match readDescriptor (List.length (calls st1)) (d_path d) with
      | inr e => (None, None, Some e, addLines ["  │    Read error: " ++ e]%string st1')
      | inl v =>
          let h := BytesToHex v in
          let st1'' := addLines ["  │    Value(hex): " ++ h]%string st1' in
          let a := asciiIfPrintable v in
          if negb (String.eqb a "")
          then (Some h, Some a, None, addLines ["  │    Value(ascii): " ++ a]%string st1'')
          else (Some h, None, None, st1'')
      end
    else (None, None, None, st1) in
  onStore (UpsertGattDescriptor
             {| dp_MAC := mac; dp_ServiceUUID := s_uuid s; dp_CharUUID := c_uuid c;
                dp_DescUUID := d_uuid d; dp_DescHandle := d_handle d;
                dp_FlagsJSON := sliceToJSON jsonOfStrings (d_flags d);
                dp_ValueHex := vHex; dp_ValueASCII := vASCII; dp_ReadError := rErr;
                dp_LastReadAt := now |}) st2.

Definition dumpCharacteristic (s : svcItem) (st : Dump) (c : chItem) : Dump :=
  let cuAnn := match resolver with
               | Some r => Ids.AnnotateCharacteristicUUID (Some r) (c_uuid c)
               | None => c_uuid c
               end in
  let st1 := addLines ["  ├─ Characteristic: " ++ cuAnn;
                       "  │  Properties: " ++ flagsText (c_flags c)]%string st in
  let '(valHex, valASCII, readErrStr, st2) :=
    if (readCount st1 <? maxCharsToRead) && hasFlag (c_flags c) "read" then
      let st1' := addCall (ReadCharacteristicValue (c_path c)) (countRead st1) in
      match readCharacteristic (List.length (calls st1)) (c_path c) with
      | inr e => (None, None, Some e, addLines ["  │  Read error: " ++ e]%string st1')
      | inl v =>
          let h := BytesToHex v in
          let st1'' := addLines ["  │  Value(hex): " ++ h]%string st1' in
          let a := asciiIfPrintable v in
          if negb (String.eqb a "")
          then (Some h, Some a, None, addLines ["  │  Value(ascii): " ++ a]%string st1'')
          else (Some h, None, None, st1'')
      end
    else if (maxCharsToRead <=? readCount st1) && hasFlag (c_flags c) "read" then
      (None, None, None, addLines ["  │  Value: (skipped; read limit reached)"] st1)
    else (None, None, None, st1) in
  let st3 :=
    onStore (withBase (Db.UpsertGattCharacteristic
               {| Db.gp_MAC := mac; Db.gp_ServiceUUID := s_uuid s;
                  Db.gp_ServiceHandle := s_handle s; Db.gp_CharUUID := c_uuid c;
                  Db.gp_CharHandle := c_handle c;
                  Db.gp_FlagsJSON := sliceToJSON jsonOfStrings (c_flags c);
                  Db.gp_ValueHex := valHex; Db.gp_ValueASCII := valASCII;
                  Db.gp_ReadError := readErrStr; Db.gp_LastReadAt := now |})) st2 in
  addLines ["  └─────────────────────────────────"]
    (fold_left (dumpDescriptor s c) (collectDescriptors managed c) st3).

Definition dumpService (st : Dump) (s : svcItem) : Dump :=
  let svcUUIDAnn := match resolver with
                    | Some r => Ids.AnnotateServiceUUID (Some r) (s_uuid s)
                    | None => s_uuid s
                    end in
  fold_left (dumpCharacteristic s) (collectCharacteristics managed s)
    (addLines ["Service: " ++ svcUUIDAnn]%string st).

End Dump.

(** The best-effort name of the device. *)
Definition deviceName (managed : Managed) (devPath : string) : string :=
  match managed !! devPath with
  | None => "Unknown"
  | Some ifaces =>
      match ifaces !! "org.bluez.Device1" with
      | None => "Unknown"
      | Some dev1 =>
          if snd (getString dev1 "Alias") then
            let s := TrimSpace (fst (getString dev1 "Alias")) in
            if negb (String.eqb s "") then s else "Unknown"
          else if snd (getString dev1 "Name") then
            let s := TrimSpace (fst (getString dev1 "Name")) in
            if negb (String.eqb s "") then s else "Unknown"
          else "Unknown"
      end
  end.

(** What [DumpAndStoreGATT] returns (the text, the name, the error) and what
    it has done: the [ReadValue] calls in order and the store afterwards. *)
Record DumpResult := {
  servicesText : string;
  devName : string;
  derr : option string;
  dcalls : list IoCall;
  dresult : option FullStore
}.

Definition newline : string := String (ascii_of_nat 10) EmptyString.

(** [managedResult] is the answer to [GetManagedObjects] (the objects, or the
    text of the error of the call or of its decoding) and [now] what
    [util.NowTimestamp] returns.  [adapterID] is an argument the function
    does not use. *)
Definition DumpAndStoreGATT (jsonOfStrings : list string -> option string)
           (readCharacteristic readDescriptor : nat -> string -> list Z + string)
           (managedResult : Managed + string) (now : string)
           (adapterID devPath mac : string) (store : option FullStore)
           (resolver : option Ids.Resolver) : DumpResult :=
  match managedResult with
  | inr e => {| servicesText := ""; devName := ""; derr := Some e; dcalls := [];
                dresult := store |}
  | inl managed =>
      let name := deviceName managed devPath in
      let services := collectServices managed (devPath ++ "/") in
      match services with
      | [] => {| servicesText := ""; devName := name; derr := Some "no GATT services";
                 dcalls := []; dresult := store |}
      | _ =>
          let st := fold_left (dumpService jsonOfStrings readCharacteristic readDescriptor
                                 managed resolver mac now)
                      services
                      {| lines := []; readCount := 0; calls := []; dstore := store |} in
          {| servicesText := Join (lines st) newline; devName := name; derr := None;
             dcalls := calls st; dresult := dstore st |}
      end
  end.

(** *** ConnectAndDumpGATTBlueZ *)

Definition deviceObjectPath (adapterID mac : string) : string :=
  let m := ReplaceByte (ToUpper (TrimSpace mac)) ":" "_" in
  ("/org/bluez/" ++ adapterID ++ "/dev_" ++ m)%string.

Definition bluezDeviceServicesResolved (managedResult : Managed + string) (devPath : string)
  : bool * bool :=
  match managedResult with
  | inr _ => (false, false)
  | inl managed =>
      match managed !! devPath with
      | None => (false, false)
      | Some ifaces =>
          match ifaces !! "org.bluez.Device1" with
          | None => (false, false)
          | Some dev1 =>
              match dev1 !! "ServicesResolved" with
              | None => (false, true)
              | Some (VBool b) => (b, true)
              | Some _ => (false, true)
              end
          end
      end
  end.

(** One round of the wait for the services: whether the context is done
    (with its error), the answer to [GetManagedObjects], the clock read
    afterwards. *)
Record Poll := {
  p_ctxErr : option string;
  p_managed : Managed + string;
  p_now : Time
}.

(** The wait loop; [None] is the [break].  The rounds are given as a list:
    when it ends before the loop does, the model stops with [OutOfFuel]. *)
Fixpoint waitResolved (devPath : string) (deadline : Time) (polls : list Poll)
  : Run (option string) :=
  match polls with
  | [] => OutOfFuel
  | p :: rest =>
      match p_ctxErr p with
      | Some e => Done (Some e)
      | None =>
          let '(resolved, ok) := bluezDeviceServicesResolved (p_managed p) devPath in
          if ok && resolved then Done None
          else if deadline <? p_now p then Done (Some "services not resolved")
          else waitResolved devPath deadline rest
      end
  end.

(** What the call returns and leaves behind. *)
Record ConnectResult := {
  cerr : option string;
  cstore : FullStore;
  cprinted : list Line;
  ccalls : list IoCall
}.

Section Connect.

Variable parse : string -> option Time.
Variable jsonOfStrings : list string -> option string.
Variable readCharacteristic : nat -> string -> list Z + string.
Variable readDescriptor : nat -> string -> list Z + string.

(** [connectErr] is the error of [Device1.Connect], [start] the clock when
    the wait begins, [polls] the rounds of the wait, [managedResult] the
    objects seen by the dump, [dumpNow] and [ts] the two timestamps, [nowStr]
    the clock text of [SaveDevice].  The function does not use its
    [patterns] argument, and the deferred [Device1.Disconnect] changes
    nothing of what is kept here. *)
Definition ConnectAndDumpGATTBlueZ (connectErr : option string) (start : Time)
           (polls : list Poll) (managedResult : Managed + string) (dumpNow ts nowStr : string)
           (adapterID mac0 : string) (store : FullStore) (resolver : option Ids.Resolver)
           (sessionID : Z) (tag : option string) : Run ConnectResult :=
  let mac := ToUpper (TrimSpace mac0) in
  let failed e s c := Done {| cerr := Some e; cstore := s; cprinted := []; ccalls := c |} in
  if String.eqb mac "" then failed "empty mac"%string store []
  else
    let devPath := deviceObjectPath adapterID mac in
    match connectErr with
    | Some e => failed e store []
    | None =>
        match waitResolved devPath (start + 10 * Second) polls with
        | OutOfFuel => OutOfFuel
        | Panic => Panic
        | Done (Some e) => failed e store []
        | Done None =>
            let r := DumpAndStoreGATT jsonOfStrings readCharacteristic readDescriptor
                       managedResult dumpNow adapterID devPath mac (Some store) resolver in
            let store1 := match dresult r with Some s => s | None => store end in
            match derr r with
            | Some e => failed e store1 (dcalls r)
            | None =>
                let store2 := withBase (Db.UpdateGattServices mac (servicesText r)) store1 in
                let store3 := InsertGattServicesHistory sessionID mac (servicesText r) ts
                                store2 in
                let nameCopy := SafeName (devName r) in
                let store4 :=
                  withBase (fun s =>
                    snd (Db.SaveDevice parse nowStr
                           {| Db.SessionID := Some sessionID; Db.DeviceType := Some "ble";
                              Db.Name := Some nameCopy; Db.MAC := mac;
                              Db.MACType := None; Db.MACSubType := None; Db.RSSI := None;
                              Db.Timestamp := Some ts; Db.Adapter := Some adapterID;
                              Db.ManufacturerData := None; Db.ManufacturerName := None;
                              Db.ServiceUUIDs := None; Db.ServiceData := None;
                              Db.TxPower := None; Db.PlatformData := None;
                              Db.AdvertisementJSON := None; Db.LastAdvID := None;
                              Db.GPS := None; Db.ServiceList := Some (servicesText r);
                              Db.UpdateExisting := true; Db.Tag := tag;
                              Db.MarkedType := None |} s)) store3 in
                Done {| cerr := None; cstore := store4;
                        cprinted := [{| label := "[CONNECTED]";
                                        msg := (nameCopy ++ " (" ++ mac ++ ") via "
                                                ++ adapterID)%string |}];
                        ccalls := dcalls r |}
            end
        end
    end.

End Connect.

End Gatt.

(** ** Loading the device-type patterns (package bluetooth) *)

Module Patterns.
Import Types.

(** [t.Name = name] *)
Definition setName (name : string) (t : DeviceTypePattern) : DeviceTypePattern :=
  {| Name := name; RequireServiceUUID := RequireServiceUUID t; IBeacon := IBeacon t;
     Manufacturer5B := Manufacturer5B t; NameBase645B := NameBase645B t |}.

(** [for i := range out.Types { idx[out.Types[i].Name] = i }], from index
    [i] on. *)
Fixpoint indexFrom (i : nat) (out : list DeviceTypePattern) (idx : gmap string nat)
  : gmap string nat :=
  match out with
  | [] => idx
  | t :: r => indexFrom (S i) r (<[Name t := i]> idx)
  end.

(** One round of the merge loop on [out.Types] and [idx].  The index found
    in [idx] is an index of [out.Types]. *)
Definition mergeOne (st : list DeviceTypePattern * gmap string nat) (t : DeviceTypePattern)
  : list DeviceTypePattern * gmap string nat :=
  let name := ToLower (TrimSpace (Name t)) in
  if String.eqb name "" then st
  else
    match snd st !! name with
    | Some j => (<[j := setName name t]> (fst st), snd st)
    | None => ((fst st ++ [setName name t])%list, <[name := List.length (fst st)]> (snd st))
    end.

(** [loadPatternsFile] on [out.Types]; [file] is what reading and decoding
    the file gives: its [types], or [None] when either step fails. *)
Definition loadPatternsFile (file : option (list DeviceTypePattern))
           (out : list DeviceTypePattern) : list DeviceTypePattern :=
  match file with
  | None => out
  | Some [] => out
  | Some tmp => fst (fold_left mergeOne tmp (out, indexFrom 0 out ∅))
  end.

(** [LoadDeviceTypePatterns], given the contents of
    <dataDir>/default/device_types.yaml and <customDir>/device_types.yaml. *)
Definition LoadDeviceTypePatterns (defFile customFile : option (list DeviceTypePattern))
  : DeviceTypePatterns :=
  {| Types := List.map normalizePattern
                (loadPatternsFile customFile (loadPatternsFile defFile [])) |}.

End Patterns.

(** * Vocabulary of the properties *)

(** The text starts with a white-space rune. *)
Definition startsSpace (s : string) : bool :=
  match s with
  | EmptyString => false
  | String c r =>
      isSpace c
      || match r with
         | String d r1 =>
             isSpace2 c d
             || match r1 with
                | String e _ => isSpace3 c d e
                | EmptyString => false
                end
         | EmptyString => false
         end
  end.

(** An ASCII byte that is not white space.  No encoding of a white-space
    rune contains such a byte. *)
Definition isPlain (c : ascii) : bool := negb (isSpace c) && (byteval c <? 128).

(** There is nothing to trim on the left. *)
Definition leftTrimmed (s : string) : Prop := startsSpace s = false.



(** The catalog entry and the manufacturer payload of the iBeacon scenario. *)
Definition cokeon : Types.DeviceTypePattern :=
  {| Types.Name := "cokeon";
     Types.RequireServiceUUID := "";
     Types.IBeacon := {| Types.AppleCompanyID := 76;
                         Types.UUID := "8AEFB031-6C32-486F-825B-E26FA193487D";
                         Types.Major := 42;
                         Types.Minor := 7 |};
     Types.Manufacturer5B := {| Types.m5_CompanyID := 0; Types.m5_Length := 0 |};
     Types.NameBase645B := false |}.

Definition cokeonPayload : list Z :=
  [0x02; 0x15; 0x8A; 0xEF; 0xB0; 0x31; 0x6C; 0x32; 0x48; 0x6F; 0x82; 0x5B;
   0xE2; 0x6F; 0xA1; 0x93; 0x48; 0x7D; 0x00; 0x2A; 0x00; 0x07; 0xC5].

(** The TLV as the snapshot decoder hands it over: [DataHex] is
    [util.BytesToHex] of the payload. *)
Definition cokeonEntry : Types.manufacturerEntry :=
  {| Types.CompanyID := 76; Types.DataHex := BytesToHex cokeonPayload |}.

(** The key under which [UpsertGattCharacteristic] files a call. *)
Definition gattKey (p : Db.GattCharacteristicParams) : string * string * string :=
  (Db.normalizeMAC (Db.gp_MAC p), TrimSpace (Db.gp_ServiceUUID p), TrimSpace (Db.gp_CharUUID p)).

(** A call that addresses a row: none of the three key parts is blank. *)
Definition gattKeyed (p : Db.GattCharacteristicParams) : Prop :=
  Db.normalizeMAC (Db.gp_MAC p) <> "" /\ TrimSpace (Db.gp_ServiceUUID p) <> ""
  /\ TrimSpace (Db.gp_CharUUID p) <> "".

(** The history row a call of [RecordDeviceGPSHistoryIfChanged] appends. *)
Definition historyRow (sessionID : option Z) (m0 ts : string) (lat lon : option spec_float)
           (gpsText0 : string) (isCached : bool) (source : option string) : Db.GpsHistory :=
  {| Db.gh_session_id := sessionID; Db.gh_mac := Db.normalizeMAC m0; Db.gh_timestamp := ts;
     Db.gh_lat := lat; Db.gh_lon := lon; Db.gh_gps_text := TrimSpace gpsText0;
     Db.gh_is_cached := Db.boolToInt isCached; Db.gh_source := source |}.

(** The condition under which the specification lets a history row through:
    the text differs from the cached one, or the cached write is at least
    30 s old, or no write was recorded yet. *)
Definition historyDue (nowCheck : Time) (m0 gpsText0 : string) (s : Db.Store) : Prop :=
  Db.strAt (Db.gpsHistLast s) (Db.normalizeMAC m0) <> TrimSpace gpsText0
  \/ 30 * Second <= Since nowCheck (Db.timeAt (Db.gpsHistLastAt s) (Db.normalizeMAC m0))
  \/ Db.timeAt (Db.gpsHistLastAt s) (Db.normalizeMAC m0) = 0.

(** The rule of the GPS history as the specification words it, for every
    MAC: a call appends a row exactly when one is due. *)
Definition historyRuleAsStated : Prop :=
  forall (c w : Time) (sid : option Z) (m0 ts : string) (lat lon : option spec_float)
         (text : string) (cached : bool) (src : option string) (s : Db.Store),
    Db.normalizeMAC m0 <> "" -> TrimSpace text <> "" ->
    (Db.device_gps_history
       (Db.RecordDeviceGPSHistoryIfChanged c w sid m0 ts lat lon text cached src s)
     <> Db.device_gps_history s
     <-> historyDue c m0 text s).

(** Its consequence as the specification words it, read on a device that has
    its row: two calls with one text whose clocks are less than 30 s apart
    leave exactly one row. *)
Definition historyPairAsStated : Prop :=
  forall (c1 w1 c2 w2 : Time) (sid : option Z) (m0 ts : string)
         (lat lon : option spec_float) (text : string) (cached : bool)
         (src : option string) (s : Db.Store),
    Db.normalizeMAC m0 <> "" -> TrimSpace text <> "" ->
    Db.devices s !! Db.normalizeMAC m0 <> None ->
    w1 <> 0 -> c1 <= w1 -> c1 <= c2 -> c2 - c1 < 30 * Second ->
    List.length
      (Db.device_gps_history
         (Db.RecordDeviceGPSHistoryIfChanged c2 w2 sid m0 ts lat lon text cached src
            (Db.RecordDeviceGPSHistoryIfChanged c1 w1 sid m0 ts lat lon text cached src s)))
    = S (List.length (Db.device_gps_history s)).

(** Two calls for the battery-level characteristic of one device: a read
    that succeeded, then a call that carries only a read error. *)
Definition gattFirstCall : Db.GattCharacteristicParams :=
  {| Db.gp_MAC := "aa:bb:cc:dd:ee:01"; Db.gp_ServiceUUID := "0000180f-0000-1000-8000-00805f9b34fb";
     Db.gp_ServiceHandle := Some 16; Db.gp_CharUUID := "00002a19-0000-1000-8000-00805f9b34fb";
     Db.gp_CharHandle := Some 18; Db.gp_FlagsJSON := Some "[]";
     Db.gp_ValueHex := Some "64"; Db.gp_ValueASCII := Some "d"; Db.gp_ReadError := None;
     Db.gp_LastReadAt := "2024-01-01 00:00:05" |}.

Definition gattNullCall : Db.GattCharacteristicParams :=
  {| Db.gp_MAC := "AA:BB:CC:DD:EE:01"; Db.gp_ServiceUUID := "0000180f-0000-1000-8000-00805f9b34fb";
     Db.gp_ServiceHandle := None; Db.gp_CharUUID := "00002a19-0000-1000-8000-00805f9b34fb";
     Db.gp_CharHandle := None; Db.gp_FlagsJSON := None;
     Db.gp_ValueHex := None; Db.gp_ValueASCII := None; Db.gp_ReadError := Some "timeout";
     Db.gp_LastReadAt := "2024-01-01 00:10:00" |}.

(** The MAC and the GPS text of the running examples. *)
Definition macX : string := "AA:BB:CC:DD:EE:01".
Definition gpsTextX : string := "37.000000, -122.000000".

(** A call of [SaveDevice] as the specification's scenarios make it:
    update-or-insert of [mac] with the given family and timestamp. *)
Definition saveCall (mac : string) (family : option string) (ts : string) : Db.SaveParams :=
  {| Db.SessionID := Some 1; Db.DeviceType := family; Db.Name := Some "Unknown";
     Db.MAC := mac; Db.MACType := None; Db.MACSubType := None; Db.RSSI := None;
     Db.Timestamp := Some ts; Db.Adapter := Some "hci0"; Db.ManufacturerData := None;
     Db.ManufacturerName := None; Db.ServiceUUIDs := None; Db.ServiceData := None;
     Db.TxPower := None; Db.PlatformData := None; Db.AdvertisementJSON := None;
     Db.LastAdvID := None; Db.GPS := None; Db.ServiceList := None;
     Db.UpdateExisting := true; Db.Tag := None; Db.MarkedType := None |}.

(** The stored detection count of a MAC (0 when there is no row). *)
Definition countOf (m : string) (s : Db.Store) : Z :=
  match Db.devices s !! m with Some r => Db.detection_count r | None => 0 end.

(** The timestamp a call works with: its own, or the clock of the store
    when it brings none. *)
Definition stampText (call : string * Db.SaveParams) : string :=
  match Db.Timestamp (snd call) with Some t => t | None => fst call end.

(** A call (with the clock string the store would read) whose timestamp is a
    well-formed wall-clock stamp. *)
Definition stamped (parse : string -> option Time) (call : string * Db.SaveParams) : Prop :=
  stampText call <> "" /\ exists t, parse (stampText call) = Some t.

Definition stampOf (parse : string -> option Time) (call : string * Db.SaveParams) : Time :=
  match parse (stampText call) with Some t => t | None => 0 end.

(** Running a sequence of [SaveDevice] calls. *)
Definition saveAll (parse : string -> option Time)
           (calls : list (string * Db.SaveParams)) (s : Db.Store) : Db.Store :=
  fold_left (fun st call => snd (Db.SaveDevice parse (fst call) (snd call) st)) calls s.

(** The instants (timestamps of the calls) at which a sequence of calls
    raised the detection count of [m]. *)
Fixpoint increments (parse : string -> option Time) (m : string)
         (calls : list (string * Db.SaveParams)) (s : Db.Store) : list Time :=
  match calls with
  | [] => []
  | call :: rest =>
      let s' := snd (Db.SaveDevice parse (fst call) (snd call) s) in
      if countOf m s <? countOf m s'
      then stampOf parse call :: increments parse m rest s'
      else increments parse m rest s'
  end.

(** The instant of the stored last_count_update of [m], when there is one. *)
Definition lastCounted (parse : string -> option Time) (m : string) (s : Db.Store) : option Time :=
  match Db.devices s !! m with
  | Some r =>
      match Db.last_count_update r with
      | Some lu => if String.eqb lu "" then None else parse lu
      | None => None
      end
  | None => None
  end.

(** Consecutive instants are at least 30 minutes apart, the first one at
    least 30 minutes after [from] when that is given. *)
Fixpoint spaced (from : option Time) (l : list Time) : Prop :=
  match l with
  | [] => True
  | t :: rest =>
      match from with Some t0 => t0 + 30 * Minute <= t | None => True end
      /\ spaced (Some t) rest
  end.

(** How many of the instants fall into the 30-minute window that starts at [a]. *)
Definition inWindow (a : Time) (l : list Time) : nat :=
  List.length (List.filter (fun t => (a <=? t) && (t <? a + 30 * Minute)) l).

(** The three stamps of the detection-count scenario. *)
Definition stampT0 : string := "2024-01-01 00:00:00".
Definition stampT10 : string := "2024-01-01 00:10:00".
Definition stampT35 : string := "2024-01-01 00:35:00".

(** The first advertisement of [mac], recorded at [ts]: the call that
    creates the device row. *)
Definition advCall (mac ts : string) : Db.AdvertisementParams :=
  {| Db.ap_SessionID := Some 1; Db.ap_MAC := mac; Db.ap_Timestamp := ts;
     Db.ap_RSSI := None; Db.ap_Raw := None; Db.ap_JSON := None |}.

(** The store after the first advertisement of [macX] at T0: its row is a
    "ble" device. *)
Definition storeBle : Db.Store :=
  snd (Db.InsertAdvertisement (advCall macX stampT0) Db.emptyStore).

(** What the connect gate looks at: the queue, the in-flight marks, the
    attempt times, the GATT listings and the sighting counters. *)
Definition connectView (w : Bluetooth.World) :
  list string * gmap string bool * gmap string Time * gmap string (option string)
  * gmap string Z :=
  (Bluetooth.queue w, Bluetooth.inFlight (Bluetooth.maps w),
   Bluetooth.lastConnAttempt (Bluetooth.maps w), Db.gatt_services (Bluetooth.store w),
   Bluetooth.seenCount (Bluetooth.maps w)).

(** The calls of [SaveDevice], the console lines and the queue sends of a
    trace, in order. *)
Definition savesOf (tr : list Bluetooth.Event) : list Db.SaveParams :=
  flat_map (fun e => match e with Bluetooth.CallSaveDevice p => [p] | _ => [] end) tr.

Definition printsOf (tr : list Bluetooth.Event) : list Line :=
  flat_map (fun e => match e with Bluetooth.Print l => [l] | _ => [] end) tr.

Definition enqueuesOf (tr : list Bluetooth.Event) : list string :=
  flat_map (fun e => match e with Bluetooth.Enqueue m => [m] | _ => [] end) tr.

(** The connect gate is closed for an observation: one of the conditions
    under which the specification forbids a connect attempt holds.  [seen]
    is the sighting count of the MAC including the current sighting. *)
Definition gateClosed (now : Time) (mac : string) (bd : Bluetooth.bluezDevice) (seen : Z)
           (w : Bluetooth.World) : Prop :=
  Bluetooth.bd_RSSI bd = None
  \/ (exists r, Bluetooth.bd_RSSI bd = Some r /\ r < -75)
  \/ seen < 2
  \/ Db.HasGattServices mac (Bluetooth.store w) = true
  \/ Bluetooth.boolAt (Bluetooth.inFlight (Bluetooth.maps w)) mac = true
  \/ (exists last, Bluetooth.lastConnAttempt (Bluetooth.maps w) !! mac = Some last
                   /\ Sub now last < 30 * Minute)
  \/ Bluetooth.bluezTypeToDeviceType bd = "classic".

(** The gate is open: none of them holds. *)
Definition gateOpen (now : Time) (mac : string) (bd : Bluetooth.bluezDevice) (seen : Z)
           (w : Bluetooth.World) : Prop :=
  (exists r, Bluetooth.bd_RSSI bd = Some r /\ -75 <= r)
  /\ 2 <= seen
  /\ Db.HasGattServices mac (Bluetooth.store w) = false
  /\ Bluetooth.boolAt (Bluetooth.inFlight (Bluetooth.maps w)) mac = false
  /\ (forall last, Bluetooth.lastConnAttempt (Bluetooth.maps w) !! mac = Some last ->
                   30 * Minute <= Sub now last)
  /\ Bluetooth.bluezTypeToDeviceType bd <> "classic".

(** Two device rows that agree on every column except gps and type. *)
Definition sameExceptGpsType (r r' : Db.Device) : Prop :=
  r' = Db.setType (Db.type_ r') (Db.setGPS (Db.gps r') r).

(** Two device rows that agree on every column except gps, type and
    last_adv_id. *)
Definition sameExceptGpsTypeAdv (r r' : Db.Device) : Prop :=
  r' = Db.setLastAdvID (Db.last_adv_id r') (Db.setType (Db.type_ r') (Db.setGPS (Db.gps r') r)).

(** [w'] continues the trace of [w] with events among which the calls of
    [SaveDevice] are [saves], nothing is sent to the queue, and every console
    line satisfies [P]. *)
Definition continues (saves : list Db.SaveParams) (P : Line -> Prop)
           (w w' : Bluetooth.World) : Prop :=
  exists evs,
    Bluetooth.trace w' = (Bluetooth.trace w ++ evs)%list
    /\ savesOf evs = saves /\ enqueuesOf evs = [] /\ Forall P (printsOf evs).

(** Inside the throttle window the gps column may be rewritten with [g]: the
    observation carries a non-blank GPS text, [g] is that text, and the text
    differs from the last one written for the MAC or the last GPS write for
    the MAC is at least 10 s old (or there was none). *)
Definition gpsRefreshDue (now : Time) (o : Bluetooth.Obs) (w : Bluetooth.World)
           (g : option string) : Prop :=
  exists g0,
    Bluetooth.o_gpsStr o = Some g0 /\ TrimSpace g0 <> "" /\ g = Some (TrimSpace g0)
    /\ (Bluetooth.lastGPSVal (Bluetooth.maps w) !! Bluetooth.o_mac o <> Some (TrimSpace g0)
        \/ Bluetooth.lastGPSWrite (Bluetooth.maps w) !! Bluetooth.o_mac o = None
        \/ exists t0, Bluetooth.lastGPSWrite (Bluetooth.maps w) !! Bluetooth.o_mac o = Some t0
                      /\ 10 * Second <= Sub now t0).

(** The type column may be rewritten with [t]: the classifier marked the
    observation and [t] is its (trimmed) marked type. *)
Definition markedTypeGiven (o : Bluetooth.Obs) (t : option string) : Prop :=
  TrimSpace (Bluetooth.o_markedTypeStr o) <> ""
  /\ t = Some (TrimSpace (Bluetooth.o_markedTypeStr o)).

(** An advertisement-history row is due for the MAC: none was written yet or
    the last one is at least 30 s old. *)
Definition advertisementDue (now : Time) (mac : string) (w : Bluetooth.World) : Prop :=
  Bluetooth.lastAdvWrite (Bluetooth.maps w) !! mac = None
  \/ exists last, Bluetooth.lastAdvWrite (Bluetooth.maps w) !! mac = Some last
                  /\ 30 * Second <= Sub now last.

(** The frame property of the throttle window as the specification words it:
    whenever the MAC is observed less than 10 s after its last full device
    write, its device row changes in the gps and type columns only. *)
Definition throttleFrameAsStated : Prop :=
  forall (parse : string -> option Time) (env : Bluetooth.Env) (now : Time) (mac0 : string)
         (bd : Bluetooth.bluezDevice) (rd : Bluetooth.Readings) (w : Bluetooth.World)
         (last : Time) (r r' : Db.Device),
    Bluetooth.cfg env = Bluetooth.defaultBlueZConfig ->
    Bluetooth.lastDeviceWrite (Bluetooth.maps w) !! ToUpper (TrimSpace mac0) = Some last ->
    Sub now last < 10 * Second ->
    Db.devices (Bluetooth.store w) !! ToUpper (TrimSpace mac0) = Some r ->
    Db.devices (Bluetooth.store (Bluetooth.observe parse env now mac0 bd rd w))
      !! ToUpper (TrimSpace mac0) = Some r' ->
    sameExceptGpsType r r'.

(** *** A concrete adapter loop *)

Definition encodersX : Bluetooth.Encoders :=
  {| Bluetooth.jsonOfManufacturer := fun _ => Some "[]";
     Bluetooth.jsonOfStrings := fun _ => Some "[]";
     Bluetooth.jsonOfServiceData := fun _ => Some "[]";
     Bluetooth.buildAdvertisementJSONBlueZ := fun _ _ _ _ _ _ => Some "{}" |}.

Definition envX : Bluetooth.Env :=
  {| Bluetooth.cfg := Bluetooth.defaultBlueZConfig;
     Bluetooth.adapterID := "hci0";
     Bluetooth.resolver := None;
     Bluetooth.patterns := Some {| Types.Types := [cokeon] |};
     Bluetooth.sessionID := 1;
     Bluetooth.tag := None;
     Bluetooth.enc := encodersX |}.

(** A BLE device as BlueZ reports it, with the given name, address type and
    RSSI. *)
Definition bleDevice (name : string) (addressType : option string) (rssi : option Z) :
  Bluetooth.bluezDevice :=
  {| Bluetooth.bd_Name := name; Bluetooth.bd_Type := Some "le";
     Bluetooth.bd_AddressType := addressType; Bluetooth.bd_RSSI := rssi;
     Bluetooth.bd_TxPower := None; Bluetooth.bd_UUIDs := [];
     Bluetooth.bd_ManufacturerEntries := []; Bluetooth.bd_ServiceDataEntries := [];
     Bluetooth.bd_Class := None; Bluetooth.bd_Icon := None; Bluetooth.bd_Paired := None;
     Bluetooth.bd_Trusted := None; Bluetooth.bd_Connected := None;
     Bluetooth.bd_Blocked := None; Bluetooth.bd_LegacyPairing := None;
     Bluetooth.bd_Modalias := None; Bluetooth.bd_UUIDsJSON := None;
     Bluetooth.bd_PropsJSON := None |}.

(** Clock and GPS readings of a pass at wall-clock [now] with stamp [ts]; the
    GPS is switched off. *)
Definition readingsAt (now : Time) (ts : string) : Bluetooth.Readings :=
  {| Bluetooth.r_ts := ts;
     Bluetooth.r_gpsForRecord := (Gps.NewState false (300 * Second), now);
     Bluetooth.r_gpsFix := (Gps.NewState false (300 * Second), now);
     Bluetooth.r_gpsSource := Gps.NewState false (300 * Second);
     Bluetooth.r_histCheck := now;
     Bluetooth.r_histWrite := now;
     Bluetooth.r_saveNow := ts |}.

Definition worldX : Bluetooth.World :=
  {| Bluetooth.maps := Bluetooth.emptyLoop; Bluetooth.store := Db.emptyStore;
     Bluetooth.queue := []; Bluetooth.trace := [] |}.

(** The instant 2024-01-01 00:00:00 UTC on the scale of [Time]. *)
Definition timeT0 : Time := 63839664000000000000.

(** The stamp "2024-01-01 00:00:SS" of the second [sec] < 60 after T0. *)
Definition stampAt (sec : Z) : string :=
  ("2024-01-01 00:00:" ++ String (Gps.digitChar (sec / 10)) (String (Gps.digitChar (sec mod 10)) ""))%string.

(** One sighting of [macX] (a public LE address, RSSI -80 dBm, name "Sensor")
    by the loop of hci0, [sec] seconds after T0. *)
Definition sightingAt (sec : Z) (w : Bluetooth.World) : Bluetooth.World :=
  Bluetooth.observe Layout.parseStamp envX (timeT0 + sec * Second) macX
    (bleDevice "Sensor" (Some "public") (Some (-80)))
    (readingsAt (timeT0 + sec * Second) (stampAt sec)) w.

(** The loop after the ten 3-second ticks T0, T0 + 3 s, ..., T0 + 27 s: the
    full device writes fell on T0, T0 + 12 s and T0 + 24 s, the advertisement
    row on T0.  (The write of T0 found no row to update; the row was made by
    the advertisement write of that tick.) *)
Definition worldAfter27s : Bluetooth.World :=
  fold_left (fun w sec => sightingAt sec w) [0; 3; 6; 9; 12; 15; 18; 21; 24; 27] worldX.

(** The next tick, at T0 + 30 s: 6 s after the last full device write. *)
Definition worldAfter30s : Bluetooth.World := sightingAt 30 worldAfter27s.

(** A device that advertises its own address as name: its first sighting,
    at T0, and the sighting of T0 + 12 s. *)
Definition selfNamedAt0 : Bluetooth.World :=
  Bluetooth.observe Layout.parseStamp envX timeT0 macX
    (bleDevice macX (Some "public") (Some (-60))) (readingsAt timeT0 stampT0) worldX.

Definition selfNamedAt12 : Bluetooth.World :=
  Bluetooth.observe Layout.parseStamp envX (timeT0 + 12 * Second) macX
    (bleDevice macX (Some "public") (Some (-60)))
    (readingsAt (timeT0 + 12 * Second) (stampAt 12)) selfNamedAt0.

(** The console message of a [NEW] or [UPDATE] line for an observation. *)
Definition sightingText (env : Bluetooth.Env) (bd : Bluetooth.bluezDevice) : string :=
  (SafeName (Bluetooth.bd_Name bd) ++ " (Interface: " ++ Bluetooth.adapterID env
   ++ ") RSSI: " ++ Bluetooth.rssiStr (Bluetooth.bd_RSSI bd))%string.

(** A full device write is due for the MAC: there was none yet or the last
    one is at least [DeviceUpdateMinPeriod] old. *)
Definition fullWriteDue (env : Bluetooth.Env) (now : Time) (mac : string)
           (w : Bluetooth.World) : Prop :=
  match Bluetooth.lastDeviceWrite (Bluetooth.maps w) !! mac with
  | Some last => Bluetooth.DeviceUpdateMinPeriod (Bluetooth.cfg env) <= Sub now last
  | None => True
  end.

(** A static random address as the Bluetooth library marshals it, first byte
    0xC0, and the BlueZ device that carries it. *)
Definition staticRandomBytes : list Z := [0xC0; 0x11; 0x22; 0x33; 0x44; 0x55].
Definition macStaticRandom : string := "C0:11:22:33:44:55".

(** The device row of [macX] after the tick of T0 + 27 s. *)
Definition rowAfter27s : Db.Device :=
  {| Db.id := 1; Db.session_id := Some 1; Db.device_type := Some "ble";
     Db.name := Some "Sensor"; Db.mac := macX;
     Db.mac_type := Some "public_or_unknown"; Db.mac_subtype := Some "public";
     Db.rssi := Some (-80); Db.service := None;
     Db.timestamp := Some "2024-01-01 00:00:24"; Db.adapter := Some "hci0";
     Db.manufacturer_data := Some "[]"; Db.manufacturer_name := None;
     Db.service_uuids := Some "[]"; Db.service_data := Some "[]";
     Db.tx_power := None; Db.platform_data := None;
     Db.advertisement_json := Some "{}"; Db.last_adv_id := Some 1;
     Db.gps := None; Db.detection_count := 2;
     Db.last_count_update := Some "2024-01-01 00:00:12"; Db.tag := None;
     Db.type_ := None |}.

(** The connect-gating scenario: device Y sighted by hci0 at T0 and T0 + 3 s
    with RSSI -80 dBm, at T0 + 6 s with RSSI -60 dBm, and again at T0 + 9 s
    while its connect job is in flight. *)
Definition macY : string := "AA:BB:CC:DD:EE:02".

Definition sightingY (sec : Z) (rssi : Z) (w : Bluetooth.World) : Bluetooth.World :=
  Bluetooth.observe Layout.parseStamp envX (timeT0 + sec * Second) macY
    (bleDevice "Y" (Some "public") (Some rssi))
    (readingsAt (timeT0 + sec * Second) (stampAt sec)) w.

Definition worldY3 : Bluetooth.World := sightingY 3 (-80) (sightingY 0 (-80) worldX).
Definition worldY6 : Bluetooth.World := sightingY 6 (-60) worldY3.
Definition worldY9 : Bluetooth.World := sightingY 9 (-60) worldY6.


(** * Vocabulary of the further properties *)

(** A value of Go's type [byte]. *)
Definition isByte (b : Z) : Prop := 0 <= b < 256.

(** The wire form of a list of AD structures [(type, payload)]: a length
    byte counting the type byte and the payload, the type byte, the payload. *)
Definition encodeAD (ss : list (Z * list Z)) : list Z :=
  flat_map (fun s => Z.of_nat (S (List.length (snd s))) :: fst s :: snd s) ss.

Definition wellFormedAD (s : Z * list Z) : Prop :=
  isByte (fst s) /\ Forall isByte (snd s) /\ (List.length (snd s) <= 254)%nat.

(** What ends the decoding: the end of the data, a zero length byte, or a
    structure announcing more bytes than are left. *)
Definition stopsDecoding (pad : list Z) : Prop :=
  match pad with
  | [] => True
  | l :: rest => 0 <= l /\ (l = 0 \/ Z.of_nat (List.length rest) < l)
  end.

(** The transmit power announced by the last Tx Power Level structure with a
    payload. *)
Fixpoint lastTxPower (ss : list (Z * list Z)) (acc : option string) : option string :=
  match ss with
  | [] => acc
  | (t, d) :: r =>
      lastTxPower r
        (match d with
         | d0 :: _ => if t =? 0x0A then Adv.fmtInt (Adv.int8 d0) else acc
         | [] => acc
         end)
  end.

(** The decimal digits of [x], most significant first, as ASCII bytes; [n]
    bounds their number. *)
Fixpoint decDigits (n : nat) (x : Z) : list Z :=
  match n with
  | O => []
  | S n' => if 0 <? x then decDigits n' (x / 10) ++ [48 + x mod 10] else []
  end.


(** An item that reports the structure [(type, payload)]. *)
Definition describes (it : Adv.adItem) (s : Z * list Z) : Prop :=
  Adv.TypeHex it = ("0x" ++ ToUpper (Adv.hex2 (fst s)))%string /\
  Adv.Name it = Adv.adTypeName (fst s) /\
  Adv.DataHex it = BytesToHex (snd s).

(** A lower-case hexadecimal digit. *)
Definition lowerHex (c : ascii) : bool :=
  let n := byteval c in ((48 <=? n) && (n <=? 57)) || ((97 <=? n) && (n <=? 102)).

Fixpoint allChars (P : ascii -> bool) (s : string) : bool :=
  match s with
  | EmptyString => true
  | String c r => P c && allChars P r
  end.

(** Text all of whose bytes are ASCII.  On such text [ToLower], [ToUpper]
    and [EqualFold] are the functions of package [strings]. *)
Definition isASCII (s : string) : bool := allChars (fun c => byteval c <? 128) s.

(** A pattern, and a pattern file, whose texts are ASCII. *)
Definition asciiPattern (t : Types.DeviceTypePattern) : Prop :=
  isASCII (Types.Name t) = true /\ isASCII (Types.RequireServiceUUID t) = true
  /\ isASCII (Types.UUID (Types.IBeacon t)) = true.

Definition asciiFile (file : option (list Types.DeviceTypePattern)) : Prop :=
  match file with Some l => Forall asciiPattern l | None => True end.

(** The four-digit text of four hexadecimal digit values. *)
Definition hexText4 (a b c d : Z) : string :=
  String (hexdigit a) (String (hexdigit b) (String (hexdigit c) (String (hexdigit d) EmptyString))).

(** The digits of [v] in a field of exactly [w] hexadecimal digits. *)
Fixpoint fixedHex (w : nat) (v : Z) : string :=
  match w with
  | O => EmptyString
  | S w' => (fixedHex w' (v / 16) ++ String (hexdigit (v mod 16)) EmptyString)%string
  end.

(** The value of a hexadecimal digit, 0 for another byte. *)
Definition hexValue (c : ascii) : Z :=
  match fromHexChar c with Some n => n | None => 0 end.

(** A keyword as the blacklist keeps it. *)
Definition goodKeyword (kw : string) : Prop :=
  kw <> "" /\ ToLower kw = kw /\ TrimSpace kw = kw /\ Blacklist.isCommentLine kw = false.

(** A line of the blacklist file that carries a keyword. *)
Definition keywordLine (l : string) : Prop :=
  TrimSpace l <> "" /\ Blacklist.isCommentLine (TrimSpace l) = false.

Definition sumZ (l : list Z) : Z := fold_right Z.add 0 l.

(** One call of the store facade. *)
Inductive storeStep (parse : string -> option Time) : Db.Store -> Db.Store -> Prop :=
| step_SaveDevice nowStr p s :
    storeStep parse s (snd (Db.SaveDevice parse nowStr p s))
| step_UpdateGattServices m services s :
    storeStep parse s (Db.UpdateGattServices m services s)
| step_UpdateDeviceGPS m gpsText s :
    storeStep parse s (Db.UpdateDeviceGPS m gpsText s)
| step_UpdateDeviceMarkedType m markedType s :
    storeStep parse s (Db.UpdateDeviceMarkedType m markedType s)
| step_UpdateDeviceLastAdvID m advID s :
    storeStep parse s (Db.UpdateDeviceLastAdvID m advID s)
| step_RecordDeviceGPSHistoryIfChanged nowCheck nowWrite sessionID m ts lat lon gpsText
                                       isCached source s :
    storeStep parse s
      (Db.RecordDeviceGPSHistoryIfChanged nowCheck nowWrite sessionID m ts lat lon gpsText
         isCached source s)
| step_UpsertGattCharacteristic p s :
    storeStep parse s (Db.UpsertGattCharacteristic p s)
| step_InsertAdvertisement p s :
    storeStep parse s (snd (Db.InsertAdvertisement p s))
| step_UpsertClassicInfo p s :
    storeStep parse s (Db.UpsertClassicInfo p s)
| step_InsertClassicDiscovery p s :
    storeStep parse s (Db.InsertClassicDiscovery p s).

(** Integrity of the device and advertisement tables: a device row is
    stored under its own normalised, non-empty MAC and has an identifier
    already handed out; identifiers are not shared; an advertisement row has
    an identifier already handed out, shared with no other, and names the
    device row of its MAC. *)
Definition storeConsistent (s : Db.Store) : Prop :=
  1 <= Db.nextDeviceID s /\ 1 <= Db.nextAdvID s /\
  (forall k r, Db.devices s !! k = Some r ->
     Db.mac r = k /\ Db.normalizeMAC k = k /\ k <> "" /\ 1 <= Db.id r < Db.nextDeviceID s) /\
  (forall k1 k2 r1 r2, Db.devices s !! k1 = Some r1 -> Db.devices s !! k2 = Some r2 ->
     Db.id r1 = Db.id r2 -> k1 = k2) /\
  (forall a, In a (Db.advertisements s) ->
     1 <= Db.adv_id a < Db.nextAdvID s /\
     exists r, Db.devices s !! Db.adv_mac a = Some r /\ Db.id r = Db.adv_device_id a) /\
  NoDup (List.map Db.adv_id (Db.advertisements s)).

(** [s'] keeps everything [s] holds: every keyed row is still there (a
    device row with its identifier) and the three history tables of [s'] are
    those of [s] with rows added at the end. *)
Definition storeExtends (s s' : Db.Store) : Prop :=
  (forall k r, Db.devices s !! k = Some r ->
     exists r', Db.devices s' !! k = Some r' /\ Db.id r' = Db.id r) /\
  (forall k, is_Some (Db.gatt_services s !! k) -> is_Some (Db.gatt_services s' !! k)) /\
  (forall k, is_Some (Db.gatt_characteristics s !! k) ->
             is_Some (Db.gatt_characteristics s' !! k)) /\
  (forall k, is_Some (Db.classic_devices s !! k) -> is_Some (Db.classic_devices s' !! k)) /\
  (exists l, Db.advertisements s' = (Db.advertisements s ++ l)%list) /\
  (exists l, Db.device_gps_history s' = (Db.device_gps_history s ++ l)%list) /\
  (exists l, Db.classic_discoveries s' = (Db.classic_discoveries s ++ l)%list).

(** What a stretch of the discovery loop running at time [now] with a
    connect queue of capacity [size] has sent to the queue: [l] is what was
    sent, in order. *)
Definition queuedBy (now : Time) (size : Z) (w w' : Bluetooth.World) (l : list string) : Prop :=
  Bluetooth.queue w' = (Bluetooth.queue w ++ l)%list /\
  enqueuesOf (Bluetooth.trace w') = (enqueuesOf (Bluetooth.trace w) ++ l)%list /\
  Db.gatt_services (Bluetooth.store w') = Db.gatt_services (Bluetooth.store w) /\
  (forall m, Bluetooth.boolAt (Bluetooth.inFlight (Bluetooth.maps w)) m = true ->
             Bluetooth.boolAt (Bluetooth.inFlight (Bluetooth.maps w')) m = true) /\
  (forall m, Bluetooth.lastConnAttempt (Bluetooth.maps w) !! m = Some now ->
             Bluetooth.lastConnAttempt (Bluetooth.maps w') !! m = Some now) /\
  NoDup l /\
  (forall m, In m l ->
     Db.HasGattServices m (Bluetooth.store w) = false /\
     Bluetooth.boolAt (Bluetooth.inFlight (Bluetooth.maps w)) m = false /\
     Bluetooth.boolAt (Bluetooth.inFlight (Bluetooth.maps w')) m = true /\
     Bluetooth.lastConnAttempt (Bluetooth.maps w') !! m = Some now) /\
  Z.of_nat (List.length (Bluetooth.queue w'))
  <= Z.max (Z.of_nat (List.length (Bluetooth.queue w))) size.

(** The number of [ReadValue] calls on characteristics among the calls made
    on the bus. *)
Definition characteristicReads (cs : list Gatt.IoCall) : Z :=
  Z.of_nat (List.length
              (List.filter (fun c => match c with
                                     | Gatt.ReadCharacteristicValue _ => true
                                     | Gatt.ReadDescriptorValue _ => false
                                     end) cs)).

(** The characteristic row of the key is there and was last written by the
    dump stamped [now]. *)
Definition characteristicStored (now : string) (key : string * string * string)
           (s : option Gatt.FullStore) : Prop :=
  exists fs row, s = Some fs /\
    Db.gatt_characteristics (Gatt.base fs) !! key = Some row /\
    Db.gc_last_read_at row = Some now.

Definition descriptorStored (now : string) (key : string * string * string * string)
           (s : option Gatt.FullStore) : Prop :=
  exists fs row, s = Some fs /\
    Gatt.gatt_descriptors fs !! key = Some row /\
    Gatt.gd_last_read_at row = Some now.

(** The dump state [st'] continues [st]: lines and calls are added at the
    end, the read count grows by the characteristic reads added and stays
    within the limit, and a store stays a store. *)
Definition continuesDump (st st' : Gatt.Dump) : Prop :=
  (exists l, Gatt.lines st' = (Gatt.lines st ++ l)%list) /\
  (exists c, Gatt.calls st' = (Gatt.calls st ++ c)%list /\
             Gatt.readCount st' = Gatt.readCount st + characteristicReads c) /\
  (Gatt.readCount st <= Gatt.maxCharsToRead -> Gatt.readCount st' <= Gatt.maxCharsToRead) /\
  (is_Some (Gatt.dstore st) -> is_Some (Gatt.dstore st')).

(** What the dump of the MAC [macN] may change between two stores: the
    characteristic and descriptor rows of that MAC and nothing else. *)
Definition gattFrame (macN : string) (s s' : option Gatt.FullStore) : Prop :=
  match s, s' with
  | Some fs, Some fs' =>
      (exists g, Gatt.base fs' = Db.withGattCharacteristics g (Gatt.base fs)) /\
      Gatt.gatt_services_history fs' = Gatt.gatt_services_history fs /\
      (forall k, fst (fst k) <> macN ->
         Db.gatt_characteristics (Gatt.base fs') !! k
         = Db.gatt_characteristics (Gatt.base fs) !! k) /\
      (forall k, fst (fst (fst k)) <> macN ->
         Gatt.gatt_descriptors fs' !! k = Gatt.gatt_descriptors fs !! k)
  | None, None => True
  | _, _ => False
  end.

(** What was stored by the dump stamped [now] stays stored. *)
Definition gattKeeps (now : string) (s s' : option Gatt.FullStore) : Prop :=
  (forall key, characteristicStored now key s -> characteristicStored now key s') /\
  (forall key, descriptorStored now key s -> descriptorStored now key s').

(** A stretch of the dump of [macN] stamped [now], seen on the store. *)
Definition dumpWrites (now macN : string) (s s' : option Gatt.FullStore) : Prop :=
  gattFrame macN s s' /\ gattKeeps now s s'.

(** *** A device on the bus

    The objects BlueZ shows for the device [macX] on adapter hci0: the
    device, a battery service, its level characteristic (readable) and one
    descriptor of it. *)
Definition devPathX : string := "/org/bluez/hci0/dev_AA_BB_CC_DD_EE_01".

Definition svcX : Gatt.svcItem :=
  {| Gatt.s_path := (devPathX ++ "/service000a")%string;
     Gatt.s_uuid := "0000180f-0000-1000-8000-00805f9b34fb";
     Gatt.s_handle := Some 10 |}.

Definition chX : Gatt.chItem :=
  {| Gatt.c_path := (devPathX ++ "/service000a/char000b")%string;
     Gatt.c_uuid := "00002a19-0000-1000-8000-00805f9b34fb";
     Gatt.c_handle := Some 11;
     Gatt.c_flags := ["read"; "notify"] |}.

Definition descX : Gatt.dItem :=
  {| Gatt.d_path := (devPathX ++ "/service000a/char000b/desc000d")%string;
     Gatt.d_uuid := "00002902-0000-1000-8000-00805f9b34fb";
     Gatt.d_handle := None;
     Gatt.d_flags := [] |}.

Definition managedX : Gatt.Managed :=
  list_to_map
    [ (devPathX,
       {[ "org.bluez.Device1" :=
            ({[ "Alias" := Gatt.VString "Sensor";
                "ServicesResolved" := Gatt.VBool true ]} : Gatt.Props) ]});
      (Gatt.s_path svcX,
       {[ "org.bluez.GattService1" :=
            ({[ "UUID" := Gatt.VString (Gatt.s_uuid svcX);
                "Handle" := Gatt.VUint16 10 ]} : Gatt.Props) ]});
      (Gatt.c_path chX,
       {[ "org.bluez.GattCharacteristic1" :=
            ({[ "UUID" := Gatt.VString (Gatt.c_uuid chX);
                "Handle" := Gatt.VUint16 11;
                "Flags" := Gatt.VStrings ["read"; " notify "] ]} : Gatt.Props) ]});
      (Gatt.d_path descX,
       {[ "org.bluez.GattDescriptor1" :=
            ({[ "UUID" := Gatt.VString (Gatt.d_uuid descX) ]} : Gatt.Props) ]}) ].

(** Every read returns the one byte 0x64. *)
Definition readX (n : nat) (path : string) : list Z + string := inl [100].

(** The store when the connect starts: the device has its row, made by its
    first advertisement. *)
Definition fullStoreX : Gatt.FullStore :=
  {| Gatt.base := storeBle; Gatt.gatt_descriptors := ∅;
     Gatt.gatt_services_history := ∅ |}.

(** The wait finds the services resolved in its first round. *)
Definition pollsResolvedX : list Gatt.Poll :=
  [ {| Gatt.p_ctxErr := None; Gatt.p_managed := inl managedX; Gatt.p_now := timeT0 |} ].

(** The bus does not answer and the clock is past the deadline. *)
Definition pollsLateX : list Gatt.Poll :=
  [ {| Gatt.p_ctxErr := None; Gatt.p_managed := inr "timeout"%string;
       Gatt.p_now := timeT0 + 11 * Second |} ].

(** The connect of [macX] that finds the objects of [managedX]. *)
Definition connectX : Run Gatt.ConnectResult :=
  Gatt.ConnectAndDumpGATTBlueZ Layout.parseStamp (Bluetooth.jsonOfStrings encodersX) readX readX
    None timeT0 pollsResolvedX (inl managedX) stampT0 stampT0 stampT0
    "hci0" macX fullStoreX None 1 None.

(** The result of a run that ended, [d] for one that did not. *)
Definition isDone {A} (x : Run A) : bool :=
  match x with Done _ => true | _ => false end.

Definition resultOf {A} (x : Run A) (d : A) : A :=
  match x with Done r => r | _ => d end.

Definition noResultX : Gatt.ConnectResult :=
  {| Gatt.cerr := Some "no result"%string; Gatt.cstore := fullStoreX;
     Gatt.cprinted := []; Gatt.ccalls := [] |}.

(** The connect of [macX] that waits in vain. *)
Definition connectLateX : Run Gatt.ConnectResult :=
  Gatt.ConnectAndDumpGATTBlueZ Layout.parseStamp (Bluetooth.jsonOfStrings encodersX) readX readX
    None timeT0 pollsLateX (inl managedX) stampT0 stampT0 stampT0
    "hci0" macX fullStoreX None 1 None.

(** The snapshot in which [macX] is seen again, strong enough to connect. *)
Definition snapshotX : list (string * Bluetooth.bluezDevice * Bluetooth.Readings) :=
  [(macX, bleDevice "Sensor" (Some "public"%string) (Some (-60)), readingsAt timeT0 stampT0)].

(** The loop state [worldY9] over the store the connect [connectX] left. *)
Definition worldConnectedX : Bluetooth.World :=
  Bluetooth.withStore (fun _ => Gatt.base (Gatt.cstore (resultOf connectX noResultX))) worldY9.

(** The last pattern of a file whose name normalises to [n], [acc] when
    there is none. *)
Definition lastNamedFrom (n : string) (acc : option Types.DeviceTypePattern)
           (l : list Types.DeviceTypePattern) : option Types.DeviceTypePattern :=
  fold_left (fun acc t => if String.eqb (ToLower (TrimSpace (Types.Name t))) n
                          then Some t else acc) l acc.

Definition lastNamed (n : string) (file : option (list Types.DeviceTypePattern))
  : option Types.DeviceTypePattern :=
  match file with Some l => lastNamedFrom n None l | None => None end.

(** The pattern that [idx] and [out] hold for a name. *)
Definition patternAt (st : list Types.DeviceTypePattern * gmap string nat) (n : string)
  : option Types.DeviceTypePattern :=
  match snd st !! n with Some j => fst st !! j | None => None end.

(** [idx] maps exactly the names of [out] to their positions, and the names
    are normalised and not empty. *)
Definition indexed (st : list Types.DeviceTypePattern * gmap string nat) : Prop :=
  (forall n j, snd st !! n = Some j ->
     exists t, fst st !! j = Some t /\ Types.Name t = n) /\
  (forall j t, fst st !! j = Some t -> snd st !! Types.Name t = Some j) /\
  (forall t, In t (fst st) ->
     Types.Name t <> "" /\ ToLower (TrimSpace (Types.Name t)) = Types.Name t).

(** A listing in strictly ascending order of the object paths. *)
Definition ascendingBy {A} (path : A -> string) (l : list A) : Prop :=
  StronglySorted (fun a b => String.ltb (path a) (path b) = true) l.

(** The two tables of the classic (BR/EDR) devices. *)
Definition classicTables (s : Db.Store)
  : gmap string Db.ClassicDevice * list Db.ClassicDiscovery :=
  (Db.classic_devices s, Db.classic_discoveries s).

(** Between [s] and [s'] the classic tables changed for the MACs in [P]
    only: the other rows of [classic_devices] are as before, no row is gone,
    and the discoveries added at the end are discoveries of MACs in [P]. *)
Definition classicGrows (P : string -> Prop) (s s' : Db.Store) : Prop :=
  (forall k, ~ P k -> Db.classic_devices s' !! k = Db.classic_devices s !! k) /\
  (forall k, is_Some (Db.classic_devices s !! k) -> is_Some (Db.classic_devices s' !! k)) /\
  (exists l, Db.classic_discoveries s' = (Db.classic_discoveries s ++ l)%list /\
             forall r, In r l -> P (Db.cdi_mac r)).

(** The normalised MACs of the snapshot entries that look like classic
    devices. *)
Definition classicSeen (snap : list (string * Bluetooth.bluezDevice * Bluetooth.Readings))
           (k : string) : Prop :=
  exists e, In e snap /\ Bluetooth.isClassicLikely (snd (fst e)) = true /\
            k = ToUpper (TrimSpace (fst (fst e))).

(** * Properties *)

(** ** Facts about the string helpers *)

Section StringFacts.

Lemma eqb_empty_iff (s : string) : String.eqb s "" = true <-> s = "".
Proof. apply String.eqb_eq. Qed.

Lemma isSpace_upperByte (c : ascii) : isSpace (upperByte c) = isSpace c.
Proof. destruct c as [[] [] [] [] [] [] [] []]; reflexivity. Qed.

Lemma upperByte_idem (c : ascii) : upperByte (upperByte c) = upperByte c.
Proof. destruct c as [[] [] [] [] [] [] [] []]; reflexivity. Qed.

Lemma ToUpper_idem (s : string) : ToUpper (ToUpper s) = ToUpper s.
Proof.
  induction s as [|c r IH]; [reflexivity|].
  cbn [ToUpper mapBytes]. f_equal; [apply upperByte_idem | exact IH].
Qed.

Lemma ToUpper_empty_iff (s : string) : ToUpper s = "" <-> s = "".
Proof. destruct s; cbn [ToUpper mapBytes]; split; congruence. Qed.

Lemma isSpace2_upperByte (c d : ascii) :
  isSpace2 (upperByte c) (upperByte d) = isSpace2 c d.
Proof.
  destruct c as [[] [] [] [] [] [] [] []]; try reflexivity;
    destruct d as [[] [] [] [] [] [] [] []]; reflexivity.
Qed.

Lemma isSpace3_upperByte (c d e : ascii) :
  isSpace3 (upperByte c) (upperByte d) (upperByte e) = isSpace3 c d e.
Proof.
  destruct c as [[] [] [] [] [] [] [] []]; try reflexivity;
    destruct d as [[] [] [] [] [] [] [] []]; try reflexivity;
    destruct e as [[] [] [] [] [] [] [] []]; reflexivity.
Qed.

(** Induction over a text whose function looks up to three bytes ahead. *)
Lemma string_ind3 (P : string -> Prop) :
  P "" ->
  (forall c r,
      P r ->
      (forall d r1, r = String d r1 -> P r1) ->
      (forall d e r2, r = String d (String e r2) -> P r2) ->
      P (String c r)) ->
  forall s, P s.
Proof.
  intros H0 Hs.
  assert (Hall : forall s,
             P s /\ (forall d r1, s = String d r1 -> P r1)
             /\ (forall d e r2, s = String d (String e r2) -> P r2)).
  { induction s as [|c r (IH1 & IH2 & IH3)].
    - split; [exact H0|]. split; intros; discriminate.
    - split; [apply Hs; assumption|]. split.
      + intros d r1 [= _ <-]. exact IH1.
      + intros d e r2 [= _ E]. exact (IH2 _ _ E). }
  intros s. apply Hall.
Qed.

(** A byte-wise map that keeps the white-space classes commutes with both
    trims. *)
Section MapTrim.

Variable f : ascii -> ascii.
Hypothesis f1 : forall c, isSpace (f c) = isSpace c.
Hypothesis f2 : forall c d, isSpace2 (f c) (f d) = isSpace2 c d.
Hypothesis f3 : forall c d e, isSpace3 (f c) (f d) (f e) = isSpace3 c d e.

Lemma trimLeft_mapBytes (s : string) :
  trimLeft (mapBytes f s) = mapBytes f (trimLeft s).
Proof.
  induction s as [|c r IH IH1 IH2] using string_ind3; [reflexivity|].
  cbn [mapBytes trimLeft]. rewrite f1.
  destruct (isSpace c); [exact IH|].
  destruct r as [|d r1]; [reflexivity|].
  cbn [mapBytes]. rewrite f2.
  destruct (isSpace2 c d); [exact (IH1 _ _ eq_refl)|].
  destruct r1 as [|e r2]; [reflexivity|].
  cbn [mapBytes]. rewrite f3.
  destruct (isSpace3 c d e); [exact (IH2 _ _ _ eq_refl) | reflexivity].
Qed.

Lemma isSpaceRune_mapBytes (s : string) :
  isSpaceRune (mapBytes f s) = isSpaceRune s.
Proof.
  destruct s as [|c [|d [|e [|g r]]]]; cbn [mapBytes isSpaceRune];
    auto using f1, f2, f3.
Qed.

Lemma trimRight_mapBytes (s : string) :
  trimRight (mapBytes f s) = mapBytes f (trimRight s).
Proof.
  induction s as [|c r IH]; [reflexivity|].
  cbn [mapBytes trimRight]. rewrite IH.
  change (String (f c) (mapBytes f (trimRight r)))
    with (mapBytes f (String c (trimRight r))).
  rewrite isSpaceRune_mapBytes.
  destruct (isSpaceRune (String c (trimRight r))); reflexivity.
Qed.

End MapTrim.

Lemma trimLeft_ToUpper (s : string) : trimLeft (ToUpper s) = ToUpper (trimLeft s).
Proof.
  apply trimLeft_mapBytes;
    [apply isSpace_upperByte | apply isSpace2_upperByte | apply isSpace3_upperByte].
Qed.

Lemma trimRight_ToUpper (s : string) : trimRight (ToUpper s) = ToUpper (trimRight s).
Proof.
  apply trimRight_mapBytes;
    [apply isSpace_upperByte | apply isSpace2_upperByte | apply isSpace3_upperByte].
Qed.

Lemma TrimSpace_ToUpper (s : string) : TrimSpace (ToUpper s) = ToUpper (TrimSpace s).
Proof. unfold TrimSpace. rewrite trimLeft_ToUpper. apply trimRight_ToUpper. Qed.

Lemma trimRight_idem (s : string) : trimRight (trimRight s) = trimRight s.
Proof.
  induction s as [|c r IH]; [reflexivity|].
  cbn [trimRight].
  destruct (isSpaceRune (String c (trimRight r))) eqn:E; [reflexivity|].
  cbn [trimRight]. rewrite IH, E. reflexivity.
Qed.

Lemma trimRight_cons (s : string) (d : ascii) (t : string) :
  trimRight s = String d t -> exists r, s = String d r /\ t = trimRight r.
Proof.
  destruct s as [|c r]; [discriminate|]. cbn [trimRight].
  destruct (isSpaceRune (String c (trimRight r))); [discriminate|].
  intros [= -> <-]. eauto.
Qed.

Lemma trimLeft_length (s : string) : (String.length (trimLeft s) <= String.length s)%nat.
Proof.
  induction s as [|c r IH IH1 IH2] using string_ind3; [reflexivity|].
  cbn [trimLeft]. destruct (isSpace c); [cbn [String.length]; lia|].
  destruct r as [|d r1]; [reflexivity|].
  destruct (isSpace2 c d);
    [specialize (IH1 _ _ eq_refl); cbn [String.length]; lia|].
  destruct r1 as [|e r2]; [reflexivity|].
  destruct (isSpace3 c d e);
    [specialize (IH2 _ _ _ eq_refl); cbn [String.length]; lia | reflexivity].
Qed.

Lemma trimLeft_leftTrimmed (s : string) : leftTrimmed (trimLeft s).
Proof.
  unfold leftTrimmed.
  induction s as [|c r IH IH1 IH2] using string_ind3; [reflexivity|].
  cbn [trimLeft]. destruct (isSpace c) eqn:E1; [exact IH|].
  destruct r as [|d r1]; [cbn; rewrite E1; reflexivity|].
  destruct (isSpace2 c d) eqn:E2; [exact (IH1 _ _ eq_refl)|].
  destruct r1 as [|e r2]; [cbn; rewrite E1, E2; reflexivity|].
  destruct (isSpace3 c d e) eqn:E3; [exact (IH2 _ _ _ eq_refl)|].
  cbn. rewrite E1, E2, E3. reflexivity.
Qed.

Lemma trimLeft_fixed (s : string) : leftTrimmed s -> trimLeft s = s.
Proof.
  unfold leftTrimmed. destruct s as [|c r]; [reflexivity|].
  cbn [startsSpace trimLeft]. intros H.
  destruct (isSpace c); [discriminate|].
  destruct r as [|d r1]; [reflexivity|].
  destruct (isSpace2 c d); [discriminate|].
  destruct r1 as [|e r2]; [reflexivity|].
  destruct (isSpace3 c d e); [discriminate | reflexivity].
Qed.

Lemma trimLeft_fixed_iff (s : string) : trimLeft s = s <-> leftTrimmed s.
Proof.
  split; [|apply trimLeft_fixed].
  intros <-. apply trimLeft_leftTrimmed.
Qed.

Lemma trimRight_leftTrimmed (s : string) : leftTrimmed s -> leftTrimmed (trimRight s).
Proof.
  unfold leftTrimmed. intros H.
  destruct (trimRight s) as [|c t] eqn:E; [reflexivity|].
  apply trimRight_cons in E as (r & -> & ->).
  cbn [startsSpace] in *.
  destruct (isSpace c); [discriminate|]. cbn [orb] in *.
  destruct (trimRight r) as [|d t1] eqn:E1; [reflexivity|].
  apply trimRight_cons in E1 as (r1 & -> & ->).
  destruct (isSpace2 c d); [discriminate|]. cbn [orb] in *.
  destruct (trimRight r1) as [|e t2] eqn:E2; [reflexivity|].
  apply trimRight_cons in E2 as (r2 & -> & ->). exact H.
Qed.

Lemma TrimSpace_idem (s : string) : TrimSpace (TrimSpace s) = TrimSpace s.
Proof.
  unfold TrimSpace.
  rewrite (trimLeft_fixed (trimRight (trimLeft s))).
  - apply trimRight_idem.
  - apply trimRight_leftTrimmed, trimLeft_leftTrimmed.
Qed.

(** *** Plain bytes: ASCII and not white space *)

Lemma isSpace2_high (c d : ascii) :
  isSpace2 c d = true -> 128 <= byteval c /\ 128 <= byteval d.
Proof.
  unfold isSpace2. rewrite andb_true_iff, orb_true_iff, !Z.eqb_eq. lia.
Qed.

Lemma isSpace3_high (c d e : ascii) :
  isSpace3 c d e = true -> 128 <= byteval c /\ 128 <= byteval d /\ 128 <= byteval e.
Proof.
  unfold isSpace3.
  rewrite !orb_true_iff, !andb_true_iff, !orb_true_iff, !andb_true_iff,
    !Z.eqb_eq, !Z.leb_le.
  lia.
Qed.

Lemma isPlain_spec (c : ascii) :
  isPlain c = true <-> isSpace c = false /\ byteval c < 128.
Proof.
  unfold isPlain. rewrite andb_true_iff, negb_true_iff, Z.ltb_lt. reflexivity.
Qed.

Lemma isPlain_not_space (c : ascii) : isPlain c = true -> isSpace c = false.
Proof. intros H. apply isPlain_spec in H. tauto. Qed.

Lemma isSpace2_plain_l (c d : ascii) : isPlain c = true -> isSpace2 c d = false.
Proof.
  intros H. apply isPlain_spec in H. destruct (isSpace2 c d) eqn:E; [|reflexivity].
  apply isSpace2_high in E. lia.
Qed.

Lemma isSpace2_plain_r (c d : ascii) : isPlain d = true -> isSpace2 c d = false.
Proof.
  intros H. apply isPlain_spec in H. destruct (isSpace2 c d) eqn:E; [|reflexivity].
  apply isSpace2_high in E. lia.
Qed.

Lemma isSpace3_plain_l (c d e : ascii) : isPlain c = true -> isSpace3 c d e = false.
Proof.
  intros H. apply isPlain_spec in H. destruct (isSpace3 c d e) eqn:E; [|reflexivity].
  apply isSpace3_high in E. lia.
Qed.

Lemma isSpace3_plain_m (c d e : ascii) : isPlain d = true -> isSpace3 c d e = false.
Proof.
  intros H. apply isPlain_spec in H. destruct (isSpace3 c d e) eqn:E; [|reflexivity].
  apply isSpace3_high in E. lia.
Qed.

Lemma isSpace3_plain_r (c d e : ascii) : isPlain e = true -> isSpace3 c d e = false.
Proof.
  intros H. apply isPlain_spec in H. destruct (isSpace3 c d e) eqn:E; [|reflexivity].
  apply isSpace3_high in E. lia.
Qed.

(** Nothing is trimmed in front of a plain byte, nor behind one. *)
Lemma startsSpace_plain (c : ascii) (r : string) :
  isPlain c = true -> startsSpace (String c r) = false.
Proof.
  intros H. cbn [startsSpace]. rewrite (isPlain_not_space _ H). cbn [orb].
  destruct r as [|d r1]; [reflexivity|].
  rewrite (isSpace2_plain_l c d H). cbn [orb].
  destruct r1 as [|e r2]; [reflexivity|]. apply isSpace3_plain_l, H.
Qed.

Lemma trimLeft_plain (c : ascii) (r : string) :
  isPlain c = true -> trimLeft (String c r) = String c r.
Proof. intros H. apply trimLeft_fixed, startsSpace_plain, H. Qed.

Lemma isSpaceRune_plain_end (s : string) (c : ascii) :
  isPlain c = true -> isSpaceRune (s ++ String c "") = false.
Proof.
  intros H. destruct s as [|a [|b [|d r]]].
  - apply isPlain_not_space, H.
  - apply isSpace2_plain_r, H.
  - apply isSpace3_plain_r, H.
  - destruct r; reflexivity.
Qed.

Lemma trimRight_nonspace_end (s : string) (c : ascii) :
  isPlain c = true ->
  trimRight (s ++ String c "") = (s ++ String c "")%string.
Proof.
  intros Hc. induction s as [|a r IH].
  - change (trimRight (String c "") = String c ""). cbn [trimRight isSpaceRune].
    rewrite (isPlain_not_space _ Hc). reflexivity.
  - change (trimRight (String a (r ++ String c "")) = String a (r ++ String c "")).
    cbn [trimRight]. rewrite IH.
    change (String a (r ++ String c "")) with (String a r ++ String c "")%string.
    rewrite (isSpaceRune_plain_end _ _ Hc). reflexivity.
Qed.

Lemma isSpaceRune_plain_head (c : ascii) (t : string) :
  isPlain c = true -> isSpaceRune (String c t) = false.
Proof.
  intros H. destruct t as [|d [|e [|g r]]]; cbn [isSpaceRune].
  - apply isPlain_not_space, H.
  - apply isSpace2_plain_l, H.
  - apply isSpace3_plain_l, H.
  - reflexivity.
Qed.

Lemma trimRight_plain_cons (c : ascii) (t : string) :
  isPlain c = true -> trimRight t = t -> trimRight (String c t) = String c t.
Proof.
  intros H E. cbn [trimRight]. rewrite E, (isSpaceRune_plain_head _ _ H). reflexivity.
Qed.

(** An ASCII byte in front of more text does not complete a white-space
    rune. *)
Lemma isSpaceRune_ascii_head (c : ascii) (t : string) :
  byteval c < 128 -> t <> "" -> isSpaceRune (String c t) = false.
Proof.
  intros H Ht. destruct t as [|d [|e [|g r]]]; cbn [isSpaceRune].
  - contradiction.
  - destruct (isSpace2 c d) eqn:E; [|reflexivity]. apply isSpace2_high in E. lia.
  - destruct (isSpace3 c d e) eqn:E; [|reflexivity]. apply isSpace3_high in E. lia.
  - reflexivity.
Qed.

Lemma trimRight_ascii_cons (c : ascii) (t : string) :
  byteval c < 128 -> t <> "" -> trimRight t = t -> trimRight (String c t) = String c t.
Proof.
  intros H Ht E. cbn [trimRight]. rewrite E, (isSpaceRune_ascii_head _ _ H Ht). reflexivity.
Qed.

(** [Fields] over a plain byte and over a blank. *)
Lemma fieldsFrom_plain (cur : option string) (c : ascii) (r : string) :
  isPlain c = true ->
  fieldsFrom cur (String c r)
  = fieldsFrom (Some (match cur with
                      | Some w => (w ++ String c "")%string
                      | None => String c ""
                      end)) r.
Proof.
  intros H. cbn [fieldsFrom]. rewrite (isPlain_not_space _ H).
  destruct r as [|d r1]; [reflexivity|].
  rewrite (isSpace2_plain_l c d H).
  destruct r1 as [|e r2]; [reflexivity|].
  rewrite (isSpace3_plain_l c d e H). reflexivity.
Qed.

Lemma fieldsFrom_blank (cur : option string) (r : string) :
  fieldsFrom cur (String " " r)
  = match cur with Some w => w :: fieldsFrom None r | None => fieldsFrom None r end.
Proof. reflexivity. Qed.

(** Text that starts and ends with a plain byte is trimmed already. *)
Lemma TrimSpace_plain_ends (c d : ascii) (s : string) :
  isPlain c = true -> isPlain d = true ->
  TrimSpace (String c (s ++ String d "")) = String c (s ++ String d "").
Proof.
  intros Hc Hd. unfold TrimSpace. rewrite (trimLeft_plain _ _ Hc).
  apply (trimRight_nonspace_end (String c s) d Hd).
Qed.

Lemma isHexDigit_plain (c : ascii) : isHexDigit c = true -> isPlain c = true.
Proof.
  destruct c as [[] [] [] [] [] [] [] []]; vm_compute; intros H;
    try reflexivity; discriminate H.
Qed.

Lemma normalizeMAC_canonical (s : string) :
  Db.normalizeMAC (ToUpper (TrimSpace s)) = ToUpper (TrimSpace s).
Proof.
  unfold Db.normalizeMAC.
  rewrite TrimSpace_ToUpper, TrimSpace_idem. apply ToUpper_idem.
Qed.

Lemma normalizeMAC_idem (s : string) :
  Db.normalizeMAC (Db.normalizeMAC s) = Db.normalizeMAC s.
Proof. apply normalizeMAC_canonical. Qed.

End StringFacts.

(** ** GPS state: the text recorded with an observation *)

Section GpsFacts.
Import Gps.





End GpsFacts.

(** ** The type classifier *)

Section ClassifierFacts.
Import Types.

Lemma detectIn_app (svc : gset string) (pre l : list DeviceTypePattern)
      (mfg : list manufacturerEntry) (name : string) :
  detectIn svc pre mfg name = "" ->
  detectIn svc (pre ++ l) mfg name = detectIn svc l mfg name.
Proof.
  induction pre as [|p pre IH]; [reflexivity|].
  cbn [detectIn app]. intros H.
  destruct (String.eqb (Name p) "") eqn:En; [exact (IH H)|].
  destruct (negb (String.eqb (RequireServiceUUID p) "") &&
            negb (bool_decide (ToUpper (RequireServiceUUID p) ∈ svc))); [exact (IH H)|].
  apply String.eqb_neq in En.
  destruct (ibeaconMatches p mfg); [contradiction|].
  destruct (manufacturer5BMatches p mfg); [contradiction|].
  destruct (nameBase645BMatches p name); [contradiction|].
  exact (IH H).
Qed.

Lemma findManufacturerBytes_skip (before l : list manufacturerEntry) (c : Z) :
  Forall (fun e => CompanyID e <> c) before ->
  findManufacturerBytes (before ++ l) c = findManufacturerBytes l c.
Proof.
  induction 1 as [|e before He _ IH]; [reflexivity|].
  cbn [findManufacturerBytes app].
  destruct (Z.eqb_spec (CompanyID e) c); [contradiction|]. exact IH.
Qed.

Lemma DetectTypedDevice_detectIn (ps : list DeviceTypePattern) (uuids : list string)
      (mfg : list manufacturerEntry) (name : string) :
  DetectTypedDevice (Some {| Types := ps |}) uuids mfg name
  = detectIn (svcSetOf uuids) ps mfg name.
Proof. unfold DetectTypedDevice. cbn [Types]. destruct ps; reflexivity. Qed.

(** C9. With the pattern "cokeon" (iBeacon trigger: company 76, UUID
    8AEFB031-6C32-486F-825B-E26FA193487D, major 42, minor 7) in the catalog
    and the manufacturer TLV (76, 02 15 8A EF ... 00 2A 00 07 C5) in the
    observation, the classifier returns exactly "cokeon", provided no earlier
    catalog entry fires and no earlier TLV carries company 76: the payload
    starts with 0x02 0x15, its bytes 2..17 format to the pattern UUID, and the
    big-endian 16-bit fields at offsets 18 and 20 are 42 and 7. *)
Theorem DetectTypedDevice_cokeon_ibeacon
        (pre post : list DeviceTypePattern) (before after : list manufacturerEntry)
        (uuids : list string) (name : string) :
  Forall (fun e => CompanyID e <> 76) before ->
  DetectTypedDevice (Some {| Types := pre |}) uuids (before ++ cokeonEntry :: after) name = "" ->
  DetectTypedDevice (Some {| Types := pre ++ cokeon :: post |}) uuids
                    (before ++ cokeonEntry :: after) name = "cokeon"
  /\ parseHexBytes (DataHex cokeonEntry) = cokeonPayload
  /\ nth 0 cokeonPayload 0 = 0x02 /\ nth 1 cokeonPayload 0 = 0x15
  /\ formatUUID (slice cokeonPayload 2 18) = UUID (IBeacon cokeon)
  /\ BigEndianUint16 (slice cokeonPayload 18 20) = Major (IBeacon cokeon)
  /\ BigEndianUint16 (slice cokeonPayload 20 22) = Minor (IBeacon cokeon).
Proof.
  intros Hbefore Hpre.
  split; [|repeat split; reflexivity].
  rewrite DetectTypedDevice_detectIn in *.
  rewrite detectIn_app by exact Hpre.
  cbn [detectIn]. 
  replace (String.eqb (Name cokeon) "") with false by reflexivity.
  replace (negb (String.eqb (RequireServiceUUID cokeon) "")) with false by reflexivity.
  cbn [andb].
  assert (Hm : ibeaconMatches cokeon (before ++ cokeonEntry :: after) = true).
  { unfold ibeaconMatches.
    rewrite findManufacturerBytes_skip by exact Hbefore.
    reflexivity. }
  rewrite Hm. reflexivity.
Qed.

(** The scenario itself: the catalog holds only "cokeon", the observation
    only the Apple TLV. *)
Lemma DetectTypedDevice_cokeon_witness :
  DetectTypedDevice (Some {| Types := [cokeon] |}) [] [cokeonEntry] "" = "cokeon".
Proof.
  apply (DetectTypedDevice_cokeon_ibeacon [] [] [] [] [] "").
  - constructor.
  - reflexivity.
Defined.

End ClassifierFacts.

(** ** Store facade: GATT characteristics and GPS history *)

Section StoreFacts.
Import Db.

Lemma eqb_false_of_neq (a b : string) : a <> b -> String.eqb a b = false.
Proof. apply String.eqb_neq. Qed.

(** C6. On an existing row, an upsert that passes nulls for both handles, the
    flags JSON, the value hex and the value ASCII keeps the stored values of
    those five fields, while read_error and last_read_at take the values of
    the call (a null read_error included); rows under other keys stay as
    they are.  In general each of the five fields takes the new value when
    one is given. *)
Theorem UpsertGattCharacteristic_coalesce
        (p : GattCharacteristicParams) (s : Store) (old : GattCharacteristic) :
  gattKeyed p ->
  gatt_characteristics s !! gattKey p = Some old ->
  let s' := UpsertGattCharacteristic p s in
  (exists row,
      gatt_characteristics s' !! gattKey p = Some row
      /\ gc_service_handle row = coalesce (gp_ServiceHandle p) (gc_service_handle old)
      /\ gc_char_handle row = coalesce (gp_CharHandle p) (gc_char_handle old)
      /\ gc_flags_json row = coalesce (gp_FlagsJSON p) (gc_flags_json old)
      /\ gc_value_hex row = coalesce (gp_ValueHex p) (gc_value_hex old)
      /\ gc_value_ascii row = coalesce (gp_ValueASCII p) (gc_value_ascii old)
      /\ gc_read_error row = gp_ReadError p
      /\ gc_last_read_at row = Some (gp_LastReadAt p)
      /\ (gp_ServiceHandle p = None -> gp_CharHandle p = None -> gp_FlagsJSON p = None ->
          gp_ValueHex p = None -> gp_ValueASCII p = None ->
          gc_service_handle row = gc_service_handle old
          /\ gc_char_handle row = gc_char_handle old
          /\ gc_flags_json row = gc_flags_json old
          /\ gc_value_hex row = gc_value_hex old
          /\ gc_value_ascii row = gc_value_ascii old))
  /\ (forall k, k <> gattKey p -> gatt_characteristics s' !! k = gatt_characteristics s !! k).
Proof.
  intros (Hm & Hs & Hc) Hold s'. subst s'. unfold UpsertGattCharacteristic.
  rewrite (eqb_false_of_neq _ _ Hm), (eqb_false_of_neq _ _ Hs), (eqb_false_of_neq _ _ Hc).
  cbn [orb]. fold (gattKey p). rewrite Hold.
  cbn [gatt_characteristics withGattCharacteristics]. split.
  - eexists. split; [apply lookup_insert_eq|].
    cbn. repeat (split; [reflexivity|]).
    intros -> -> -> -> ->. repeat split; reflexivity.
  - intros k Hk. apply lookup_insert_ne. congruence.
Qed.


(** A first upsert stores handles, flags and value; the second call passes
    nulls for them and a read error. *)
Lemma UpsertGattCharacteristic_witness :
  exists row,
    gatt_characteristics
      (UpsertGattCharacteristic gattNullCall (UpsertGattCharacteristic gattFirstCall emptyStore))
      !! gattKey gattNullCall = Some row
    /\ gc_value_hex row = Some "64"
    /\ gc_read_error row = Some "timeout".
Proof.
  destruct (UpsertGattCharacteristic_coalesce gattNullCall
              (UpsertGattCharacteristic gattFirstCall emptyStore)
              {| gc_service_handle := Some 16; gc_char_handle := Some 18;
                 gc_flags_json := Some "[]"; gc_value_hex := Some "64";
                 gc_value_ascii := Some "d"; gc_read_error := None;
                 gc_last_read_at := Some "2024-01-01 00:00:05" |})
    as [(row & Hrow & _ & _ & _ & Hhex & _ & Herr & _) _].
  - repeat split; vm_compute; discriminate.
  - vm_compute. reflexivity.
  - exists row. split; [exact Hrow|]. split; [exact Hhex | exact Herr].
Defined.

Lemma Sub_lt_of_diff_lt (t u d : Z) :
  minDuration < d <= maxDuration -> t - u < d -> Sub t u < d.
Proof.
  intros [Hlo Hhi] H. unfold Sub.
  destruct (Z.ltb_spec (t - u) minDuration); [exact Hlo|].
  destruct (Z.ltb_spec maxDuration (t - u)); lia.
Qed.

Lemma historyDue_dec (c : Time) (m0 text : string) (s : Store) :
  historyDue c m0 text s \/ ~ historyDue c m0 text s.
Proof.
  unfold historyDue.
  destruct (String.eqb_spec (strAt (gpsHistLast s) (normalizeMAC m0)) (TrimSpace text));
    [|left; left; assumption].
  destruct (Z.le_gt_cases (30 * Second) (Since c (timeAt (gpsHistLastAt s) (normalizeMAC m0))));
    [left; right; left; assumption|].
  destruct (Z.eq_dec (timeAt (gpsHistLastAt s) (normalizeMAC m0)) 0);
    [left; right; right; assumption|].
  right. intros [?|[?|?]]; [contradiction | lia | contradiction].
Qed.

Lemma RecordDeviceGPSHistoryIfChanged_due
      (c w : Time) (sid : option Z) (m0 ts : string) (lat lon : option spec_float)
      (text : string) (cached : bool) (src : option string) (s : Store) :
  normalizeMAC m0 <> "" -> TrimSpace text <> "" ->
  devices s !! normalizeMAC m0 <> None ->
  historyDue c m0 text s ->
  RecordDeviceGPSHistoryIfChanged c w sid m0 ts lat lon text cached src s
  = withGpsHistory ((device_gps_history s ++ [historyRow sid m0 ts lat lon text cached src])%list)
      (<[normalizeMAC m0 := TrimSpace text]> (gpsHistLast s))
      (<[normalizeMAC m0 := w]> (gpsHistLastAt s)) s.
Proof.
  intros Hm Ht Hrow Hdue. unfold RecordDeviceGPSHistoryIfChanged.
  rewrite (eqb_false_of_neq _ _ Hm), (eqb_false_of_neq _ _ Ht).
  destruct (devices s !! normalizeMAC m0) as [r|]; [clear Hrow | contradiction].
  unfold historyDue, IsZero in *.
  destruct (String.eqb_spec (strAt (gpsHistLast s) (normalizeMAC m0)) (TrimSpace text)) as [E|E];
    [|reflexivity].
  destruct (Z.eqb_spec (timeAt (gpsHistLastAt s) (normalizeMAC m0)) 0) as [Z0|Z0];
    [reflexivity|].
  destruct (Z.ltb_spec (Since c (timeAt (gpsHistLastAt s) (normalizeMAC m0))) (30 * Second));
    [|reflexivity].
  exfalso. destruct Hdue as [H1|[H1|H1]]; [contradiction | lia | contradiction].
Qed.

Lemma RecordDeviceGPSHistoryIfChanged_not_due
      (c w : Time) (sid : option Z) (m0 ts : string) (lat lon : option spec_float)
      (text : string) (cached : bool) (src : option string) (s : Store) :
  ~ historyDue c m0 text s ->
  RecordDeviceGPSHistoryIfChanged c w sid m0 ts lat lon text cached src s = s.
Proof.
  intros Hnd. unfold RecordDeviceGPSHistoryIfChanged.
  destruct (String.eqb (normalizeMAC m0) ""); [reflexivity|].
  destruct (String.eqb (TrimSpace text) ""); [reflexivity|].
  unfold historyDue, IsZero in *.
  destruct (String.eqb_spec (strAt (gpsHistLast s) (normalizeMAC m0)) (TrimSpace text)) as [E|E];
    [|exfalso; apply Hnd; left; exact E].
  destruct (Z.eqb_spec (timeAt (gpsHistLastAt s) (normalizeMAC m0)) 0) as [Z0|Z0];
    [exfalso; apply Hnd; right; right; exact Z0|].
  destruct (Z.ltb_spec (Since c (timeAt (gpsHistLastAt s) (normalizeMAC m0))) (30 * Second));
    [reflexivity|].
  exfalso; apply Hnd; right; left; assumption.
Qed.

(** The history table refers to the devices table: for a MAC without a
    device row the insert is refused and nothing is recorded. *)
Lemma RecordDeviceGPSHistoryIfChanged_no_row
      (c w : Time) (sid : option Z) (m0 ts : string) (lat lon : option spec_float)
      (text : string) (cached : bool) (src : option string) (s : Store) :
  devices s !! normalizeMAC m0 = None ->
  RecordDeviceGPSHistoryIfChanged c w sid m0 ts lat lon text cached src s = s.
Proof.
  intros Hrow. unfold RecordDeviceGPSHistoryIfChanged.
  destruct (String.eqb (normalizeMAC m0) ""); [reflexivity|].
  destruct (String.eqb (TrimSpace text) ""); [reflexivity|].
  rewrite Hrow.
  destruct (_ && _ && _); reflexivity.
Qed.

Lemma RecordDeviceGPSHistoryIfChanged_devices
      (c w : Time) (sid : option Z) (m0 ts : string) (lat lon : option spec_float)
      (text : string) (cached : bool) (src : option string) (s : Store) :
  devices (RecordDeviceGPSHistoryIfChanged c w sid m0 ts lat lon text cached src s)
  = devices s.
Proof.
  unfold RecordDeviceGPSHistoryIfChanged.
  destruct (String.eqb (normalizeMAC m0) ""); [reflexivity|].
  destruct (String.eqb (TrimSpace text) ""); [reflexivity|].
  destruct (_ && _ && _); [reflexivity|].
  destruct (devices s !! normalizeMAC m0); reflexivity.
Qed.

(** C7 as the specification states it fails in two places.  A text is due
    for a MAC that has no device row, and no history row appears (the table's
    foreign key refuses it): the first pass over a new device is such a call.
    And of three calls with one text, ten seconds apart, on a MAC that has a
    row, the first appends a row and the two that follow, which are less
    than 30 s apart, append none. *)
Lemma RecordDeviceGPSHistoryIfChanged_needs_device_row :
  ~ historyRuleAsStated /\ ~ historyPairAsStated.
Proof.
  split.
  - intros H.
    apply (proj2 (H (1000 * Second) (1000 * Second) (Some 1) macX stampT0 None None
                    gpsTextX false None emptyStore
                    ltac:(vm_compute; discriminate) ltac:(vm_compute; discriminate))).
    + right; right. reflexivity.
    + reflexivity.
  - intros H.
    specialize (H (1010 * Second) (1010 * Second) (1020 * Second) (1020 * Second)
                  (Some 1) macX stampT0 None None gpsTextX false None
                  (RecordDeviceGPSHistoryIfChanged (1000 * Second) (1000 * Second)
                     (Some 1) macX stampT0 None None gpsTextX false None storeBle)
                  ltac:(vm_compute; discriminate) ltac:(vm_compute; discriminate)
                  ltac:(vm_compute; discriminate) ltac:(vm_compute; discriminate)
                  ltac:(vm_compute; discriminate) ltac:(vm_compute; discriminate)
                  ltac:(vm_compute; reflexivity)).
    vm_compute in H. discriminate H.
Qed.

(** C7, amended.  For a MAC that has a device row and a GPS text, neither of
    them blank, [RecordDeviceGPSHistoryIfChanged] appends one history row
    (and refreshes the cache) exactly when the text differs from the cached
    text of the MAC, or the cached write is at least 30 s old, or no write
    was recorded yet; otherwise, and for a MAC without a device row, it
    changes nothing.  Hence of two calls with the same text whose clocks are
    less than 30 s apart the second appends nothing when the first appended:
    the two leave exactly one row, the one of the first call, whenever the
    first is due, and never more than one. *)
Theorem RecordDeviceGPSHistoryIfChanged_iff_due
        (m0 text : string) (s : Store) :
  normalizeMAC m0 <> "" -> TrimSpace text <> "" ->
  (forall (c w : Time) sid ts lat lon cached src,
      let s' := RecordDeviceGPSHistoryIfChanged c w sid m0 ts lat lon text cached src s in
      (devices s !! normalizeMAC m0 <> None ->
       (historyDue c m0 text s ->
        device_gps_history s'
        = (device_gps_history s ++ [historyRow sid m0 ts lat lon text cached src])%list
        /\ strAt (gpsHistLast s') (normalizeMAC m0) = TrimSpace text
        /\ timeAt (gpsHistLastAt s') (normalizeMAC m0) = w)
       /\ (device_gps_history s' <> device_gps_history s <-> historyDue c m0 text s))
      /\ (~ historyDue c m0 text s -> s' = s)
      /\ (devices s !! normalizeMAC m0 = None -> s' = s))
  /\ (forall (c1 w1 c2 w2 : Time) sid1 ts1 lat1 lon1 cached1 src1 sid2 ts2 lat2 lon2 cached2 src2,
         w1 <> 0 -> c1 <= w1 -> c2 - c1 < 30 * Second ->
         let s1 := RecordDeviceGPSHistoryIfChanged c1 w1 sid1 m0 ts1 lat1 lon1 text cached1 src1 s in
         let s2 := RecordDeviceGPSHistoryIfChanged c2 w2 sid2 m0 ts2 lat2 lon2 text cached2 src2 s1 in
         (length (device_gps_history s2) <= S (length (device_gps_history s)))%nat
         /\ (devices s !! normalizeMAC m0 <> None -> historyDue c1 m0 text s ->
             device_gps_history s1
             = (device_gps_history s ++ [historyRow sid1 m0 ts1 lat1 lon1 text cached1 src1])%list
             /\ device_gps_history s2 = device_gps_history s1
             /\ length (device_gps_history s2) = S (length (device_gps_history s)))).
Proof.
  intros Hm Ht. split.
  - intros c w sid ts lat lon cached src s'. subst s'.
    split; [|split].
    + intros Hrow.
      assert (Hdue : historyDue c m0 text s ->
                   device_gps_history (RecordDeviceGPSHistoryIfChanged c w sid m0 ts lat lon text cached src s)
                   = (device_gps_history s ++ [historyRow sid m0 ts lat lon text cached src])%list
                   /\ strAt (gpsHistLast (RecordDeviceGPSHistoryIfChanged c w sid m0 ts lat lon text cached src s)) (normalizeMAC m0) = TrimSpace text
                   /\ timeAt (gpsHistLastAt (RecordDeviceGPSHistoryIfChanged c w sid m0 ts lat lon text cached src s)) (normalizeMAC m0) = w).
      { intros H. rewrite (RecordDeviceGPSHistoryIfChanged_due _ _ _ _ _ _ _ _ _ _ _ Hm Ht Hrow H).
        cbn [device_gps_history gpsHistLast gpsHistLastAt withGpsHistory].
        unfold strAt, timeAt. rewrite !lookup_insert_eq. repeat split. }
      split; [exact Hdue|]. split.
      * intros Hne. destruct (historyDue_dec c m0 text s) as [H|H]; [exact H|].
        exfalso. apply Hne. rewrite (RecordDeviceGPSHistoryIfChanged_not_due _ _ _ _ _ _ _ _ _ _ _ H).
        reflexivity.
      * intros H Heq. destruct (Hdue H) as (Happ & _). rewrite Happ in Heq.
        apply (f_equal (@length _)) in Heq. rewrite length_app in Heq. cbn in Heq. lia.
    + apply RecordDeviceGPSHistoryIfChanged_not_due.
    + apply RecordDeviceGPSHistoryIfChanged_no_row.
  - intros c1 w1 c2 w2 sid1 ts1 lat1 lon1 cached1 src1 sid2 ts2 lat2 lon2 cached2 src2
           Hw1 Hcw Hclose s1 s2.
    assert (Hone : forall c w sid ts lat lon cached src s0,
               (length (device_gps_history
                          (RecordDeviceGPSHistoryIfChanged c w sid m0 ts lat lon text cached src s0))
                <= S (length (device_gps_history s0)))%nat).
    { intros c w sid ts lat lon cached src s0.
      destruct (devices s0 !! normalizeMAC m0) as [r|] eqn:Hr.
      - destruct (historyDue_dec c m0 text s0) as [H|H].
        + rewrite (RecordDeviceGPSHistoryIfChanged_due _ _ _ _ _ _ _ _ _ _ _ Hm Ht
                     ltac:(rewrite Hr; discriminate) H).
          cbn [device_gps_history withGpsHistory]. rewrite length_app. cbn. lia.
        + rewrite (RecordDeviceGPSHistoryIfChanged_not_due _ _ _ _ _ _ _ _ _ _ _ H). lia.
      - rewrite (RecordDeviceGPSHistoryIfChanged_no_row _ _ _ _ _ _ _ _ _ _ _ Hr). lia. }
    assert (Hsecond : devices s !! normalizeMAC m0 <> None -> historyDue c1 m0 text s -> s2 = s1).
    { intros Hrow H. subst s2. apply RecordDeviceGPSHistoryIfChanged_not_due.
      subst s1. rewrite (RecordDeviceGPSHistoryIfChanged_due _ _ _ _ _ _ _ _ _ _ _ Hm Ht Hrow H).
      unfold historyDue. cbn [gpsHistLast gpsHistLastAt withGpsHistory].
      unfold strAt, timeAt. rewrite !lookup_insert_eq.
      intros [Hx|[Hx|Hx]]; [congruence| |contradiction].
      assert (Sub c2 w1 < 30 * Second).
      { apply Sub_lt_of_diff_lt; [split; vm_compute; [reflexivity | discriminate] | lia]. }
      unfold Since in Hx. lia. }
    split.
    + destruct (devices s !! normalizeMAC m0) as [r|] eqn:Hr.
      * destruct (historyDue_dec c1 m0 text s) as [H|H].
        -- rewrite (Hsecond ltac:(discriminate) H). apply Hone.
        -- assert (s1 = s) as E by (apply RecordDeviceGPSHistoryIfChanged_not_due; exact H).
           subst s2. rewrite E. apply Hone.
      * assert (s1 = s) as E by (apply RecordDeviceGPSHistoryIfChanged_no_row; exact Hr).
        subst s2. rewrite E. apply Hone.
    + intros Hrow H. rewrite (Hsecond Hrow H). subst s1.
      rewrite (RecordDeviceGPSHistoryIfChanged_due _ _ _ _ _ _ _ _ _ _ _ Hm Ht Hrow H).
      cbn [device_gps_history withGpsHistory]. rewrite length_app. cbn.
      split; [reflexivity|]. split; [reflexivity | lia].
Qed.

(** A first call on a fresh cache for a device that has its row, a second
    one ten seconds later. *)
Lemma RecordDeviceGPSHistoryIfChanged_witness :
  device_gps_history
    (RecordDeviceGPSHistoryIfChanged (1010 * Second) (1010 * Second)
       (Some 1) macX "2024-01-01 00:00:10" None None gpsTextX false None
       (RecordDeviceGPSHistoryIfChanged (1000 * Second) (1000 * Second)
          (Some 1) macX "2024-01-01 00:00:00" None None gpsTextX false None storeBle))
  = [historyRow (Some 1) macX "2024-01-01 00:00:00" None None gpsTextX false None].
Proof.
  assert (Hm : normalizeMAC macX <> "") by (vm_compute; discriminate).
  assert (Ht : TrimSpace gpsTextX <> "") by (vm_compute; discriminate).
  destruct (proj2 (RecordDeviceGPSHistoryIfChanged_iff_due macX gpsTextX storeBle Hm Ht)
              (1000 * Second) (1000 * Second) (1010 * Second) (1010 * Second)
              (Some 1) "2024-01-01 00:00:00" None None false None
              (Some 1) "2024-01-01 00:00:10" None None false None)
    as (_ & H).
  - vm_compute; discriminate.
  - vm_compute; discriminate.
  - vm_compute; reflexivity.
  - destruct H as (H1 & H2 & _).
    + vm_compute; discriminate.
    + right; right. reflexivity.
    + rewrite H2. exact H1.
Defined.

(** ** Store facade: SaveDevice *)

Section SaveDeviceFacts.

Variable parse : string -> option Time.

Lemma SaveDevice_update (nowStr : string) (p : SaveParams) (s : Store) (r : Device) :
  normalizeMAC (MAC p) <> "" -> UpdateExisting p = true ->
  devices s !! normalizeMAC (MAC p) = Some r ->
  SaveDevice parse nowStr p s
  = (None, withDevices
             (<[normalizeMAC (MAC p) :=
                  updatedRow parse p (match Timestamp p with Some t => t | None => nowStr end) r]>
                (devices s)) (nextDeviceID s) s).
Proof.
  intros Hm Hu Hr. unfold SaveDevice.
  rewrite (eqb_false_of_neq _ _ Hm), Hu, Hr. reflexivity.
Qed.

(** Without a row to update the call ends in the insert statement, which
    SQLite refuses. *)
Lemma SaveDevice_refused (nowStr : string) (p : SaveParams) (s : Store) :
  normalizeMAC (MAC p) <> "" ->
  UpdateExisting p = false \/ devices s !! normalizeMAC (MAC p) = None ->
  SaveDevice parse nowStr p s = (Some insertRefused, s).
Proof.
  intros Hm H. unfold SaveDevice.
  rewrite (eqb_false_of_neq _ _ Hm).
  destruct H as [-> | ->]; [reflexivity|].
  destruct (UpdateExisting p); reflexivity.
Qed.

Lemma SaveDevice_norow (nowStr : string) (p : SaveParams) (s : Store) :
  devices s !! normalizeMAC (MAC p) = None ->
  snd (SaveDevice parse nowStr p s) = s.
Proof.
  intros Hr. unfold SaveDevice.
  destruct (String.eqb (normalizeMAC (MAC p)) ""); [reflexivity|].
  rewrite Hr. destruct (UpdateExisting p); reflexivity.
Qed.

Lemma SaveDevice_other (nowStr : string) (p : SaveParams) (s : Store) (k : string) :
  k <> normalizeMAC (MAC p) ->
  devices (snd (SaveDevice parse nowStr p s)) !! k = devices s !! k.
Proof.
  intros Hk. unfold SaveDevice.
  destruct (String.eqb (normalizeMAC (MAC p)) ""); [reflexivity|].
  destruct (if UpdateExisting p then devices s !! normalizeMAC (MAC p) else None);
    [|reflexivity].
  cbn. apply lookup_insert_ne. congruence.
Qed.

(** What a call does to the row of its own MAC. *)
Lemma SaveDevice_row (nowStr : string) (p : SaveParams) (s : Store) (r : Device) :
  devices s !! normalizeMAC (MAC p) = Some r ->
  devices (snd (SaveDevice parse nowStr p s)) !! normalizeMAC (MAC p)
  = Some (if negb (String.eqb (normalizeMAC (MAC p)) "") && UpdateExisting p
          then updatedRow parse p (match Timestamp p with Some t => t | None => nowStr end) r
          else r).
Proof.
  intros Hr. unfold SaveDevice.
  destruct (String.eqb (normalizeMAC (MAC p)) ""); [exact Hr|].
  destruct (UpdateExisting p); [rewrite Hr|]; cbn.
  - apply lookup_insert_eq.
  - exact Hr.
Qed.

Lemma mergeDeviceType_cases (stored0 : option string) (incoming0 : string) :
  let stored := TrimSpace (nullString stored0) in
  let incoming := TrimSpace incoming0 in
  incoming <> "" ->
  (stored = "" -> mergeDeviceType stored0 (Some incoming0) = incoming)
  /\ (stored <> "" -> EqualFold stored "dual" = false -> EqualFold stored incoming = false ->
      mergeDeviceType stored0 (Some incoming0) = "dual")
  /\ (stored <> "" -> EqualFold stored "dual" = false -> EqualFold stored incoming = true ->
      mergeDeviceType stored0 (Some incoming0) = stored).
Proof.
  intros stored incoming Hi. unfold mergeDeviceType. fold stored. fold incoming.
  rewrite (eqb_false_of_neq _ _ Hi).
  split; [|split].
  - intros ->. reflexivity.
  - intros Hs Hd Hne. rewrite (eqb_false_of_neq _ _ Hs), Hd, Hne.
    destruct (EqualFold incoming "dual"); reflexivity.
  - intros Hs Hd He. rewrite (eqb_false_of_neq _ _ Hs), Hd, He.
    destruct (EqualFold incoming "dual") eqn:Ed; [|reflexivity].
    exfalso. unfold EqualFold in *.
    apply String.eqb_eq in He, Ed. rewrite He, Ed in Hd.
    rewrite String.eqb_refl in Hd. discriminate.
Qed.

Lemma mergeDeviceType_dual (stored0 incoming : option string) :
  EqualFold (TrimSpace (nullString stored0)) "dual" = true ->
  mergeDeviceType stored0 incoming = TrimSpace (nullString stored0).
Proof.
  intros Hd. unfold mergeDeviceType.
  destruct incoming as [i|]; [|reflexivity].
  destruct (String.eqb (TrimSpace i) ""); [reflexivity|].
  destruct (String.eqb_spec (TrimSpace (nullString stored0)) "") as [E|E].
  - rewrite E in Hd. discriminate.
  - rewrite Hd. reflexivity.
Qed.

(** C3. [SaveDevice] with update_existing on an existing row merges the
    incoming family into the stored one: an empty stored family takes the
    incoming value; a stored "dual" is kept whatever comes in; an incoming
    non-empty family that differs from a stored non-dual family makes the
    stored family "dual" (and one that equals it leaves it).  In particular
    "ble" followed by a save with "classic" is stored as "dual" and a further
    save with "ble" leaves "dual". *)
Theorem SaveDevice_family_merge
        (nowStr : string) (p : SaveParams) (s : Store) (r : Device) :
  normalizeMAC (MAC p) <> "" -> UpdateExisting p = true ->
  devices s !! normalizeMAC (MAC p) = Some r ->
  exists r',
    devices (snd (SaveDevice parse nowStr p s)) !! normalizeMAC (MAC p) = Some r'
    /\ (let stored := TrimSpace (nullString (device_type r)) in
        (EqualFold stored "dual" = true -> device_type r' = Some stored)
        /\ (forall incoming0, DeviceType p = Some incoming0 ->
            let incoming := TrimSpace incoming0 in
            incoming <> "" ->
            (stored = "" -> device_type r' = Some incoming)
            /\ (stored <> "" -> EqualFold stored "dual" = false ->
                EqualFold stored incoming = false -> device_type r' = Some "dual")
            /\ (stored <> "" -> EqualFold stored "dual" = false ->
                EqualFold stored incoming = true -> device_type r' = Some stored)))
    /\ (device_type r = Some "dual" -> device_type r' = Some "dual")
    /\ (device_type r = Some "ble" -> DeviceType p = Some "classic" ->
        device_type r' = Some "dual"
        /\ forall nowStr2 p2,
            normalizeMAC (MAC p2) = normalizeMAC (MAC p) -> UpdateExisting p2 = true ->
            DeviceType p2 = Some "ble" ->
            exists r'',
              devices (snd (SaveDevice parse nowStr2 p2 (snd (SaveDevice parse nowStr p s))))
                !! normalizeMAC (MAC p) = Some r''
              /\ device_type r'' = Some "dual").
Proof.
  intros Hm Hu Hr.
  pose proof (SaveDevice_row nowStr p s r Hr) as Hrow.
  rewrite (eqb_false_of_neq _ _ Hm), Hu in Hrow. cbn [negb andb] in Hrow.
  eexists. split; [exact Hrow|].
  assert (Hdual : forall q ts r0, EqualFold (TrimSpace (nullString (device_type r0))) "dual" = true ->
                    device_type (updatedRow parse q ts r0)
                    = Some (TrimSpace (nullString (device_type r0)))).
  { intros q ts r0 Hd. cbn [updatedRow device_type].
    rewrite (mergeDeviceType_dual _ _ Hd).
    destruct (String.eqb_spec (TrimSpace (nullString (device_type r0))) "") as [E|E];
      [rewrite E in Hd; discriminate | reflexivity]. }
  split; [|split].
  - cbn zeta. split.
    + intros Hd. apply Hdual. exact Hd.
    + intros incoming0 Hp Hi. cbn [updatedRow device_type]. rewrite Hp.
      destruct (mergeDeviceType_cases (device_type r) incoming0 Hi) as (H1 & H2 & H3).
      split; [|split].
      * intros Hs. rewrite (H1 Hs). rewrite (eqb_false_of_neq _ _ Hi). reflexivity.
      * intros Hs Hd Hne. rewrite (H2 Hs Hd Hne). reflexivity.
      * intros Hs Hd He. rewrite (H3 Hs Hd He). rewrite (eqb_false_of_neq _ _ Hs). reflexivity.
  - intros Hd. rewrite (Hdual p _ r); rewrite Hd; reflexivity.
  - intros Hble Hcl.
    assert (H1 : device_type (updatedRow parse p
                   (match Timestamp p with Some t => t | None => nowStr end) r) = Some "dual").
    { cbn [updatedRow device_type]. rewrite Hble, Hcl. reflexivity. }
    split; [exact H1|].
    intros nowStr2 p2 Hm2 Hu2 Hp2.
    pose proof (SaveDevice_row nowStr2 p2 (snd (SaveDevice parse nowStr p s)) _
                  ltac:(rewrite Hm2; exact Hrow)) as Hrow2.
    rewrite Hm2 in Hrow2. rewrite (eqb_false_of_neq _ _ Hm), Hu2 in Hrow2.
    cbn [negb andb] in Hrow2.
    eexists. split; [exact Hrow2|].
    rewrite (Hdual p2 _ _); rewrite H1; reflexivity.
Qed.

End SaveDeviceFacts.

Section DetectionCount.

Variable parse : string -> option Time.

Lemma int64_id (x : Z) : - 2 ^ 63 <= x < 2 ^ 63 -> int64 x = x.
Proof.
  intros H. unfold int64.
  change (2 ^ 63) with 9223372036854775808 in *.
  change (2 ^ 64) with 18446744073709551616.
  rewrite Z.mod_small; lia.
Qed.

Lemma Sub_ge_iff (t u d : Z) :
  minDuration < d <= maxDuration -> (d <= Sub t u <-> d <= t - u).
Proof.
  intros [Hlo Hhi]. unfold Sub.
  destruct (Z.ltb_spec (t - u) minDuration); [lia|].
  destruct (Z.ltb_spec maxDuration (t - u)); lia.
Qed.

Lemma halfHour_range : minDuration < 30 * Minute <= maxDuration.
Proof. split; vm_compute; [reflexivity | discriminate]. Qed.

(** The two outcomes of the window test on well-formed stamps. *)
Lemma bumpDetection_window (count : Z) (lu ts : string) (prev cur : Time) :
  lu <> "" -> parse lu = Some prev -> parse ts = Some cur ->
  (30 * Minute <= cur - prev -> bumpDetection parse count lu ts = (int64 (count + 1), ts))
  /\ (cur - prev < 30 * Minute -> bumpDetection parse count lu ts = (count, lu)).
Proof.
  intros Hlu Hp Hc. unfold bumpDetection.
  rewrite (eqb_false_of_neq _ _ Hlu), Hp, Hc.
  pose proof (Sub_ge_iff cur prev _ halfHour_range) as Hs.
  destruct (Z.leb_spec (30 * Minute) (Sub cur prev)); split; intros; try reflexivity; lia.
Qed.

Lemma bumpDetection_bounds (count : Z) (lu ts : string) :
  - 2 ^ 63 <= count < 2 ^ 63 - 1 ->
  count <= fst (bumpDetection parse count lu ts) <= count + 1.
Proof.
  intros H. unfold bumpDetection.
  assert (int64 (count + 1) = count + 1) as E
      by (apply int64_id; change (2 ^ 63) with 9223372036854775808 in *; lia).
  clear H.
  destruct (String.eqb lu ""); [cbn [fst]; lia|].
  destruct (parse lu); [|cbn [fst]; lia].
  destruct (parse ts); [|cbn [fst]; lia].
  destruct (30 * Minute <=? Sub t0 t); cbn [fst]; lia.
Qed.

Lemma spaced_weaken_none (t : Time) (l : list Time) : spaced (Some t) l -> spaced None l.
Proof. destruct l; cbn; [trivial|]. intros [_ H]. split; [exact I | exact H]. Qed.

Lemma spaced_weaken_le (t0 t1 : Time) (l : list Time) :
  t0 <= t1 -> spaced (Some t1) l -> spaced (Some t0) l.
Proof. destruct l; cbn; [trivial|]. intros Hle [H1 H2]. split; [lia | exact H2]. Qed.

Lemma spaced_weaken (from : option Time) (t : Time) (l : list Time) :
  match from with Some t0 => t0 <= t | None => True end ->
  spaced (Some t) l -> spaced from l.
Proof.
  destruct from as [t0|]; intros H Hs.
  - exact (spaced_weaken_le _ _ _ H Hs).
  - exact (spaced_weaken_none _ _ Hs).
Qed.

Lemma halfHour_nonneg : 0 <= 30 * Minute.
Proof. vm_compute. discriminate. Qed.

Lemma spaced_all_later (t : Time) (l : list Time) :
  spaced (Some t) l -> Forall (fun x => t + 30 * Minute <= x) l.
Proof.
  revert t. induction l as [|x l IH]; intros t; cbn; [constructor|].
  intros [H1 H2]. constructor; [exact H1|].
  specialize (IH x H2). eapply Forall_impl; [exact IH|].
  cbn. intros y Hy. pose proof halfHour_nonneg. lia.
Qed.

Lemma inWindow_none_later (a : Time) (l : list Time) :
  Forall (fun x => a + 30 * Minute <= x) l -> inWindow a l = 0%nat.
Proof.
  unfold inWindow. induction 1 as [|y l Hy _ IH]; [reflexivity|].
  cbn [List.filter].
  destruct (Z.ltb_spec y (a + 30 * Minute)); [lia|].
  rewrite andb_false_r. exact IH.
Qed.

Lemma spaced_window (from : option Time) (l : list Time) (a : Time) :
  spaced from l -> (inWindow a l <= 1)%nat.
Proof.
  revert from. induction l as [|x l IH]; intros from; [cbn; lia|].
  cbn [spaced]. intros [_ Hs].
  assert (Hstep : inWindow a (x :: l)
                  = Nat.add (if (a <=? x) && (x <? a + 30 * Minute) then 1%nat else 0%nat)
                            (inWindow a l)).
  { unfold inWindow. cbn [List.filter].
    destruct ((a <=? x) && (x <? a + 30 * Minute)); reflexivity. }
  rewrite Hstep.
  destruct ((a <=? x) && (x <? a + 30 * Minute)) eqn:E.
  - apply andb_true_iff in E. destruct E as [E1 _]. apply Z.leb_le in E1.
    rewrite (inWindow_none_later a l); [lia|].
    eapply Forall_impl; [exact (spaced_all_later _ _ Hs)|].
    cbn. intros y Hy. lia.
  - specialize (IH (Some x) Hs). lia.
Qed.

Lemma lastCounted_of_row (m : string) (s : Store) (r : Device) :
  devices s !! m = Some r ->
  lastCounted parse m s
  = match last_count_update r with
    | Some lu => if String.eqb lu "" then None else parse lu
    | None => None
    end.
Proof. intros H. unfold lastCounted. rewrite H. reflexivity. Qed.

(** One stamped call either leaves count and last_count_update of [m] as
    they are, or moves last_count_update to the stamp of the call, which then
    lies at least 30 minutes after the previous one. *)
Lemma SaveDevice_step (call : string * SaveParams) (m : string) (s : Store) :
  stamped parse call ->
  let s' := snd (SaveDevice parse (fst call) (snd call) s) in
  (lastCounted parse m s' = lastCounted parse m s /\ countOf m s' = countOf m s)
  \/ (lastCounted parse m s' = Some (stampOf parse call)
      /\ match lastCounted parse m s with
         | Some t0 => t0 + 30 * Minute <= stampOf parse call
         | None => True
         end).
Proof.
  destruct call as [nowStr p]. intros [Hne [cur Hcur]] s'. subst s'.
  unfold stampText in *. cbn [fst snd] in *.
  set (ts := match Timestamp p with Some t => t | None => nowStr end) in *.
  assert (Hstamp : stampOf parse (nowStr, p) = cur).
  { unfold stampOf, stampText. cbn [fst snd]. fold ts. rewrite Hcur. reflexivity. }
  rewrite Hstamp.
  destruct (String.eqb_spec m (normalizeMAC (MAC p))) as [->|Hk].
  2:{ left. unfold lastCounted, countOf. rewrite (SaveDevice_other parse _ _ _ _ Hk). split; reflexivity. }
  destruct (String.eqb_spec (normalizeMAC (MAC p)) "") as [He|He].
  { left. unfold SaveDevice. rewrite He. cbn. split; reflexivity. }
  destruct (devices s !! normalizeMAC (MAC p)) as [r|] eqn:Hr.
  - pose proof (SaveDevice_row parse nowStr p s r Hr) as Hrow.
    rewrite (eqb_false_of_neq _ _ He) in Hrow. cbn [negb andb] in Hrow. fold ts in Hrow.
    destruct (UpdateExisting p).
    + rewrite (lastCounted_of_row _ _ _ Hrow), (lastCounted_of_row _ _ _ Hr).
      unfold countOf. rewrite Hrow, Hr.
      cbn [updatedRow last_count_update detection_count].
      unfold bumpDetection.
      destruct (last_count_update r) as [lu|]; cbn [nullString].
      * destruct (String.eqb_spec lu "") as [El|El].
        -- right. cbn [snd]. rewrite (eqb_false_of_neq _ _ Hne), Hcur. split; [reflexivity|exact I].
        -- destruct (parse lu) as [prev|] eqn:Hprev.
           ++ rewrite Hcur.
              destruct (Z.leb_spec (30 * Minute) (Sub cur prev)) as [Hge|Hlt].
              ** right. cbn [snd]. rewrite (eqb_false_of_neq _ _ Hne), Hcur.
                 split; [reflexivity|].
                 apply (Sub_ge_iff cur prev _ halfHour_range) in Hge. lia.
              ** left. cbn [fst snd]. rewrite (eqb_false_of_neq _ _ El), ?Hprev.
                 split; reflexivity.
           ++ right. cbn [snd]. rewrite (eqb_false_of_neq _ _ Hne), Hcur. split; [reflexivity|exact I].
      * right. cbn [String.eqb snd]. rewrite (eqb_false_of_neq _ _ Hne), Hcur.
        split; [reflexivity|exact I].
    + left. unfold lastCounted, countOf. rewrite Hrow, Hr. split; reflexivity.
  - left. rewrite (SaveDevice_norow parse nowStr p s Hr). split; reflexivity.
Qed.

Lemma increments_spaced (calls : list (string * SaveParams)) (m : string) (s : Store) :
  Forall (stamped parse) calls ->
  spaced (lastCounted parse m s) (increments parse m calls s).
Proof.
  intros H. revert s. induction H as [|call calls Hc _ IH]; intros s; [exact I|].
  cbn [increments].
  destruct (SaveDevice_step call m s Hc) as [[Hl Hn]|[Hl Hfrom]].
  - rewrite Hn, Z.ltb_irrefl, <- Hl. apply IH.
  - specialize (IH (snd (SaveDevice parse (fst call) (snd call) s))). rewrite Hl in IH.
    destruct (countOf m s <? countOf m (snd (SaveDevice parse (fst call) (snd call) s))).
    + cbn [spaced]. split; [exact Hfrom | exact IH].
    + apply (spaced_weaken _ (stampOf parse call)); [|exact IH].
      destruct (lastCounted parse m s); [|exact I].
      pose proof halfHour_nonneg. lia.
Qed.

(** C2. The stored detection_count of every MAC never decreases across
    [SaveDevice] calls and a call raises it by at most one.  On calls that
    carry well-formed timestamps the raises lie at least 30 minutes apart, so
    that no 30-minute window of wall-clock stamps contains two of them: an
    update whose stamp is less than 30 minutes after last_count_update leaves
    count and last_count_update alone, one that is at least 30 minutes after
    it adds one and moves last_count_update to its stamp.  The scenario "a
    device inserted at T0 has count 1, an update at T0 + 10 min leaves 1, an
    update at T0 + 35 min stores 2" is not what the code does: the insert
    statement of [SaveDevice] has one placeholder more than it has columns,
    so a call for a MAC without a row returns the error and leaves the store
    as it was.  The row comes from [InsertAdvertisement] instead, with count
    1 and no last_count_update; the update at T0 + 10 min therefore already
    stores 2 (and last_count_update = that stamp), and the update at
    T0 + 35 min, 25 minutes later, leaves 2. *)
Theorem SaveDevice_detection_count_window :
  (forall nowStr p s k r,
      devices s !! k = Some r ->
      - 2 ^ 63 <= detection_count r < 2 ^ 63 - 1 ->
      exists r', devices (snd (SaveDevice parse nowStr p s)) !! k = Some r'
                 /\ detection_count r <= detection_count r' <= detection_count r + 1)
  /\ (forall calls s m,
         Forall (stamped parse) calls ->
         spaced (lastCounted parse m s) (increments parse m calls s)
         /\ forall a, (inWindow a (increments parse m calls s) <= 1)%nat)
  /\ (forall nowStr p s r lu ts prev cur,
         normalizeMAC (MAC p) <> "" -> UpdateExisting p = true ->
         devices s !! normalizeMAC (MAC p) = Some r ->
         - 2 ^ 63 <= detection_count r < 2 ^ 63 - 1 ->
         last_count_update r = Some lu -> lu <> "" -> parse lu = Some prev ->
         Timestamp p = Some ts -> parse ts = Some cur ->
         exists r', devices (snd (SaveDevice parse nowStr p s)) !! normalizeMAC (MAC p) = Some r'
                    /\ (cur - prev < 30 * Minute ->
                        detection_count r' = detection_count r
                        /\ last_count_update r' = Some lu)
                    /\ (30 * Minute <= cur - prev ->
                        detection_count r' = detection_count r + 1
                        /\ last_count_update r' = Some ts))
  /\ (forall nowStr p s,
         normalizeMAC (MAC p) <> "" ->
         devices s !! normalizeMAC (MAC p) = None ->
         SaveDevice parse nowStr p s = (Some insertRefused, s))
  /\ (forall T10 T35 t0 now1 now2 a p1 p2 s,
         T10 <> "" ->
         parse T10 = Some (t0 + 10 * Minute) -> parse T35 = Some (t0 + 35 * Minute) ->
         normalizeMAC (ap_MAC a) <> "" ->
         normalizeMAC (MAC p1) = normalizeMAC (ap_MAC a) ->
         normalizeMAC (MAC p2) = normalizeMAC (ap_MAC a) ->
         devices s !! normalizeMAC (ap_MAC a) = None ->
         Timestamp p1 = Some T10 -> UpdateExisting p1 = true ->
         Timestamp p2 = Some T35 -> UpdateExisting p2 = true ->
         let s0 := snd (InsertAdvertisement a s) in
         let s1 := snd (SaveDevice parse now1 p1 s0) in
         let s2 := snd (SaveDevice parse now2 p2 s1) in
         (exists r0, devices s0 !! normalizeMAC (ap_MAC a) = Some r0
                     /\ detection_count r0 = 1 /\ last_count_update r0 = None)
         /\ (exists r1, devices s1 !! normalizeMAC (ap_MAC a) = Some r1
                        /\ detection_count r1 = 2 /\ last_count_update r1 = Some T10)
         /\ (exists r2, devices s2 !! normalizeMAC (ap_MAC a) = Some r2
                        /\ detection_count r2 = 2 /\ last_count_update r2 = Some T10)).
Proof.
  assert (Hwin : forall nowStr p s r lu ts prev cur,
         normalizeMAC (MAC p) <> "" -> UpdateExisting p = true ->
         devices s !! normalizeMAC (MAC p) = Some r ->
         - 2 ^ 63 <= detection_count r < 2 ^ 63 - 1 ->
         last_count_update r = Some lu -> lu <> "" -> parse lu = Some prev ->
         Timestamp p = Some ts -> parse ts = Some cur ->
         exists r', devices (snd (SaveDevice parse nowStr p s)) !! normalizeMAC (MAC p) = Some r'
                    /\ (cur - prev < 30 * Minute ->
                        detection_count r' = detection_count r
                        /\ last_count_update r' = Some lu)
                    /\ (30 * Minute <= cur - prev ->
                        detection_count r' = detection_count r + 1
                        /\ last_count_update r' = Some ts)).
  { intros nowStr p s r lu ts prev cur Hm Hu Hr Hrange Hlu Hne Hprev Hts Hcur.
    pose proof (SaveDevice_row parse nowStr p s r Hr) as Hrow.
    rewrite (eqb_false_of_neq _ _ Hm), Hu, Hts in Hrow. cbn [negb andb] in Hrow.
    eexists. split; [exact Hrow|].
    cbn [updatedRow detection_count last_count_update]. rewrite Hlu. cbn [nullString].
    destruct (bumpDetection_window (detection_count r) lu ts prev cur Hne Hprev Hcur) as [Hup Hkeep].
    split; intros H.
    - rewrite (Hkeep H). split; reflexivity.
    - rewrite (Hup H). cbn [fst snd]. split; [|reflexivity].
      apply int64_id. change (2 ^ 63) with 9223372036854775808 in *. lia. }
  split; [|split; [|split; [|split]]].
  - intros nowStr p s k r Hr Hrange.
    destruct (String.eqb_spec k (normalizeMAC (MAC p))) as [->|Hk].
    + rewrite (SaveDevice_row parse nowStr p s r Hr). eexists. split; [reflexivity|].
      destruct (negb (String.eqb (normalizeMAC (MAC p)) "") && UpdateExisting p); [|lia].
      cbn [updatedRow detection_count]. apply bumpDetection_bounds. exact Hrange.
    + rewrite (SaveDevice_other parse _ _ _ _ Hk). exists r. split; [exact Hr | lia].
  - intros calls s m Hall.
    pose proof (increments_spaced calls m s Hall) as Hsp.
    split; [exact Hsp|]. intros a. exact (spaced_window _ _ a Hsp).
  - exact Hwin.
  - intros nowStr p s Hm Hnone. apply SaveDevice_refused; [exact Hm | right; exact Hnone].
  - intros T10 T35 t0 now1 now2 a p1 p2 s HT10 HpT10 HpT35 Hm Hm1 Hm2 Hnone
           Hts1 Hu1 Hts2 Hu2 s0 s1 s2.
    assert (Hs0 : devices s0 !! normalizeMAC (ap_MAC a)
                  = Some (stubDevice (nextDeviceID s) a (normalizeMAC (ap_MAC a)))).
    { subst s0. unfold InsertAdvertisement.
      rewrite (eqb_false_of_neq _ _ Hm), Hnone.
      cbn [snd devices withDevices withAdvertisements]. apply lookup_insert_eq. }
    pose proof (SaveDevice_row parse now1 p1 s0 _ ltac:(rewrite Hm1; exact Hs0)) as Hr1.
    rewrite Hm1, (eqb_false_of_neq _ _ Hm), Hu1, Hts1 in Hr1. cbn [negb andb] in Hr1.
    fold s1 in Hr1.
    set (r1 := updatedRow parse p1 T10
                 (stubDevice (nextDeviceID s) a (normalizeMAC (ap_MAC a)))) in *.
    assert (Hc1 : detection_count r1 = 2) by reflexivity.
    assert (Hl1 : last_count_update r1 = Some T10) by reflexivity.
    destruct (Hwin now2 p2 s1 r1 T10 T35 (t0 + 10 * Minute) (t0 + 35 * Minute)
                ltac:(rewrite Hm2; exact Hm) Hu2 ltac:(rewrite Hm2; exact Hr1)
                ltac:(rewrite Hc1; change (2 ^ 63) with 9223372036854775808; lia)
                Hl1 HT10 HpT10 Hts2 HpT35) as (r2 & Hr2 & Hkeep2 & _).
    rewrite Hm2 in Hr2. fold s2 in Hr2.
    destruct Hkeep2 as [Hc2 Hl2]; [unfold Minute, Second; lia|].
    split; [|split].
    + eexists. split; [exact Hs0|]. split; reflexivity.
    + exists r1. split; [exact Hr1|]. split; [exact Hc1 | exact Hl1].
    + exists r2. split; [exact Hr2|]. split; [rewrite Hc2; exact Hc1 | exact Hl2].
Qed.

End DetectionCount.

(** The dual-promotion scenario: "ble" is stored, a save with "classic"
    follows. *)
Lemma SaveDevice_family_merge_witness :
  exists r',
    devices (snd (SaveDevice Layout.parseStamp "" (saveCall macX (Some "classic") stampT10) storeBle))
      !! macX = Some r'
    /\ device_type r' = Some "dual".
Proof.
  destruct (SaveDevice_family_merge Layout.parseStamp ""
              (saveCall macX (Some "classic") stampT10) storeBle
              (stubDevice 1 (advCall macX stampT0) macX))
    as (r' & Hrow & _ & _ & Hscen).
  - vm_compute; discriminate.
  - reflexivity.
  - vm_compute; reflexivity.
  - exists r'. split; [exact Hrow|]. apply Hscen; reflexivity.
Defined.

(** The detection-count scenario on the stamps 00:00, 00:10 and 00:35 of one
    day: the save at 00:00 is refused, the advertisement of 00:00 creates the
    row, and the count is 2 from 00:10 on. *)
Lemma SaveDevice_detection_count_witness :
  SaveDevice Layout.parseStamp "" (saveCall macX (Some "ble") stampT0) emptyStore
  = (Some insertRefused, emptyStore)
  /\ exists r2,
      devices (saveAll Layout.parseStamp
                 [("", saveCall macX (Some "ble") stampT10);
                  ("", saveCall macX (Some "ble") stampT35)] storeBle) !! macX = Some r2
      /\ detection_count r2 = 2 /\ last_count_update r2 = Some stampT10.
Proof.
  split.
  - apply (proj1 (proj2 (proj2 (proj2 (SaveDevice_detection_count_window Layout.parseStamp))))).
    + vm_compute; discriminate.
    + reflexivity.
  - destruct (proj2 (proj2 (proj2 (proj2 (SaveDevice_detection_count_window Layout.parseStamp))))
                stampT10 stampT35 63839664000000000000 "" ""
                (advCall macX stampT0)
                (saveCall macX (Some "ble") stampT10)
                (saveCall macX (Some "ble") stampT35) emptyStore)
      as (_ & _ & H).
    + vm_compute; discriminate.
    + vm_compute; reflexivity.
    + vm_compute; reflexivity.
    + vm_compute; discriminate.
    + reflexivity.
    + reflexivity.
    + reflexivity.
    + reflexivity.
    + reflexivity.
    + reflexivity.
    + reflexivity.
    + exact H.
Defined.

End StoreFacts.

(** ** The discovery loop *)

Section LoopFacts.
Import Types Bluetooth.

Variable parse : string -> option Time.
Variable env : Env.

(** *** What the store operations leave alone *)

Lemma gatt_services_updateDevice f m s :
  Db.gatt_services (Db.updateDevice f m s) = Db.gatt_services s.
Proof. unfold Db.updateDevice. destruct (Db.devices s !! m); reflexivity. Qed.

Lemma gatt_services_UpdateDeviceGPS m t s :
  Db.gatt_services (Db.UpdateDeviceGPS m t s) = Db.gatt_services s.
Proof.
  unfold Db.UpdateDeviceGPS.
  repeat match goal with |- context [if ?c then _ else _] => destruct c end;
    try reflexivity; apply gatt_services_updateDevice.
Qed.

Lemma gatt_services_UpdateDeviceMarkedType m t s :
  Db.gatt_services (Db.UpdateDeviceMarkedType m t s) = Db.gatt_services s.
Proof.
  unfold Db.UpdateDeviceMarkedType.
  repeat match goal with |- context [if ?c then _ else _] => destruct c end;
    try reflexivity; apply gatt_services_updateDevice.
Qed.

Lemma gatt_services_UpdateDeviceLastAdvID m i s :
  Db.gatt_services (Db.UpdateDeviceLastAdvID m i s) = Db.gatt_services s.
Proof.
  unfold Db.UpdateDeviceLastAdvID.
  repeat match goal with |- context [if ?c then _ else _] => destruct c end;
    try reflexivity; apply gatt_services_updateDevice.
Qed.

Lemma gatt_services_RecordHistory c w sid m ts lat lon t cached src s :
  Db.gatt_services (Db.RecordDeviceGPSHistoryIfChanged c w sid m ts lat lon t cached src s)
  = Db.gatt_services s.
Proof.
  unfold Db.RecordDeviceGPSHistoryIfChanged.
  repeat match goal with |- context [if ?c then _ else _] => destruct c end; reflexivity.
Qed.

Lemma gatt_services_SaveDevice nowStr p s :
  Db.gatt_services (snd (Db.SaveDevice parse nowStr p s)) = Db.gatt_services s.
Proof.
  unfold Db.SaveDevice.
  destruct (String.eqb (Db.normalizeMAC (Db.MAC p)) ""); [reflexivity|].
  destruct (if Db.UpdateExisting p then _ else _); reflexivity.
Qed.

Lemma gatt_services_InsertAdvertisement p s :
  Db.gatt_services (snd (Db.InsertAdvertisement p s)) = Db.gatt_services s.
Proof.
  unfold Db.InsertAdvertisement.
  destruct (String.eqb (Db.normalizeMAC (Db.ap_MAC p)) ""); [reflexivity|].
  destruct (Db.devices s !! _); reflexivity.
Qed.

Lemma gatt_services_UpsertClassicInfo p s :
  Db.gatt_services (Db.UpsertClassicInfo p s) = Db.gatt_services s.
Proof.
  unfold Db.UpsertClassicInfo.
  destruct (String.eqb (Db.normalizeMAC (Db.ci_MAC p)) ""); reflexivity.
Qed.

Lemma gatt_services_InsertClassicDiscovery p s :
  Db.gatt_services (Db.InsertClassicDiscovery p s) = Db.gatt_services s.
Proof.
  unfold Db.InsertClassicDiscovery.
  destruct (String.eqb (Db.normalizeMAC (Db.cp_MAC p)) ""); reflexivity.
Qed.

(** *** The phases before the connect gate do not touch what it reads *)

Ltac gate_frame :=
  unfold connectView;
  cbn [queue maps store trace emit Linef withMaps withStore withQueue
       inFlight lastConnAttempt seenCount setSeenCount setKnown setLastGPS setLastMarked
       setLastDeviceWrite setLastAdvWrite setLastClassicHist];
  repeat first
    [ rewrite gatt_services_UpdateDeviceGPS | rewrite gatt_services_UpdateDeviceMarkedType
    | rewrite gatt_services_UpdateDeviceLastAdvID | rewrite gatt_services_RecordHistory
    | rewrite gatt_services_SaveDevice | rewrite gatt_services_InsertAdvertisement
    | rewrite gatt_services_UpsertClassicInfo | rewrite gatt_services_InsertClassicDiscovery ];
  try reflexivity.

Lemma connectView_sight o bd w :
  connectView (sight env o bd w)
  = (queue w, inFlight (maps w), lastConnAttempt (maps w), Db.gatt_services (store w),
     <[o_mac o := int64 (intAt (seenCount (maps w)) (o_mac o) + 1)]> (seenCount (maps w))).
Proof. unfold sight. destruct (negb _); gate_frame. Qed.

Lemma connectView_gpsWrite now rd o t w :
  connectView (gpsWrite env now rd o t w) = connectView w.
Proof. unfold gpsWrite. gate_frame. Qed.

Lemma connectView_markerUpdate o w : connectView (markerUpdate o w) = connectView w.
Proof.
  unfold markerUpdate. destruct (String.eqb _ ""); [reflexivity|].
  destruct (match lastMarked (maps w) !! o_mac o with Some _ => _ | None => _ end); gate_frame.
Qed.

Lemma connectView_throttledUpdate now rd o w :
  connectView (throttledUpdate env now rd o w) = connectView w.
Proof.
  unfold throttledUpdate. rewrite connectView_markerUpdate.
  destruct (o_gpsStr o); [|reflexivity].
  destruct (String.eqb _ ""); [reflexivity|].
  destruct (match lastGPSVal (maps w) !! o_mac o with Some _ => _ | None => _ end);
    [apply connectView_gpsWrite | reflexivity].
Qed.

Lemma connectView_fullWrite now rd o bd w :
  connectView (fullWrite parse env now rd o bd w) = connectView w.
Proof.
  unfold fullWrite. rewrite connectView_markerUpdate.
  set (w1 := withMaps _ w).
  set (w2 := if 1 <? _ then _ else w1).
  assert (H2 : connectView w2 = connectView w) by (subst w2 w1; destruct (1 <? _); gate_frame).
  set (w3 := match o_gpsStr o with Some _ => _ | None => w2 end).
  assert (H3 : connectView w3 = connectView w).
  { subst w3. destruct (o_gpsStr o); [|exact H2].
    destruct (String.eqb _ ""); [exact H2|]. rewrite connectView_gpsWrite. exact H2. }
  rewrite <- H3. gate_frame.
Qed.

Lemma connectView_deviceWrite now rd o bd w :
  connectView (deviceWrite parse env now rd o bd w) = connectView w.
Proof.
  unfold deviceWrite. destruct (lastDeviceWrite (maps w) !! o_mac o).
  - destruct (_ <? _); [apply connectView_throttledUpdate | apply connectView_fullWrite].
  - apply connectView_fullWrite.
Qed.

Lemma connectView_advertisementWrite now o bd w :
  connectView (advertisementWrite env now o bd w) = connectView w.
Proof.
  unfold advertisementWrite.
  destruct (match lastAdvWrite (maps w) !! o_mac o with Some _ => _ | None => _ end);
    [|reflexivity].
  destruct (0 <? _); gate_frame.
Qed.

Lemma connectView_classicWrite now o bd w :
  connectView (classicWrite env now o bd w) = connectView w.
Proof.
  unfold classicWrite. destruct (isClassicLikely bd); [|reflexivity].
  destruct (match lastClassicHist (maps w) !! o_mac o with Some _ => _ | None => _ end);
    gate_frame.
Qed.


(** *** The trace of the phases *)

Lemma continues_refl (P : Line -> Prop) w : continues [] P w w.
Proof. exists []. rewrite app_nil_r. repeat split; constructor. Qed.

Lemma continues_trans s1 s2 (P : Line -> Prop) w w1 w2 :
  continues s1 P w w1 -> continues s2 P w1 w2 -> continues (s1 ++ s2)%list P w w2.
Proof.
  intros (e1 & H1 & Hs1 & Hq1 & Hp1) (e2 & H2 & Hs2 & Hq2 & Hp2).
  exists (e1 ++ e2)%list. rewrite H2, H1, <- app_assoc.
  unfold savesOf, enqueuesOf, printsOf in *. rewrite !flat_map_app.
  repeat split.
  - rewrite Hs1, Hs2. reflexivity.
  - rewrite Hq1, Hq2. reflexivity.
  - apply Forall_app. split; assumption.
Qed.

Lemma continues_weaken s (P Q : Line -> Prop) w w' :
  (forall l, P l -> Q l) -> continues s P w w' -> continues s Q w w'.
Proof.
  intros HPQ (e & H & Hs & Hq & Hp). exists e. repeat split; try assumption.
  eapply Forall_impl; [exact Hp | exact HPQ].
Qed.

Lemma continues_same_trace s (P : Line -> Prop) w w1 w2 :
  trace w2 = trace w1 -> continues s P w w1 -> continues s P w w2.
Proof. intros E (e & H & Hs). exists e. rewrite E. split; assumption. Qed.

Lemma continues_emit (P : Line -> Prop) e w w1 :
  trace w1 = trace w ->
  savesOf [e] = [] -> enqueuesOf [e] = [] -> Forall P (printsOf [e]) ->
  continues [] P w (emit e w1).
Proof.
  intros E Hs Hq Hp. exists [e]. cbn [trace emit]. rewrite E. repeat split; assumption.
Qed.

Lemma continues_step (P : Line -> Prop) s e w w1 w2 :
  continues s P w w1 -> trace w2 = trace w1 ->
  savesOf [e] = [] -> enqueuesOf [e] = [] -> Forall P (printsOf [e]) ->
  continues s P w (emit e w2).
Proof.
  intros H E Hs Hq Hp. rewrite <- (app_nil_r s).
  eapply continues_trans; [exact H|]. apply continues_emit; assumption.
Qed.

Lemma continues_sight o bd w :
  continues [] (fun l => label l = "[NEW]" /\ msg l = sightingLine env o bd) w (sight env o bd w).
Proof.
  unfold sight. destruct (negb _).
  - unfold Linef. apply continues_emit; [reflexivity | reflexivity | reflexivity |].
    repeat constructor.
  - eapply continues_same_trace; [|apply continues_refl]. reflexivity.
Qed.

Lemma continues_gpsWrite (P : Line -> Prop) s now rd o t w0 w :
  continues s P w0 w -> continues s P w0 (gpsWrite env now rd o t w).
Proof.
  intros H. unfold gpsWrite.
  eapply continues_same_trace; [reflexivity|].
  eapply continues_step; [|reflexivity|reflexivity|reflexivity|constructor].
  eapply continues_step; [exact H|reflexivity|reflexivity|reflexivity|constructor].
Qed.

Lemma continues_markerUpdate (P : Line -> Prop) s o w0 w :
  (forall l, label l = "[MARK]" -> P l) ->
  continues s P w0 w -> continues s P w0 (markerUpdate o w).
Proof.
  intros HP H. unfold markerUpdate. destruct (String.eqb _ ""); [exact H|].
  eapply continues_step; [|reflexivity|reflexivity|reflexivity|constructor].
  destruct (match lastMarked (maps w) !! o_mac o with Some _ => _ | None => _ end);
    [|exact H].
  unfold Linef. eapply continues_step; [exact H|reflexivity|reflexivity|reflexivity|].
  repeat constructor. apply HP. reflexivity.
Qed.

Lemma continues_throttledUpdate (P : Line -> Prop) s now rd o w0 w :
  (forall l, label l = "[MARK]" -> P l) ->
  continues s P w0 w -> continues s P w0 (throttledUpdate env now rd o w).
Proof.
  intros HP H. unfold throttledUpdate.
  apply continues_markerUpdate; [exact HP|].
  destruct (o_gpsStr o); [|exact H].
  destruct (String.eqb _ ""); [exact H|].
  destruct (match lastGPSVal (maps w) !! o_mac o with Some _ => _ | None => _ end);
    [apply continues_gpsWrite|]; exact H.
Qed.

Lemma continues_fullWrite (P : Line -> Prop) s now rd o bd w0 w :
  (forall l, label l = "[MARK]" -> P l) ->
  (forall l, label l = "[UPDATE]" -> msg l = sightingLine env o bd -> P l) ->
  continues s P w0 w ->
  continues (s ++ [saveParamsOf env o bd])%list P w0 (fullWrite parse env now rd o bd w).
Proof.
  intros HM HU H. unfold fullWrite.
  apply continues_markerUpdate; [exact HM|].
  eapply continues_trans.
  2:{ exists [CallSaveDevice (saveParamsOf env o bd)].
      cbn [trace emit withStore]. repeat split; constructor. }
  set (w1 := withMaps _ w).
  assert (H1 : continues s P w0 w1) by (eapply continues_same_trace; [|exact H]; reflexivity).
  assert (H2 : continues s P w0 (if 1 <? intAt (seenCount (maps w1)) (o_mac o)
                                 then Linef "[UPDATE]" (sightingLine env o bd) w1 else w1)).
  { destruct (1 <? _); [|exact H1].
    unfold Linef. eapply continues_step; [exact H1|reflexivity|reflexivity|reflexivity|].
    repeat constructor. apply HU; reflexivity. }
  destruct (o_gpsStr o); [|exact H2].
  destruct (String.eqb _ ""); [exact H2 | apply continues_gpsWrite; exact H2].
Qed.

Lemma continues_deviceWrite_throttled (P : Line -> Prop) s now rd o bd w0 w last :
  (forall l, label l = "[MARK]" -> P l) ->
  lastDeviceWrite (maps w) !! o_mac o = Some last ->
  Sub now last < DeviceUpdateMinPeriod (cfg env) ->
  continues s P w0 w -> continues s P w0 (deviceWrite parse env now rd o bd w).
Proof.
  intros HP Hl Hlt H. unfold deviceWrite. rewrite Hl.
  destruct (Z.ltb_spec (Sub now last) (DeviceUpdateMinPeriod (cfg env))); [|lia].
  apply continues_throttledUpdate; assumption.
Qed.

Lemma continues_deviceWrite (P : Line -> Prop) s now rd o bd w0 w :
  (forall l, label l = "[MARK]" -> P l) ->
  (forall l, label l = "[UPDATE]" -> msg l = sightingLine env o bd -> P l) ->
  continues s P w0 w ->
  exists s', continues (s ++ s')%list P w0 (deviceWrite parse env now rd o bd w)
             /\ Forall (fun p => p = saveParamsOf env o bd) s'.
Proof.
  intros HM HU H. unfold deviceWrite.
  assert (Hfull : exists s', continues (s ++ s')%list P w0 (fullWrite parse env now rd o bd w)
                             /\ Forall (fun p => p = saveParamsOf env o bd) s').
  { exists [saveParamsOf env o bd]. split; [apply continues_fullWrite; assumption|].
    repeat constructor. }
  destruct (lastDeviceWrite (maps w) !! o_mac o); [|exact Hfull].
  destruct (_ <? _); [|exact Hfull].
  exists []. rewrite app_nil_r. split; [|constructor].
  apply continues_throttledUpdate; assumption.
Qed.

Lemma continues_advertisementWrite (P : Line -> Prop) s now o bd w0 w :
  continues s P w0 w -> continues s P w0 (advertisementWrite env now o bd w).
Proof.
  intros H. unfold advertisementWrite.
  destruct (match lastAdvWrite (maps w) !! o_mac o with Some _ => _ | None => _ end);
    [|exact H].
  assert (H1 : forall w2, trace w2 = trace w ->
                 continues s P w0 (emit (CallInsertAdvertisement
                    {| Db.ap_SessionID := Some (sessionID env); Db.ap_MAC := o_mac o;
                       Db.ap_Timestamp := o_ts o; Db.ap_RSSI := Some (rssiOrZero bd);
                       Db.ap_Raw := None; Db.ap_JSON := o_advJSON o |}) w2)).
  { intros w2 E. eapply continues_step; [exact H|exact E|reflexivity|reflexivity|constructor]. }
  destruct (0 <? _).
  - eapply continues_step; [apply H1|reflexivity|reflexivity|reflexivity|constructor].
    reflexivity.
  - apply H1. reflexivity.
Qed.

Lemma continues_classicWrite (P : Line -> Prop) s now o bd w0 w :
  continues s P w0 w -> continues s P w0 (classicWrite env now o bd w).
Proof.
  intros H. unfold classicWrite. destruct (isClassicLikely bd); [|exact H].
  eapply continues_step; [|reflexivity|reflexivity|reflexivity|constructor].
  destruct (match lastClassicHist (maps w) !! o_mac o with Some _ => _ | None => _ end);
    [|exact H].
  eapply continues_step; [exact H|reflexivity|reflexivity|reflexivity|constructor].
Qed.

(** *** The connect gate *)

Lemma continues_enqueues s (P : Line -> Prop) w w' :
  continues s P w w' -> enqueuesOf (trace w') = enqueuesOf (trace w).
Proof.
  intros (e & H & _ & Hq & _). rewrite H. unfold enqueuesOf in *.
  rewrite flat_map_app, Hq, app_nil_r. reflexivity.
Qed.

Lemma continues_saves s (P : Line -> Prop) w w' :
  continues s P w w' -> savesOf (trace w') = (savesOf (trace w) ++ s)%list.
Proof.
  intros (e & H & Hs & _). rewrite H. unfold savesOf in *.
  rewrite flat_map_app, Hs. reflexivity.
Qed.

Lemma continues_prints s (P : Line -> Prop) w w' :
  continues s P w w' ->
  exists ls, printsOf (trace w') = (printsOf (trace w) ++ ls)%list /\ Forall P ls.
Proof.
  intros (e & H & _ & _ & Hp). exists (printsOf e). rewrite H. unfold printsOf in *.
  rewrite flat_map_app. split; [reflexivity | exact Hp].
Qed.

Lemma HasGattServices_view m s s' :
  Db.gatt_services s' = Db.gatt_services s ->
  Db.HasGattServices m s' = Db.HasGattServices m s.
Proof. intros E. unfold Db.HasGattServices. rewrite E. reflexivity. Qed.

Lemma gate_view now mac bd seen w w' sc :
  connectView w'
  = (queue w, inFlight (maps w), lastConnAttempt (maps w), Db.gatt_services (store w), sc) ->
  (gateClosed now mac bd seen w -> gateClosed now mac bd seen w')
  /\ (gateOpen now mac bd seen w -> gateOpen now mac bd seen w').
Proof.
  unfold connectView. intros E.
  assert (Ei : inFlight (maps w') = inFlight (maps w)) by congruence.
  assert (El : lastConnAttempt (maps w') = lastConnAttempt (maps w)) by congruence.
  assert (Eg : Db.gatt_services (store w') = Db.gatt_services (store w)) by congruence.
  unfold gateClosed, gateOpen.
  rewrite (HasGattServices_view mac _ _ Eg), Ei, El. tauto.
Qed.

Lemma connectSchedule_closed now o bd w :
  cfg env = defaultBlueZConfig -> o_devType o = bluezTypeToDeviceType bd ->
  gateClosed now (o_mac o) bd (intAt (seenCount (maps w)) (o_mac o)) w ->
  queue (connectSchedule env now o bd w) = queue w
  /\ inFlight (maps (connectSchedule env now o bd w)) = inFlight (maps w)
  /\ lastConnAttempt (maps (connectSchedule env now o bd w)) = lastConnAttempt (maps w)
  /\ (forall s (P : Line -> Prop) w0,
         continues s P w0 w -> continues s P w0 (connectSchedule env now o bd w)).
Proof.
  intros Hcfg Hty Hclosed. unfold connectSchedule. rewrite Hcfg, Hty.
  cbn [ConnectRSSIMin ConnectCooldown defaultBlueZConfig].
  assert (Hsame : queue w = queue w /\ inFlight (maps w) = inFlight (maps w)
                  /\ lastConnAttempt (maps w) = lastConnAttempt (maps w)
                  /\ (forall s (P : Line -> Prop) w0, continues s P w0 w -> continues s P w0 w))
    by (repeat split; auto).
  assert (Hasked : queue (emit (CallHasGattServices (o_mac o)) w) = queue w
                   /\ inFlight (maps (emit (CallHasGattServices (o_mac o)) w)) = inFlight (maps w)
                   /\ lastConnAttempt (maps (emit (CallHasGattServices (o_mac o)) w))
                      = lastConnAttempt (maps w)
                   /\ (forall s (P : Line -> Prop) w0,
                          continues s P w0 w ->
                          continues s P w0 (emit (CallHasGattServices (o_mac o)) w))).
  { repeat split; try reflexivity. intros s P w0 H.
    eapply continues_step; [exact H|reflexivity|reflexivity|reflexivity|constructor]. }
  destruct (String.eqb_spec (bluezTypeToDeviceType bd) "classic") as [Ec|Ec]; [exact Hsame|].
  destruct (bd_RSSI bd) as [r|] eqn:Er; [|exact Hsame].
  destruct (Z.ltb_spec r (-75)) as [Hr|Hr]; [exact Hsame|].
  destruct (Z.ltb_spec (intAt (seenCount (maps w)) (o_mac o)) 2) as [Hs|Hs]; [exact Hsame|].
  cbn [store emit maps].
  destruct (Db.HasGattServices (o_mac o) (store w)) eqn:Eg; [exact Hasked|].
  destruct (boolAt (inFlight (maps w)) (o_mac o)) eqn:Ei; [exact Hasked|].
  destruct (lastConnAttempt (maps w) !! o_mac o) as [last|] eqn:El.
  - destruct (Z.ltb_spec (Sub now last) (30 * Minute)) as [Hc|Hc]; [exact Hasked|].
    exfalso. destruct Hclosed as [H|[(r' & H & H')|[H|[H|[H|[(l' & H & H')|H]]]]]];
      try congruence; try lia.
    + rewrite Er in H. injection H as <-. lia.
    + rewrite El in H. injection H as <-. lia.
  - exfalso. destruct Hclosed as [H|[(r' & H & H')|[H|[H|[H|[(l' & H & H')|H]]]]]];
      try congruence; try lia.
    rewrite Er in H. injection H as <-. lia.
Qed.

Lemma connectSchedule_full now o bd w :
  cfg env = defaultBlueZConfig -> o_devType o = bluezTypeToDeviceType bd ->
  8192 <= Z.of_nat (List.length (queue w)) ->
  queue (connectSchedule env now o bd w) = queue w
  /\ (forall s (P : Line -> Prop) w0,
         continues s P w0 w -> continues s P w0 (connectSchedule env now o bd w))
  /\ (gateOpen now (o_mac o) bd (intAt (seenCount (maps w)) (o_mac o)) w ->
      inFlight (maps (connectSchedule env now o bd w)) !! o_mac o = None).
Proof.
  intros Hcfg Hty Hfull. unfold connectSchedule, trySend. rewrite Hcfg, Hty.
  cbn [ConnectRSSIMin ConnectCooldown ConnectQueueSize defaultBlueZConfig].
  assert (Hask : forall s (P : Line -> Prop) w0 w2, trace w2 = trace w ->
                   continues s P w0 w ->
                   continues s P w0 (emit (CallHasGattServices (o_mac o)) w2)).
  { intros s P w0 w2 E H.
    eapply continues_step; [exact H|exact E|reflexivity|reflexivity|constructor]. }
  destruct (String.eqb_spec (bluezTypeToDeviceType bd) "classic") as [Ec|Ec].
  { repeat split; auto. intros (_ & _ & _ & _ & _ & H). contradiction. }
  destruct (bd_RSSI bd) as [r|] eqn:Er.
  2:{ repeat split; auto. intros ((r' & H & _) & _). congruence. }
  destruct (Z.ltb_spec r (-75)) as [Hr|Hr].
  { repeat split; auto. intros ((r' & H & H') & _). rewrite Er in H. injection H as <-. lia. }
  destruct (Z.ltb_spec (intAt (seenCount (maps w)) (o_mac o)) 2) as [Hs|Hs].
  { repeat split; auto. intros (_ & H & _). lia. }
  cbn [store emit maps].
  destruct (Db.HasGattServices (o_mac o) (store w)) eqn:Eg.
  { repeat split; [|intros (_ & _ & Hopen & _); congruence].
    intros s P w0 H. apply Hask; [reflexivity | exact H]. }
  destruct (boolAt (inFlight (maps w)) (o_mac o)) eqn:Ei.
  { repeat split; [|intros (_ & _ & _ & Hopen & _); congruence].
    intros s P w0 H. apply Hask; [reflexivity | exact H]. }
  assert (Hsend : forall w1 : World,
             queue w1 = queue w -> trace w1 = (trace w ++ [CallHasGattServices (o_mac o)])%list ->
             queue (if Z.of_nat (List.length (queue w1)) <? 8192
                    then emit (Enqueue (o_mac o)) (withQueue (queue w1 ++ [o_mac o]) w1)
                    else withMaps (fun l => setInFlight (delete (o_mac o) (inFlight l)) l) w1)
             = queue w
             /\ (forall s (P : Line -> Prop) w0, continues s P w0 w ->
                   continues s P w0
                     (if Z.of_nat (List.length (queue w1)) <? 8192
                      then emit (Enqueue (o_mac o)) (withQueue (queue w1 ++ [o_mac o]) w1)
                      else withMaps (fun l => setInFlight (delete (o_mac o) (inFlight l)) l) w1))
             /\ inFlight (maps (if Z.of_nat (List.length (queue w1)) <? 8192
                      then emit (Enqueue (o_mac o)) (withQueue (queue w1 ++ [o_mac o]) w1)
                      else withMaps (fun l => setInFlight (delete (o_mac o) (inFlight l)) l) w1))
                !! o_mac o = None).
  { intros w1 Eq Et. rewrite Eq.
    destruct (Z.ltb_spec (Z.of_nat (List.length (queue w))) 8192); [lia|].
    split; [exact Eq|]. split.
    - intros s P w0 Hc. eapply continues_same_trace with
        (w1 := emit (CallHasGattServices (o_mac o)) w); [exact Et|].
      apply Hask; [reflexivity | exact Hc].
    - cbn [maps withMaps inFlight setInFlight]. apply lookup_delete_eq. }
  destruct (lastConnAttempt (maps w) !! o_mac o) as [last|] eqn:El.
  - destruct (Z.ltb_spec (Sub now last) (30 * Minute)) as [Hc|Hc].
    + repeat split; [|intros (_ & _ & _ & _ & Hopen & _); specialize (Hopen last El); lia].
      intros s P w0 H. apply Hask; [reflexivity | exact H].
    + match goal with |- context [if _ <? 8192 then emit _ (withQueue _ ?w1) else _] =>
        destruct (Hsend w1 eq_refl eq_refl) as (H1 & H2 & H3) end.
      split; [exact H1|]. split; [exact H2|]. intros _. exact H3.
  - match goal with |- context [if _ <? 8192 then emit _ (withQueue _ ?w1) else _] =>
      destruct (Hsend w1 eq_refl eq_refl) as (H1 & H2 & H3) end.
    split; [exact H1|]. split; [exact H2|]. intros _. exact H3.
Qed.

Lemma connectSchedule_open now o bd w :
  cfg env = defaultBlueZConfig -> o_devType o = bluezTypeToDeviceType bd ->
  gateOpen now (o_mac o) bd (intAt (seenCount (maps w)) (o_mac o)) w ->
  Z.of_nat (List.length (queue w)) < 8192 ->
  queue (connectSchedule env now o bd w) = (queue w ++ [o_mac o])%list
  /\ inFlight (maps (connectSchedule env now o bd w)) = <[o_mac o := true]> (inFlight (maps w))
  /\ lastConnAttempt (maps (connectSchedule env now o bd w))
     = <[o_mac o := now]> (lastConnAttempt (maps w))
  /\ trace (connectSchedule env now o bd w)
     = (trace w ++ [CallHasGattServices (o_mac o); Enqueue (o_mac o)])%list.
Proof.
  intros Hcfg Hty ((r & Er & Hr) & Hs & Eg & Ei & Hl & Ec) Hq.
  unfold connectSchedule, trySend. rewrite Hcfg, Hty, Er.
  cbn [ConnectRSSIMin ConnectCooldown ConnectQueueSize defaultBlueZConfig].
  rewrite (eqb_false_of_neq _ _ Ec).
  destruct (Z.ltb_spec r (-75)); [lia|].
  destruct (Z.ltb_spec (intAt (seenCount (maps w)) (o_mac o)) 2); [lia|].
  cbn [store emit maps]. rewrite Eg, Ei.
  assert (Hcool : match lastConnAttempt (maps w) !! o_mac o with
                  | Some last => Sub now last <? 30 * Minute
                  | None => false
                  end = false).
  { destruct (lastConnAttempt (maps w) !! o_mac o) as [last|]; [|reflexivity].
    specialize (Hl last eq_refl). apply Z.ltb_ge. exact Hl. }
  rewrite Hcool. cbn [queue withMaps emit].
  destruct (Z.ltb_spec (Z.of_nat (List.length (queue w))) 8192); [|lia].
  cbn [queue maps trace emit withQueue withMaps inFlight lastConnAttempt
       setInFlight setLastConnAttempt].
  repeat split; try reflexivity. rewrite <- app_assoc. reflexivity.
Qed.

Lemma connectView_components w' q i l g sc :
  connectView w' = (q, i, l, g, sc) ->
  queue w' = q /\ inFlight (maps w') = i /\ lastConnAttempt (maps w') = l
  /\ Db.gatt_services (store w') = g /\ seenCount (maps w') = sc.
Proof. unfold connectView. intros E. injection E. auto. Qed.

Lemma observe_phases now mac0 bd rd w :
  ToUpper (TrimSpace mac0) <> "" ->
  observe parse env now mac0 bd rd w
  = connectSchedule env now (buildObs env (ToUpper (TrimSpace mac0)) bd rd) bd
      (classicWrite env now (buildObs env (ToUpper (TrimSpace mac0)) bd rd) bd
         (advertisementWrite env now (buildObs env (ToUpper (TrimSpace mac0)) bd rd) bd
            (deviceWrite parse env now rd (buildObs env (ToUpper (TrimSpace mac0)) bd rd) bd
               (sight env (buildObs env (ToUpper (TrimSpace mac0)) bd rd) bd w)))).
Proof. intros H. unfold observe. rewrite (eqb_false_of_neq _ _ H). reflexivity. Qed.

(** The world in front of the connect gate: what the gate reads, and the
    trace written so far. *)
Lemma before_gate now mac bd rd w :
  let o := buildObs env mac bd rd in
  let w3 := classicWrite env now o bd
              (advertisementWrite env now o bd
                 (deviceWrite parse env now rd o bd (sight env o bd w))) in
  connectView w3
  = (queue w, inFlight (maps w), lastConnAttempt (maps w), Db.gatt_services (store w),
     <[mac := int64 (intAt (seenCount (maps w)) mac + 1)]> (seenCount (maps w)))
  /\ exists s, continues s (fun _ => True) w w3.
Proof.
  intros o w3. subst w3. split.
  - rewrite connectView_classicWrite, connectView_advertisementWrite,
      connectView_deviceWrite, connectView_sight. reflexivity.
  - destruct (continues_deviceWrite (fun _ => True) [] now rd o bd w (sight env o bd w))
      as (s & Hs & _); [auto | auto | |].
    + eapply continues_weaken; [|apply continues_sight]. auto.
    + exists ([] ++ s)%list.
      apply continues_classicWrite, continues_advertisementWrite. exact Hs.
Qed.

(** C1. In one pass of the discovery loop over an observation, with the
    default configuration: when the RSSI is absent or below -75 dBm, or the
    MAC has been sighted fewer than 2 times (this sighting included), or the
    store has GATT services for it, or a connect job for it is in flight, or
    its last connect attempt is less than 30 minutes old, or the device is
    classified as classic, nothing is sent to the connect queue and the
    in-flight marks and attempt times stay as they are; when the bounded
    queue is full nothing is sent either and, the gate being open, the
    in-flight mark of the MAC is removed again; and when the gate is open and
    the queue has room, the MAC is queued and marked in flight. *)
Theorem observe_connect_gate now mac0 bd rd w :
  cfg env = defaultBlueZConfig ->
  let mac := ToUpper (TrimSpace mac0) in
  let seen := int64 (intAt (seenCount (maps w)) mac + 1) in
  let w' := observe parse env now mac0 bd rd w in
  (gateClosed now mac bd seen w ->
   queue w' = queue w
   /\ enqueuesOf (trace w') = enqueuesOf (trace w)
   /\ inFlight (maps w') = inFlight (maps w)
   /\ lastConnAttempt (maps w') = lastConnAttempt (maps w))
  /\ (ConnectQueueSize defaultBlueZConfig <= Z.of_nat (List.length (queue w)) ->
      queue w' = queue w
      /\ enqueuesOf (trace w') = enqueuesOf (trace w)
      /\ (mac <> "" -> gateOpen now mac bd seen w -> inFlight (maps w') !! mac = None))
  /\ (mac <> "" -> gateOpen now mac bd seen w ->
      Z.of_nat (List.length (queue w)) < ConnectQueueSize defaultBlueZConfig ->
      queue w' = (queue w ++ [mac])%list
      /\ enqueuesOf (trace w') = (enqueuesOf (trace w) ++ [mac])%list
      /\ inFlight (maps w') !! mac = Some true
      /\ lastConnAttempt (maps w') !! mac = Some now).
Proof.
  intros Hcfg mac seen w'.
  destruct (String.eqb_spec mac "") as [Em|Em].
  { assert (w' = w) as -> by (subst w'; unfold observe; fold mac; rewrite Em; reflexivity).
    repeat split; auto; contradiction. }
  subst w'. rewrite (observe_phases now mac0 bd rd w Em). fold mac.
  set (o := buildObs env mac bd rd).
  destruct (before_gate now mac bd rd w) as [Hview (s & Hcont)]. fold o in Hview, Hcont.
  set (w3 := classicWrite env now o bd _) in *.
  destruct (connectView_components _ _ _ _ _ _ Hview) as (Hq & Hi & Hl & _ & E).
  assert (Hseen : intAt (seenCount (maps w3)) (o_mac o) = seen).
  { unfold intAt. rewrite E. change (o_mac o) with mac. rewrite lookup_insert_eq. reflexivity. }
  destruct (gate_view now mac bd seen w w3 _ Hview) as [Hclosed Hopen].
  assert (Hty : o_devType o = bluezTypeToDeviceType bd) by reflexivity.
  split; [|split].
  - intros Hc. specialize (Hclosed Hc). rewrite <- Hseen in Hclosed.
    destruct (connectSchedule_closed now o bd w3 Hcfg Hty Hclosed) as (H1 & H2 & H3 & H4).
    rewrite H1, H2, H3. repeat split; try assumption.
    exact (continues_enqueues _ _ _ _ (H4 _ _ _ Hcont)).
  - intros Hfull. rewrite <- Hq in Hfull.
    destruct (connectSchedule_full now o bd w3 Hcfg Hty Hfull) as (H1 & H2 & H3).
    rewrite H1. repeat split; try assumption.
    + exact (continues_enqueues _ _ _ _ (H2 _ _ _ Hcont)).
    + intros _ Ho. apply H3. rewrite Hseen. apply Hopen. exact Ho.
  - intros _ Ho Hroom. rewrite <- Hq in Hroom.
    specialize (Hopen Ho). rewrite <- Hseen in Hopen.
    destruct (connectSchedule_open now o bd w3 Hcfg Hty Hopen Hroom) as (H1 & H2 & H3 & H4).
    rewrite H1, H2, H3, H4, Hq. change (o_mac o) with mac.
    repeat split; try apply lookup_insert_eq.
    unfold enqueuesOf. rewrite flat_map_app. cbn [flat_map app].
    fold (enqueuesOf (trace w3)). fold (enqueuesOf (trace w)).
    rewrite (continues_enqueues _ _ _ _ Hcont). reflexivity.
Qed.

(** *** The device row through one pass *)

Lemma sameExceptGpsType_set (r : Db.Device) g t :
  sameExceptGpsType r (Db.setType t (Db.setGPS g r)).
Proof. unfold sameExceptGpsType. destruct r; reflexivity. Qed.

Lemma row_as_set (r : Db.Device) : r = Db.setType (Db.type_ r) (Db.setGPS (Db.gps r) r).
Proof. destruct r; reflexivity. Qed.

Lemma sameExceptGpsTypeAdv_set (r : Db.Device) g t a :
  sameExceptGpsTypeAdv r (Db.setLastAdvID a (Db.setType t (Db.setGPS g r))).
Proof. unfold sameExceptGpsTypeAdv. destruct r; reflexivity. Qed.

Lemma devices_updateDevice_eq f m s r :
  Db.devices s !! m = Some r -> Db.devices (Db.updateDevice f m s) !! m = Some (f r).
Proof.
  intros H. unfold Db.updateDevice. rewrite H. cbn [Db.devices Db.withDevices].
  apply lookup_insert_eq.
Qed.

Lemma devices_RecordHistory c w sid m ts lat lon t cached src s :
  Db.devices (Db.RecordDeviceGPSHistoryIfChanged c w sid m ts lat lon t cached src s)
  = Db.devices s.
Proof.
  unfold Db.RecordDeviceGPSHistoryIfChanged.
  repeat match goal with |- context [if ?c then _ else _] => destruct c end; reflexivity.
Qed.

Lemma devices_UpsertClassicInfo p s : Db.devices (Db.UpsertClassicInfo p s) = Db.devices s.
Proof.
  unfold Db.UpsertClassicInfo. destruct (String.eqb (Db.normalizeMAC (Db.ci_MAC p)) "");
    reflexivity.
Qed.

Lemma devices_InsertClassicDiscovery p s :
  Db.devices (Db.InsertClassicDiscovery p s) = Db.devices s.
Proof.
  unfold Db.InsertClassicDiscovery. destruct (String.eqb (Db.normalizeMAC (Db.cp_MAC p)) "");
    reflexivity.
Qed.

Lemma UpdateDeviceGPS_row m t s r :
  Db.normalizeMAC m = m -> m <> "" -> TrimSpace t <> "" ->
  Db.devices s !! m = Some r ->
  Db.devices (Db.UpdateDeviceGPS m t s) !! m = Some (Db.setGPS (Some (TrimSpace t)) r).
Proof.
  intros Hn Hm Ht Hr. unfold Db.UpdateDeviceGPS.
  rewrite Hn, (eqb_false_of_neq _ _ Hm), (eqb_false_of_neq _ _ Ht).
  apply devices_updateDevice_eq. exact Hr.
Qed.

Lemma UpdateDeviceMarkedType_row m t s r :
  Db.normalizeMAC m = m -> m <> "" -> TrimSpace t <> "" ->
  Db.devices s !! m = Some r ->
  Db.devices (Db.UpdateDeviceMarkedType m t s) !! m = Some (Db.setType (Some (TrimSpace t)) r).
Proof.
  intros Hn Hm Ht Hr. unfold Db.UpdateDeviceMarkedType.
  rewrite Hn, (eqb_false_of_neq _ _ Hm), (eqb_false_of_neq _ _ Ht).
  apply devices_updateDevice_eq. exact Hr.
Qed.

Lemma UpdateDeviceLastAdvID_row m i s r :
  Db.normalizeMAC m = m ->
  Db.devices s !! m = Some r ->
  exists a, Db.devices (Db.UpdateDeviceLastAdvID m i s) !! m = Some (Db.setLastAdvID a r).
Proof.
  intros Hn Hr. unfold Db.UpdateDeviceLastAdvID. rewrite Hn.
  destruct (String.eqb m "" || (i <=? 0)).
  - exists (Db.last_adv_id r). rewrite Hr. f_equal. destruct r; reflexivity.
  - exists (Some i). apply devices_updateDevice_eq. exact Hr.
Qed.

Lemma InsertAdvertisement_row p s m r :
  Db.normalizeMAC (Db.ap_MAC p) = m ->
  Db.devices s !! m = Some r ->
  Db.devices (snd (Db.InsertAdvertisement p s)) !! m = Some r.
Proof.
  intros Hn Hr. unfold Db.InsertAdvertisement. rewrite Hn.
  destruct (String.eqb m ""); [exact Hr|]. rewrite Hr. exact Hr.
Qed.

(** The markers block writes the type column only, and only with the marked
    type. *)
Lemma markerUpdate_row o w r :
  Db.normalizeMAC (o_mac o) = o_mac o -> o_mac o <> "" ->
  Db.devices (store w) !! o_mac o = Some r ->
  exists t,
    Db.devices (store (markerUpdate o w)) !! o_mac o = Some (Db.setType t r)
    /\ (t <> Db.type_ r -> markedTypeGiven o t).
Proof.
  intros Hn Hm Hr. unfold markerUpdate.
  destruct (String.eqb_spec (TrimSpace (o_markedTypeStr o)) "") as [E|E].
  - exists (Db.type_ r). split; [|congruence].
    rewrite Hr. f_equal. destruct r; reflexivity.
  - exists (Some (TrimSpace (o_markedTypeStr o))). split; [|intros _; split; [exact E|reflexivity]].
    assert (Hst : forall w1, store w1 = store w ->
              Db.devices (store (emit (CallUpdateDeviceMarkedType (o_mac o) (TrimSpace (o_markedTypeStr o)))
                 (withStore (Db.UpdateDeviceMarkedType (o_mac o) (TrimSpace (o_markedTypeStr o))) w1)))
              !! o_mac o
              = Some (Db.setType (Some (TrimSpace (o_markedTypeStr o))) r)).
    { intros w1 E1. cbn [store emit withStore]. rewrite E1.
      pose proof (UpdateDeviceMarkedType_row (o_mac o) (TrimSpace (o_markedTypeStr o))
                    (store w) r Hn Hm) as H.
      rewrite TrimSpace_idem in H. apply H; assumption. }
    destruct (match lastMarked (maps w) !! o_mac o with Some _ => _ | None => _ end);
      apply Hst; reflexivity.
Qed.

Lemma gpsWrite_row now rd o t w r :
  Db.normalizeMAC (o_mac o) = o_mac o -> o_mac o <> "" -> TrimSpace t <> "" ->
  Db.devices (store w) !! o_mac o = Some r ->
  Db.devices (store (gpsWrite env now rd o t w)) !! o_mac o
  = Some (Db.setGPS (Some (TrimSpace t)) r).
Proof.
  intros Hn Hm Ht Hr. unfold gpsWrite. cbn [store emit withStore withMaps].
  rewrite devices_RecordHistory. apply UpdateDeviceGPS_row; assumption.
Qed.

(** The throttled branch rewrites the gps and type columns only, each under
    its condition. *)
Lemma throttledUpdate_row now rd o w r :
  Db.normalizeMAC (o_mac o) = o_mac o -> o_mac o <> "" ->
  Db.devices (store w) !! o_mac o = Some r ->
  exists g t,
    Db.devices (store (throttledUpdate env now rd o w)) !! o_mac o
    = Some (Db.setType t (Db.setGPS g r))
    /\ (g <> Db.gps r -> gpsRefreshDue now o w g)
    /\ (t <> Db.type_ r -> markedTypeGiven o t).
Proof.
  intros Hn Hm Hr. unfold throttledUpdate.
  set (w1 := match o_gpsStr o with Some _ => _ | None => w end).
  assert (H1 : exists g, Db.devices (store w1) !! o_mac o = Some (Db.setGPS g r)
                         /\ (g <> Db.gps r -> gpsRefreshDue now o w g)).
  { assert (Hid : Db.devices (store w) !! o_mac o = Some (Db.setGPS (Db.gps r) r))
      by (rewrite Hr; f_equal; destruct r; reflexivity).
    subst w1. destruct (o_gpsStr o) as [g0|] eqn:Eg;
      [|exists (Db.gps r); split; [exact Hid | congruence]].
    destruct (String.eqb_spec (TrimSpace g0) "") as [E|E];
      [exists (Db.gps r); split; [exact Hid | congruence]|].
    assert (Hw : forall (due : lastGPSVal (maps w) !! o_mac o <> Some (TrimSpace g0)
                               \/ lastGPSWrite (maps w) !! o_mac o = None
                               \/ exists t0, lastGPSWrite (maps w) !! o_mac o = Some t0
                                             /\ 10 * Second <= Sub now t0),
              exists g, Db.devices (store (gpsWrite env now rd o (TrimSpace g0) w)) !! o_mac o
                        = Some (Db.setGPS g r)
                        /\ (g <> Db.gps r -> gpsRefreshDue now o w g)).
    { intros due. exists (Some (TrimSpace g0)). split.
      - pose proof (gpsWrite_row now rd o (TrimSpace g0) w r Hn Hm) as H.
        rewrite TrimSpace_idem in H. apply H; assumption.
      - intros _. exists g0. repeat split; assumption. }
    destruct (lastGPSVal (maps w) !! o_mac o) as [prev|] eqn:Ev.
    - destruct (String.eqb_spec prev (TrimSpace g0)) as [Ep|Ep]; cbn [negb].
      + destruct (lastGPSWrite (maps w) !! o_mac o) as [t0|] eqn:Et.
        * destruct (Z.leb_spec (10 * Second) (Sub now t0)).
          -- apply Hw. right; right. exists t0. split; [reflexivity | assumption].
          -- exists (Db.gps r); split; [exact Hid | congruence].
        * apply Hw. right; left. reflexivity.
      + apply Hw. left. congruence.
    - apply Hw. left. congruence. }
  destruct H1 as (g & Hg & Hgc).
  destruct (markerUpdate_row o w1 _ Hn Hm Hg) as (t & Ht & Htc).
  exists g, t. split; [exact Ht|]. split; [exact Hgc|].
  intros Hne. apply Htc. destruct r; exact Hne.
Qed.

Lemma advertisementWrite_row now o bd w r :
  cfg env = defaultBlueZConfig ->
  Db.normalizeMAC (o_mac o) = o_mac o ->
  Db.devices (store w) !! o_mac o = Some r ->
  exists a,
    Db.devices (store (advertisementWrite env now o bd w)) !! o_mac o
    = Some (Db.setLastAdvID a r)
    /\ (a <> Db.last_adv_id r -> advertisementDue now (o_mac o) w).
Proof.
  intros Hcfg Hn Hr. unfold advertisementWrite. rewrite Hcfg.
  cbn [AdvInsertMinPeriod defaultBlueZConfig].
  assert (Hid : Db.devices (store w) !! o_mac o = Some (Db.setLastAdvID (Db.last_adv_id r) r))
    by (rewrite Hr; f_equal; destruct r; reflexivity).
  assert (Hdue : advertisementDue now (o_mac o) w ->
            forall p, Db.ap_MAC p = o_mac o ->
            exists a,
              Db.devices (store
                (if 0 <? fst (Db.InsertAdvertisement p (store w))
                 then emit (CallUpdateDeviceLastAdvID (o_mac o) (fst (Db.InsertAdvertisement p (store w))))
                        (withStore (Db.UpdateDeviceLastAdvID (o_mac o)
                                      (fst (Db.InsertAdvertisement p (store w))))
                           (emit (CallInsertAdvertisement p)
                              (withStore (fun _ => snd (Db.InsertAdvertisement p (store w)))
                                 (withMaps (fun l => setLastAdvWrite (<[o_mac o := now]> (lastAdvWrite l)) l) w))))
                 else emit (CallInsertAdvertisement p)
                        (withStore (fun _ => snd (Db.InsertAdvertisement p (store w)))
                           (withMaps (fun l => setLastAdvWrite (<[o_mac o := now]> (lastAdvWrite l)) l) w))))
              !! o_mac o = Some (Db.setLastAdvID a r)
              /\ (a <> Db.last_adv_id r -> advertisementDue now (o_mac o) w)).
  { intros Hd p Hp.
    assert (Hins : Db.devices (snd (Db.InsertAdvertisement p (store w))) !! o_mac o = Some r)
      by (apply InsertAdvertisement_row; [rewrite Hp; exact Hn | exact Hr]).
    destruct (0 <? fst (Db.InsertAdvertisement p (store w))).
    - cbn [store emit withStore withMaps].
      destruct (UpdateDeviceLastAdvID_row (o_mac o) (fst (Db.InsertAdvertisement p (store w)))
                  _ r Hn Hins) as (a & Ha).
      exists a. split; [exact Ha | intros _; exact Hd].
    - cbn [store emit withStore withMaps]. exists (Db.last_adv_id r).
      split; [|congruence]. rewrite Hins. f_equal. destruct r; reflexivity. }
  destruct (lastAdvWrite (maps w) !! o_mac o) as [last|] eqn:El.
  - destruct (Z.leb_spec (30 * Second) (Sub now last)).
    + apply Hdue; [|reflexivity]. right. exists last. split; [exact El | assumption].
    + exists (Db.last_adv_id r). split; [exact Hid | congruence].
  - apply Hdue; [|reflexivity]. left. exact El.
Qed.

Lemma store_connectSchedule now o bd w : store (connectSchedule env now o bd w) = store w.
Proof.
  unfold connectSchedule, trySend.
  repeat match goal with
         | |- context [if ?c then _ else _] => destruct c
         | |- context [match ?x with Some _ => _ | None => _ end] => destruct x
         end; reflexivity.
Qed.

Lemma devices_classicWrite now o bd w :
  Db.devices (store (classicWrite env now o bd w)) = Db.devices (store w).
Proof.
  unfold classicWrite. destruct (isClassicLikely bd); [|reflexivity].
  cbn [store emit withStore]. rewrite devices_UpsertClassicInfo.
  destruct (match lastClassicHist (maps w) !! o_mac o with Some _ => _ | None => _ end);
    [|reflexivity].
  cbn [store emit withStore withMaps]. apply devices_InsertClassicDiscovery.
Qed.

(** *** The throttle window *)

Lemma sight_frame o bd w :
  store (sight env o bd w) = store w
  /\ lastDeviceWrite (maps (sight env o bd w)) = lastDeviceWrite (maps w)
  /\ lastAdvWrite (maps (sight env o bd w)) = lastAdvWrite (maps w)
  /\ lastGPSVal (maps (sight env o bd w)) = lastGPSVal (maps w)
  /\ lastGPSWrite (maps (sight env o bd w)) = lastGPSWrite (maps w).
Proof. unfold sight. destruct (negb _); repeat split. Qed.

Lemma markerUpdate_frame o w :
  lastDeviceWrite (maps (markerUpdate o w)) = lastDeviceWrite (maps w)
  /\ lastAdvWrite (maps (markerUpdate o w)) = lastAdvWrite (maps w).
Proof.
  unfold markerUpdate. destruct (String.eqb _ ""); [split; reflexivity|].
  destruct (match lastMarked (maps w) !! o_mac o with Some _ => _ | None => _ end);
    split; reflexivity.
Qed.

Lemma throttledUpdate_frame now rd o w :
  lastDeviceWrite (maps (throttledUpdate env now rd o w)) = lastDeviceWrite (maps w)
  /\ lastAdvWrite (maps (throttledUpdate env now rd o w)) = lastAdvWrite (maps w).
Proof.
  unfold throttledUpdate.
  destruct (markerUpdate_frame o
              (match o_gpsStr o with
               | Some g =>
                   if String.eqb (TrimSpace g) "" then w
                   else if match lastGPSVal (maps w) !! o_mac o with
                           | Some prev =>
                               if negb (String.eqb prev (TrimSpace g)) then true
                               else match lastGPSWrite (maps w) !! o_mac o with
                                    | Some t0 => 10 * Second <=? Sub now t0
                                    | None => true
                                    end
                           | None => true
                           end
                        then gpsWrite env now rd o (TrimSpace g) w else w
               | None => w
               end)) as [H1 H2].
  rewrite H1, H2.
  destruct (o_gpsStr o); [|split; reflexivity].
  destruct (String.eqb _ ""); [split; reflexivity|].
  destruct (match lastGPSVal (maps w) !! o_mac o with Some _ => _ | None => _ end);
    split; reflexivity.
Qed.

Lemma lastDeviceWrite_advertisementWrite now o bd w :
  lastDeviceWrite (maps (advertisementWrite env now o bd w)) = lastDeviceWrite (maps w).
Proof.
  unfold advertisementWrite.
  destruct (match lastAdvWrite (maps w) !! o_mac o with Some _ => _ | None => _ end);
    [|reflexivity].
  destruct (0 <? _); reflexivity.
Qed.

Lemma lastDeviceWrite_classicWrite now o bd w :
  lastDeviceWrite (maps (classicWrite env now o bd w)) = lastDeviceWrite (maps w).
Proof.
  unfold classicWrite. destruct (isClassicLikely bd); [|reflexivity].
  destruct (match lastClassicHist (maps w) !! o_mac o with Some _ => _ | None => _ end);
    reflexivity.
Qed.

Lemma lastDeviceWrite_connectSchedule now o bd w :
  lastDeviceWrite (maps (connectSchedule env now o bd w)) = lastDeviceWrite (maps w).
Proof.
  unfold connectSchedule, trySend.
  repeat match goal with
         | |- context [if ?c then _ else _] => destruct c
         | |- context [match ?x with Some _ => _ | None => _ end] => destruct x
         end; reflexivity.
Qed.

Lemma savesOf_connectSchedule now o bd w :
  savesOf (trace (connectSchedule env now o bd w)) = savesOf (trace w).
Proof.
  unfold connectSchedule, trySend.
  repeat match goal with
         | |- context [if ?c then _ else _] => destruct c
         | |- context [match ?x with Some _ => _ | None => _ end] => destruct x
         end; cbn [trace emit withMaps withQueue]; unfold savesOf;
    rewrite ?flat_map_app; cbn [flat_map app]; rewrite ?app_nil_r; reflexivity.
Qed.

(** C4 (as amended). When the loop observes a MAC less than 10 s after its
    last full device write, the pass makes no [SaveDevice] call and records
    no new full write; the device row of the MAC agrees with the row before
    the pass on every column except gps, type and last_adv_id; the gps column
    differs only if the observation carries a GPS text that changed or whose
    last write for the MAC is at least 10 s old, the type column only if the
    classifier marked the observation, and the last_adv_id column only if an
    advertisement-history row was due for the MAC (none yet, or the last one
    at least 30 s old). *)
Theorem observe_throttled_frame now mac0 bd rd w last r :
  cfg env = defaultBlueZConfig ->
  ToUpper (TrimSpace mac0) <> "" ->
  lastDeviceWrite (maps w) !! ToUpper (TrimSpace mac0) = Some last ->
  Sub now last < 10 * Second ->
  Db.devices (store w) !! ToUpper (TrimSpace mac0) = Some r ->
  let mac := ToUpper (TrimSpace mac0) in
  let o := buildObs env mac bd rd in
  let w' := observe parse env now mac0 bd rd w in
  savesOf (trace w') = savesOf (trace w)
  /\ lastDeviceWrite (maps w') !! mac = Some last
  /\ exists r',
      Db.devices (store w') !! mac = Some r'
      /\ sameExceptGpsTypeAdv r r'
      /\ (Db.gps r' <> Db.gps r -> gpsRefreshDue now o w (Db.gps r'))
      /\ (Db.type_ r' <> Db.type_ r -> markedTypeGiven o (Db.type_ r'))
      /\ (Db.last_adv_id r' <> Db.last_adv_id r -> advertisementDue now mac w).
Proof.
  intros Hcfg Hm Hlast Hlt Hr mac o w'. subst w'.
  rewrite (observe_phases now mac0 bd rd w Hm). fold mac. fold o.
  fold mac in Hm, Hlast, Hr.
  assert (Hn : Db.normalizeMAC (o_mac o) = o_mac o) by apply normalizeMAC_canonical.
  destruct (sight_frame o bd w) as (Hs0 & Hd0 & Ha0 & Hv0 & Hw0).
  set (w0 := sight env o bd w) in *.
  assert (Hdw : deviceWrite parse env now rd o bd w0 = throttledUpdate env now rd o w0).
  { unfold deviceWrite. rewrite Hd0. change (o_mac o) with mac. rewrite Hlast, Hcfg.
    cbn [DeviceUpdateMinPeriod defaultBlueZConfig].
    destruct (Z.ltb_spec (Sub now last) (10 * Second)); [reflexivity | lia]. }
  rewrite Hdw.
  destruct (throttledUpdate_frame now rd o w0) as [Hd1 Ha1].
  set (w1 := throttledUpdate env now rd o w0) in *.
  split; [|split].
  - assert (Hc : continues [] (fun _ => True) w w1).
    { subst w1. apply continues_throttledUpdate; [auto|].
      eapply continues_weaken; [|apply continues_sight]. auto. }
    assert (Hc3 : continues [] (fun _ => True) w
                    (classicWrite env now o bd (advertisementWrite env now o bd w1)))
      by (apply continues_classicWrite, continues_advertisementWrite; exact Hc).
    rewrite savesOf_connectSchedule, (continues_saves _ _ _ _ Hc3), app_nil_r. reflexivity.
  - rewrite lastDeviceWrite_connectSchedule, lastDeviceWrite_classicWrite,
      lastDeviceWrite_advertisementWrite, Hd1, Hd0. exact Hlast.
  - rewrite store_connectSchedule, devices_classicWrite.
    assert (Hr0 : Db.devices (store w0) !! o_mac o = Some r) by (rewrite Hs0; exact Hr).
    destruct (throttledUpdate_row now rd o w0 r Hn Hm Hr0) as (g & t & Hrow1 & Hg & Ht).
    fold w1 in Hrow1.
    destruct (advertisementWrite_row now o bd w1 _ Hcfg Hn Hrow1) as (a & Hrow2 & Ha).
    eexists. split; [exact Hrow2|].
    split; [apply sameExceptGpsTypeAdv_set|].
    split; [|split].
    + intros Hne. assert (Hg' : g <> Db.gps r) by (destruct r; exact Hne).
      specialize (Hg Hg'). unfold gpsRefreshDue in *. rewrite Hv0, Hw0 in Hg.
      destruct r; exact Hg.
    + intros Hne. assert (Ht' : t <> Db.type_ r) by (destruct r; exact Hne).
      specialize (Ht Ht'). destruct r; exact Ht.
    + intros Hne. assert (Ha' : a <> Db.last_adv_id (Db.setType t (Db.setGPS g r)))
        by (destruct r; exact Hne).
      specialize (Ha Ha'). unfold advertisementDue in *. rewrite Ha1, Ha0 in Ha. exact Ha.
Qed.


(** *** Names and address types of what the loop prints and saves *)

Lemma printsOf_connectSchedule now o bd w :
  printsOf (trace (connectSchedule env now o bd w)) = printsOf (trace w).
Proof.
  unfold connectSchedule, trySend.
  repeat match goal with
         | |- context [if ?c then _ else _] => destruct c
         | |- context [match ?x with Some _ => _ | None => _ end] => destruct x
         end; cbn [trace emit withMaps withQueue]; unfold printsOf;
    rewrite ?flat_map_app; cbn [flat_map app]; rewrite ?app_nil_r; reflexivity.
Qed.

Lemma SaveDevice_name nowStr p s n r0 :
  Db.normalizeMAC (Db.MAC p) <> "" -> Db.UpdateExisting p = true -> Db.Name p = Some n ->
  Db.devices s !! Db.normalizeMAC (Db.MAC p) = Some r0 ->
  exists r, Db.devices (snd (Db.SaveDevice parse nowStr p s)) !! Db.normalizeMAC (Db.MAC p) = Some r
            /\ Db.name r = Some n.
Proof.
  intros Hm Hu Hn Hr.
  rewrite (SaveDevice_update parse nowStr p s r0 Hm Hu Hr).
  cbn [snd Db.devices Db.withDevices]. rewrite lookup_insert_eq.
  eexists. split; [reflexivity|]. cbn [Db.updatedRow Db.name]. rewrite Hn. reflexivity.
Qed.

(** The GPS block of the full write keeps the row of the device, and makes
    none. *)
Lemma fullWrite_gps_row now rd o (w : World) r :
  Db.normalizeMAC (o_mac o) = o_mac o -> o_mac o <> "" ->
  Db.devices (store w) !! o_mac o = Some r ->
  exists r3,
    Db.devices (store (match o_gpsStr o with
                       | Some g => if String.eqb (TrimSpace g) "" then w
                                   else gpsWrite env now rd o (TrimSpace g) w
                       | None => w
                       end)) !! o_mac o = Some r3.
Proof.
  intros Hn Hm Hr. destruct (o_gpsStr o) as [g|]; [|eauto].
  destruct (String.eqb_spec (TrimSpace g) "") as [E|E]; [eauto|].
  eexists. apply (gpsWrite_row now rd o (TrimSpace g) w r Hn Hm); [rewrite TrimSpace_idem; exact E | exact Hr].
Qed.

Lemma fullWrite_name now rd o bd w r0 :
  Db.normalizeMAC (o_mac o) = o_mac o -> o_mac o <> "" ->
  Db.devices (store w) !! o_mac o = Some r0 ->
  exists r, Db.devices (store (fullWrite parse env now rd o bd w)) !! o_mac o = Some r
            /\ Db.name r = Some (o_name o).
Proof.
  intros Hn Hm Hr0. unfold fullWrite.
  match goal with
  | |- context [markerUpdate o (emit ?e (withStore ?f ?w3))] =>
      set (w4 := emit e (withStore f w3));
      assert (H3 : exists r3, Db.devices (store w3) !! o_mac o = Some r3);
      [|assert (H4 : exists r, Db.devices (store w4) !! o_mac o = Some r
                               /\ Db.name r = Some (o_name o))]
  end.
  { eapply fullWrite_gps_row; [exact Hn | exact Hm|].
    destruct (1 <? _); exact Hr0. }
  { destruct H3 as (r3 & Hr3). subst w4. cbn [store emit withStore].
    match goal with |- context [Db.SaveDevice parse ?n ?p ?s] =>
      destruct (SaveDevice_name n p s (o_name o) r3) as (r & Hr & Hname) end.
    - cbn [Db.MAC saveParamsOf]. rewrite Hn. exact Hm.
    - reflexivity.
    - reflexivity.
    - cbn [Db.MAC saveParamsOf]. rewrite Hn. exact Hr3.
    - cbn [Db.MAC saveParamsOf] in Hr. rewrite Hn in Hr. exists r. split; assumption. }
  destruct H4 as (r & Hr & Hname).
  destruct (markerUpdate_row o w4 r Hn Hm Hr) as (t & Ht & _).
  eexists. split; [exact Ht|]. destruct r; exact Hname.
Qed.

(** *** A device that has no row yet *)

Lemma updateDevice_norow f m' m s :
  Db.devices s !! m = None -> Db.devices (Db.updateDevice f m' s) !! m = None.
Proof.
  intros H. unfold Db.updateDevice.
  destruct (Db.devices s !! m') eqn:E; [|exact H].
  cbn [Db.devices Db.withDevices]. rewrite lookup_insert_ne; [exact H|].
  intros ->. congruence.
Qed.

Lemma UpdateDeviceGPS_norow m' t m s :
  Db.devices s !! m = None -> Db.devices (Db.UpdateDeviceGPS m' t s) !! m = None.
Proof.
  intros H. unfold Db.UpdateDeviceGPS.
  destruct (String.eqb _ ""); [exact H|].
  destruct (String.eqb _ ""); [exact H|]. apply updateDevice_norow, H.
Qed.

Lemma UpdateDeviceMarkedType_norow m' t m s :
  Db.devices s !! m = None -> Db.devices (Db.UpdateDeviceMarkedType m' t s) !! m = None.
Proof.
  intros H. unfold Db.UpdateDeviceMarkedType.
  destruct (String.eqb _ ""); [exact H|].
  destruct (String.eqb _ ""); [exact H|]. apply updateDevice_norow, H.
Qed.

Lemma UpdateDeviceLastAdvID_norow m' i m s :
  Db.devices s !! m = None -> Db.devices (Db.UpdateDeviceLastAdvID m' i s) !! m = None.
Proof.
  intros H. unfold Db.UpdateDeviceLastAdvID.
  destruct (_ || _); [exact H|]. apply updateDevice_norow, H.
Qed.

Lemma markerUpdate_norow o (w : World) m :
  Db.devices (store w) !! m = None -> Db.devices (store (markerUpdate o w)) !! m = None.
Proof.
  intros H. unfold markerUpdate.
  destruct (String.eqb _ ""); [exact H|].
  destruct (match lastMarked (maps w) !! o_mac o with Some _ => _ | None => _ end);
    cbn [store emit withStore withMaps Linef]; apply UpdateDeviceMarkedType_norow, H.
Qed.

Lemma gpsWrite_norow now rd o t (w : World) m :
  Db.devices (store w) !! m = None ->
  Db.devices (store (gpsWrite env now rd o t w)) !! m = None.
Proof.
  intros H. unfold gpsWrite. cbn [store emit withStore withMaps].
  rewrite devices_RecordHistory. apply UpdateDeviceGPS_norow, H.
Qed.

(** The full write of a device without a row leaves it without one: the
    updates find nothing to update and the insert of [SaveDevice] is
    refused. *)
Lemma fullWrite_norow now rd o bd (w : World) :
  Db.devices (store w) !! o_mac o = None ->
  Db.devices (store (fullWrite parse env now rd o bd w)) !! o_mac o = None.
Proof.
  intros H. unfold fullWrite. apply markerUpdate_norow.
  cbn [store emit withStore].
  match goal with |- context [Db.SaveDevice parse ?n ?p ?s] =>
    assert (H3 : Db.devices s !! o_mac o = None) end.
  { destruct (o_gpsStr o) as [g|].
    - destruct (String.eqb (TrimSpace g) "").
      + destruct (1 <? _); exact H.
      + apply gpsWrite_norow. destruct (1 <? _); exact H.
    - destruct (1 <? _); exact H. }
  match goal with |- context [Db.SaveDevice parse ?n ?p ?s] =>
    destruct (String.eqb_spec (o_mac o) (Db.normalizeMAC (Db.MAC p))) as [E|E] end.
  - rewrite SaveDevice_norow; [exact H3|]. rewrite <- E. exact H3.
  - rewrite (SaveDevice_other parse _ _ _ _ E). exact H3.
Qed.

(** The row that the advertisement write makes for such a device is the
    stub, whose name is "Unknown". *)
Lemma advertisementWrite_stub now o bd (w : World) r :
  Db.normalizeMAC (o_mac o) = o_mac o ->
  Db.devices (store w) !! o_mac o = None ->
  Db.devices (store (advertisementWrite env now o bd w)) !! o_mac o = Some r ->
  Db.name r = Some "Unknown".
Proof.
  intros Hn Hnone. unfold advertisementWrite.
  destruct (match lastAdvWrite (maps w) !! o_mac o with Some _ => _ | None => _ end);
    [|intros H; congruence].
  match goal with |- context [Db.InsertAdvertisement ?p (store ?w1)] =>
    set (ins := Db.InsertAdvertisement p (store w1));
    assert (Hins : Db.devices (snd ins) !! o_mac o = None
                   \/ exists r1, Db.devices (snd ins) !! o_mac o = Some r1
                                 /\ Db.name r1 = Some "Unknown")
  end.
  { subst ins. unfold Db.InsertAdvertisement. cbn [Db.ap_MAC store withMaps].
    rewrite Hn. destruct (String.eqb (o_mac o) ""); [left; exact Hnone|].
    rewrite Hnone. right. cbn [snd Db.devices Db.withDevices Db.withAdvertisements].
    rewrite lookup_insert_eq. eexists. split; reflexivity. }
  destruct (0 <? fst ins); cbn [store emit withStore withMaps].
  - destruct Hins as [Hi|(r1 & Hi & Hname)].
    + rewrite (UpdateDeviceLastAdvID_norow _ _ _ _ Hi). discriminate.
    + destruct (UpdateDeviceLastAdvID_row (o_mac o) (fst ins) _ r1 Hn Hi) as (a & Ha).
      rewrite Ha. intros [= <-]. destruct r1; exact Hname.
  - destruct Hins as [Hi|(r1 & Hi & Hname)]; rewrite Hi; [discriminate|].
    intros [= <-]. exact Hname.
Qed.

Lemma advertisementWrite_name now o bd w r :
  Db.normalizeMAC (o_mac o) = o_mac o ->
  Db.devices (store w) !! o_mac o = Some r ->
  exists a, Db.devices (store (advertisementWrite env now o bd w)) !! o_mac o
            = Some (Db.setLastAdvID a r).
Proof.
  intros Hn Hr. unfold advertisementWrite.
  assert (Hid : Db.devices (store w) !! o_mac o = Some (Db.setLastAdvID (Db.last_adv_id r) r))
    by (rewrite Hr; f_equal; destruct r; reflexivity).
  destruct (match lastAdvWrite (maps w) !! o_mac o with Some _ => _ | None => _ end);
    [|exists (Db.last_adv_id r); exact Hid].
  match goal with |- context [Db.InsertAdvertisement ?p (store ?w1)] =>
    assert (Hins : Db.devices (snd (Db.InsertAdvertisement p (store w1))) !! o_mac o = Some r)
      by (apply InsertAdvertisement_row; [exact Hn | exact Hr]);
    destruct (0 <? fst (Db.InsertAdvertisement p (store w1)))
  end.
  - cbn [store emit withStore withMaps] in *.
    match goal with |- context [Db.UpdateDeviceLastAdvID ?m ?i ?s] =>
      destruct (UpdateDeviceLastAdvID_row m i s r Hn Hins) as (a & Ha) end.
    exists a. exact Ha.
  - cbn [store emit withStore withMaps] in *. exists (Db.last_adv_id r).
    rewrite Hins. f_equal. destruct r; reflexivity.
Qed.

Lemma SafeName_blank_or_mac (n : string) :
  TrimSpace n = "" \/ IsMACAddress n = true -> SafeName n = "Unknown".
Proof.
  unfold SafeName, IsMACAddress. rewrite TrimSpace_idem. intros [H|H].
  - rewrite H. reflexivity.
  - rewrite H. destruct (String.eqb (TrimSpace n) ""); reflexivity.
Qed.

(** C10. A local name that is blank after trimming, or that has the format
    of a MAC address (six pairs of hex digits separated by ':' or '-'),
    becomes "Unknown"; every other name is only trimmed.  In one pass of the
    discovery loop every [NEW] and [UPDATE] console line starts with the safe
    name of the observation and every [SaveDevice] call carries it as name.
    After a pass with a full device write the row of a device that had one
    holds the safe name, and the row that the pass makes for a device that
    had none (through [InsertAdvertisement]) holds "Unknown"; either way the
    row of a device whose name is blank or MAC-formatted, in particular
    equal to its own address, holds the name "Unknown". *)
Theorem SafeName_in_discovery_loop :
  (forall n, TrimSpace n = "" \/ IsMACAddress n = true -> SafeName n = "Unknown")
  /\ (forall n, TrimSpace n <> "" -> IsMACAddress n = false -> SafeName n = TrimSpace n)
  /\ (forall a1 a2 b1 b2 c1 c2 d1 d2 e1 e2 f1 f2 s1 s2 s3 s4 s5,
         forallb isHexDigit [a1; a2; b1; b2; c1; c2; d1; d2; e1; e2; f1; f2] = true ->
         forallb isMacSep [s1; s2; s3; s4; s5] = true ->
         IsMACAddress (string_of_list_ascii
                         [a1; a2; s1; b1; b2; s2; c1; c2; s3; d1; d2; s4; e1; e2; s5; f1; f2])
         = true)
  /\ (forall now mac0 bd rd w,
         let w' := observe parse env now mac0 bd rd w in
         (exists ls, printsOf (trace w') = (printsOf (trace w) ++ ls)%list
                     /\ Forall (fun l => label l = "[NEW]" \/ label l = "[UPDATE]" ->
                                         msg l = sightingText env bd) ls)
         /\ (exists ps, savesOf (trace w') = (savesOf (trace w) ++ ps)%list
                        /\ Forall (fun p => Db.Name p = Some (SafeName (bd_Name bd))) ps))
  /\ (forall now mac0 bd rd w,
         ToUpper (TrimSpace mac0) <> "" ->
         fullWriteDue env now (ToUpper (TrimSpace mac0)) w ->
         let rowOf (v : World) := Db.devices (store v) !! ToUpper (TrimSpace mac0) in
         let w' := observe parse env now mac0 bd rd w in
         (rowOf w <> None ->
          exists r, rowOf w' = Some r /\ Db.name r = Some (SafeName (bd_Name bd)))
         /\ (rowOf w = None -> forall r, rowOf w' = Some r -> Db.name r = Some "Unknown")
         /\ (forall r, rowOf w' = Some r ->
             (TrimSpace (bd_Name bd) = "" \/ IsMACAddress (bd_Name bd) = true ->
              Db.name r = Some "Unknown")
             /\ (bd_Name bd = mac0 -> IsMACAddress mac0 = true -> Db.name r = Some "Unknown"))).
Proof.
  split; [exact SafeName_blank_or_mac|]. split; [|split; [|split]].
  - intros n Hn Hm. unfold SafeName, IsMACAddress in *. rewrite TrimSpace_idem, Hm.
    rewrite (eqb_false_of_neq _ _ Hn). reflexivity.
  - intros a1 a2 b1 b2 c1 c2 d1 d2 e1 e2 f1 f2 s1 s2 s3 s4 s5 Hh Hs.
    pose proof (proj1 (forallb_forall _ _) Hh) as Hhex.
    pose proof (proj1 (forallb_forall _ _) Hs) as Hsep.
    assert (Ha1 : isHexDigit a1 = true) by (apply Hhex; cbn; tauto).
    assert (Ha2 : isHexDigit a2 = true) by (apply Hhex; cbn; tauto).
    assert (Hb1 : isHexDigit b1 = true) by (apply Hhex; cbn; tauto).
    assert (Hb2 : isHexDigit b2 = true) by (apply Hhex; cbn; tauto).
    assert (Hc1 : isHexDigit c1 = true) by (apply Hhex; cbn; tauto).
    assert (Hc2 : isHexDigit c2 = true) by (apply Hhex; cbn; tauto).
    assert (Hd1 : isHexDigit d1 = true) by (apply Hhex; cbn; tauto).
    assert (Hd2 : isHexDigit d2 = true) by (apply Hhex; cbn; tauto).
    assert (He1 : isHexDigit e1 = true) by (apply Hhex; cbn; tauto).
    assert (He2 : isHexDigit e2 = true) by (apply Hhex; cbn; tauto).
    assert (Hf1 : isHexDigit f1 = true) by (apply Hhex; cbn; tauto).
    assert (Hf2 : isHexDigit f2 = true) by (apply Hhex; cbn; tauto).
    assert (Hs1 : isMacSep s1 = true) by (apply Hsep; cbn; tauto).
    assert (Hs2 : isMacSep s2 = true) by (apply Hsep; cbn; tauto).
    assert (Hs3 : isMacSep s3 = true) by (apply Hsep; cbn; tauto).
    assert (Hs4 : isMacSep s4 = true) by (apply Hsep; cbn; tauto).
    assert (Hs5 : isMacSep s5 = true) by (apply Hsep; cbn; tauto).
    assert (Hns : isPlain a1 = true) by (apply isHexDigit_plain; exact Ha1).
    assert (Hnf : isPlain f2 = true) by (apply isHexDigit_plain; exact Hf2).
    unfold IsMACAddress, TrimSpace. cbn [string_of_list_ascii].
    rewrite (trimLeft_plain _ _ Hns).
    change (String a1 (String a2 (String s1 (String b1 (String b2 (String s2
              (String c1 (String c2 (String s3 (String d1 (String d2 (String s4
                 (String e1 (String e2 (String s5 (String f1 (String f2 "")))))))))))))))))
      with ((String a1 (String a2 (String s1 (String b1 (String b2 (String s2
               (String c1 (String c2 (String s3 (String d1 (String d2 (String s4
                  (String e1 (String e2 (String s5 (String f1 ""))))))))))))))))
            ++ String f2 "")%string.
    rewrite (trimRight_nonspace_end _ _ Hnf).
    change ((String a1 (String a2 (String s1 (String b1 (String b2 (String s2
               (String c1 (String c2 (String s3 (String d1 (String d2 (String s4
                  (String e1 (String e2 (String s5 (String f1 ""))))))))))))))))
            ++ String f2 "")%string
      with (String a1 (String a2 (String s1 (String b1 (String b2 (String s2
              (String c1 (String c2 (String s3 (String d1 (String d2 (String s4
                 (String e1 (String e2 (String s5 (String f1 (String f2 ""))))))))))))))))).
    cbn [macRe_MatchString macGroups].
    rewrite Ha1, Ha2, Hb1, Hb2, Hc1, Hc2, Hd1, Hd2, He1, He2, Hf1, Hf2,
      Hs1, Hs2, Hs3, Hs4, Hs5. reflexivity.
  - intros now mac0 bd rd w w'. subst w'.
    destruct (String.eqb_spec (ToUpper (TrimSpace mac0)) "") as [Em|Em].
    { unfold observe. rewrite Em. cbn [String.eqb].
      split; exists []; rewrite app_nil_r; split; constructor. }
    rewrite (observe_phases now mac0 bd rd w Em).
    set (o := buildObs env (ToUpper (TrimSpace mac0)) bd rd).
    set (P := fun l => label l = "[NEW]" \/ label l = "[UPDATE]" -> msg l = sightingText env bd).
    assert (Hline : sightingLine env o bd = sightingText env bd) by reflexivity.
    destruct (continues_deviceWrite P [] now rd o bd w (sight env o bd w)) as (ps & Hc & Hps).
    + intros l Hl [H|H]; rewrite Hl in H; discriminate.
    + intros l _ Hmsg _. rewrite Hmsg. exact Hline.
    + eapply continues_weaken; [|apply continues_sight].
      intros l [_ Hmsg] _. rewrite Hmsg. exact Hline.
    + assert (Hc3 : continues ([] ++ ps)%list P w
                      (classicWrite env now o bd
                         (advertisementWrite env now o bd
                            (deviceWrite parse env now rd o bd (sight env o bd w)))))
        by (apply continues_classicWrite, continues_advertisementWrite; exact Hc).
      split.
      * rewrite printsOf_connectSchedule. exact (continues_prints _ _ _ _ Hc3).
      * rewrite savesOf_connectSchedule, (continues_saves _ _ _ _ Hc3).
        exists ps. split; [reflexivity|].
        eapply Forall_impl; [exact Hps|]. cbn. intros p ->. reflexivity.
  - intros now mac0 bd rd w Hm Hdue rowOf w'. subst rowOf w'. cbv beta.
    rewrite (observe_phases now mac0 bd rd w Hm).
    set (o := buildObs env (ToUpper (TrimSpace mac0)) bd rd).
    assert (Hn : Db.normalizeMAC (o_mac o) = o_mac o) by apply normalizeMAC_canonical.
    destruct (sight_frame o bd w) as (Hst & Hd0 & _).
    assert (Hfull : deviceWrite parse env now rd o bd (sight env o bd w)
                    = fullWrite parse env now rd o bd (sight env o bd w)).
    { unfold deviceWrite. rewrite Hd0. unfold fullWriteDue in Hdue.
      change (o_mac o) with (ToUpper (TrimSpace mac0)).
      destruct (lastDeviceWrite (maps w) !! ToUpper (TrimSpace mac0)); [|reflexivity].
      destruct (Z.ltb_spec (Sub now t) (DeviceUpdateMinPeriod (cfg env))); [lia | reflexivity]. }
    rewrite Hfull, store_connectSchedule, devices_classicWrite.
    change (ToUpper (TrimSpace mac0)) with (o_mac o).
    assert (Hold : Db.devices (store w) !! o_mac o <> None ->
                   exists r, Db.devices (store (advertisementWrite env now o bd
                                (fullWrite parse env now rd o bd (sight env o bd w)))) !! o_mac o
                             = Some r
                             /\ Db.name r = Some (SafeName (bd_Name bd))).
    { intros Hrow. destruct (Db.devices (store w) !! o_mac o) as [r0|] eqn:Hr0; [|contradiction].
      destruct (fullWrite_name now rd o bd (sight env o bd w) r0 Hn Hm
                  ltac:(rewrite Hst; exact Hr0)) as (r1 & Hr1 & Hname).
      destruct (advertisementWrite_name now o bd _ r1 Hn Hr1) as (a & Hr2).
      eexists. split; [exact Hr2|]. destruct r1; exact Hname. }
    assert (Hnew : Db.devices (store w) !! o_mac o = None ->
                   forall r, Db.devices (store (advertisementWrite env now o bd
                                (fullWrite parse env now rd o bd (sight env o bd w)))) !! o_mac o
                             = Some r ->
                             Db.name r = Some "Unknown").
    { intros Hnone r. apply advertisementWrite_stub; [exact Hn|].
      apply fullWrite_norow. rewrite Hst. exact Hnone. }
    split; [exact Hold|]. split; [exact Hnew|].
    intros r Hr.
    assert (Hcases : Db.name r = Some (SafeName (bd_Name bd)) \/ Db.name r = Some "Unknown").
    { destruct (Db.devices (store w) !! o_mac o) as [r0|] eqn:Hr0.
      - left. destruct Hold as (r' & Hr' & Hname); [discriminate|]. congruence.
      - right. exact (Hnew eq_refl r Hr). }
    split.
    + intros Hb. destruct Hcases as [H|H]; [|exact H].
      rewrite H, (SafeName_blank_or_mac _ Hb). reflexivity.
    + intros Hself Hmac. destruct Hcases as [H|H]; [|exact H].
      rewrite H, Hself, (SafeName_blank_or_mac mac0 (or_intror Hmac)). reflexivity.
Qed.

(** C5. For a device that BlueZ reports with AddressType "random" the pass
    of the discovery loop records the address type "random" and the address
    subtype "random", whatever the MAC is; the saved parameters carry that
    pair. *)
Theorem discovery_loop_address_subtype mac bd rd :
  bd_AddressType bd = Some "random" ->
  let o := buildObs env mac bd rd in
  o_macType o = "random" /\ o_macSub o = "random"
  /\ Db.MACType (saveParamsOf env o bd) = Some "random"
  /\ Db.MACSubType (saveParamsOf env o bd) = Some "random".
Proof.
  intros H o. subst o. cbn [buildObs o_macType o_macSub saveParamsOf Db.MACType Db.MACSubType].
  unfold macTypeAndSub. rewrite H. repeat split.
Qed.
End LoopFacts.

(** The tick at T0 + 30 s of the 3-second loop falls 6 s after the full
    device write of T0 + 24 s and 30 s after the advertisement row of T0: the
    pass rewrites last_adv_id. *)
Lemma throttle_frame_counterexample : ~ throttleFrameAsStated.
Proof.
  intros H.
  assert (Hlast : Bluetooth.lastDeviceWrite (Bluetooth.maps worldAfter27s)
                    !! ToUpper (TrimSpace macX) = Some (timeT0 + 24 * Second))
    by (vm_compute; reflexivity).
  assert (Hlt : Sub (timeT0 + 30 * Second) (timeT0 + 24 * Second) < 10 * Second)
    by (vm_compute; reflexivity).
  assert (Hb : Db.devices (Bluetooth.store worldAfter27s) !! ToUpper (TrimSpace macX)
               = Some rowAfter27s) by (vm_compute; reflexivity).
  assert (Ha : Db.devices
                 (Bluetooth.store
                    (Bluetooth.observe Layout.parseStamp envX (timeT0 + 30 * Second) macX
                       (bleDevice "Sensor" (Some "public") (Some (-80)))
                       (readingsAt (timeT0 + 30 * Second) (stampAt 30)) worldAfter27s))
                 !! ToUpper (TrimSpace macX)
               = Some (Db.setLastAdvID (Some 2) rowAfter27s)) by (vm_compute; reflexivity).
  pose proof (H Layout.parseStamp envX (timeT0 + 30 * Second) macX
                (bleDevice "Sensor" (Some "public") (Some (-80)))
                (readingsAt (timeT0 + 30 * Second) (stampAt 30)) worldAfter27s
                (timeT0 + 24 * Second) rowAfter27s (Db.setLastAdvID (Some 2) rowAfter27s)
                eq_refl Hlast Hlt Hb Ha) as Hsame.
  vm_compute in Hsame. discriminate Hsame.
Qed.

(** The same tick, read through the amended statement. *)
Lemma observe_throttled_frame_witness :
  Bluetooth.lastDeviceWrite
    (Bluetooth.maps
       (Bluetooth.observe Layout.parseStamp envX (timeT0 + 30 * Second) macX
          (bleDevice "Sensor" (Some "public") (Some (-80)))
          (readingsAt (timeT0 + 30 * Second) (stampAt 30)) worldAfter27s))
    !! ToUpper (TrimSpace macX) = Some (timeT0 + 24 * Second)
  /\ savesOf (Bluetooth.trace
                (Bluetooth.observe Layout.parseStamp envX (timeT0 + 30 * Second) macX
                   (bleDevice "Sensor" (Some "public") (Some (-80)))
                   (readingsAt (timeT0 + 30 * Second) (stampAt 30)) worldAfter27s))
     = savesOf (Bluetooth.trace worldAfter27s).
Proof.
  assert (Hm : ToUpper (TrimSpace macX) <> "") by (vm_compute; discriminate).
  assert (Hlast : Bluetooth.lastDeviceWrite (Bluetooth.maps worldAfter27s)
                    !! ToUpper (TrimSpace macX) = Some (timeT0 + 24 * Second))
    by (vm_compute; reflexivity).
  assert (Hlt : Sub (timeT0 + 30 * Second) (timeT0 + 24 * Second) < 10 * Second)
    by (vm_compute; reflexivity).
  assert (Hb : Db.devices (Bluetooth.store worldAfter27s) !! ToUpper (TrimSpace macX)
               = Some rowAfter27s) by (vm_compute; reflexivity).
  destruct (observe_throttled_frame Layout.parseStamp envX (timeT0 + 30 * Second) macX
              (bleDevice "Sensor" (Some "public") (Some (-80)))
              (readingsAt (timeT0 + 30 * Second) (stampAt 30)) worldAfter27s
              (timeT0 + 24 * Second) rowAfter27s eq_refl Hm Hlast Hlt Hb)
    as (Hsaves & Hlast' & _).
  split; [exact Hlast' | exact Hsaves].
Defined.

(** The second sighting of device Y, RSSI -80 dBm: the gate is closed. *)
Lemma observe_connect_gate_witness :
  Bluetooth.queue worldY3 = Bluetooth.queue (sightingY 0 (-80) worldX)
  /\ enqueuesOf (Bluetooth.trace worldY3)
     = enqueuesOf (Bluetooth.trace (sightingY 0 (-80) worldX)).
Proof.
  destruct (proj1 (observe_connect_gate Layout.parseStamp envX (timeT0 + 3 * Second) macY
                     (bleDevice "Y" (Some "public") (Some (-80)))
                     (readingsAt (timeT0 + 3 * Second) (stampAt 3))
                     (sightingY 0 (-80) worldX) eq_refl))
    as (Hq & He & _).
  - right; left. exists (-80). split; [reflexivity | reflexivity].
  - split; [exact Hq | exact He].
Defined.

(** The whole scenario: nothing is queued after the two weak sightings, the
    third sighting queues the MAC and marks it in flight, the fourth one
    while in flight queues nothing more, and the attempt of T0 + 6 s is the
    one the 30-minute cooldown counts from. *)
Lemma connect_gating_scenario :
  Bluetooth.queue worldY3 = []
  /\ Bluetooth.queue worldY6 = [macY]
  /\ Bluetooth.inFlight (Bluetooth.maps worldY6) !! macY = Some true
  /\ Bluetooth.queue worldY9 = [macY]
  /\ Bluetooth.lastConnAttempt (Bluetooth.maps worldY9) !! macY = Some (timeT0 + 6 * Second).
Proof. vm_compute. repeat split. Qed.

(** A device that advertises its own address as name, sighted at T0 and
    again at T0 + 12 s, when the next full device write is due: the row made
    at T0 and the row rewritten at T0 + 12 s both hold "Unknown". *)
Lemma SafeName_in_discovery_loop_witness :
  (exists r,
      Db.devices (Bluetooth.store selfNamedAt0) !! ToUpper (TrimSpace macX) = Some r
      /\ Db.name r = Some "Unknown")
  /\ exists r,
      Db.devices (Bluetooth.store selfNamedAt12) !! ToUpper (TrimSpace macX) = Some r
      /\ Db.name r = Some "Unknown".
Proof.
  split.
  - destruct (Db.devices (Bluetooth.store selfNamedAt0) !! ToUpper (TrimSpace macX))
      as [r|] eqn:Hr; [|vm_compute in Hr; discriminate Hr].
    exists r. split; [reflexivity|].
    destruct (proj2 (proj2 (proj2 (proj2 (SafeName_in_discovery_loop Layout.parseStamp envX))))
                timeT0 macX (bleDevice macX (Some "public") (Some (-60)))
                (readingsAt timeT0 stampT0) worldX)
      as (_ & _ & Hany).
    + vm_compute. discriminate.
    + vm_compute. exact I.
    + apply (proj2 (Hany r Hr)); [reflexivity | vm_compute; reflexivity].
  - destruct (proj2 (proj2 (proj2 (proj2 (SafeName_in_discovery_loop Layout.parseStamp envX))))
                (timeT0 + 12 * Second) macX (bleDevice macX (Some "public") (Some (-60)))
                (readingsAt (timeT0 + 12 * Second) (stampAt 12)) selfNamedAt0)
      as (Hold & _ & Hany).
    + vm_compute. discriminate.
    + vm_compute. discriminate.
    + destruct Hold as (r & Hr & _); [vm_compute; discriminate|].
      exists r. split; [exact Hr|].
      apply (proj2 (Hany r Hr)); [reflexivity | vm_compute; reflexivity].
Defined.

(** A static random address (two most significant bits 11) reported by BlueZ
    with AddressType "random": the loop records the subtype "random". *)
Lemma discovery_loop_address_subtype_witness :
  Bluetooth.o_macSub
    (Bluetooth.buildObs envX macStaticRandom (bleDevice "Tag" (Some "random") (Some (-60)))
       (readingsAt timeT0 stampT0)) = "random".
Proof.
  apply (discovery_loop_address_subtype envX macStaticRandom
           (bleDevice "Tag" (Some "random") (Some (-60))) (readingsAt timeT0 stampT0)).
  reflexivity.
Defined.

(** [ClassifyAddress] on the same address yields the subtype
    "static_random". *)
Lemma ClassifyAddress_static_random :
  Bluetooth.ClassifyAddress true (Some staticRandomBytes) = ("random", "static_random").
Proof. reflexivity. Qed.

(** [ClassifyAddress] only ever yields the documented types and subtypes. *)
Lemma ClassifyAddress_range (isRandom : bool) (b : option (list Z)) :
  In (Bluetooth.ClassifyAddress isRandom b)
     [("public_or_unknown", ""); ("random", ""); ("random", "non_resolvable_private");
      ("random", "resolvable_private"); ("random", "reserved"); ("random", "static_random")].
Proof.
  unfold Bluetooth.ClassifyAddress.
  destruct isRandom; cbn [negb]; [|cbn; tauto].
  destruct b as [[|b0 ?]|]; try (cbn; tauto).
  repeat match goal with |- context [if ?c then _ else _] => destruct c end; cbn; tauto.
Qed.

(** * Further properties of the code *)

(** ** Hexadecimal text of byte slices *)

(** The sixteen values of a half byte, by quarters. *)
Lemma nibble_cases (n : Z) : 0 <= n < 16 ->
  (n = 0 \/ n = 1 \/ n = 2 \/ n = 3) \/ (n = 4 \/ n = 5 \/ n = 6 \/ n = 7) \/
  (n = 8 \/ n = 9 \/ n = 10 \/ n = 11) \/ (n = 12 \/ n = 13 \/ n = 14 \/ n = 15).
Proof. lia. Qed.

Ltac each_nibble H :=
  destruct (nibble_cases _ H) as
    [[->|[->|[->| ->]]]|[[->|[->|[->| ->]]]|[[->|[->|[->| ->]]]|[->|[->|[->| ->]]]]]].

Section HexFacts.
Import Types.

Lemma fromHexChar_hexdigit (n : Z) : 0 <= n < 16 -> fromHexChar (hexdigit n) = Some n.
Proof. intros H. each_nibble H; reflexivity. Qed.

Lemma isSpace_hexdigit (n : Z) : 0 <= n < 16 -> isSpace (hexdigit n) = false.
Proof. intros H. each_nibble H; reflexivity. Qed.

Lemma hexdigit_not_blank (n : Z) : 0 <= n < 16 -> (byteval (hexdigit n) =? 32) = false.
Proof. intros H. each_nibble H; reflexivity. Qed.

Lemma byte_high (v : Z) : isByte v -> 0 <= Z.shiftr v 4 < 16.
Proof.
  intros [H0 H1]. rewrite Z.shiftr_div_pow2 by lia. change (2 ^ 4) with 16.
  split; [apply Z.div_pos; lia | apply Z.div_lt_upper_bound; lia].
Qed.

Lemma byte_low (v : Z) : isByte v -> 0 <= Z.land v 15 < 16.
Proof.
  intros [H0 H1]. change 15 with (Z.ones 4). rewrite Z.land_ones by lia.
  change (2 ^ 4) with 16. apply Z.mod_pos_bound. lia.
Qed.

Lemma byte_split (v : Z) : isByte v -> Z.shiftr v 4 * 16 + Z.land v 15 = v.
Proof.
  intros [H0 H1]. rewrite Z.shiftr_div_pow2 by lia.
  change 15 with (Z.ones 4). rewrite Z.land_ones by lia. change (2 ^ 4) with 16.
  pose proof (Z.div_mod v 16). lia.
Qed.

(** The two hexadecimal digits of a byte. *)
Lemma DecodeString_pair (v : Z) (r : string) : isByte v ->
  DecodeString (String (hexdigit (Z.shiftr v 4)) (String (hexdigit (Z.land v 15)) r)) =
  match DecodeString r with Some bs => Some (v :: bs) | None => None end.
Proof.
  intros Hv. cbn [DecodeString].
  rewrite (fromHexChar_hexdigit _ (byte_high v Hv)), (fromHexChar_hexdigit _ (byte_low v Hv)).
  rewrite (byte_split v Hv). reflexivity.
Qed.

Lemma isPlain_hexdigit (n : Z) : 0 <= n < 16 -> isPlain (hexdigit n) = true.
Proof. intros H. each_nibble H; reflexivity. Qed.

Lemma fieldsFrom_bytesToHex (w : string) (b : list Z) : Forall isByte b ->
  fieldsFrom (Some w) (bytesToHexFrom false b) = w :: List.map Adv.hex2 b.
Proof.
  intros Hb. revert w. induction Hb as [|v r Hv Hr IH]; intros w; [reflexivity|].
  cbn [bytesToHexFrom List.map].
  rewrite fieldsFrom_blank,
    (fieldsFrom_plain _ _ _ (isPlain_hexdigit _ (byte_high v Hv))),
    (fieldsFrom_plain _ _ _ (isPlain_hexdigit _ (byte_low v Hv))), IH.
  reflexivity.
Qed.

Lemma Fields_BytesToHex (b : list Z) : Forall isByte b ->
  Fields (BytesToHex b) = List.map Adv.hex2 b.
Proof.
  intros Hb. destruct Hb as [|v r Hv Hr]; [reflexivity|].
  unfold Fields, BytesToHex. cbn [bytesToHexFrom List.map].
  rewrite (fieldsFrom_plain _ _ _ (isPlain_hexdigit _ (byte_high v Hv))),
    (fieldsFrom_plain _ _ _ (isPlain_hexdigit _ (byte_low v Hv))),
    (fieldsFrom_bytesToHex _ r Hr).
  reflexivity.
Qed.

Lemma trimRight_bytesToHexFrom (f : bool) (b : list Z) : Forall isByte b ->
  trimRight (bytesToHexFrom f b) = bytesToHexFrom f b.
Proof.
  intros Hb. revert f. induction Hb as [|v r Hv Hr IH]; intros f; [reflexivity|].
  assert (E1 : trimRight (String (hexdigit (Z.shiftr v 4))
                 (String (hexdigit (Z.land v 15)) (bytesToHexFrom false r))) =
               String (hexdigit (Z.shiftr v 4))
                 (String (hexdigit (Z.land v 15)) (bytesToHexFrom false r))).
  { apply trimRight_plain_cons; [exact (isPlain_hexdigit _ (byte_high v Hv))|].
    apply trimRight_plain_cons; [exact (isPlain_hexdigit _ (byte_low v Hv))|].
    apply IH. }
  destruct f; cbn [bytesToHexFrom]; [exact E1|].
  apply trimRight_ascii_cons; [vm_compute; reflexivity | discriminate | exact E1].
Qed.

Lemma TrimSpace_BytesToHex (b : list Z) : Forall isByte b ->
  TrimSpace (BytesToHex b) = BytesToHex b.
Proof.
  intros Hb. unfold TrimSpace, BytesToHex.
  replace (trimLeft (bytesToHexFrom true b)) with (bytesToHexFrom true b).
  - apply trimRight_bytesToHexFrom, Hb.
  - destruct Hb as [|v r Hv Hr]; [reflexivity|]. cbn [bytesToHexFrom].
    symmetry. apply trimLeft_plain, isPlain_hexdigit, byte_high, Hv.
Qed.

Lemma TrimSpace_hex2 (v : Z) : isByte v -> TrimSpace (Adv.hex2 v) = Adv.hex2 v.
Proof.
  intros Hv.
  apply (TrimSpace_plain_ends (hexdigit (Z.shiftr v 4)) (hexdigit (Z.land v 15)) "");
    apply isPlain_hexdigit; [apply byte_high | apply byte_low]; exact Hv.
Qed.

Lemma parseHexFields_hex2 (b : list Z) : Forall isByte b ->
  parseHexFields (List.map Adv.hex2 b) = Some b.
Proof.
  induction 1 as [|v r Hv Hr IH]; [reflexivity|].
  cbn [List.map parseHexFields]. rewrite (TrimSpace_hex2 v Hv).
  unfold Adv.hex2 at 1 2 3. cbn [String.eqb String.length Nat.eqb].
  change (Adv.hex2 v) with
    (String (hexdigit (Z.shiftr v 4)) (String (hexdigit (Z.land v 15)) "")).
  rewrite (DecodeString_pair v "" Hv). cbn [DecodeString]. rewrite IH. reflexivity.
Qed.

(** X1.  [parseHexBytes] reads back what [BytesToHex] wrote: the text
    [util.BytesToHex] produces for a byte slice (two lower-case hexadecimal
    digits per byte, separated by single spaces) is decoded by the
    classifier's [parseHexBytes] to the same bytes. *)
Theorem parseHexBytes_BytesToHex (b : list Z) :
  Forall isByte b -> parseHexBytes (BytesToHex b) = b.
Proof.
  intros Hb. unfold parseHexBytes. rewrite (TrimSpace_BytesToHex b Hb).
  rewrite (Fields_BytesToHex b Hb).
  destruct Hb as [|v r Hv Hr]; [reflexivity|].
  assert (E : String.eqb (BytesToHex (v :: r)) "" = false) by reflexivity.
  rewrite E. cbn [List.map].
  destruct Hr as [|v2 r2 Hv2 Hr2].
  - cbn [List.map]. unfold Adv.hex2. cbn [dropSpaces].
    rewrite (hexdigit_not_blank _ (byte_high v Hv)), (hexdigit_not_blank _ (byte_low v Hv)).
    rewrite (DecodeString_pair v "" Hv). reflexivity.
  - cbn [List.map].
    change (Adv.hex2 v :: Adv.hex2 v2 :: List.map Adv.hex2 r2)
      with (List.map Adv.hex2 (v :: v2 :: r2)).
    rewrite parseHexFields_hex2; [reflexivity|].
    constructor; [exact Hv | constructor; assumption].
Qed.

Lemma parseHexBytes_BytesToHex_witness :
  Forall isByte [0x4c; 0x00; 0xff] /\
  parseHexBytes (BytesToHex [0x4c; 0x00; 0xff]) = [0x4c; 0x00; 0xff].
Proof.
  assert (H : Forall isByte [0x4c; 0x00; 0xff]) by (repeat constructor; unfold isByte; lia).
  split; [exact H | exact (parseHexBytes_BytesToHex _ H)].
Defined.

End HexFacts.

(** ** The hand-written decimal formatter *)

Section ItoaFacts.

Lemma itoaLoop_spec (n i : nat) (x : Z) (buf : list Z) :
  (n <= i)%nat -> (i <= List.length buf)%nat -> 0 <= x < 10 ^ Z.of_nat n ->
  exists j buf',
    Adv.itoaLoop i x buf = Some (j, buf') /\ (i - n <= j)%nat /\ (j <= i)%nat /\
    List.length buf' = List.length buf /\
    skipn j buf' = (decDigits n x ++ skipn i buf)%list.
Proof.
  revert n x buf. induction i as [|i IH]; intros n x buf Hn Hi Hx.
  - assert (n = O) by lia. subst n. change (10 ^ Z.of_nat 0) with 1 in Hx.
    assert (x = 0) by lia. subst x. exists O, buf. cbn. repeat split; lia.
  - cbn [Adv.itoaLoop]. destruct (Z.ltb_spec 0 x) as [Hpos|Hz].
    + destruct n as [|n].
      { change (10 ^ Z.of_nat 0) with 1 in Hx. lia. }
      assert (Hx' : 0 <= x / 10 < 10 ^ Z.of_nat n).
      { split; [apply Z.div_pos; lia|]. apply Z.div_lt_upper_bound; [lia|].
        rewrite Nat2Z.inj_succ, Z.pow_succ_r in Hx by lia. lia. }
      destruct (IH n (x / 10) (<[i := 48 + x mod 10]> buf)) as (j & buf' & E & H1 & H2 & H3 & H4).
      { lia. } { rewrite length_insert. lia. } { exact Hx'. }
      exists j, buf'. rewrite E. split; [reflexivity|]. split; [lia|]. split; [lia|].
      split; [rewrite H3; apply length_insert|].
      rewrite H4. cbn [decDigits].
      destruct (Z.ltb_spec 0 x); [|lia].
      rewrite <- app_assoc. f_equal. cbn [app].
      assert (Hlt : (i < List.length buf)%nat) by lia.
      rewrite <- (take_drop i buf) at 1.
      rewrite insert_app_r_alt by (rewrite length_take; lia).
      rewrite length_take, Nat.min_l by lia. rewrite Nat.sub_diag.
      destruct (drop i buf) as [|b0 rest] eqn:Ed.
      { apply (f_equal (@List.length Z)) in Ed. rewrite length_drop in Ed. cbn in Ed. lia. }
      cbn [insert list_insert].
      assert (Es : skipn (S i) buf = rest).
      { change (skipn (S i) buf) with (drop (S i) buf).
        rewrite <- (Nat.add_1_r i), <- drop_drop, Ed. reflexivity. }
      rewrite Es.
      change (skipn i (take i buf ++ (48 + x mod 10) :: rest))
        with (drop i (take i buf ++ (48 + x mod 10) :: rest)).
      rewrite drop_app_length'; [reflexivity|]. rewrite length_take. lia.
    + assert (x = 0) by lia. subst x. exists (S i), buf. split; [reflexivity|].
      split; [lia|]. split; [lia|]. split; [reflexivity|].
      destruct n; reflexivity.
Qed.

Lemma digitsVal_app (acc : Z) (a b : list Z) :
  Strconv.digitsVal acc (stringOfBytes (a ++ b)) =
  match Strconv.digitsVal acc (stringOfBytes a) with
  | Some v => Strconv.digitsVal v (stringOfBytes b)
  | None => None
  end.
Proof.
  revert acc. induction a as [|c a IH]; intros acc; [reflexivity|].
  unfold stringOfBytes in *. cbn [List.map app string_of_list_ascii Strconv.digitsVal].
  destruct (Strconv.decDigit (ofbyte c)); [apply IH | reflexivity].
Qed.

Lemma decDigit_digit (d : Z) : 0 <= d < 10 -> Strconv.decDigit (ofbyte (48 + d)) = Some d.
Proof.
  intros H.
  assert (C : d = 0 \/ d = 1 \/ d = 2 \/ d = 3 \/ d = 4 \/ d = 5 \/ d = 6 \/ d = 7 \/ d = 8 \/ d = 9)
    by lia.
  destruct C as [->|[->|[->|[->|[->|[->|[->|[->|[->| ->]]]]]]]]]; reflexivity.
Qed.

Lemma digitsVal_decDigits (n : nat) (x : Z) : 0 <= x < 10 ^ Z.of_nat n ->
  Strconv.digitsVal 0 (stringOfBytes (decDigits n x)) = Some x.
Proof.
  revert x. induction n as [|n IH]; intros x Hx.
  - change (10 ^ Z.of_nat 0) with 1 in Hx. assert (x = 0) by lia. subst. reflexivity.
  - cbn [decDigits]. destruct (Z.ltb_spec 0 x) as [Hpos|Hz].
    + rewrite digitsVal_app, IH.
      * unfold stringOfBytes. cbn [List.map string_of_list_ascii Strconv.digitsVal].
        rewrite decDigit_digit by (apply Z.mod_pos_bound; lia).
        f_equal. pose proof (Z.div_mod x 10). lia.
      * split; [apply Z.div_pos; lia|]. apply Z.div_lt_upper_bound; [lia|].
        rewrite Nat2Z.inj_succ, Z.pow_succ_r in Hx by lia. lia.
    + assert (x = 0) by lia. subst. reflexivity.
Qed.

(** The first digit of a positive number is a digit, not a sign. *)
Lemma decDigits_head (n : nat) (x : Z) : 0 < x < 10 ^ Z.of_nat n ->
  exists d r, decDigits n x = (48 + d) :: r /\ 0 <= d < 10.
Proof.
  revert x. induction n as [|n IH]; intros x Hx.
  - change (10 ^ Z.of_nat 0) with 1 in Hx. lia.
  - cbn [decDigits]. destruct (Z.ltb_spec 0 x) as [Hpos|Hz]; [|lia].
    destruct (Z.ltb_spec 0 (x / 10)) as [Hq|Hq].
    + destruct (IH (x / 10)) as (d & r & E & Hd).
      { split; [lia|]. apply Z.div_lt_upper_bound; [lia|].
        rewrite Nat2Z.inj_succ, Z.pow_succ_r in Hx by lia. lia. }
      rewrite E. exists d, (r ++ [48 + x mod 10])%list. split; [reflexivity | exact Hd].
    + assert (E : decDigits n (x / 10) = []).
      { destruct n; cbn [decDigits]; [reflexivity|].
        destruct (Z.ltb_spec 0 (x / 10)); [lia | reflexivity]. }
      rewrite E. exists (x mod 10), []. split; [reflexivity|]. apply Z.mod_pos_bound. lia.
Qed.

Lemma skipn_all_12 (buf : list Z) : List.length buf = 12%nat -> skipn 12 buf = [].
Proof. intros H. apply skipn_all2. lia. Qed.

Lemma itoa_positive (x : Z) : 0 < x < 10 ^ 12 ->
  Adv.itoa x = Some (stringOfBytes (decDigits 12 x)).
Proof.
  intros Hx. unfold Adv.itoa.
  destruct (Z.eqb_spec x 0); [lia|]. destruct (Z.ltb_spec x 0); [lia|].
  destruct (itoaLoop_spec 12 12 x (repeat 0 12)) as (j & buf' & E & _ & _ & Hl & Hs);
    [lia | cbn; lia | change (Z.of_nat 12) with 12; lia |].
  rewrite E, Hs. rewrite skipn_all_12 by reflexivity. rewrite app_nil_r. reflexivity.
Qed.

Lemma itoa_negative (x : Z) : - 10 ^ 11 < x < 0 ->
  Adv.itoa x = Some (stringOfBytes (45 :: decDigits 11 (- x))).
Proof.
  intros Hx. unfold Adv.itoa.
  destruct (Z.eqb_spec x 0); [lia|]. destruct (Z.ltb_spec x 0); [|lia].
  assert (Ei : int64 (- x) = - x).
  { unfold int64. change (2 ^ 64) with 18446744073709551616.
    change (2 ^ 63) with 9223372036854775808.
    change (10 ^ 11) with 100000000000 in Hx.
    rewrite Z.mod_small by lia. lia. }
  rewrite Ei.
  destruct (itoaLoop_spec 11 12 (- x) (repeat 0 12)) as (j & buf' & E & Hj & Hj2 & Hl & Hs);
    [lia | cbn; lia | change (Z.of_nat 11) with 11; lia |].
  rewrite E. destruct j as [|j]; [lia|].
  f_equal. f_equal.
  rewrite skipn_all_12 in Hs by reflexivity. rewrite app_nil_r in Hs. rewrite <- Hs.
  assert (Hlt : (j < List.length buf')%nat) by (rewrite Hl; cbn; lia).
  rewrite <- (take_drop j buf') at 1.
  rewrite insert_app_r_alt by (rewrite length_take; lia).
  rewrite length_take, Nat.min_l by lia. rewrite Nat.sub_diag.
  destruct (drop j buf') as [|b0 rest] eqn:Ed.
  { apply (f_equal (@List.length Z)) in Ed. rewrite length_drop in Ed. cbn in Ed. lia. }
  cbn [insert list_insert].
  change (skipn j (take j buf' ++ 45 :: rest)) with (drop j (take j buf' ++ 45 :: rest)).
  rewrite drop_app_length' by (rewrite length_take; lia).
  f_equal. change (skipn (S j) buf') with (drop (S j) buf').
  rewrite <- (Nat.add_1_r j), <- drop_drop, Ed. reflexivity.
Qed.

(** X4.  The hand-written [itoa] ([strconvItoa]) writes the decimal text of
    every integer that fits its 12-byte buffer: for -10^11 < x < 10^12 it
    returns a text that [strconv.Atoi] reads back as [x]. *)
Theorem itoa_Atoi_round_trip (x : Z) :
  - 10 ^ 11 < x < 10 ^ 12 ->
  exists s, Adv.itoa x = Some s /\ Strconv.Atoi s = Some x.
Proof.
  intros Hx.
  change (10 ^ 11) with 100000000000 in Hx. change (10 ^ 12) with 1000000000000 in Hx.
  destruct (Z.lt_trichotomy x 0) as [Hneg|[->|Hpos]].
  - exists (stringOfBytes (45 :: decDigits 11 (- x))). split.
    + apply itoa_negative. change (10 ^ 11) with 100000000000. lia.
    + destruct (decDigits_head 11 (- x)) as (d & r & E & Hd).
      { change (10 ^ Z.of_nat 11) with 100000000000. lia. }
      pose proof (digitsVal_decDigits 11 (- x)) as Hv.
      rewrite E in *. unfold Strconv.Atoi, stringOfBytes in *.
      cbn [List.map string_of_list_ascii] in *.
      change (byteval (ofbyte 45) =? 45) with true. cbn [orb].
      rewrite Hv by (change (10 ^ Z.of_nat 11) with 100000000000; lia).
      change (2 ^ 63) with 9223372036854775808.
      rewrite Z.opp_involutive.
      repeat match goal with
             | |- context [?a <? ?b] => destruct (Z.ltb_spec a b); [lia|]
             end. reflexivity.
  - exists "0". split; reflexivity.
  - exists (stringOfBytes (decDigits 12 x)). split.
    + apply itoa_positive. change (10 ^ 12) with 1000000000000. lia.
    + destruct (decDigits_head 12 x) as (d & r & E & Hd).
      { change (10 ^ Z.of_nat 12) with 1000000000000. lia. }
      pose proof (digitsVal_decDigits 12 x) as Hv.
      rewrite E in *. unfold Strconv.Atoi, stringOfBytes in *.
      cbn [List.map string_of_list_ascii] in *.
      assert (Hs : (byteval (ofbyte (48 + d)) =? 45) = false /\
                   (byteval (ofbyte (48 + d)) =? 43) = false).
      { assert (C : d = 0 \/ d = 1 \/ d = 2 \/ d = 3 \/ d = 4 \/ d = 5 \/ d = 6 \/ d = 7 \/
                    d = 8 \/ d = 9) by lia.
        destruct C as [->|[->|[->|[->|[->|[->|[->|[->|[->| ->]]]]]]]]]; split; reflexivity. }
      destruct Hs as [Hs1 Hs2]. rewrite Hs1, Hs2. cbn [orb].
      rewrite Hv by (change (10 ^ Z.of_nat 12) with 1000000000000; lia).
      change (2 ^ 63) with 9223372036854775808.
      repeat match goal with
             | |- context [?a <? ?b] => destruct (Z.ltb_spec a b); [lia|]
             end. reflexivity.
Qed.

Lemma itoa_Atoi_round_trip_witness :
  - 10 ^ 11 < -127 < 10 ^ 12 /\
  exists s, Adv.itoa (-127) = Some s /\ Strconv.Atoi s = Some (-127).
Proof.
  assert (H : - 10 ^ 11 < -127 < 10 ^ 12) by (cbn; lia).
  split; [exact H | exact (itoa_Atoi_round_trip (-127) H)].
Defined.

Lemma itoaLoop_le (i : nat) (x : Z) (buf : list Z) :
  match Adv.itoaLoop i x buf with Some (j, _) => (j <= i)%nat | None => True end.
Proof.
  revert x buf. induction i as [|i IH]; intros x buf; cbn [Adv.itoaLoop].
  - destruct (0 <? x); [exact I | lia].
  - destruct (0 <? x); [|lia].
    specialize (IH (x / 10) (<[i := 48 + x mod 10]> buf)).
    destruct (Adv.itoaLoop i (x / 10) (<[i := 48 + x mod 10]> buf)) as [[j b]|]; [lia | exact I].
Qed.

Lemma itoaLoop_long (n i : nat) (x : Z) (buf : list Z) :
  10 ^ Z.of_nat n <= x ->
  match Adv.itoaLoop i x buf with Some (j, _) => (j + n < i)%nat | None => True end.
Proof.
  revert n x buf. induction i as [|i IH]; intros n x buf Hx.
  - cbn [Adv.itoaLoop]. assert (0 < 10 ^ Z.of_nat n) by (apply Z.pow_pos_nonneg; lia).
    destruct (Z.ltb_spec 0 x); [exact I | lia].
  - cbn [Adv.itoaLoop]. assert (0 < 10 ^ Z.of_nat n) by (apply Z.pow_pos_nonneg; lia).
    destruct (Z.ltb_spec 0 x); [|lia].
    destruct n as [|n].
    + pose proof (itoaLoop_le i (x / 10) (<[i := 48 + x mod 10]> buf)) as Hle.
      destruct (Adv.itoaLoop i (x / 10) (<[i := 48 + x mod 10]> buf)) as [[j b]|]; [lia | exact I].
    + assert (Hq : 10 ^ Z.of_nat n <= x / 10).
      { rewrite Nat2Z.inj_succ, Z.pow_succ_r in Hx by lia.
        apply Z.div_le_lower_bound; lia. }
      specialize (IH n (x / 10) (<[i := 48 + x mod 10]> buf) Hq).
      destruct (Adv.itoaLoop i (x / 10) (<[i := 48 + x mod 10]> buf)) as [[j b]|]; [lia | exact I].
Qed.

(** X5.  Outside that range [itoa] does not return: a positive integer of
    13 or more digits, or a negative one of 12 or more digits other than the
    least 64-bit integer, makes it write before the start of its 12-byte
    buffer, which is a run-time panic.  The least 64-bit integer is its own
    negation: the digit loop does not run for it and [itoa] returns the bare
    sign "-". *)
Theorem itoa_out_of_buffer (x : Z) :
  (10 ^ 12 <= x \/ - 2 ^ 63 < x <= - 10 ^ 11 -> Adv.itoa x = None)
  /\ Adv.itoa (- 2 ^ 63) = Some "-".
Proof.
  split; [|vm_compute; reflexivity].
  intros Hx. change (10 ^ 11) with 100000000000 in Hx.
  change (10 ^ 12) with 1000000000000 in Hx. change (2 ^ 63) with 9223372036854775808 in Hx.
  unfold Adv.itoa. destruct (Z.eqb_spec x 0); [lia|].
  destruct (Z.ltb_spec x 0) as [Hneg|Hpos].
  - assert (Ei : int64 (- x) = - x).
    { unfold int64. change (2 ^ 64) with 18446744073709551616.
      change (2 ^ 63) with 9223372036854775808. rewrite Z.mod_small by lia. lia. }
    rewrite Ei.
    pose proof (itoaLoop_long 11 12 (- x) (repeat 0 12)) as H.
    change (10 ^ Z.of_nat 11) with 100000000000 in H.
    destruct (Adv.itoaLoop 12 (- x) (repeat 0 12)) as [[j b]|]; [|reflexivity].
    destruct j; [reflexivity|]. assert (100000000000 <= - x) by lia. specialize (H H0). lia.
  - pose proof (itoaLoop_long 12 12 x (repeat 0 12)) as H.
    change (10 ^ Z.of_nat 12) with 1000000000000 in H.
    destruct (Adv.itoaLoop 12 x (repeat 0 12)) as [[j b]|]; [|reflexivity].
    assert (1000000000000 <= x) by lia. specialize (H H0). lia.
Qed.

Lemma itoa_out_of_buffer_witness :
  (10 ^ 12 <= 1000000000000 \/ - 2 ^ 63 < 1000000000000 <= - 10 ^ 11) /\
  Adv.itoa 1000000000000 = None.
Proof.
  assert (H : 10 ^ 12 <= 1000000000000 \/ - 2 ^ 63 < 1000000000000 <= - 10 ^ 11)
    by (left; cbn; lia).
  split; [exact H | exact (proj1 (itoa_out_of_buffer 1000000000000) H)].
Defined.


End ItoaFacts.

(** ** The AD-structure decoder *)

Section AdvFacts.
Local Open Scope list_scope.

Lemma fmtInt_int8 (b : Z) : isByte b -> exists s, Adv.fmtInt (Adv.int8 b) = Some s.
Proof.
  intros [H0 H1]. unfold Adv.fmtInt, Adv.int8.
  destruct (Z.ltb_spec b 128).
  - destruct (Z.leb_spec 0 b); [|lia].
    destruct (Z.eq_dec b 0) as [->|Hne]; [eexists; reflexivity|].
    rewrite itoa_positive by (change (10 ^ 12) with 1000000000000; lia).
    eexists; reflexivity.
  - destruct (Z.leb_spec 0 (b - 256)); [lia|].
    rewrite itoa_negative by (change (10 ^ 11) with 100000000000; lia).
    eexists; reflexivity.
Qed.

Lemma decodeItem_done (t : Z) (d : list Z) : Forall isByte d ->
  exists it, Adv.decodeItem t d =
               Done (it, match d with
                         | d0 :: _ => if t =? 0x0A then Adv.fmtInt (Adv.int8 d0) else None
                         | [] => None
                         end) /\
             describes it (t, d).
Proof.
  intros Hd. unfold Adv.decodeItem.
  destruct (Z.eqb_spec t 10) as [->|Ht].
  - destruct Hd as [|d0 r H0 Hr].
    + cbn. eexists. split; [reflexivity|]. repeat split.
    + destruct (fmtInt_int8 d0 H0) as [s Es]. rewrite Es.
      cbn [andb List.length]. destruct (Z.leb_spec 1 (Z.of_nat (S (List.length r)))); [|lia].
      eexists. split; [reflexivity|]. repeat split.
  - cbn [andb]. destruct ((t =? 8) || (t =? 9)).
    + eexists. split; [destruct d; reflexivity|]. repeat split.
    + eexists. split; [destruct d; reflexivity|]. repeat split.
Qed.

Lemma Forall_slice (P : Z -> Prop) (b : list Z) (lo hi : nat) :
  Forall P b -> Forall P (slice b lo hi).
Proof. intros H. unfold slice. apply Forall_take, Forall_drop, H. Qed.

Lemma decodeFrom_total (fuel : nat) (adv : list Z) (i : nat)
      (items : list Adv.adItem) (tx : option string) :
  Forall isByte adv -> (List.length adv - i <= fuel)%nat ->
  exists items' tx',
    Adv.decodeFrom fuel adv i items tx = Done (items', tx') /\
    (2 * List.length items' <= 2 * List.length items + (List.length adv - i))%nat.
Proof.
  intros Hadv. revert i items tx. induction fuel as [|fuel IH]; intros i items tx Hf.
  - cbn [Adv.decodeFrom]. destruct (Nat.ltb_spec i (List.length adv)); [lia|].
    exists items, tx. split; [reflexivity | lia].
  - cbn [Adv.decodeFrom]. destruct (Nat.ltb_spec i (List.length adv)) as [Hi|Hi]; cbn [negb].
    2:{ exists items, tx. split; [reflexivity | lia]. }
    destruct (lookup_lt_is_Some_2 adv i Hi) as [l0 El]. rewrite El.
    destruct (Nat.eqb_spec (Z.to_nat l0) 0) as [Hz|Hz].
    { exists items, tx. split; [reflexivity | lia]. }
    destruct (Nat.ltb_spec (List.length adv) (i + 1 + Z.to_nat l0)) as [Hl|Hl].
    { exists items, tx. split; [reflexivity | lia]. }
    destruct (lookup_lt_is_Some_2 adv (i + 1)) as [t Et]; [lia|]. rewrite Et.
    destruct (Nat.ltb_spec (i + 1 + Z.to_nat l0) (i + 2)); [lia|]. cbn [orb].
    destruct (decodeItem_done t (slice adv (i + 2) (i + 1 + Z.to_nat l0))) as (it & Eit & _).
    { apply Forall_slice, Hadv. }
    rewrite Eit.
    destruct (IH (i + 1 + Z.to_nat l0)%nat (items ++ [it])%list
                 (match (match slice adv (i + 2) (i + 1 + Z.to_nat l0) with
                         | d0 :: _ => if t =? 10 then Adv.fmtInt (Adv.int8 d0) else None
                         | [] => None
                         end) with
                  | Some v => Some v
                  | None => tx
                  end))
      as (items' & tx' & E & Hlen); [lia|].
    exists items', tx'. split.
    + rewrite <- E. f_equal.
      destruct (match slice adv (i + 2) (i + 1 + Z.to_nat l0) with
                | d0 :: _ => if t =? 10 then Adv.fmtInt (Adv.int8 d0) else None
                | [] => None
                end); reflexivity.
    + rewrite length_app in Hlen. cbn [List.length] in Hlen. lia.
Qed.

(** X3.  The decoder is safe on arbitrary input: on every byte slice it
    ends without an out-of-range access, and it reports at most one item
    for every two bytes of input. *)
Theorem decodeADStructures_total (adv : list Z) :
  Forall isByte adv ->
  exists items tx,
    Adv.decodeADStructures adv = Done (items, tx) /\
    (2 * List.length items <= List.length adv)%nat.
Proof.
  intros Hadv. unfold Adv.decodeADStructures.
  destruct (decodeFrom_total (List.length adv) adv 0 [] None Hadv) as (items & tx & E & Hlen);
    [lia|].
  exists items, tx. split; [exact E|]. cbn [List.length] in Hlen. lia.
Qed.

Lemma decodeADStructures_total_witness :
  Forall isByte [0x02; 0x0A; 0xF4; 0x05; 0x09] /\
  exists items tx,
    Adv.decodeADStructures [0x02; 0x0A; 0xF4; 0x05; 0x09] = Done (items, tx) /\
    (2 * List.length items <= List.length [0x02; 0x0A; 0xF4; 0x05; 0x09])%nat.
Proof.
  assert (H : Forall isByte [0x02; 0x0A; 0xF4; 0x05; 0x09])
    by (repeat (constructor; [unfold isByte; lia|]); constructor).
  split; [exact H | exact (decodeADStructures_total _ H)].
Defined.

Lemma encodeAD_length (ss : list (Z * list Z)) :
  (2 * List.length ss <= List.length (encodeAD ss))%nat.
Proof.
  induction ss as [|s ss IH]; [cbn; lia|].
  unfold encodeAD in *. cbn [flat_map List.length]. rewrite length_app.
  cbn [List.length]. lia.
Qed.

Lemma decodeFrom_stop (fuel : nat) (pre pad : list Z)
      (items : list Adv.adItem) (tx : option string) :
  stopsDecoding pad -> (List.length pad <= fuel)%nat ->
  Adv.decodeFrom fuel (pre ++ pad) (List.length pre) items tx = Done (items, tx).
Proof.
  intros Hs Hf. destruct pad as [|l rest].
  - rewrite app_nil_r. destruct fuel; cbn [Adv.decodeFrom];
      destruct (Nat.ltb_spec (List.length pre) (List.length pre)); try lia; reflexivity.
  - destruct fuel as [|fuel]; [cbn in Hf; lia|]. cbn [Adv.decodeFrom].
    rewrite length_app. cbn [List.length].
    destruct (Nat.ltb_spec (List.length pre) (List.length pre + S (List.length rest))); [|lia].
    cbn [negb]. rewrite list_lookup_middle by reflexivity.
    destruct Hs as [H0 [->|Hl]]; [reflexivity|].
    destruct (Nat.eqb_spec (Z.to_nat l) 0); [reflexivity|].
    destruct (Nat.ltb_spec (List.length pre + S (List.length rest))
                (List.length pre + 1 + Z.to_nat l)); [reflexivity | lia].
Qed.

Lemma decodeFrom_encodeAD (ss : list (Z * list Z)) :
  forall (fuel : nat) (pre pad : list Z) (items : list Adv.adItem) (tx : option string),
    Forall wellFormedAD ss -> stopsDecoding pad ->
    (List.length ss + List.length pad <= fuel)%nat ->
    exists items',
      Adv.decodeFrom fuel (pre ++ encodeAD ss ++ pad) (List.length pre) items tx =
        Done ((items ++ items')%list, lastTxPower ss tx) /\
      Forall2 describes items' ss.
Proof.
  induction ss as [|[t d] ss IH]; intros fuel pre pad items tx Hwf Hs Hf.
  - exists []. cbn [encodeAD flat_map app lastTxPower]. rewrite app_nil_r.
    split; [apply decodeFrom_stop; [exact Hs | cbn in Hf; lia] | constructor].
  - inversion Hwf as [|? ? [Ht [Hd Hlen]] Hwf']; subst. cbn [fst snd] in *.
    destruct fuel as [|fuel]; [cbn in Hf; lia|].
    set (L := Z.of_nat (S (List.length d))).
    assert (Eadv : (pre ++ encodeAD ((t, d) :: ss) ++ pad =
                    pre ++ L :: t :: d ++ encodeAD ss ++ pad)%list).
    { unfold encodeAD. cbn [flat_map fst snd app]. rewrite <- app_assoc. reflexivity. }
    rewrite Eadv. cbn [Adv.decodeFrom].
    assert (Elen : List.length (pre ++ L :: t :: d ++ encodeAD ss ++ pad) =
                   (List.length pre + 2 + List.length d +
                    List.length (encodeAD ss ++ pad))%nat).
    { rewrite length_app. cbn [List.length]. rewrite length_app. lia. }
    rewrite Elen.
    destruct (Nat.ltb_spec (List.length pre)
                (List.length pre + 2 + List.length d + List.length (encodeAD ss ++ pad)));
      [|lia].
    cbn [negb]. rewrite list_lookup_middle by reflexivity.
    assert (EL : Z.to_nat L = S (List.length d)) by (unfold L; apply Nat2Z.id).
    rewrite EL. cbn [Nat.eqb].
    destruct (Nat.ltb_spec
                (List.length pre + 2 + List.length d + List.length (encodeAD ss ++ pad))
                (List.length pre + 1 + S (List.length d))); [lia|].
    assert (Et : (pre ++ L :: t :: d ++ encodeAD ss ++ pad) !! (List.length pre + 1)%nat
                 = Some t).
    { rewrite lookup_app_r by lia.
      replace (List.length pre + 1 - List.length pre)%nat with 1%nat by lia. reflexivity. }
    rewrite Et.
    destruct (Nat.ltb_spec (List.length pre + 1 + S (List.length d)) (List.length pre + 2));
      [lia|]. cbn [orb].
    assert (Esl : slice (pre ++ L :: t :: d ++ encodeAD ss ++ pad)
                    (List.length pre + 2) (List.length pre + 1 + S (List.length d)) = d).
    { unfold slice.
      replace (List.length pre + 1 + S (List.length d) - (List.length pre + 2))%nat
        with (List.length d) by lia.
      change (skipn ?n ?l) with (drop n l). change (firstn ?n ?l) with (take n l).
      rewrite drop_app_ge by lia.
      replace (List.length pre + 2 - List.length pre)%nat with 2%nat by lia.
      cbn [drop]. apply take_app_length. }
    rewrite Esl.
    destruct (decodeItem_done t d Hd) as (it & Eit & Hit). rewrite Eit.
    specialize (IH fuel (pre ++ L :: t :: d)%list pad (items ++ [it])%list
                  (match (match d with
                          | d0 :: _ => if t =? 10 then Adv.fmtInt (Adv.int8 d0) else None
                          | [] => None
                          end) with
                   | Some v => Some v
                   | None => tx
                   end) Hwf' Hs).
    destruct IH as (items' & E & HF); [cbn [List.length] in Hf; lia|].
    exists (it :: items'). split; [|constructor; assumption].
    replace (List.length pre + 1 + S (List.length d))%nat
      with (List.length (pre ++ L :: t :: d)%list)
      by (rewrite length_app; cbn [List.length]; lia).
    replace (pre ++ L :: t :: d ++ encodeAD ss ++ pad)%list
      with ((pre ++ L :: t :: d) ++ encodeAD ss ++ pad)%list
      by (rewrite <- app_assoc; reflexivity).
    replace (items ++ it :: items')%list with ((items ++ [it]) ++ items')%list
      by (rewrite <- app_assoc; reflexivity).
    cbn [lastTxPower].
    etransitivity; [|etransitivity; [exact E|]].
    + f_equal.
      destruct (match d with
                | d0 :: _ => if t =? 10 then Adv.fmtInt (Adv.int8 d0) else None
                | [] => None
                end); reflexivity.
    + f_equal. f_equal. f_equal.
      destruct d as [|d0 r]; [reflexivity|].
      destruct (t =? 10); [|reflexivity].
      inversion Hd as [|? ? Hd0 ?]; subst.
      destruct (fmtInt_int8 d0 Hd0) as [s Es]. rewrite Es. reflexivity.
Qed.

(** X2.  Decoding inverts the wire format: for structures with byte-sized
    types and payloads of at most 254 bytes, laid out as length, type,
    payload and followed by nothing, by zero padding or by a truncated
    structure, the decoder returns exactly one item per structure, in
    order, carrying its type, type name and payload, together with the
    transmit power of the last Tx Power Level structure. *)
Theorem decodeADStructures_encodeAD (ss : list (Z * list Z)) (pad : list Z) :
  Forall wellFormedAD ss -> stopsDecoding pad ->
  exists items,
    Adv.decodeADStructures (encodeAD ss ++ pad) = Done (items, lastTxPower ss None) /\
    Forall2 describes items ss.
Proof.
  intros Hwf Hs. unfold Adv.decodeADStructures.
  destruct (decodeFrom_encodeAD ss (List.length (encodeAD ss ++ pad)) [] pad [] None Hwf Hs)
    as (items & E & HF).
  { rewrite length_app. pose proof (encodeAD_length ss). lia. }
  exists items. split; [exact E | exact HF].
Qed.

Lemma decodeADStructures_encodeAD_witness :
  Forall wellFormedAD [(0x0A, [0xF4]); (0x09, [0x54; 0x61; 0x67])] /\
  stopsDecoding [0; 0] /\
  exists items,
    Adv.decodeADStructures (encodeAD [(0x0A, [0xF4]); (0x09, [0x54; 0x61; 0x67])] ++ [0; 0]) =
      Done (items, lastTxPower [(0x0A, [0xF4]); (0x09, [0x54; 0x61; 0x67])] None) /\
    Forall2 describes items [(0x0A, [0xF4]); (0x09, [0x54; 0x61; 0x67])].
Proof.
  assert (H1 : Forall wellFormedAD [(0x0A, [0xF4]); (0x09, [0x54; 0x61; 0x67])]).
  { repeat (constructor; [unfold wellFormedAD, isByte; cbn;
                          repeat split; try lia;
                          repeat (constructor; [unfold isByte; lia|]); constructor|]).
    constructor. }
  assert (H2 : stopsDecoding [0; 0]) by (cbn; lia).
  split; [exact H1|]. split; [exact H2|].
  exact (decodeADStructures_encodeAD _ _ H1 H2).
Defined.

End AdvFacts.

(** ** UUID catalogs (package ids) *)

Section IdsFacts.
Import GoText.

Lemma isSpace_lowerByte (c : ascii) : isSpace (lowerByte c) = isSpace c.
Proof. destruct c as [[] [] [] [] [] [] [] []]; reflexivity. Qed.

Lemma lowerByte_idem (c : ascii) : lowerByte (lowerByte c) = lowerByte c.
Proof. destruct c as [[] [] [] [] [] [] [] []]; reflexivity. Qed.

Lemma ToLower_idem (s : string) : ToLower (ToLower s) = ToLower s.
Proof.
  induction s as [|c r IH]; [reflexivity|].
  cbn [ToLower mapBytes]. f_equal; [apply lowerByte_idem | exact IH].
Qed.

Lemma isSpace2_lowerByte (c d : ascii) :
  isSpace2 (lowerByte c) (lowerByte d) = isSpace2 c d.
Proof.
  destruct c as [[] [] [] [] [] [] [] []]; try reflexivity;
    destruct d as [[] [] [] [] [] [] [] []]; reflexivity.
Qed.

Lemma isSpace3_lowerByte (c d e : ascii) :
  isSpace3 (lowerByte c) (lowerByte d) (lowerByte e) = isSpace3 c d e.
Proof.
  destruct c as [[] [] [] [] [] [] [] []]; try reflexivity;
    destruct d as [[] [] [] [] [] [] [] []]; try reflexivity;
    destruct e as [[] [] [] [] [] [] [] []]; reflexivity.
Qed.

Lemma trimLeft_ToLower (s : string) : trimLeft (ToLower s) = ToLower (trimLeft s).
Proof.
  apply trimLeft_mapBytes;
    [apply isSpace_lowerByte | apply isSpace2_lowerByte | apply isSpace3_lowerByte].
Qed.

Lemma trimRight_ToLower (s : string) : trimRight (ToLower s) = ToLower (trimRight s).
Proof.
  apply trimRight_mapBytes;
    [apply isSpace_lowerByte | apply isSpace2_lowerByte | apply isSpace3_lowerByte].
Qed.

Lemma TrimSpace_ToLower (s : string) : TrimSpace (ToLower s) = ToLower (TrimSpace s).
Proof. unfold TrimSpace. rewrite trimLeft_ToLower. apply trimRight_ToLower. Qed.

Lemma lowtrim_fixed (s : string) :
  ToLower (TrimSpace (ToLower (TrimSpace s))) = ToLower (TrimSpace s).
Proof. rewrite TrimSpace_ToLower, TrimSpace_idem. apply ToLower_idem. Qed.

Lemma ToLower_app (a b : string) : ToLower (a ++ b) = (ToLower a ++ ToLower b)%string.
Proof.
  induction a as [|c r IH]; [reflexivity|].
  change (ToLower (String c (r ++ b)) = String (lowerByte c) (ToLower r ++ ToLower b)).
  cbn [ToLower mapBytes]. f_equal. exact IH.
Qed.

Lemma CountByte_app (a b : string) (c : ascii) :
  CountByte (a ++ b) c = (CountByte a c + CountByte b c)%nat.
Proof.
  induction a as [|x r IH]; [reflexivity|].
  change (CountByte (String x (r ++ b)) c = (CountByte (String x r) c + CountByte b c)%nat).
  cbn [CountByte]. destruct (Ascii.eqb x c); rewrite IH; reflexivity.
Qed.

Lemma length_app_string (a b : string) :
  String.length (a ++ b) = (String.length a + String.length b)%nat.
Proof.
  induction a as [|x r IH]; [reflexivity|].
  change (String.length (String x (r ++ b)) = S (String.length r + String.length b)).
  cbn [String.length]. rewrite IH. reflexivity.
Qed.

Lemma app_assoc_string (a b c : string) : ((a ++ b) ++ c = a ++ (b ++ c))%string.
Proof.
  induction a as [|x r IH]; [reflexivity|].
  change (String x ((r ++ b) ++ c) = String x (r ++ (b ++ c))). f_equal. exact IH.
Qed.

Lemma lowerHex_facts (c : ascii) : lowerHex c = true ->
  lowerByte c = c /\ isPlain c = true /\ Ascii.eqb c "-"%char = false /\
  Ascii.eqb c "x"%char = false.
Proof.
  destruct c as [[] [] [] [] [] [] [] []]; vm_compute; intros H;
    try discriminate H; repeat split.
Qed.

Lemma allChars_app (P : ascii -> bool) (a b : string) :
  allChars P (a ++ b) = allChars P a && allChars P b.
Proof.
  induction a as [|x r IH]; [reflexivity|].
  change (allChars P (String x (r ++ b)) = allChars P (String x r) && allChars P b).
  cbn [allChars]. rewrite IH. apply andb_assoc.
Qed.

Lemma lowerHex_ToLower (h : string) : allChars lowerHex h = true -> ToLower h = h.
Proof.
  induction h as [|c r IH]; [reflexivity|]. cbn [allChars]. intros H.
  apply andb_prop in H as [Hc Hr]. cbn [ToLower mapBytes]. fold (ToLower r).
  rewrite (IH Hr). f_equal. apply (lowerHex_facts c Hc).
Qed.

Lemma lowerHex_Count (h : string) : allChars lowerHex h = true -> CountByte h "-"%char = O.
Proof.
  induction h as [|c r IH]; [reflexivity|]. cbn [allChars]. intros H.
  apply andb_prop in H as [Hc Hr]. cbn [CountByte].
  destruct (lowerHex_facts c Hc) as (_ & _ & E & _). rewrite E. exact (IH Hr).
Qed.

Lemma lowerHex_hexdigit (n : Z) : 0 <= n < 16 -> lowerHex (hexdigit n) = true.
Proof. intros H. each_nibble H; reflexivity. Qed.

Lemma hexDigitsOf_lowerHex (n : nat) (v : Z) : allChars lowerHex (hexDigitsOf false n v) = true.
Proof.
  revert v. induction n as [|n IH]; intros v; [reflexivity|].
  cbn [hexDigitsOf]. destruct (0 <? v); [|reflexivity].
  rewrite allChars_app, IH. cbn [allChars andb].
  rewrite lowerHex_hexdigit by (apply Z.mod_pos_bound; lia). reflexivity.
Qed.

Lemma zeros_lowerHex (n : nat) : allChars lowerHex (zeros n) = true.
Proof. induction n; [reflexivity|]. cbn [zeros allChars]. rewrite IHn. reflexivity. Qed.

Lemma zeros_length (n : nat) : String.length (zeros n) = n.
Proof. induction n; [reflexivity|]. cbn [zeros String.length]. rewrite IHn. reflexivity. Qed.

Lemma fmtHex_lowerHex (w : nat) (v : Z) : allChars lowerHex (fmtHex false w v) = true.
Proof.
  unfold fmtHex. rewrite allChars_app, zeros_lowerHex.
  destruct (v =? 0); [reflexivity | apply hexDigitsOf_lowerHex].
Qed.

Lemma fmtHex_length (w : nat) (v : Z) : (w <= String.length (fmtHex false w v))%nat.
Proof. unfold fmtHex. rewrite length_app_string, zeros_length. lia. Qed.

Lemma trimLeft_cons_app (c : ascii) (r t : string) :
  isPlain c = true -> trimLeft (String c r ++ t) = (String c r ++ t)%string.
Proof.
  intros H. change (trimLeft (String c (r ++ t)) = String c (r ++ t)).
  apply trimLeft_plain, H.
Qed.

(** The canonical texts: what [normalizeUUID] maps to itself. *)
Lemma normalizeUUID_canonical (u : string) :
  ToLower (TrimSpace u) = u -> HasPrefix u "0x" = false ->
  String.length u <> 4%nat -> String.length u <> 8%nat -> CountByte u "-"%char = 4%nat ->
  Ids.normalizeUUID u = inl u.
Proof.
  intros H1 H2 H3 H3' H4. unfold Ids.normalizeUUID. rewrite H1, H2, H4.
  destruct (String.eqb_spec u "") as [->|_]; [cbn in H4; lia|].
  destruct (Nat.eqb_spec (String.length u) 4); [lia|].
  destruct (Nat.eqb_spec (String.length u) 8); [lia|]. reflexivity.
Qed.

Lemma trimRight_app_b (s : string) :
  trimRight (s ++ Ids.baseSuffix) = (s ++ Ids.baseSuffix)%string.
Proof.
  change Ids.baseSuffix with ("-0000-1000-8000-00805f9b34f" ++ String "b"%char "")%string.
  rewrite <- app_assoc_string. apply trimRight_nonspace_end. reflexivity.
Qed.

(** A run of lower-case hexadecimal digits followed by the base suffix. *)
Lemma short_canonical (h : string) :
  allChars lowerHex h = true -> (8 <= String.length h)%nat ->
  let u := (h ++ Ids.baseSuffix)%string in
  Ids.normalizeUUID u = inl u /\ CountByte u "-"%char = 4%nat /\ ToLower u = u.
Proof.
  intros Hh Hlen u.
  assert (Hc : CountByte u "-"%char = 4%nat).
  { unfold u. rewrite CountByte_app, (lowerHex_Count h Hh). reflexivity. }
  assert (Hl : ToLower u = u).
  { unfold u. rewrite ToLower_app, (lowerHex_ToLower h Hh). reflexivity. }
  destruct h as [|c1 [|c2 r]]; try (cbn in Hlen; lia).
  cbn [allChars] in Hh. apply andb_prop in Hh as [Hc1 Hh]. apply andb_prop in Hh as [Hc2 Hr].
  destruct (lowerHex_facts c1 Hc1) as (_ & Hs1 & _ & _).
  destruct (lowerHex_facts c2 Hc2) as (_ & _ & _ & Hx2).
  split; [|split; assumption].
  apply normalizeUUID_canonical.
  - assert (Et : TrimSpace u = u).
    { unfold TrimSpace. unfold u at 1.
      rewrite (trimLeft_cons_app c1 (String c2 r) Ids.baseSuffix Hs1).
      apply (trimRight_app_b (String c1 (String c2 r))). }
    rewrite Et. exact Hl.
  - unfold u, HasPrefix.
    change (String.prefix "0x" (String c1 (String c2 (r ++ Ids.baseSuffix))) = false).
    cbn [String.prefix].
    destruct (ascii_dec "0"%char c1); [|reflexivity].
    destruct (ascii_dec "x"%char c2) as [E|]; [|reflexivity].
    subst c2. discriminate Hx2.
  - unfold u. rewrite length_app_string.
    change (String.length Ids.baseSuffix) with 28%nat. lia.
  - unfold u. rewrite length_app_string.
    change (String.length Ids.baseSuffix) with 28%nat. lia.
  - exact Hc.
Qed.

Lemma short4_canonical (v : Z) :
  let u := ("0000" ++ fmtHex false 4 v ++ Ids.baseSuffix)%string in
  Ids.normalizeUUID u = inl u /\ CountByte u "-"%char = 4%nat /\ ToLower u = u.
Proof.
  cbv zeta. rewrite <- app_assoc_string.
  apply (short_canonical ("0000" ++ fmtHex false 4 v)).
  - rewrite allChars_app, fmtHex_lowerHex. reflexivity.
  - rewrite length_app_string. pose proof (fmtHex_length 4 v). cbn [String.length]. lia.
Qed.

Lemma short8_canonical (v : Z) :
  let u := (fmtHex false 8 v ++ Ids.baseSuffix)%string in
  Ids.normalizeUUID u = inl u /\ CountByte u "-"%char = 4%nat /\ ToLower u = u.
Proof.
  apply (short_canonical (fmtHex false 8 v)); [apply fmtHex_lowerHex | apply fmtHex_length].
Qed.

Lemma normalizeUUID_output (s u : string) :
  Ids.normalizeUUID s = inl u ->
  Ids.normalizeUUID u = inl u /\ CountByte u "-"%char = 4%nat /\ ToLower u = u.
Proof.
  unfold Ids.normalizeUUID at 1. set (t := ToLower (TrimSpace s)).
  destruct (String.eqb t "") eqn:Ee; [discriminate|].
  destruct (HasPrefix t "0x") eqn:Ep.
  - destruct (String.eqb (TrimSpace (TrimPrefix t "0x")) ""); [discriminate|].
    destruct (Strconv.ParseUint (TrimSpace (TrimPrefix t "0x")) 16 32) as [v|e]; [|discriminate].
    destruct (String.length (TrimSpace (TrimPrefix t "0x")) <=? 4)%nat.
    + intros H. injection H as <-. apply short4_canonical.
    + destruct (String.length (TrimSpace (TrimPrefix t "0x")) <=? 8)%nat; [|discriminate].
      intros H. injection H as <-. apply short8_canonical.
  - destruct (Nat.eqb_spec (String.length t) 4) as [E4|N4].
    { destruct (Strconv.ParseUint t 16 16) as [v|e]; [|discriminate].
      intros H. injection H as <-. apply short4_canonical. }
    destruct (Nat.eqb_spec (String.length t) 8) as [E8|N8].
    { destruct (Strconv.ParseUint t 16 32) as [v|e]; [|discriminate].
      intros H. injection H as <-. apply short8_canonical. }
    destruct (Nat.eqb_spec (CountByte t "-"%char) 4) as [E|N]; [|discriminate].
    intros H. injection H as <-.
    split; [|split; [exact E | apply ToLower_idem]].
    apply normalizeUUID_canonical; [apply lowtrim_fixed | exact Ep | exact N4 | exact N8 | exact E].
Qed.

(** X6.  [normalizeUUID] is idempotent on what it accepts: every UUID text
    it returns is lower-case, holds exactly four hyphens, and is returned
    unchanged when normalised again. *)
Theorem normalizeUUID_idempotent (s u : string) :
  Ids.normalizeUUID s = inl u ->
  Ids.normalizeUUID u = inl u /\ CountByte u "-"%char = 4%nat /\ ToLower u = u.
Proof. apply normalizeUUID_output. Qed.

Lemma normalizeUUID_idempotent_witness :
  Ids.normalizeUUID " 0x180F" = inl "0000180f-0000-1000-8000-00805f9b34fb" /\
  Ids.normalizeUUID "0000180f-0000-1000-8000-00805f9b34fb" =
    inl "0000180f-0000-1000-8000-00805f9b34fb" /\
  CountByte "0000180f-0000-1000-8000-00805f9b34fb" "-"%char = 4%nat /\
  ToLower "0000180f-0000-1000-8000-00805f9b34fb" = "0000180f-0000-1000-8000-00805f9b34fb".
Proof.
  assert (H : Ids.normalizeUUID " 0x180F" = inl "0000180f-0000-1000-8000-00805f9b34fb")
    by (vm_compute; reflexivity).
  split; [exact H | exact (normalizeUUID_idempotent _ _ H)].
Defined.

Lemma hexDigitsOf_zero (n : nat) : hexDigitsOf false n 0 = "".
Proof. destruct n; reflexivity. Qed.

Lemma fixedHex_zero (w : nat) : fixedHex w 0 = zeros w.
Proof.
  induction w as [|w IH]; [reflexivity|].
  cbn [fixedHex]. change (0 / 16) with 0. rewrite IH.
  change (hexdigit (0 mod 16)) with "0"%char.
  clear IH. induction w as [|w IH]; [reflexivity|].
  change (String "0" (zeros w ++ "0") = String "0" (zeros (S w)))%string.
  f_equal. exact IH.
Qed.

Lemma hexDigitsOf_fixed (w n : nat) (v : Z) :
  (w <= n)%nat -> 0 < v < 16 ^ Z.of_nat w ->
  (zeros (w - String.length (hexDigitsOf false n v)) ++ hexDigitsOf false n v)%string =
  fixedHex w v.
Proof.
  revert n v. induction w as [|w IH]; intros n v Hn Hv.
  - change (16 ^ Z.of_nat 0) with 1 in Hv. lia.
  - destruct n as [|n]; [lia|]. cbn [hexDigitsOf fixedHex].
    destruct (Z.ltb_spec 0 v); [|lia].
    rewrite length_app_string. cbn [String.length].
    replace (S w - (String.length (hexDigitsOf false n (v / 16)) + 1))%nat
      with (w - String.length (hexDigitsOf false n (v / 16)))%nat by lia.
    rewrite <- app_assoc_string. f_equal.
    destruct (Z.eq_dec (v / 16) 0) as [E|N].
    + rewrite E, hexDigitsOf_zero, fixedHex_zero. cbn [String.length].
      rewrite Nat.sub_0_r. clear. induction w; [reflexivity|].
      change (String "0" (zeros w ++ "") = String "0" (zeros w))%string. f_equal. assumption.
    + apply IH; [lia|]. split.
      * assert (0 <= v / 16) by (apply Z.div_pos; lia). lia.
      * apply Z.div_lt_upper_bound; [lia|].
        rewrite Nat2Z.inj_succ, Z.pow_succ_r in Hv by lia. lia.
Qed.

Lemma fmtHex_fixed4 (v : Z) : 0 <= v < 65536 -> fmtHex false 4 v = fixedHex 4 v.
Proof.
  intros Hv. unfold fmtHex. destruct (Z.eqb_spec v 0) as [->|N]; [reflexivity|].
  apply hexDigitsOf_fixed; [lia|]. change (16 ^ Z.of_nat 4) with 65536. lia.
Qed.

Lemma divmod16 (q d : Z) : 0 <= d < 16 -> (q * 16 + d) / 16 = q /\ (q * 16 + d) mod 16 = d.
Proof.
  intros Hd. split.
  - symmetry. apply (Z.div_unique (q * 16 + d) 16 q d); lia.
  - symmetry. apply (Z.mod_unique (q * 16 + d) 16 q d); lia.
Qed.

Lemma fixedHex4_digits (a b c d : Z) :
  0 <= a < 16 -> 0 <= b < 16 -> 0 <= c < 16 -> 0 <= d < 16 ->
  fixedHex 4 (((a * 16 + b) * 16 + c) * 16 + d) = hexText4 a b c d.
Proof.
  intros Ha Hb Hc Hd. cbn [fixedHex].
  destruct (divmod16 ((a * 16 + b) * 16 + c) d Hd) as [E1 E2]. rewrite E1, E2.
  destruct (divmod16 (a * 16 + b) c Hc) as [E3 E4]. rewrite E3, E4.
  destruct (divmod16 a b Hb) as [E5 E6]. rewrite E5, E6.
  rewrite (Z.mod_small a 16) by lia. reflexivity.
Qed.

Lemma digitOf_hexdigit (n : Z) : 0 <= n < 16 -> Strconv.digitOf (hexdigit n) = Some n.
Proof. intros H. each_nibble H; reflexivity. Qed.

Lemma parseUintFrom_step (maxVal n d : Z) (c : ascii) (r : string) :
  Strconv.digitOf c = Some d -> 0 <= d < 16 -> 0 <= n -> n * 16 + d <= maxVal ->
  maxVal < 2 ^ 64 ->
  Strconv.parseUintFrom 16 maxVal n (String c r) =
  Strconv.parseUintFrom 16 maxVal (n * 16 + d) r.
Proof.
  intros Ec Hd Hn Hm Hmax. cbn [Strconv.parseUintFrom]. rewrite Ec.
  change (2 ^ 64) with 18446744073709551616 in *.
  change ((18446744073709551616 - 1) / 16 + 1) with 1152921504606846976.
  destruct (Z.leb_spec 16 d); [lia|].
  destruct (Z.leb_spec 1152921504606846976 n); [lia|].
  destruct (Z.leb_spec 18446744073709551616 (n * 16 + d)); [lia|].
  destruct (Z.ltb_spec maxVal (n * 16 + d)); [lia|]. reflexivity.
Qed.

Lemma ParseUint_hexText4 (bits a b c d : Z) :
  16 <= bits <= 64 ->
  0 <= a < 16 -> 0 <= b < 16 -> 0 <= c < 16 -> 0 <= d < 16 ->
  Strconv.ParseUint (hexText4 a b c d) 16 bits = inl (((a * 16 + b) * 16 + c) * 16 + d).
Proof.
  intros Hbits Ha Hb Hc Hd. unfold Strconv.ParseUint, hexText4.
  assert (H16 : 2 ^ 16 <= 2 ^ bits) by (apply Z.pow_le_mono_r; lia).
  assert (H64 : 2 ^ bits <= 2 ^ 64) by (apply Z.pow_le_mono_r; lia).
  change (2 ^ 16) with 65536 in H16.
  rewrite (parseUintFrom_step _ 0 a) by (try apply digitOf_hexdigit; lia).
  rewrite (parseUintFrom_step _ (0 * 16 + a) b) by (try apply digitOf_hexdigit; lia).
  rewrite (parseUintFrom_step _ ((0 * 16 + a) * 16 + b) c) by (try apply digitOf_hexdigit; lia).
  rewrite (parseUintFrom_step _ (((0 * 16 + a) * 16 + b) * 16 + c) d)
    by (try apply digitOf_hexdigit; lia).
  cbn [Strconv.parseUintFrom]. f_equal; try lia.
Qed.

Lemma isHexDigit_cases (c : ascii) : isHexDigit c = true ->
  (0 <=? hexValue c) && (hexValue c <? 16) && Ascii.eqb (lowerByte c) (hexdigit (hexValue c))
  && negb (isSpace c) = true.
Proof.
  destruct c as [[] [] [] [] [] [] [] []]; vm_compute; intros H;
    try reflexivity; discriminate H.
Qed.

Lemma isHexDigit_value (c : ascii) : isHexDigit c = true ->
  0 <= hexValue c < 16 /\ lowerByte c = hexdigit (hexValue c) /\ isPlain c = true.
Proof.
  intros H. pose proof (isHexDigit_cases c H) as Hc.
  apply andb_prop in Hc as [Hc H4]. apply andb_prop in Hc as [Hc H3].
  apply andb_prop in Hc as [H1 H2].
  apply Z.leb_le in H1. apply Z.ltb_lt in H2. apply Ascii.eqb_eq in H3.
  repeat split; try assumption. apply isHexDigit_plain, H.
Qed.

Lemma normalizeUUID_norm (s : string) :
  Ids.normalizeUUID s = Ids.normalizeUUID (ToLower (TrimSpace s)).
Proof. unfold Ids.normalizeUUID. rewrite lowtrim_fixed. reflexivity. Qed.

Lemma TrimSpace_hexText4 (a b c d : Z) :
  0 <= a < 16 -> 0 <= d < 16 ->
  TrimSpace (hexText4 a b c d) = hexText4 a b c d.
Proof.
  intros Ha Hd.
  apply (TrimSpace_plain_ends (hexdigit a) (hexdigit d)
           (String (hexdigit b) (String (hexdigit c) "")));
    apply isPlain_hexdigit; assumption.
Qed.

Lemma normalizeUUID_hexText4 (a b c d : Z) :
  0 <= a < 16 -> 0 <= b < 16 -> 0 <= c < 16 -> 0 <= d < 16 ->
  Ids.normalizeUUID (hexText4 a b c d) =
    inl ("0000" ++ hexText4 a b c d ++ Ids.baseSuffix)%string /\
  Ids.normalizeUUID ("0x" ++ hexText4 a b c d) =
    inl ("0000" ++ hexText4 a b c d ++ Ids.baseSuffix)%string.
Proof.
  intros Ha Hb Hc Hd.
  assert (Hl : ToLower (hexText4 a b c d) = hexText4 a b c d).
  { apply lowerHex_ToLower. unfold hexText4. cbn [allChars].
    rewrite !lowerHex_hexdigit by assumption. reflexivity. }
  assert (Ht : TrimSpace (hexText4 a b c d) = hexText4 a b c d)
    by (apply (TrimSpace_hexText4 a b c d Ha Hd)).
  assert (Hv : 0 <= ((a * 16 + b) * 16 + c) * 16 + d < 65536) by lia.
  assert (Hf : fmtHex false 4 (((a * 16 + b) * 16 + c) * 16 + d) = hexText4 a b c d).
  { rewrite fmtHex_fixed4 by exact Hv. apply fixedHex4_digits; assumption. }
  assert (E0 : String.eqb (hexText4 a b c d) "" = false) by reflexivity.
  split.
  - unfold Ids.normalizeUUID. rewrite Ht, Hl. rewrite E0.
    assert (Ep : HasPrefix (hexText4 a b c d) "0x" = false).
    { unfold HasPrefix, hexText4. cbn [String.prefix].
      destruct (ascii_dec "0"%char (hexdigit a)); [|reflexivity].
      destruct (ascii_dec "x"%char (hexdigit b)) as [E|]; [|reflexivity].
      exfalso. clear - E Hb. each_nibble Hb; discriminate E. }
    rewrite Ep. change (String.length (hexText4 a b c d) =? 4)%nat with true. cbv iota.
    rewrite (ParseUint_hexText4 16 a b c d) by lia. rewrite Hf. reflexivity.
  - unfold Ids.normalizeUUID.
    assert (Et : TrimSpace ("0x" ++ hexText4 a b c d) = ("0x" ++ hexText4 a b c d)%string).
    { apply (TrimSpace_plain_ends "0" (hexdigit d)
               (String "x" (String (hexdigit a) (String (hexdigit b)
                  (String (hexdigit c) ""))))); [reflexivity|].
      apply isPlain_hexdigit, Hd. }
    rewrite Et, ToLower_app, Hl.
    change (ToLower "0x") with "0x".
    change (String.eqb ("0x" ++ hexText4 a b c d) "") with false. cbv iota.
    assert (Ep : HasPrefix ("0x" ++ hexText4 a b c d) "0x" = true).
    { unfold HasPrefix. change ("0x" ++ hexText4 a b c d)%string
        with (String "0" (String "x" (hexText4 a b c d))).
      cbn [String.prefix]. destruct (ascii_dec "0"%char "0"%char); [|congruence].
      destruct (ascii_dec "x"%char "x"%char); [|congruence]. reflexivity. }
    rewrite Ep.
    assert (Es : TrimPrefix ("0x" ++ hexText4 a b c d) "0x" = hexText4 a b c d).
    { unfold TrimPrefix. rewrite Ep. reflexivity. }
    rewrite Es, Ht, E0.
    rewrite (ParseUint_hexText4 32 a b c d) by lia.
    change (String.length (hexText4 a b c d) <=? 4)%nat with true. cbv iota.
    rewrite Hf. reflexivity.
Qed.

(** X7.  The two short spellings of a 16-bit UUID agree: four hexadecimal
    digits, in either letter case, with or without the prefix "0x", are
    normalised to the same 128-bit UUID, the lower-cased digits placed in
    the Bluetooth base UUID. *)
Theorem normalizeUUID_short16 (c1 c2 c3 c4 : ascii) :
  isHexDigit c1 = true -> isHexDigit c2 = true ->
  isHexDigit c3 = true -> isHexDigit c4 = true ->
  let h := String c1 (String c2 (String c3 (String c4 ""))) in
  Ids.normalizeUUID h = inl ("0000" ++ ToLower h ++ Ids.baseSuffix)%string /\
  Ids.normalizeUUID ("0x" ++ h) = Ids.normalizeUUID h.
Proof.
  intros H1 H2 H3 H4 h.
  destruct (isHexDigit_value c1 H1) as (V1 & L1 & S1).
  destruct (isHexDigit_value c2 H2) as (V2 & L2 & S2).
  destruct (isHexDigit_value c3 H3) as (V3 & L3 & S3).
  destruct (isHexDigit_value c4 H4) as (V4 & L4 & S4).
  assert (Et : TrimSpace h = h).
  { apply (TrimSpace_plain_ends c1 c4 (String c2 (String c3 "")) S1 S4). }
  assert (El : ToLower h = hexText4 (hexValue c1) (hexValue c2) (hexValue c3) (hexValue c4)).
  { unfold h, hexText4. cbn [ToLower mapBytes]. rewrite L1, L2, L3, L4. reflexivity. }
  assert (Et2 : TrimSpace ("0x" ++ h) = ("0x" ++ h)%string).
  { apply (TrimSpace_plain_ends "0" c4
             (String "x" (String c1 (String c2 (String c3 ""))))); [reflexivity | exact S4]. }
  destruct (normalizeUUID_hexText4 _ _ _ _ V1 V2 V3 V4) as [Ea Eb].
  rewrite (normalizeUUID_norm h), (normalizeUUID_norm ("0x" ++ h)).
  rewrite Et, Et2, ToLower_app, El. change (ToLower "0x") with "0x".
  rewrite Ea, Eb. split; reflexivity.
Qed.

Lemma normalizeUUID_short16_witness :
  Ids.normalizeUUID "2A0f" = inl ("0000" ++ ToLower "2A0f" ++ Ids.baseSuffix)%string /\
  Ids.normalizeUUID ("0x" ++ "2A0f") = Ids.normalizeUUID "2A0f".
Proof.
  apply (normalizeUUID_short16 "2" "A" "0" "f"); reflexivity.
Defined.

Lemma LoadUUIDYaml_invariant (entries : list Ids.uuidEntry) (acc : gmap string string) :
  (forall k n, acc !! k = Some n ->
     Ids.normalizeUUID k = inl k /\ n <> "" /\ TrimSpace n = n) ->
  forall k n,
    fold_left
      (fun out e =>
         let uuidStr := Ids.normalizeUUIDValue (Ids.UUID e) in
         let name := TrimSpace (Ids.Name e) in
         if String.eqb uuidStr "" || String.eqb name "" then out
         else match Ids.normalizeUUID uuidStr with
              | inr _ => out
              | inl uuid128 => <[uuid128 := name]> out
              end) entries acc !! k = Some n ->
    Ids.normalizeUUID k = inl k /\ n <> "" /\ TrimSpace n = n.
Proof.
  revert acc. induction entries as [|e es IH]; intros acc Hacc; [exact Hacc|].
  cbn [fold_left]. apply IH. cbv zeta.
  destruct (String.eqb (Ids.normalizeUUIDValue (Ids.UUID e)) ""); [exact Hacc|].
  cbn [orb]. destruct (String.eqb_spec (TrimSpace (Ids.Name e)) "") as [|Hn]; [exact Hacc|].
  destruct (Ids.normalizeUUID (Ids.normalizeUUIDValue (Ids.UUID e))) as [u|] eqn:Eu;
    [|exact Hacc].
  intros k n. destruct (decide (u = k)) as [<-|Hne].
  - rewrite lookup_insert_eq. intros H. injection H as <-.
    split; [apply (normalizeUUID_output _ _ Eu)|]. split; [exact Hn | apply TrimSpace_idem].
  - rewrite lookup_insert_ne by exact Hne. apply Hacc.
Qed.

(** X8.  Every entry of a loaded UUID catalog is stored under a canonical
    key (a UUID text that [normalizeUUID] maps to itself) with a name that
    is trimmed and not empty, whatever the entries of the file are. *)
Theorem LoadUUIDYaml_keys_canonical (entries : list Ids.uuidEntry) (k n : string) :
  Ids.LoadUUIDYaml entries !! k = Some n ->
  Ids.normalizeUUID k = inl k /\ n <> "" /\ TrimSpace n = n.
Proof.
  unfold Ids.LoadUUIDYaml. apply LoadUUIDYaml_invariant.
  intros k' n'. rewrite lookup_empty. discriminate.
Qed.

Lemma LoadUUIDYaml_keys_canonical_witness :
  Ids.normalizeUUID "0000180f-0000-1000-8000-00805f9b34fb" =
    inl "0000180f-0000-1000-8000-00805f9b34fb" /\
  "Battery" <> "" /\ TrimSpace "Battery" = "Battery".
Proof.
  apply (LoadUUIDYaml_keys_canonical
           [{| Ids.UUID := Ids.VInt 6159; Ids.Name := " Battery " |};
            {| Ids.UUID := Ids.VString "zz"; Ids.Name := "ignored" |}]).
  vm_compute. reflexivity.
Defined.

End IdsFacts.

(** ** The connect blacklist *)

Section BlacklistFacts.
Import GoText Blacklist.

Lemma lowerByte_punct (c : ascii) :
  Ascii.eqb (lowerByte c) "#"%char = Ascii.eqb c "#"%char /\
  Ascii.eqb (lowerByte c) ";"%char = Ascii.eqb c ";"%char /\
  Ascii.eqb (lowerByte c) "/"%char = Ascii.eqb c "/"%char.
Proof. destruct c as [[] [] [] [] [] [] [] []]; repeat split. Qed.

Lemma prefix_cons (a b : ascii) (p s : string) :
  String.prefix (String a p) (String b s) = Ascii.eqb a b && String.prefix p s.
Proof.
  cbn [String.prefix]. destruct (ascii_dec a b) as [->|N].
  - rewrite Ascii.eqb_refl. reflexivity.
  - apply Ascii.eqb_neq in N. rewrite N. reflexivity.
Qed.

Lemma prefix_nil (s : string) : String.prefix "" s = true.
Proof. destruct s; reflexivity. Qed.

Lemma isCommentLine_ToLower (s : string) : isCommentLine (ToLower s) = isCommentLine s.
Proof.
  unfold isCommentLine, HasPrefix.
  destruct s as [|c1 r]; [reflexivity|].
  cbn [ToLower mapBytes]. fold (ToLower r). rewrite !prefix_cons, !prefix_nil.
  destruct (lowerByte_punct c1) as (E1 & E2 & E3).
  rewrite (Ascii.eqb_sym "#"%char), (Ascii.eqb_sym ";"%char), (Ascii.eqb_sym "/"%char).
  rewrite E1, E2, E3.
  rewrite (Ascii.eqb_sym c1 "#"%char), (Ascii.eqb_sym c1 ";"%char), (Ascii.eqb_sym c1 "/"%char).
  destruct r as [|c2 r2]; [reflexivity|].
  cbn [ToLower mapBytes]. rewrite !prefix_cons, !prefix_nil.
  destruct (lowerByte_punct c2) as (_ & _ & E4).
  rewrite (Ascii.eqb_sym "/"%char (lowerByte c2)), E4, (Ascii.eqb_sym c2 "/"%char).
  reflexivity.
Qed.

Lemma ToLower_empty_iff (s : string) : ToLower s = "" <-> s = "".
Proof. destruct s; cbn [ToLower mapBytes]; split; congruence. Qed.

(** The keyword a line contributes. *)
Lemma keyword_good (l : string) : keywordLine l -> goodKeyword (ToLower (TrimSpace l)).
Proof.
  intros [Hne Hc]. repeat split.
  - rewrite ToLower_empty_iff. exact Hne.
  - apply ToLower_idem.
  - rewrite TrimSpace_ToLower, TrimSpace_idem. reflexivity.
  - rewrite isCommentLine_ToLower. exact Hc.
Qed.

Lemma readLines_spec (lines : list string) :
  forall (seen : gset string) (out : list string),
    (forall kw, kw ∈ seen <-> In kw out) -> NoDup out ->
    NoDup (readLines lines seen out) /\
    (forall kw, In kw (readLines lines seen out) <->
                In kw out \/ exists l, In l lines /\ keywordLine l /\ kw = ToLower (TrimSpace l)).
Proof.
  induction lines as [|l0 rest IH]; intros seen out Hseen Hnd.
  - cbn [readLines]. split; [exact Hnd|]. intros kw. split; [tauto|].
    intros [H|(l & [] & _)]. exact H.
  - cbn [readLines].
    assert (Hskip : ~ keywordLine l0 \/
                    (keywordLine l0 /\ In (ToLower (TrimSpace l0)) out) ->
                    NoDup (readLines rest seen out) /\
                    (forall kw, In kw (readLines rest seen out) <->
                       In kw out \/ exists l, In l (l0 :: rest) /\ keywordLine l /\
                                              kw = ToLower (TrimSpace l))).
    { intros Hcase. destruct (IH seen out Hseen Hnd) as [H1 H2]. split; [exact H1|].
      intros kw. rewrite H2. split.
      - intros [H|(l & Hl & Hk & E)]; [left; exact H|].
        right. exists l. split; [right; exact Hl | split; assumption].
      - intros [H|(l & [<-|Hl] & Hk & E)]; [left; exact H | | right; exists l; tauto].
        destruct Hcase as [Hn|[_ Hin]]; [exfalso; apply Hn; exact Hk|]. left. rewrite E. exact Hin. }
    rewrite TrimSpace_idem.
    destruct (String.eqb_spec (TrimSpace l0) "") as [E0|N0].
    { apply Hskip. left. intros [H _]. apply H. exact E0. }
    destruct (isCommentLine (TrimSpace l0)) eqn:Ec.
    { apply Hskip. left. intros [_ H]. congruence. }
    assert (Hk : keywordLine l0) by (split; assumption).
    destruct (String.eqb_spec (ToLower (TrimSpace l0)) "") as [E1|N1].
    { exfalso. apply N0. apply ToLower_empty_iff. exact E1. }
    destruct (bool_decide_reflect (ToLower (TrimSpace l0) ∈ seen)) as [Hin|Hnin].
    { apply Hskip. right. split; [exact Hk | apply Hseen, Hin]. }
    destruct (IH ({[ToLower (TrimSpace l0)]} ∪ seen) (out ++ [ToLower (TrimSpace l0)])%list)
      as [H1 H2].
    + intros kw. rewrite elem_of_union, elem_of_singleton, in_app_iff, Hseen.
      cbn [In]. split.
      * intros [->|H]; [right; left; reflexivity | left; exact H].
      * intros [H|[<-|[]]]; [right; exact H | left; reflexivity].
    + apply NoDup_app. split; [exact Hnd|]. split.
      * intros x Hx Hx'. apply list_elem_of_In in Hx. apply Hseen in Hx.
        apply list_elem_of_In in Hx'. destruct Hx' as [<-|[]]. apply Hnin. exact Hx.
      * apply NoDup_singleton.
    + split; [exact H1|]. intros kw. rewrite H2, in_app_iff. cbn [In]. split.
      * intros [[H|[H|[]]]|(l & Hl & Hkl & E)].
        -- left; exact H.
        -- right. exists l0. split; [left; reflexivity | split; [exact Hk | symmetry; exact H]].
        -- right. exists l. split; [right; exact Hl | split; assumption].
      * intros [H|(l & [<-|Hl] & Hkl & E)].
        -- left; left; exact H.
        -- left; right; left. symmetry. exact E.
        -- right. exists l. tauto.
Qed.

Lemma readBlacklistKeywords_spec (lines : list string) :
  NoDup (readBlacklistKeywords lines) /\
  (forall kw, In kw (readBlacklistKeywords lines) <->
              exists l, In l lines /\ keywordLine l /\ kw = ToLower (TrimSpace l)).
Proof.
  unfold readBlacklistKeywords.
  destruct (readLines_spec lines ∅ []) as [H1 H2].
  - intros kw. cbn [In]. split; [intros H; apply not_elem_of_empty in H; exact H | tauto].
  - apply NoDup_nil_2.
  - split; [exact H1|]. intros kw. rewrite H2. cbn [In]. tauto.
Qed.

(** X9.  The keywords read from a blacklist file of ASCII text are
    normalised: the list has no duplicates, and every keyword is non-empty,
    lower-case, free of surrounding white space and not a comment line. *)
Theorem readBlacklistKeywords_normalised (lines : list string) :
  Forall (fun l => isASCII l = true) lines ->
  NoDup (readBlacklistKeywords lines) /\
  (forall kw, In kw (readBlacklistKeywords lines) -> goodKeyword kw).
Proof.
  intros _.
  destruct (readBlacklistKeywords_spec lines) as [H1 H2]. split; [exact H1|].
  intros kw Hkw. apply H2 in Hkw as (l & _ & Hk & ->). apply keyword_good, Hk.
Qed.

(** A comment, a keyword with blanks around it, and the same keyword again. *)
Lemma readBlacklistKeywords_normalised_witness :
  readBlacklistKeywords ["# clinics"; " ResMed "; "resmed"] = ["resmed"]
  /\ goodKeyword "resmed".
Proof.
  destruct (readBlacklistKeywords_normalised ["# clinics"; " ResMed "; "resmed"])
    as [_ Hgood].
  - repeat constructor.
  - split; [reflexivity|]. apply Hgood. left. reflexivity.
Defined.

Lemma matchAny_spec (name : string) (kws : list string) :
  matchAny name kws = true <->
  exists kw, In kw kws /\ kw <> "" /\ Contains name kw = true.
Proof.
  induction kws as [|kw rest IH]; cbn [matchAny].
  - split; [discriminate | intros (kw & [] & _)].
  - destruct (String.eqb_spec kw "") as [E|N].
    + rewrite IH. split.
      * intros (k & Hk & H). exists k. split; [right; exact Hk | exact H].
      * intros (k & [<-|Hk] & Hn & H); [exfalso; apply Hn; exact E|]. exists k. tauto.
    + destruct (Contains name kw) eqn:Ec.
      * split; [|reflexivity]. intros _. exists kw. split; [left; reflexivity | tauto].
      * rewrite IH. split.
        -- intros (k & Hk & H). exists k. split; [right; exact Hk | exact H].
        -- intros (k & [<-|Hk] & Hn & H); [rewrite Ec in H; discriminate H|]. exists k. tauto.
Qed.

Lemma Contains_empty (kw : string) : Contains "" kw = true -> kw = "".
Proof. destruct kw; [reflexivity|]. cbn. discriminate. Qed.

(** X10.  The matching rule of the blacklist, for a file and a device name
    of ASCII text: with the keywords read from the file, the name is matched
    exactly when some line of the file that is neither blank nor a comment
    (first non-blank characters '#', ';' or "//") occurs, lower-cased and
    trimmed, as a substring of the lower-cased, trimmed name. *)
Theorem Match_rule (b : ConnectBlacklist) (lines : list string) (deviceName : string) :
  Forall (fun l => isASCII l = true) lines -> isASCII deviceName = true ->
  keywords b = readBlacklistKeywords lines ->
  (Match (Some b) deviceName = true <->
   exists l, In l lines /\ keywordLine l /\
             Contains (ToLower (TrimSpace deviceName)) (ToLower (TrimSpace l)) = true).
Proof.
  intros _ _ Hb. unfold Match. rewrite Hb.
  destruct (readBlacklistKeywords_spec lines) as [_ Hin].
  destruct (String.eqb_spec (ToLower (TrimSpace deviceName)) "") as [E|N].
  - split; [discriminate|]. intros (l & _ & [Hne _] & Hc). rewrite E in Hc.
    apply Contains_empty in Hc. apply (proj1 (ToLower_empty_iff _)) in Hc. exfalso. exact (Hne Hc).
  - rewrite matchAny_spec. split.
    + intros (kw & Hkw & _ & Hc). apply Hin in Hkw as (l & Hl & Hk & ->).
      exists l. tauto.
    + intros (l & Hl & Hk & Hc). exists (ToLower (TrimSpace l)).
      split; [apply Hin; exists l; tauto|]. split; [|exact Hc].
      rewrite ToLower_empty_iff. exact (proj1 Hk).
Qed.

Lemma Match_rule_witness :
  Match (Some {| path := "blacklist.txt";
                 keywords := readBlacklistKeywords ["# clinics"; " ResMed "; "resmed"];
                 modTime := 1; lastStat := 1; statEvery := 30 * Second |})
        "RESMED 027506" = true <->
  exists l, In l ["# clinics"; " ResMed "; "resmed"] /\ keywordLine l /\
            Contains (ToLower (TrimSpace "RESMED 027506")) (ToLower (TrimSpace l)) = true.
Proof.
  apply (Match_rule _ ["# clinics"; " ResMed "; "resmed"] "RESMED 027506");
    [repeat constructor | reflexivity | reflexivity].
Defined.

End BlacklistFacts.

(** ** Adapter selection and the connection budget *)

Section CliFacts.
Import GoText Cli.

Lemma uniqueFrom_spec (l : list string) :
  forall seen : gset string,
    NoDup (uniqueFrom seen l) /\
    (forall x, In x (uniqueFrom seen l) <-> In x l /\ x ∉ seen).
Proof.
  induction l as [|v rest IH]; intros seen; cbn [uniqueFrom].
  - split; [apply NoDup_nil_2|]. intros x. cbn [In]. tauto.
  - destruct (bool_decide_reflect (v ∈ seen)) as [Hin|Hnin].
    + destruct (IH seen) as [H1 H2]. split; [exact H1|].
      intros x. rewrite H2. cbn [In]. split; [tauto|].
      intros [[<-|H] Hx]; [contradiction | tauto].
    + destruct (IH ({[v]} ∪ seen)) as [H1 H2]. split.
      * apply NoDup_cons. split; [|exact H1].
        intros Hv. apply list_elem_of_In, H2 in Hv. destruct Hv as [_ Hv].
        apply Hv. apply elem_of_union_l, elem_of_singleton. reflexivity.
      * intros x. cbn [In]. rewrite H2, elem_of_union, elem_of_singleton. split.
        -- intros [<-|[Hx Hn]]; [tauto|]. split; [right; exact Hx | tauto].
        -- intros [[<-|Hx] Hn]; [left; reflexivity|].
           destruct (decide (x = v)) as [->|Hne]; [left; reflexivity|].
           right. split; [exact Hx|]. intros [E|E]; [contradiction | contradiction].
Qed.

Lemma uniqueFrom_NoDup (l : list string) :
  forall seen : gset string,
    NoDup l -> (forall x, In x l -> x ∉ seen) -> uniqueFrom seen l = l.
Proof.
  induction l as [|v rest IH]; intros seen Hnd Hs; [reflexivity|].
  cbn [uniqueFrom]. apply NoDup_cons in Hnd as [Hv Hnd].
  destruct (bool_decide_reflect (v ∈ seen)) as [Hin|Hnin].
  - exfalso. apply (Hs v); [left; reflexivity | exact Hin].
  - f_equal. apply IH; [exact Hnd|]. intros x Hx.
    rewrite elem_of_union, elem_of_singleton. intros [->|E].
    + apply Hv, list_elem_of_In, Hx.
    + apply (Hs x); [right; exact Hx | exact E].
Qed.

(** X11.  [uniqueStrings] removes repetitions and nothing else: its result
    has no duplicates, has exactly the members of its argument, and is the
    argument itself when that has no duplicates. *)
Theorem uniqueStrings_spec (l : list string) :
  NoDup (uniqueStrings l) /\
  (forall x, In x (uniqueStrings l) <-> In x l) /\
  (NoDup l -> uniqueStrings l = l).
Proof.
  unfold uniqueStrings. destruct (uniqueFrom_spec l ∅) as [H1 H2].
  split; [exact H1|]. split.
  - intros x. rewrite H2. split; [tauto|]. intros H. split; [exact H|].
    apply not_elem_of_empty.
  - intros Hnd. apply uniqueFrom_NoDup; [exact Hnd|]. intros x _. apply not_elem_of_empty.
Qed.

Lemma uniqueStrings_members (l : list string) (x : string) :
  In x (uniqueStrings l) <-> In x l.
Proof.
  unfold uniqueStrings. destruct (uniqueFrom_spec l ∅) as [_ H2]. rewrite H2.
  split; [tauto|]. intros H. split; [exact H | apply not_elem_of_empty].
Qed.

Lemma uniqueStrings_NoDup (l : list string) : NoDup (uniqueStrings l).
Proof. unfold uniqueStrings. apply (uniqueFrom_spec l ∅). Qed.

Lemma uniqueStrings_nonempty (l : list string) : l <> [] -> uniqueStrings l <> [].
Proof.
  destruct l as [|v rest]; [congruence|]. intros _ E.
  assert (H : In v (uniqueStrings (v :: rest))) by (apply uniqueStrings_members; left; reflexivity).
  rewrite E in H. exact H.
Qed.

Lemma checkKnown_None (valid : gset string) (parts : list string) :
  checkKnown valid parts = None -> forall p, In p parts -> p ∈ valid.
Proof.
  induction parts as [|q rest IH]; cbn [checkKnown]; [intros _ p []|].
  destruct (bool_decide_reflect (q ∈ valid)) as [Hq|Hq]; [|discriminate].
  intros H p [<-|Hp]; [exact Hq | exact (IH H p Hp)].
Qed.

Section WithScanner.
Variable scanInt : string -> option Z.

Lemma pickIndices_ok (interfaces : list InterfaceInfo) (idxStrs out : list string) :
  pickIndices scanInt interfaces idxStrs = inl out ->
  List.length out = List.length idxStrs /\
  (forall a, In a out -> exists inf, In inf interfaces /\ ID inf = a).
Proof.
  revert out. induction idxStrs as [|v rest IH]; intros out; cbn [pickIndices].
  - intros H. injection H as <-. split; [reflexivity | intros a []].
  - destruct (scanInt v) as [idx|]; [|discriminate].
    destruct ((idx <? 0) || (Z.of_nat (List.length interfaces) <=? idx)); [discriminate|].
    destruct (interfaces !! Z.to_nat idx) as [inf|] eqn:El; [|discriminate].
    destruct (pickIndices scanInt interfaces rest) as [o|e]; [|discriminate].
    intros H. injection H as <-. destruct (IH o eq_refl) as [H1 H2].
    split; [cbn [List.length]; rewrite H1; reflexivity|].
    intros a [<-|Ha]; [|exact (H2 a Ha)].
    exists inf. split; [|reflexivity].
    apply list_elem_of_In, list_elem_of_lookup. exists (Z.to_nat idx). exact El.
Qed.

(** X12.  Whatever way the adapters are selected (the -adapters list, the
    legacy index, or the interactive answer), a successful selection is a
    non-empty list without duplicates of IDs of detected interfaces. *)
Theorem selectAdapters_sound (interfaces : list InterfaceInfo) (adaptersFlag : string)
        (adapterIndex : Z) (prompt : option string) (out : list string) :
  selectAdapters scanInt interfaces adaptersFlag adapterIndex prompt = Done (inl out) ->
  out <> [] /\ NoDup out /\
  (forall a, In a out -> exists inf, In inf interfaces /\ ID inf = a).
Proof.
  unfold selectAdapters.
  assert (Hone : forall i inf, interfaces !! i = Some inf ->
            [ID inf] <> [] /\ NoDup [ID inf] /\
            (forall a, In a [ID inf] -> exists inf', In inf' interfaces /\ ID inf' = a)).
  { intros i inf El. split; [discriminate|]. split; [apply NoDup_singleton|].
    intros a [<-|[]]. exists inf. split; [|reflexivity].
    apply list_elem_of_In, list_elem_of_lookup. exists i. exact El. }
  destruct (String.eqb adaptersFlag ""); cbn [negb].
  - destruct (0 <=? adapterIndex).
    + destruct (Z.of_nat (List.length interfaces) <=? adapterIndex); [discriminate|].
      destruct (interfaces !! Z.to_nat adapterIndex) as [inf|] eqn:El; [|discriminate].
      intros H. injection H as <-. exact (Hone _ _ El).
    + destruct prompt as [s0|]; [|discriminate].
      destruct (String.eqb (TrimSpace s0) "").
      * destruct (interfaces !! O) as [inf|] eqn:El; [|discriminate].
        intros H. injection H as <-. exact (Hone _ _ El).
      * destruct (splitCSV (TrimSpace s0)) as [|v rest] eqn:Es; [discriminate|].
        destruct (pickIndices scanInt interfaces (v :: rest)) as [o|e] eqn:Ep; [|discriminate].
        intros H. injection H as <-. destruct (pickIndices_ok _ _ _ Ep) as [H1 H2].
        split; [|split; [apply uniqueStrings_NoDup|]].
        -- apply uniqueStrings_nonempty. intros ->. discriminate H1.
        -- intros a Ha. apply (proj1 (uniqueStrings_members _ _)) in Ha. exact (H2 a Ha).
  - destruct (splitCSV adaptersFlag) as [|v rest] eqn:Es; [discriminate|].
    destruct (checkKnown (list_to_set (List.map ID interfaces)) (v :: rest)) as [p|] eqn:Ek;
      [discriminate|].
    intros H. injection H as <-.
    split; [apply uniqueStrings_nonempty; discriminate|].
    split; [apply uniqueStrings_NoDup|].
    intros a Ha. apply (proj1 (uniqueStrings_members _ _)) in Ha.
    pose proof (checkKnown_None _ _ Ek a Ha) as Hv.
    apply elem_of_list_to_set, list_elem_of_In, in_map_iff in Hv.
    destruct Hv as (inf & E & Hinf). exists inf. split; assumption.
Qed.

End WithScanner.

Lemma selectAdapters_sound_witness :
  uniqueStrings ["hci1"; "hci0"] <> [] /\ NoDup (uniqueStrings ["hci1"; "hci0"]) /\
  (forall a, In a (uniqueStrings ["hci1"; "hci0"]) ->
     exists inf, In inf [{| ID := "hci0"; DisplayName := ""; BusInfo := "USB" |};
                         {| ID := "hci1"; DisplayName := ""; BusInfo := "USB" |}] /\
                 ID inf = a).
Proof.
  apply (selectAdapters_sound (fun _ => None)
           [{| ID := "hci0"; DisplayName := ""; BusInfo := "USB" |};
            {| ID := "hci1"; DisplayName := ""; BusInfo := "USB" |}]
           " hci1, hci0,hci1 " (-1) None).
  vm_compute. reflexivity.
Defined.

End CliFacts.

Section BudgetFacts.

Lemma fold_insert_other (f : nat -> Z) (pairs : list (nat * string)) :
  forall (acc : gmap string Z) (a : string),
    ~ In a (List.map snd pairs) ->
    fold_left (fun m ia => <[snd ia := f (fst ia)]> m) pairs acc !! a = acc !! a.
Proof.
  induction pairs as [|[j b] rest IH]; intros acc a Hn; [reflexivity|].
  cbn [fold_left fst snd]. rewrite IH.
  - apply lookup_insert_ne. intros ->. apply Hn. left. reflexivity.
  - intros H. apply Hn. right. exact H.
Qed.

Lemma fold_insert_found (f : nat -> Z) (pairs : list (nat * string)) :
  forall (acc : gmap string Z) (i : nat) (a : string),
    NoDup (List.map snd pairs) -> In (i, a) pairs ->
    fold_left (fun m ia => <[snd ia := f (fst ia)]> m) pairs acc !! a = Some (f i).
Proof.
  induction pairs as [|[j b] rest IH]; intros acc i a Hnd Hin; [destruct Hin|].
  cbn [List.map snd] in Hnd. apply NoDup_cons in Hnd as [Hb Hnd].
  cbn [fold_left fst snd]. destruct Hin as [E|Hin].
  - injection E as -> ->. rewrite fold_insert_other.
    + apply lookup_insert_eq.
    + intros H. apply Hb, list_elem_of_In, H.
  - apply IH; assumption.
Qed.

Lemma imap_shift {B : Type} (F : nat -> string -> B) (k : nat) (x : string) (r : list string) :
  imap (fun i a => F (k + i)%nat a) (x :: r) =
  F (k + 0)%nat x :: imap (fun i a => F (S k + i)%nat a) r.
Proof.
  rewrite imap_cons. f_equal. apply imap_ext. intros i y _. unfold compose.
  replace (k + S i)%nat with (S k + i)%nat by lia. reflexivity.
Qed.

Lemma imap_pairs_snd (l : list string) (k : nat) :
  List.map snd (imap (fun i a => ((k + i)%nat, a)) l) = l.
Proof.
  revert k. induction l as [|x r IH]; intros k; [reflexivity|].
  rewrite (imap_shift (fun i a => (i, a)) k x r). cbn [List.map snd]. f_equal. apply IH.
Qed.

Lemma imap_pairs_In (l : list string) (k i : nat) (a : string) :
  l !! i = Some a -> In ((k + i)%nat, a) (imap (fun i a => ((k + i)%nat, a)) l).
Proof.
  revert k i. induction l as [|x r IH]; intros k i H; [discriminate|].
  rewrite (imap_shift (fun i a => (i, a)) k x r). destruct i as [|i].
  - injection H as ->. left. reflexivity.
  - right. cbn in H. specialize (IH (S k) i H).
    replace (k + S i)%nat with (S k + i)%nat by lia. exact IH.
Qed.

Lemma map_as_imap {B : Type} (l : list string) (F : string -> B) (G : nat -> string -> B) :
  (forall i a, l !! i = Some a -> F a = G i a) -> List.map F l = imap G l.
Proof.
  revert G. induction l as [|x r IH]; intros G H; [reflexivity|].
  rewrite imap_cons. cbn [List.map]. f_equal.
  - apply (H O x). reflexivity.
  - apply IH. intros i a Hi. apply (H (S i) a). exact Hi.
Qed.

Lemma sum_limits (per rest : Z) (l : list string) (k : nat) :
  sumZ (List.map snd
          (imap (fun i (a : string) =>
                   (a, if Z.of_nat (k + i) <? rest then per + 1 else per)) l)) =
  Z.of_nat (List.length l) * per +
  Z.max 0 (Z.min (Z.of_nat (k + List.length l)) rest - Z.of_nat k).
Proof.
  revert k. induction l as [|x r IH]; intros k.
  - cbn [imap List.map sumZ fold_right List.length]. lia.
  - rewrite (imap_shift (fun i a => (a, if Z.of_nat i <? rest then per + 1 else per)) k x r).
    change (sumZ (List.map snd (?w :: ?t))) with (snd w + sumZ (List.map snd t)).
    rewrite (IH (S k)). cbn [snd List.length]. rewrite Nat.add_0_r.
    replace (Z.of_nat (S (List.length r)) * per) with (Z.of_nat (List.length r) * per + per)
      by lia.
    destruct (Z.ltb_spec (Z.of_nat k) rest); lia.
Qed.

Lemma limits_positive (per rest : Z) (l : list string) (k : nat) :
  1 <= per ->
  Forall (fun w : string * Z => 1 <= snd w)
    (imap (fun i (a : string) =>
             (a, if Z.of_nat (k + i) <? rest then per + 1 else per)) l).
Proof.
  intros Hper. revert k. induction l as [|x r IH]; intros k; [constructor|].
  rewrite (imap_shift (fun i a => (a, if Z.of_nat i <? rest then per + 1 else per)) k x r).
  constructor; [|apply (IH (S k))].
  cbn [snd]. destruct (Z.of_nat (k + 0) <? rest); lia.
Qed.

Lemma limits_names (g : nat -> Z) (l : list string) :
  List.map fst (imap (fun i (a : string) => (a, g i)) l) = l.
Proof.
  revert g. induction l as [|x r IH]; intros g; [reflexivity|].
  rewrite imap_cons. cbn [List.map fst]. f_equal. apply (IH (fun i => g (S i))).
Qed.

(** X13.  The connection budget of the multi-adapter scanner: for a
    non-empty list of distinct adapters a worker is started for every
    adapter, each with a limit of at least one connection, and the limits
    add up to the requested total (at least 1), unless there are more
    adapters than that, in which case they add up to the number of
    adapters. *)
Theorem connection_budget (adapterIDs : list string) (maxConnectTotal : Z) :
  adapterIDs <> [] -> NoDup adapterIDs ->
  exists ws,
    Multi.StartContinuousScanAndConnectMulti adapterIDs maxConnectTotal = Some ws /\
    List.map fst ws = adapterIDs /\
    Forall (fun w => 1 <= snd w) ws /\
    sumZ (List.map snd ws) =
      Z.max (Z.max maxConnectTotal 1) (Z.of_nat (List.length adapterIDs)).
Proof.
  intros Hne Hnd. unfold Multi.StartContinuousScanAndConnectMulti.
  destruct adapterIDs as [|a0 ids0] eqn:Eids; [congruence|]. rewrite <- Eids in *.
  set (n := Z.of_nat (List.length adapterIDs)).
  set (total := if maxConnectTotal <? 1 then 1 else maxConnectTotal).
  set (per := if Z.quot total n <? 1 then 1 else Z.quot total n).
  set (rest := if Z.quot total n <? 1 then 0 else Z.rem total n).
  set (g := fun i : nat => if Z.of_nat i <? rest then per + 1 else per).
  set (limits := fold_left _ _ _).
  assert (Hn : 1 <= n) by (unfold n; rewrite Eids; cbn [List.length]; lia).
  assert (Ht : 1 <= total /\ total = Z.max maxConnectTotal 1)
    by (unfold total; destruct (Z.ltb_spec maxConnectTotal 1); lia).
  assert (Hq : total = n * Z.quot total n + Z.rem total n) by (apply Z.quot_rem'; lia).
  assert (Hr : 0 <= Z.rem total n < n) by (apply Z.rem_bound_pos; lia).
  assert (Hq0 : 0 <= Z.quot total n) by (apply Z.quot_pos; lia).
  assert (Hper : 1 <= per) by (unfold per; destruct (Z.ltb_spec (Z.quot total n) 1); lia).
  assert (Hrest : 0 <= rest < n) by (unfold rest; destruct (Z.ltb_spec (Z.quot total n) 1); lia).
  assert (Hlim : forall i a, adapterIDs !! i = Some a -> limits !! a = Some (g i)).
  { intros i a Hi. unfold limits.
    apply (fold_insert_found g (imap (fun i a => (i, a)) adapterIDs) ∅ i a).
    - pose proof (imap_pairs_snd adapterIDs 0) as E. cbn [Nat.add] in E. rewrite E. exact Hnd.
    - exact (imap_pairs_In adapterIDs 0 i a Hi). }
  assert (Ews : List.map (fun a => (a, match limits !! a with Some v => v | None => 0 end))
                  adapterIDs = imap (fun i (a : string) => (a, g i)) adapterIDs).
  { apply map_as_imap. intros i a Hi. rewrite (Hlim i a Hi). reflexivity. }
  eexists. split; [reflexivity|]. rewrite Ews. split; [apply limits_names|]. split.
  - apply (limits_positive per rest adapterIDs 0 Hper).
  - pose proof (sum_limits per rest adapterIDs 0) as Hs. cbn [Nat.add] in Hs.
    unfold g. rewrite Hs. fold n.
    change (Z.of_nat 0) with 0. destruct Ht as [Ht1 Ht2]. rewrite <- Ht2.
    unfold per, rest in *. destruct (Z.ltb_spec (Z.quot total n) 1) as [Hlt|Hge].
    + assert (Z.quot total n = 0) by lia. nia.
    + nia.
Qed.

Lemma connection_budget_witness :
  ["hci0"; "hci1"; "hci2"] <> [] /\ NoDup ["hci0"; "hci1"; "hci2"] /\
  exists ws,
    Multi.StartContinuousScanAndConnectMulti ["hci0"; "hci1"; "hci2"] 8 = Some ws /\
    List.map fst ws = ["hci0"; "hci1"; "hci2"] /\
    Forall (fun w => 1 <= snd w) ws /\
    sumZ (List.map snd ws) = Z.max (Z.max 8 1) (Z.of_nat (List.length ["hci0"; "hci1"; "hci2"])).
Proof.
  assert (H1 : ["hci0"; "hci1"; "hci2"] <> []) by discriminate.
  assert (H2 : NoDup ["hci0"; "hci1"; "hci2"]).
  { repeat (apply NoDup_cons; split;
            [intros H; repeat (apply elem_of_cons in H as [H|H]; [discriminate H|]);
             apply elem_of_nil in H; exact H|]).
    apply NoDup_nil_2. }
  split; [exact H1|]. split; [exact H2|].
  exact (connection_budget _ 8 H1 H2).
Defined.

End BudgetFacts.

(** ** GPS state and configuration *)

Section GpsMoreFacts.
Import GoText Gps.

Lemma itoa_head (n : Z) : 0 <= n ->
  exists c r, GoStrings.itoa n = String c r /\ Ascii.eqb c "("%char = false.
Proof.
  intros Hn. destruct n as [|p|p]; [exists "0"%char, ""; split; reflexivity | | lia].
  unfold GoStrings.itoa, NilZero.string_of_uint.
  destruct (N.to_uint (N.pos p)) as [|d|d|d|d|d|d|d|d|d|d];
    cbn [NilEmpty.string_of_uint]; eexists; eexists; split; reflexivity.
Qed.

Lemma fixed6_head (neg : bool) (q : Z) : 0 <= q ->
  exists c r, fixed6 neg q = String c r /\ Ascii.eqb c "("%char = false.
Proof.
  intros Hq. unfold fixed6.
  destruct neg.
  - eexists; eexists; split; [reflexivity|]. reflexivity.
  - destruct (itoa_head (q / 1000000)) as (c & r & E & Hc); [apply Z.div_pos; lia|].
    rewrite E. exists c. eexists. split; [reflexivity | exact Hc].
Qed.

Lemma roundHalfEven_nonneg (num den : Z) : 0 <= num -> 0 < den -> 0 <= roundHalfEven num den.
Proof.
  intros Hn Hd. unfold roundHalfEven.
  assert (0 <= num / den) by (apply Z.div_pos; lia).
  repeat match goal with |- context [if ?c then _ else _] => destruct c end; lia.
Qed.

Lemma fmtF_head (x : spec_float) :
  exists c r, fmtF x = String c r /\ Ascii.eqb c "("%char = false.
Proof.
  destruct x as [s|s| |s m e]; cbn [fmtF].
  - apply fixed6_head. lia.
  - destruct s; eexists; eexists; split; reflexivity.
  - eexists; eexists; split; reflexivity.
  - apply fixed6_head. destruct (Z.leb_spec 0 e).
    + assert (0 < 2 ^ e) by (apply Z.pow_pos_nonneg; lia). nia.
    + apply roundHalfEven_nonneg; [lia|]. apply Z.pow_pos_nonneg; lia.
Qed.

Lemma fresh_text_head (s : State) :
  HasPrefix (fmtF (latestLat s) ++ ", " ++ fmtF (latestLon s)) "(" = false.
Proof.
  destruct (fmtF_head (latestLat s)) as (c & r & E & Hc). rewrite E.
  unfold HasPrefix. change (String.prefix "(" (String c (r ++ ", " ++ fmtF (latestLon s))) = false).
  cbn [String.prefix]. destruct (ascii_dec "("%char c) as [<-|]; [discriminate Hc | reflexivity].
Qed.

(** X14.  The four readings of the GPS state agree when taken at the same
    instant: the state is fresh exactly when [FixSnapshot] reports a fix
    that is not cached; [GPSStringForRecord] gives a text exactly when
    [FixSnapshot] reports a fix; [GPSStringIfFresh] is that text when the
    state is fresh and nothing otherwise; and the text is parenthesised
    exactly when [FixSnapshot] reports the fix as cached. *)
Theorem gps_readings_agree (now : Time) (s : State) :
  let ok := snd (fst (FixSnapshot now s)) in
  let cached := snd (FixSnapshot now s) in
  IsFresh now s = ok && negb cached /\
  (GPSStringForRecord now s = None <-> ok = false) /\
  GPSStringIfFresh now s = (if IsFresh now s then GPSStringForRecord now s else None) /\
  (forall t, GPSStringForRecord now s = Some t -> (cached = true <-> HasPrefix t "(" = true)).
Proof.
  unfold FixSnapshot, IsFresh, GPSStringForRecord, GPSStringIfFresh.
  destruct (useGPS s); cbn [negb fst snd andb].
  2:{ repeat split; try discriminate; intros; discriminate. }
  destruct (IsZero (lastFix s)); cbn [fst snd andb].
  { repeat split; try discriminate; intros; discriminate. }
  destruct (Z.leb_spec (Since now (lastFix s)) (timeout s)) as [Hle|Hgt];
    destruct (Z.ltb_spec (timeout s) (Since now (lastFix s))) as [Hlt|Hge]; try lia;
    cbn [negb andb].
  - split; [reflexivity|]. split; [split; discriminate|]. split; [reflexivity|].
    intros t H. injection H as <-. rewrite fresh_text_head. split; discriminate.
  - split; [reflexivity|]. split; [split; discriminate|]. split; [reflexivity|].
    intros t H. injection H as <-. split; [intros _|reflexivity].
    unfold HasPrefix.
    change (String.prefix "(" (String "(" (fmtF (latestLat s) ++ ", " ++ fmtF (latestLon s) ++ ")"))
            = true).
    rewrite prefix_cons, prefix_nil. reflexivity.
Qed.

End GpsMoreFacts.

Section GpsConfigFacts.
Import GpsConfig.

(** X15.  [normalizeConfig] yields a complete configuration and is
    idempotent: the mode and the gpsd address are never empty, the baud
    rate is positive, and normalising a normalised configuration changes
    nothing. *)
Theorem normalizeConfig_idempotent (cfg : Config) :
  normalizeConfig (normalizeConfig cfg) = normalizeConfig cfg /\
  Mode (normalizeConfig cfg) <> "" /\ GPSDAddr (normalizeConfig cfg) <> "" /\
  0 < SerialBaud (normalizeConfig cfg).
Proof.
  assert (Hm : forall m, ToLower (TrimSpace (if String.eqb (ToLower (TrimSpace m)) "" then "auto"
                                             else ToLower (TrimSpace m))) =
                         (if String.eqb (ToLower (TrimSpace m)) "" then "auto"
                          else ToLower (TrimSpace m)) /\
                         (if String.eqb (ToLower (TrimSpace m)) "" then "auto"
                          else ToLower (TrimSpace m)) <> "").
  { intros m. destruct (String.eqb_spec (ToLower (TrimSpace m)) "") as [|N].
    - split; [reflexivity | discriminate].
    - split; [apply lowtrim_fixed | exact N]. }
  assert (Ha : forall a, TrimSpace (if String.eqb (TrimSpace a) "" then "127.0.0.1:2947"
                                    else TrimSpace a) =
                         (if String.eqb (TrimSpace a) "" then "127.0.0.1:2947" else TrimSpace a) /\
                         (if String.eqb (TrimSpace a) "" then "127.0.0.1:2947" else TrimSpace a)
                         <> "").
  { intros a. destruct (String.eqb_spec (TrimSpace a) "") as [|N].
    - split; [reflexivity | discriminate].
    - split; [apply TrimSpace_idem | exact N]. }
  destruct (Hm (Mode cfg)) as [Hm1 Hm2]. destruct (Ha (GPSDAddr cfg)) as [Ha1 Ha2].
  assert (Hb : 0 < (if SerialBaud cfg <=? 0 then 9600 else SerialBaud cfg))
    by (destruct (Z.leb_spec (SerialBaud cfg) 0); lia).
  split; [|split; [exact Hm2 | split; [exact Ha2 | exact Hb]]].
  unfold normalizeConfig. cbn [Mode GPSDAddr SerialDev SerialBaud].
  rewrite Hm1, Ha1, TrimSpace_idem.
  apply String.eqb_neq in Hm2. apply String.eqb_neq in Ha2. rewrite Hm2, Ha2.
  destruct (Z.leb_spec (if SerialBaud cfg <=? 0 then 9600 else SerialBaud cfg) 0); [lia|].
  reflexivity.
Qed.

End GpsConfigFacts.

(** ** Integrity of the store across calls *)

Section StoreIntegrity.
Import Db.

Variable parse : string -> option Time.

Lemma consistent_same (s s' : Store) :
  devices s' = devices s -> nextDeviceID s' = nextDeviceID s ->
  advertisements s' = advertisements s -> nextAdvID s' = nextAdvID s ->
  storeConsistent s -> storeConsistent s'.
Proof.
  intros E1 E2 E3 E4. unfold storeConsistent. rewrite E1, E2, E3, E4. tauto.
Qed.

Lemma consistent_rewrite (s : Store) (m : string) (r r' : Device) :
  devices s !! m = Some r -> id r' = id r -> mac r' = mac r ->
  storeConsistent s ->
  storeConsistent (withDevices (<[m := r']> (devices s)) (nextDeviceID s) s).
Proof.
  intros Hm Hid Hmac (Hn1 & Hn2 & Hrows & Hinj & Hadv & Hnd).
  unfold storeConsistent. cbn [devices nextDeviceID advertisements nextAdvID withDevices].
  split; [exact Hn1|]. split; [exact Hn2|]. split; [|split; [|split; [|exact Hnd]]].
  - intros k r0. destruct (decide (m = k)) as [<-|Hne].
    + rewrite lookup_insert_eq. intros H. injection H as <-.
      rewrite Hid, Hmac. apply Hrows, Hm.
    + rewrite lookup_insert_ne by exact Hne. apply Hrows.
  - intros k1 k2 r1 r2.
    destruct (decide (m = k1)) as [<-|N1]; destruct (decide (m = k2)) as [<-|N2];
      rewrite ?lookup_insert_eq, ?lookup_insert_ne by assumption.
    + reflexivity.
    + intros H1 H2 E. injection H1 as <-. rewrite Hid in E. exact (Hinj _ _ _ _ Hm H2 E).
    + intros H1 H2 E. injection H2 as <-. rewrite Hid in E. exact (Hinj _ _ _ _ H1 Hm E).
    + apply Hinj.
  - intros a Ha. destruct (Hadv a Ha) as [Hid' (ra & Hra & Era)]. split; [exact Hid'|].
    destruct (decide (m = adv_mac a)) as [E|Hne].
    + exists r'. destruct E. rewrite lookup_insert_eq. split; [reflexivity|].
      rewrite Hm in Hra. injection Hra as <-. rewrite Hid. exact Era.
    + exists ra. rewrite lookup_insert_ne by exact Hne. split; assumption.
Qed.

Lemma consistent_insert (s : Store) (m : string) (row : Device) :
  devices s !! m = None -> normalizeMAC m = m -> m <> "" ->
  mac row = m -> id row = nextDeviceID s ->
  storeConsistent s ->
  storeConsistent (withDevices (<[m := row]> (devices s)) (nextDeviceID s + 1) s).
Proof.
  intros Hm Hnorm Hne Hmac Hid (Hn1 & Hn2 & Hrows & Hinj & Hadv & Hnd).
  unfold storeConsistent. cbn [devices nextDeviceID advertisements nextAdvID withDevices].
  split; [lia|]. split; [exact Hn2|]. split; [|split; [|split; [|exact Hnd]]].
  - intros k r0. destruct (decide (m = k)) as [<-|N].
    + rewrite lookup_insert_eq. intros H. injection H as <-.
      repeat split; try assumption; lia.
    + rewrite lookup_insert_ne by exact N. intros H.
      destruct (Hrows k r0 H) as (A & B & C & D). repeat split; try assumption; lia.
  - intros k1 k2 r1 r2.
    destruct (decide (m = k1)) as [<-|N1]; destruct (decide (m = k2)) as [<-|N2];
      rewrite ?lookup_insert_eq, ?lookup_insert_ne by assumption.
    + reflexivity.
    + intros H1 H2 E. injection H1 as <-. destruct (Hrows _ _ H2) as (_ & _ & _ & D). lia.
    + intros H1 H2 E. injection H2 as <-. destruct (Hrows _ _ H1) as (_ & _ & _ & D). lia.
    + apply Hinj.
  - intros a Ha. destruct (Hadv a Ha) as [Hid' (ra & Hra & Era)]. split; [exact Hid'|].
    exists ra. split; [|exact Era].
    rewrite lookup_insert_ne; [exact Hra|]. intros E. rewrite <- E in Hra. congruence.
Qed.

Lemma consistent_append (s : Store) (a : Advertisement) (r : Device) :
  devices s !! adv_mac a = Some r -> adv_device_id a = id r -> adv_id a = nextAdvID s ->
  storeConsistent s ->
  storeConsistent (withAdvertisements (advertisements s ++ [a]) (nextAdvID s + 1) s).
Proof.
  intros Hr Hdev Hid (Hn1 & Hn2 & Hrows & Hinj & Hadv & Hnd).
  unfold storeConsistent.
  cbn [devices nextDeviceID advertisements nextAdvID withAdvertisements].
  split; [exact Hn1|]. split; [lia|]. split; [exact Hrows|]. split; [exact Hinj|]. split.
  - intros b Hb. apply in_app_iff in Hb as [Hb|[<-|[]]].
    + destruct (Hadv b Hb) as [H1 H2]. split; [lia | exact H2].
    + split; [lia|]. exists r. split; [exact Hr | symmetry; exact Hdev].
  - rewrite map_app. cbn [List.map]. apply NoDup_app. split; [exact Hnd|]. split.
    + intros x Hx Hx'. apply list_elem_of_In in Hx'. destruct Hx' as [<-|[]].
      apply list_elem_of_In, in_map_iff in Hx as (b & Eb & Hb).
      destruct (Hadv b Hb) as [H1 _]. lia.
    + apply NoDup_singleton.
Qed.

Lemma consistent_updateDevice (f : Device -> Device) (m : string) (s : Store) :
  (forall r, id (f r) = id r /\ mac (f r) = mac r) ->
  storeConsistent s -> storeConsistent (updateDevice f m s).
Proof.
  intros Hf Hs. unfold updateDevice. destruct (devices s !! m) as [r|] eqn:E; [|exact Hs].
  apply (consistent_rewrite s m r (f r) E); [apply Hf | apply Hf | exact Hs].
Qed.

Lemma normalizeMAC_fixed (m : string) : normalizeMAC (normalizeMAC m) = normalizeMAC m.
Proof. apply normalizeMAC_idem. Qed.

Lemma consistent_SaveDevice (nowStr : string) (p : SaveParams) (s : Store) :
  storeConsistent s -> storeConsistent (snd (SaveDevice parse nowStr p s)).
Proof.
  intros Hs. unfold SaveDevice.
  destruct (String.eqb_spec (normalizeMAC (MAC p)) "") as [|Hne]; [exact Hs|].
  destruct (UpdateExisting p); [|exact Hs].
  destruct (devices s !! normalizeMAC (MAC p)) as [r|] eqn:E; cbn [snd]; [|exact Hs].
  apply (consistent_rewrite s _ r _ E); [reflexivity | reflexivity | exact Hs].
Qed.

Lemma consistent_InsertAdvertisement (p : AdvertisementParams) (s : Store) :
  storeConsistent s -> storeConsistent (snd (InsertAdvertisement p s)).
Proof.
  intros Hs. unfold InsertAdvertisement.
  destruct (String.eqb_spec (normalizeMAC (ap_MAC p)) "") as [|Hne]; [exact Hs|].
  cbn [snd].
  set (m := normalizeMAC (ap_MAC p)) in *.
  destruct (devices s !! m) as [r|] eqn:E.
  - rewrite E.
    apply (consistent_append s _ r); [exact E | reflexivity | reflexivity | exact Hs].
  - set (s1 := withDevices _ _ s).
    assert (Hs1 : storeConsistent s1).
    { apply consistent_insert; try assumption; try reflexivity. apply normalizeMAC_fixed. }
    assert (E1 : devices s1 !! m = Some (stubDevice (nextDeviceID s) p m))
      by (unfold s1; cbn [devices withDevices]; apply lookup_insert_eq).
    rewrite E1.
    apply (consistent_append s1 _ (stubDevice (nextDeviceID s) p m));
      [exact E1 | reflexivity | reflexivity | exact Hs1].
Qed.

Lemma consistent_step (s s' : Store) :
  storeStep parse s s' -> storeConsistent s -> storeConsistent s'.
Proof.
  intros Hstep Hs. destruct Hstep.
  - apply consistent_SaveDevice, Hs.
  - unfold UpdateGattServices. destruct (String.eqb _ ""); [exact Hs|].
    apply (consistent_same s); try reflexivity. exact Hs.
  - unfold UpdateDeviceGPS. destruct (String.eqb _ ""); [exact Hs|].
    destruct (String.eqb _ ""); [exact Hs|].
    apply consistent_updateDevice; [intros r; split; reflexivity | exact Hs].
  - unfold UpdateDeviceMarkedType. destruct (String.eqb _ ""); [exact Hs|].
    destruct (String.eqb _ ""); [exact Hs|].
    apply consistent_updateDevice; [intros r; split; reflexivity | exact Hs].
  - unfold UpdateDeviceLastAdvID. destruct (_ || _); [exact Hs|].
    apply consistent_updateDevice; [intros r; split; reflexivity | exact Hs].
  - unfold RecordDeviceGPSHistoryIfChanged. destruct (String.eqb _ ""); [exact Hs|].
    destruct (String.eqb _ ""); [exact Hs|]. cbv zeta.
    destruct (_ && _); [exact Hs|].
    destruct (devices s !! _); [|exact Hs].
    apply (consistent_same s); try reflexivity. exact Hs.
  - unfold UpsertGattCharacteristic. destruct (_ || _); [exact Hs|].
    apply (consistent_same s); try reflexivity. exact Hs.
  - apply consistent_InsertAdvertisement, Hs.
  - unfold UpsertClassicInfo. destruct (String.eqb _ ""); [exact Hs|].
    apply (consistent_same s); try reflexivity. exact Hs.
  - unfold InsertClassicDiscovery. destruct (String.eqb _ ""); [exact Hs|].
    apply (consistent_same s); try reflexivity. exact Hs.
Qed.

Lemma consistent_steps (s s' : Store) :
  rtc (storeStep parse) s s' -> storeConsistent s -> storeConsistent s'.
Proof.
  induction 1 as [|x y z Hxy _ IH]; [tauto|].
  intros Hx. apply IH. exact (consistent_step x y Hxy Hx).
Qed.

Lemma consistent_empty : storeConsistent emptyStore.
Proof.
  unfold storeConsistent, emptyStore.
  cbn [devices nextDeviceID advertisements nextAdvID List.map].
  split; [lia|]. split; [lia|]. split; [|split; [|split; [|apply NoDup_nil_2]]].
  - intros k r. rewrite lookup_empty. discriminate.
  - intros k1 k2 r1 r2. rewrite lookup_empty. discriminate.
  - intros a [].
Qed.

(** X16.  Integrity of the store: after any sequence of store calls on an
    empty database, every device row sits under its own normalised,
    non-empty MAC with an identifier of its own, and every advertisement
    row has an identifier of its own and names the device row of its MAC
    (the row [InsertAdvertisement] found or created). *)
Theorem store_integrity (s : Store) :
  rtc (storeStep parse) emptyStore s -> storeConsistent s.
Proof. intros H. exact (consistent_steps _ _ H consistent_empty). Qed.

(** *** Nothing is deleted *)

Lemma insert_is_Some {K V} `{Countable K} (m : gmap K V) (k k' : K) (v : V) :
  is_Some (m !! k') -> is_Some (<[k := v]> m !! k').
Proof.
  intros Hs. destruct (decide (k = k')) as [<-|N].
  - rewrite lookup_insert_eq. eexists; reflexivity.
  - rewrite lookup_insert_ne by exact N. exact Hs.
Qed.


Ltac extends_direct :=
  unfold storeExtends; cbn;
  repeat split;
  first [ tauto
        | assumption
        | exists []; rewrite app_nil_r; reflexivity
        | eexists; reflexivity
        | (let k := fresh "k" in let r := fresh "r" in let H := fresh "H" in
           intros k r H; exists r; tauto)
        | (let k := fresh "k" in intros k; apply insert_is_Some) ].


Lemma extends_refl (s : Store) : storeExtends s s.
Proof.
  unfold storeExtends. repeat split; try tauto;
    try (exists []; rewrite app_nil_r; reflexivity).
  intros k r H. exists r. tauto.
Qed.

Lemma extends_trans (a b c : Store) : storeExtends a b -> storeExtends b c -> storeExtends a c.
Proof.
  intros (A1 & A2 & A3 & A4 & [la A5] & [lb A6] & [lc A7])
         (B1 & B2 & B3 & B4 & [ma B5] & [mb B6] & [mc B7]).
  unfold storeExtends. repeat split.
  - intros k r H. destruct (A1 k r H) as (r' & H' & E'). destruct (B1 k r' H') as (r'' & H'' & E'').
    exists r''. split; [exact H'' | congruence].
  - intros k H. exact (B2 k (A2 k H)).
  - intros k H. exact (B3 k (A3 k H)).
  - intros k H. exact (B4 k (A4 k H)).
  - exists (la ++ ma)%list. rewrite B5, A5, app_assoc. reflexivity.
  - exists (lb ++ mb)%list. rewrite B6, A6, app_assoc. reflexivity.
  - exists (lc ++ mc)%list. rewrite B7, A7, app_assoc. reflexivity.
Qed.

Lemma extends_devices (s : Store) (d : gmap string Device) (n : Z) :
  (forall k r, devices s !! k = Some r -> exists r', d !! k = Some r' /\ id r' = id r) ->
  storeExtends s (withDevices d n s).
Proof.
  intros Hd. extends_direct.
Qed.

Lemma extends_rewrite (s : Store) (m : string) (r' : Device) (n : Z) :
  (forall r, devices s !! m = Some r -> id r' = id r) ->
  storeExtends s (withDevices (<[m := r']> (devices s)) n s).
Proof.
  intros Hid. apply extends_devices. intros k r H.
  destruct (decide (m = k)) as [<-|N].
  - exists r'. rewrite lookup_insert_eq. split; [reflexivity | exact (Hid r H)].
  - exists r. rewrite lookup_insert_ne by exact N. tauto.
Qed.

Lemma extends_updateDevice (f : Device -> Device) (m : string) (s : Store) :
  (forall r, id (f r) = id r) -> storeExtends s (updateDevice f m s).
Proof.
  intros Hf. unfold updateDevice. destruct (devices s !! m) as [r|] eqn:E; [|apply extends_refl].
  apply extends_rewrite. intros r0 H. rewrite E in H. injection H as <-. apply Hf.
Qed.

Lemma extends_SaveDevice (nowStr : string) (p : SaveParams) (s : Store) :
  storeExtends s (snd (SaveDevice parse nowStr p s)).
Proof.
  unfold SaveDevice.
  destruct (String.eqb (normalizeMAC (MAC p)) ""); [apply extends_refl|].
  destruct (UpdateExisting p); [|apply extends_refl].
  destruct (devices s !! normalizeMAC (MAC p)) as [r|] eqn:E; cbn [snd];
    [|apply extends_refl].
  apply extends_rewrite. intros r0 H. rewrite E in H. injection H as <-. reflexivity.
Qed.

Lemma extends_InsertAdvertisement (p : AdvertisementParams) (s : Store) :
  storeExtends s (snd (InsertAdvertisement p s)).
Proof.
  unfold InsertAdvertisement.
  destruct (String.eqb (normalizeMAC (ap_MAC p)) ""); [apply extends_refl|]. cbn [snd].
  set (s1 := match devices s !! normalizeMAC (ap_MAC p) with Some _ => s | None => _ end).
  assert (H1 : storeExtends s s1).
  { unfold s1. destruct (devices s !! normalizeMAC (ap_MAC p)) eqn:E; [apply extends_refl|].
    apply extends_rewrite. intros r0 H. rewrite E in H. discriminate H. }
  apply (extends_trans s s1); [exact H1|].
  extends_direct.
Qed.

Lemma extends_step (s s' : Store) : storeStep parse s s' -> storeExtends s s'.
Proof.
  intros Hstep. destruct Hstep.
  - apply extends_SaveDevice.
  - unfold UpdateGattServices. destruct (String.eqb _ ""); [apply extends_refl|].
    extends_direct.
  - unfold UpdateDeviceGPS. destruct (String.eqb _ ""); [apply extends_refl|].
    destruct (String.eqb _ ""); [apply extends_refl|].
    apply extends_updateDevice. reflexivity.
  - unfold UpdateDeviceMarkedType. destruct (String.eqb _ ""); [apply extends_refl|].
    destruct (String.eqb _ ""); [apply extends_refl|].
    apply extends_updateDevice. reflexivity.
  - unfold UpdateDeviceLastAdvID. destruct (_ || _); [apply extends_refl|].
    apply extends_updateDevice. reflexivity.
  - unfold RecordDeviceGPSHistoryIfChanged. destruct (String.eqb _ ""); [apply extends_refl|].
    destruct (String.eqb _ ""); [apply extends_refl|]. cbv zeta.
    destruct (_ && _); [apply extends_refl|].
    destruct (devices s !! _); [|apply extends_refl].
    extends_direct.
  - unfold UpsertGattCharacteristic. destruct (_ || _); [apply extends_refl|].
    extends_direct.
  - apply extends_InsertAdvertisement.
  - unfold UpsertClassicInfo. destruct (String.eqb _ ""); [apply extends_refl|].
    extends_direct.
  - unfold InsertClassicDiscovery. destruct (String.eqb _ ""); [apply extends_refl|].
    extends_direct.
Qed.

Lemma extends_steps (s s' : Store) : rtc (storeStep parse) s s' -> storeExtends s s'.
Proof.
  induction 1 as [|x y z Hxy _ IH]; [apply extends_refl|].
  exact (extends_trans x y z (extends_step x y Hxy) IH).
Qed.

(** X17.  The store never deletes: across any sequence of store calls every
    keyed row stays (a device row keeps its identifier), and the
    advertisement, GPS-history and classic-discovery tables only get rows
    added at their end. *)
Theorem store_append_only (s s' : Store) :
  rtc (storeStep parse) s s' -> storeExtends s s'.
Proof. apply extends_steps. Qed.

End StoreIntegrity.

Lemma store_integrity_witness :
  rtc (storeStep Layout.parseStamp) Db.emptyStore
      (snd (Db.InsertAdvertisement
              {| Db.ap_SessionID := Some 1; Db.ap_MAC := "aa:bb:cc:dd:ee:01";
                 Db.ap_Timestamp := "2024-01-01 00:00:00"; Db.ap_RSSI := Some (-60);
                 Db.ap_Raw := None; Db.ap_JSON := None |} Db.emptyStore)) /\
  storeConsistent
      (snd (Db.InsertAdvertisement
              {| Db.ap_SessionID := Some 1; Db.ap_MAC := "aa:bb:cc:dd:ee:01";
                 Db.ap_Timestamp := "2024-01-01 00:00:00"; Db.ap_RSSI := Some (-60);
                 Db.ap_Raw := None; Db.ap_JSON := None |} Db.emptyStore)).
Proof.
  assert (H : rtc (storeStep Layout.parseStamp) Db.emptyStore
      (snd (Db.InsertAdvertisement
              {| Db.ap_SessionID := Some 1; Db.ap_MAC := "aa:bb:cc:dd:ee:01";
                 Db.ap_Timestamp := "2024-01-01 00:00:00"; Db.ap_RSSI := Some (-60);
                 Db.ap_Raw := None; Db.ap_JSON := None |} Db.emptyStore)))
    by (apply rtc_once, step_InsertAdvertisement).
  split; [exact H | exact (store_integrity Layout.parseStamp _ H)].
Defined.

Lemma store_append_only_witness :
  rtc (storeStep Layout.parseStamp) Db.emptyStore
      (Db.UpdateGattServices "aa:bb:cc:dd:ee:01" "Service: 180f" Db.emptyStore) /\
  storeExtends Db.emptyStore
      (Db.UpdateGattServices "aa:bb:cc:dd:ee:01" "Service: 180f" Db.emptyStore).
Proof.
  assert (H : rtc (storeStep Layout.parseStamp) Db.emptyStore
      (Db.UpdateGattServices "aa:bb:cc:dd:ee:01" "Service: 180f" Db.emptyStore))
    by (apply rtc_once, step_UpdateGattServices).
  split; [exact H | exact (store_append_only Layout.parseStamp _ _ H)].
Defined.

(** ** The discovery loop only goes through the store facade *)

Section LoopStoreFacts.
Import Types Bluetooth.

Variable parse : string -> option Time.
Variable env : Env.

Local Abbreviation steps := (rtc (storeStep parse)).

Lemma steps_sight o bd w : steps (store w) (store (sight env o bd w)).
Proof. unfold sight. destruct (negb _); apply rtc_refl. Qed.

Lemma steps_gpsWrite now rd o t w : steps (store w) (store (gpsWrite env now rd o t w)).
Proof.
  unfold gpsWrite. cbn [store emit withStore withMaps].
  eapply rtc_r; [apply rtc_once, step_UpdateDeviceGPS|].
  apply step_RecordDeviceGPSHistoryIfChanged.
Qed.

Lemma steps_markerUpdate o w : steps (store w) (store (markerUpdate o w)).
Proof.
  unfold markerUpdate. destruct (String.eqb _ ""); [apply rtc_refl|]. cbv zeta.
  destruct (match lastMarked (maps w) !! o_mac o with Some _ => _ | None => _ end);
    cbn [store emit withStore withMaps Linef]; apply rtc_once, step_UpdateDeviceMarkedType.
Qed.

Lemma steps_throttledUpdate now rd o w :
  steps (store w) (store (throttledUpdate env now rd o w)).
Proof.
  unfold throttledUpdate. etransitivity; [|apply steps_markerUpdate].
  destruct (o_gpsStr o); [|apply rtc_refl].
  destruct (String.eqb _ ""); [apply rtc_refl|].
  match goal with |- context [if ?c then _ else _] => destruct c end;
    [apply steps_gpsWrite | apply rtc_refl].
Qed.

Lemma steps_fullWrite now rd o bd w :
  steps (store w) (store (fullWrite parse env now rd o bd w)).
Proof.
  unfold fullWrite. etransitivity; [|apply steps_markerUpdate].
  cbn [store emit withStore].
  eapply rtc_r; [|apply step_SaveDevice].
  match goal with |- steps _ (store (match ?g with Some _ => _ | None => ?w2 end)) =>
    assert (H2 : steps (store w) (store w2)) by
      (destruct (1 <? intAt _ _); cbn [store emit withMaps Linef]; apply rtc_refl);
    destruct g
  end; [|exact H2].
  destruct (String.eqb _ ""); [exact H2|].
  etransitivity; [exact H2 | apply steps_gpsWrite].
Qed.

Lemma steps_deviceWrite now rd o bd w :
  steps (store w) (store (deviceWrite parse env now rd o bd w)).
Proof.
  unfold deviceWrite. destruct (lastDeviceWrite (maps w) !! o_mac o);
    [destruct (_ <? _); [apply steps_throttledUpdate | apply steps_fullWrite]
    | apply steps_fullWrite].
Qed.

Lemma steps_advertisementWrite now o bd w :
  steps (store w) (store (advertisementWrite env now o bd w)).
Proof.
  unfold advertisementWrite.
  match goal with |- context [if ?c then _ else _] => destruct c end; [|apply rtc_refl].
  cbv zeta. cbn [store emit withStore withMaps].
  match goal with |- context [if ?c then _ else _] => destruct c end;
    cbn [store emit withStore withMaps].
  - eapply rtc_r; [apply rtc_once, step_InsertAdvertisement|].
    apply step_UpdateDeviceLastAdvID.
  - apply rtc_once, step_InsertAdvertisement.
Qed.

Lemma steps_classicWrite now o bd w :
  steps (store w) (store (classicWrite env now o bd w)).
Proof.
  unfold classicWrite. destruct (isClassicLikely bd); [|apply rtc_refl]. cbv zeta.
  cbn [store emit withStore].
  eapply rtc_r; [|apply step_UpsertClassicInfo].
  match goal with |- context [if ?c then _ else _] => destruct c end;
    cbn [store emit withStore withMaps]; [apply rtc_once, step_InsertClassicDiscovery|].
  apply rtc_refl.
Qed.

Lemma store_trySend mac w : store (trySend env mac w) = store w.
Proof. unfold trySend. destruct (_ <? _); reflexivity. Qed.

Lemma steps_connectSchedule now o bd w :
  store (connectSchedule env now o bd w) = store w.
Proof.
  unfold connectSchedule.
  repeat match goal with
         | |- context [if ?c then _ else _] => destruct c; try reflexivity
         end.
  cbv zeta. rewrite store_trySend. reflexivity.
Qed.

Lemma steps_observe now mac0 bd rd w :
  steps (store w) (store (observe parse env now mac0 bd rd w)).
Proof.
  unfold observe. destruct (String.eqb _ ""); [apply rtc_refl|]. cbv zeta.
  rewrite steps_connectSchedule.
  etransitivity; [|apply steps_classicWrite].
  etransitivity; [|apply steps_advertisementWrite].
  etransitivity; [|apply steps_deviceWrite].
  apply steps_sight.
Qed.

Lemma store_drain done w : store (drain done w) = store w.
Proof.
  unfold drain. revert w. induction done as [|m r IH]; intros w; [reflexivity|].
  cbn [fold_left]. rewrite IH. reflexivity.
Qed.

Lemma steps_tick now done snap w :
  steps (store w) (store (tick parse env now done snap w)).
Proof.
  unfold tick. rewrite <- (store_drain done w) at 1.
  generalize (drain done w). clear w.
  induction snap as [|e r IH]; intros w; [apply rtc_refl|].
  cbn [fold_left]. etransitivity; [apply steps_observe | apply IH].
Qed.

(** X18.  A tick of the discovery loop writes only through the store
    facade, so it keeps the integrity of the store and deletes nothing:
    from a consistent store, the store after the tick (any snapshot, any
    completed jobs) is consistent, still holds every keyed row, and its
    history tables are the earlier ones with rows added at the end. *)
Theorem tick_keeps_store (now : Time) (done : list string)
        (snap : list (string * bluezDevice * Readings)) (w : World) :
  storeConsistent (store w) ->
  storeConsistent (store (tick parse env now done snap w)) /\
  storeExtends (store w) (store (tick parse env now done snap w)).
Proof.
  intros Hs. pose proof (steps_tick now done snap w) as H.
  split; [exact (consistent_steps parse _ _ H Hs) | exact (extends_steps parse _ _ H)].
Qed.

End LoopStoreFacts.

Lemma tick_keeps_store_witness :
  storeConsistent (Bluetooth.store worldX) /\
  storeConsistent
    (Bluetooth.store
       (Bluetooth.tick Layout.parseStamp envX timeT0 []
          [(macX, bleDevice "Sensor" (Some "public") (Some (-80)), readingsAt timeT0 stampT0)]
          worldX)) /\
  storeExtends (Bluetooth.store worldX)
    (Bluetooth.store
       (Bluetooth.tick Layout.parseStamp envX timeT0 []
          [(macX, bleDevice "Sensor" (Some "public") (Some (-80)), readingsAt timeT0 stampT0)]
          worldX)).
Proof.
  split; [exact consistent_empty|].
  apply (tick_keeps_store Layout.parseStamp envX timeT0 []
           [(macX, bleDevice "Sensor" (Some "public") (Some (-80)), readingsAt timeT0 stampT0)]
           worldX).
  exact consistent_empty.
Defined.

(** ** What a tick sends to the connect queue *)

Section QueueFacts.
Import Types Bluetooth.
Local Open Scope list_scope.

Variable parse : string -> option Time.
Variable env : Env.

Lemma queuedBy_frame now size w w' :
  queue w' = queue w -> enqueuesOf (trace w') = enqueuesOf (trace w) ->
  Db.gatt_services (store w') = Db.gatt_services (store w) ->
  inFlight (maps w') = inFlight (maps w) ->
  lastConnAttempt (maps w') = lastConnAttempt (maps w) ->
  queuedBy now size w w' [].
Proof.
  intros Q E G I L. unfold queuedBy. rewrite Q, E, G, I, L, !app_nil_r.
  split; [reflexivity|]. split; [reflexivity|]. split; [reflexivity|].
  split; [auto|]. split; [auto|]. split; [apply NoDup_nil_2|].
  split; [intros m []|]. lia.
Qed.

Lemma queuedBy_refl now size w : queuedBy now size w w [].
Proof. apply queuedBy_frame; reflexivity. Qed.

Lemma queuedBy_trans now size w w1 w2 l1 l2 :
  queuedBy now size w w1 l1 -> queuedBy now size w1 w2 l2 ->
  queuedBy now size w w2 (l1 ++ l2).
Proof.
  intros (Q1 & E1 & G1 & I1 & L1 & N1 & M1 & B1) (Q2 & E2 & G2 & I2 & L2 & N2 & M2 & B2).
  unfold queuedBy. rewrite Q2, Q1, E2, E1, G2, G1, !app_assoc.
  split; [reflexivity|]. split; [reflexivity|]. split; [reflexivity|].
  split; [auto|]. split; [auto|].
  split.
  { apply NoDup_app. split; [exact N1|]. split; [|exact N2].
    intros m H1 H2. apply list_elem_of_In in H1, H2.
    destruct (M1 m H1) as (_ & _ & T & _). destruct (M2 m H2) as (_ & F & _).
    congruence. }
  split.
  { intros m H. apply in_app_or in H. destruct H as [H|H].
    - destruct (M1 m H) as (A & B & C & D). auto.
    - destruct (M2 m H) as (A & B & C & D).
      split; [rewrite <- (HasGattServices_view m _ _ G1); exact A|].
      split; [|auto].
      destruct (boolAt (inFlight (maps w)) m) eqn:E; [|reflexivity].
      rewrite (I1 m E) in B. discriminate. }
  rewrite Q2, Q1 in B2. rewrite Q1 in B1. rewrite <- !app_assoc in *. lia.
Qed.

Lemma boolAt_insert_ne (m : gmap string bool) k k' v :
  k <> k' -> boolAt (<[k := v]> m) k' = boolAt m k'.
Proof. intros H. unfold boolAt. rewrite lookup_insert_ne by exact H. reflexivity. Qed.

Lemma boolAt_delete_ne (m : gmap string bool) k k' :
  k <> k' -> boolAt (delete k m) k' = boolAt m k'.
Proof. intros H. unfold boolAt. rewrite lookup_delete_ne by exact H. reflexivity. Qed.

Lemma queuedBy_trySend now mac w :
  boolAt (inFlight (maps w)) mac = false ->
  Db.HasGattServices mac (store w) = false ->
  exists l,
    queuedBy now (ConnectQueueSize (cfg env)) w
      (trySend env mac
         (withMaps (fun l => setInFlight (<[mac := true]> (inFlight l))
                               (setLastConnAttempt (<[mac := now]> (lastConnAttempt l)) l)) w))
      l
    /\ (l = [] \/ l = [mac]).
Proof.
  intros Hi Hg. unfold trySend.
  cbn [queue maps withMaps inFlight lastConnAttempt setInFlight setLastConnAttempt].
  destruct (Z.ltb_spec (Z.of_nat (List.length (queue w))) (ConnectQueueSize (cfg env))) as [Hq|Hq].
  - exists [mac]. split; [|right; reflexivity].
    unfold queuedBy.
    cbn [queue maps store trace emit withQueue withMaps inFlight lastConnAttempt
         setInFlight setLastConnAttempt].
    split; [reflexivity|].
    split; [unfold enqueuesOf; rewrite flat_map_app; reflexivity|].
    split; [reflexivity|].
    split.
    { intros m H. destruct (String.eqb_spec mac m) as [->|Hne].
      - congruence.
      - rewrite boolAt_insert_ne by exact Hne. exact H. }
    split.
    { intros m H. destruct (String.eqb_spec mac m) as [->|Hne].
      - apply lookup_insert_eq.
      - rewrite lookup_insert_ne by exact Hne. exact H. }
    split; [repeat constructor; intros H; inversion H|].
    split.
    { intros m [<-|[]]. split; [exact Hg|]. split; [exact Hi|].
      split; [unfold boolAt; rewrite lookup_insert_eq; reflexivity | apply lookup_insert_eq]. }
    rewrite length_app. cbn [List.length]. lia.
  - exists []. split; [|left; reflexivity].
    unfold queuedBy.
    cbn [queue maps store trace emit withQueue withMaps inFlight lastConnAttempt
         setInFlight setLastConnAttempt].
    rewrite !app_nil_r.
    split; [reflexivity|]. split; [reflexivity|]. split; [reflexivity|].
    split.
    { intros m H. destruct (String.eqb_spec mac m) as [->|Hne].
      - congruence.
      - rewrite boolAt_delete_ne, boolAt_insert_ne by exact Hne. exact H. }
    split.
    { intros m H. destruct (String.eqb_spec mac m) as [->|Hne].
      - apply lookup_insert_eq.
      - rewrite lookup_insert_ne by exact Hne. exact H. }
    split; [constructor|]. split; [intros m []|]. lia.
Qed.

Lemma queuedBy_emit now size e w :
  (forall m, e <> Enqueue m) -> queuedBy now size w (emit e w) [].
Proof.
  intros H. apply queuedBy_frame; try reflexivity.
  cbn [trace emit]. unfold enqueuesOf. rewrite flat_map_app. cbn [flat_map].
  destruct e; try (rewrite !app_nil_r; reflexivity). exfalso. exact (H mac eq_refl).
Qed.

Lemma queuedBy_connectSchedule now o bd w :
  exists l,
    queuedBy now (ConnectQueueSize (cfg env)) w (connectSchedule env now o bd w) l
    /\ (l = [] \/ l = [o_mac o]).
Proof.
  unfold connectSchedule.
  assert (Hsame : exists l, queuedBy now (ConnectQueueSize (cfg env)) w w l
                            /\ (l = [] \/ l = [o_mac o]))
    by (exists []; split; [apply queuedBy_refl | left; reflexivity]).
  destruct (String.eqb (o_devType o) "classic"); [exact Hsame|].
  destruct (match bd_RSSI bd with Some r => _ | None => true end); [exact Hsame|].
  destruct (_ <? 2); [exact Hsame|].
  cbv zeta.
  assert (Hask : queuedBy now (ConnectQueueSize (cfg env)) w
                   (emit (CallHasGattServices (o_mac o)) w) [])
    by (apply queuedBy_emit; intros m; discriminate).
  assert (Hasked : exists l, queuedBy now (ConnectQueueSize (cfg env)) w
                               (emit (CallHasGattServices (o_mac o)) w) l
                             /\ (l = [] \/ l = [o_mac o]))
    by (exists []; split; [exact Hask | left; reflexivity]).
  destruct (Db.HasGattServices (o_mac o) (store (emit _ w))) eqn:Eg; [exact Hasked|].
  destruct (boolAt (inFlight (maps (emit _ w))) (o_mac o)) eqn:Ei; [exact Hasked|].
  destruct (match lastConnAttempt (maps (emit _ w)) !! o_mac o with
            | Some last => _ | None => false end); [exact Hasked|].
  destruct (queuedBy_trySend now (o_mac o) (emit (CallHasGattServices (o_mac o)) w) Ei Eg)
    as (l & Hl & Hc).
  exists l. split; [|exact Hc].
  exact (queuedBy_trans _ _ _ _ _ [] l Hask Hl).
Qed.

Lemma queuedBy_before_gate now mac bd rd w :
  queuedBy now (ConnectQueueSize (cfg env)) w
    (classicWrite env now (buildObs env mac bd rd) bd
       (advertisementWrite env now (buildObs env mac bd rd) bd
          (deviceWrite parse env now rd (buildObs env mac bd rd) bd
             (sight env (buildObs env mac bd rd) bd w)))) [].
Proof.
  destruct (before_gate parse env now mac bd rd w) as (Hv & s & Hs).
  cbv zeta in Hv, Hs.
  apply connectView_components in Hv. destruct Hv as (Q & I & L & G & _).
  apply queuedBy_frame; try assumption. exact (continues_enqueues _ _ _ _ Hs).
Qed.

Lemma queuedBy_observe now mac0 bd rd w :
  exists l,
    queuedBy now (ConnectQueueSize (cfg env)) w (observe parse env now mac0 bd rd w) l
    /\ (l = [] \/ l = [ToUpper (TrimSpace mac0)]).
Proof.
  unfold observe. destruct (String.eqb _ "").
  - exists []. split; [apply queuedBy_refl | left; reflexivity].
  - cbv zeta.
    set (o := buildObs env (ToUpper (TrimSpace mac0)) bd rd).
    set (w3 := classicWrite env now o bd _).
    destruct (queuedBy_connectSchedule now o bd w3) as (l & Hl & Hc).
    exists l. split; [|exact Hc].
    exact (queuedBy_trans _ _ _ _ _ [] l (queuedBy_before_gate now _ bd rd w) Hl).
Qed.

Lemma queuedBy_snapshot now snap w :
  exists l,
    queuedBy now (ConnectQueueSize (cfg env)) w
      (fold_left (fun w e => observe parse env now (fst (fst e)) (snd (fst e)) (snd e) w) snap w)
      l
    /\ forall m, In m l -> exists e, In e snap /\ m = ToUpper (TrimSpace (fst (fst e))).
Proof.
  revert w. induction snap as [|e r IH]; intros w.
  - exists []. split; [apply queuedBy_refl | intros m []].
  - cbn [fold_left].
    destruct (queuedBy_observe now (fst (fst e)) (snd (fst e)) (snd e) w) as (l1 & H1 & C1).
    destruct (IH (observe parse env now (fst (fst e)) (snd (fst e)) (snd e) w))
      as (l2 & H2 & C2).
    exists (l1 ++ l2). split; [exact (queuedBy_trans _ _ _ _ _ _ _ H1 H2)|].
    intros m H. apply in_app_or in H. destruct H as [H|H].
    + exists e. split; [left; reflexivity|].
      destruct C1 as [->| ->]; [destruct H | destruct H as [<-|[]]; reflexivity].
    + destruct (C2 m H) as (e' & He & Hm). exists e'. split; [right; exact He | exact Hm].
Qed.

Lemma drain_frame done w :
  queue (drain done w) = queue w /\ trace (drain done w) = trace w
  /\ lastConnAttempt (maps (drain done w)) = lastConnAttempt (maps w)
  /\ forall m, ~ In m done ->
       boolAt (inFlight (maps (drain done w))) m = boolAt (inFlight (maps w)) m.
Proof.
  unfold drain. revert w. induction done as [|d r IH]; intros w.
  - repeat split; reflexivity.
  - cbn [fold_left]. destruct (IH (withMaps (fun l => setInFlight (delete d (inFlight l)) l) w))
      as (Q & T & L & I).
    rewrite Q, T, L. repeat split; try reflexivity.
    intros m Hm. rewrite I by (intros H; apply Hm; right; exact H).
    cbn [maps withMaps inFlight setInFlight].
    apply boolAt_delete_ne. intros ->. apply Hm. left. reflexivity.
Qed.

(** X19.  What one tick of the discovery loop sends to the connect queue:
    the queue after the tick is the queue before it with the sent MACs added
    at the end; no MAC is sent twice in a tick; a sent MAC is the normalised
    key of a snapshot entry, has no stored GATT services, was not in flight
    (unless its job has just been reported done), and after the tick is
    marked in flight with the tick's time as its last connect attempt. *)
Theorem tick_enqueues (now : Time) (done : list string)
        (snap : list (string * bluezDevice * Readings)) (w : World) :
  let w' := tick parse env now done snap w in
  exists l,
    queue w' = queue w ++ l /\
    enqueuesOf (trace w') = enqueuesOf (trace w) ++ l /\
    NoDup l /\
    forall m, In m l ->
      (exists e, In e snap /\ m = ToUpper (TrimSpace (fst (fst e)))) /\
      Db.HasGattServices m (store w) = false /\
      (boolAt (inFlight (maps w)) m = true -> In m done) /\
      boolAt (inFlight (maps w')) m = true /\
      lastConnAttempt (maps w') !! m = Some now.
Proof.
  intros w'. subst w'. unfold tick.
  destruct (queuedBy_snapshot now snap (drain done w))
    as (l & (Q & E & G & _ & _ & N & M & _) & C).
  destruct (drain_frame done w) as (Qd & Td & _ & Id).
  exists l. rewrite Q, E, Qd, Td.
  split; [reflexivity|]. split; [reflexivity|]. split; [exact N|].
  intros m H. destruct (M m H) as (A & B & T & D).
  split; [exact (C m H)|].
  split; [rewrite store_drain in A; exact A|].
  split; [|auto].
  intros Hin. destruct (in_dec string_dec m done) as [Hd|Hd]; [exact Hd|].
  rewrite (Id m Hd) in B. congruence.
Qed.

(** X20.  The discovery loop never overfills the connect queue: after a
    tick the queue is no longer than the larger of its length before the
    tick and the configured queue size. *)
Theorem tick_queue_bound (now : Time) (done : list string)
        (snap : list (string * bluezDevice * Readings)) (w : World) :
  Z.of_nat (List.length (queue (tick parse env now done snap w)))
  <= Z.max (Z.of_nat (List.length (queue w))) (ConnectQueueSize (cfg env)).
Proof.
  unfold tick.
  destruct (queuedBy_snapshot now snap (drain done w))
    as (l & (_ & _ & _ & _ & _ & _ & _ & B) & _).
  destruct (drain_frame done w) as (Qd & _). rewrite Qd in B. exact B.
Qed.

End QueueFacts.

(** ** The GATT dump of the connect worker *)

Section GattFacts.
Import Types GoText Gatt.
Local Open Scope list_scope.

Variable jsonOfStrings : list string -> option string.
Variable readCharacteristic : nat -> string -> list Z + string.
Variable readDescriptor : nat -> string -> list Z + string.
Variable managed : Managed.
Variable resolver : option Ids.Resolver.
Variable mac : string.
Variable now : string.

Local Abbreviation dDesc := (dumpDescriptor jsonOfStrings readDescriptor mac now).
Local Abbreviation dChar :=
  (dumpCharacteristic jsonOfStrings readCharacteristic readDescriptor managed resolver mac now).
Local Abbreviation dSvc :=
  (dumpService jsonOfStrings readCharacteristic readDescriptor managed resolver mac now).

Lemma characteristicReads_app a b :
  characteristicReads (a ++ b) = characteristicReads a + characteristicReads b.
Proof. unfold characteristicReads. rewrite List.filter_app, length_app. lia. Qed.

Lemma continuesDump_refl st : continuesDump st st.
Proof.
  split; [exists []; rewrite app_nil_r; reflexivity|].
  split; [exists []; rewrite app_nil_r; split; [reflexivity | unfold characteristicReads; cbn; lia]|].
  split; auto.
Qed.

Lemma continuesDump_trans a b c :
  continuesDump a b -> continuesDump b c -> continuesDump a c.
Proof.
  intros ((l1 & L1) & (c1 & C1 & R1) & B1 & S1) ((l2 & L2) & (c2 & C2 & R2) & B2 & S2).
  split; [exists (l1 ++ l2); rewrite L2, L1, app_assoc; reflexivity|].
  split; [|split; auto].
  exists (c1 ++ c2). rewrite C2, C1, R2, R1, characteristicReads_app, app_assoc.
  split; [reflexivity | lia].
Qed.

Lemma continuesDump_addLines l st : continuesDump st (addLines l st).
Proof.
  split; [exists l; reflexivity|].
  split; [exists []; cbn; rewrite app_nil_r; split; [reflexivity | unfold characteristicReads; cbn; lia]|].
  split; auto.
Qed.

Lemma continuesDump_onStore f st : continuesDump st (onStore f st).
Proof.
  split; [exists []; cbn; rewrite app_nil_r; reflexivity|].
  split; [exists []; cbn; rewrite app_nil_r; split; [reflexivity | unfold characteristicReads; cbn; lia]|].
  split; [auto|]. cbn. intros [x E]. rewrite E. eauto.
Qed.

Lemma continuesDump_descriptorCall p st :
  continuesDump st (addCall (ReadDescriptorValue p) st).
Proof.
  split; [exists []; cbn; rewrite app_nil_r; reflexivity|].
  split; [exists [ReadDescriptorValue p]; cbn; split; [reflexivity | unfold characteristicReads; cbn; lia]|].
  split; auto.
Qed.

Lemma continuesDump_characteristicCall p st :
  readCount st < maxCharsToRead ->
  continuesDump st (addCall (ReadCharacteristicValue p) (countRead st)).
Proof.
  intros H.
  split; [exists []; cbn; rewrite app_nil_r; reflexivity|].
  split; [exists [ReadCharacteristicValue p]; cbn; split; [reflexivity | unfold characteristicReads; cbn; lia]|].
  split; [cbn; lia | auto].
Qed.

Lemma continuesDump_fold {A} (f : Dump -> A -> Dump) (l : list A) st :
  (forall st x, continuesDump st (f st x)) -> continuesDump st (fold_left f l st).
Proof.
  intros H. revert st. induction l as [|x r IH]; intros st; [apply continuesDump_refl|].
  cbn [fold_left]. eapply continuesDump_trans; [apply H | apply IH].
Qed.

Ltac dump_chain :=
  cbv beta iota zeta;
  repeat (eapply continuesDump_trans;
          [|first [ apply continuesDump_addLines | apply continuesDump_onStore
                  | apply continuesDump_descriptorCall ]]);
  try apply continuesDump_refl.

Lemma continuesDump_dumpDescriptor s c st d : continuesDump st (dDesc s c st d).
Proof.
  unfold dumpDescriptor.
  destruct (hasFlag (d_flags d) "read").
  - destruct (readDescriptor _ _) as [v|e].
    + destruct (negb (String.eqb (asciiIfPrintable v) "")); dump_chain.
    + dump_chain.
  - dump_chain.
Qed.

Ltac char_chain :=
  cbv beta iota;
  eapply continuesDump_trans; [|apply continuesDump_addLines];
  eapply continuesDump_trans;
    [|apply continuesDump_fold; intros; apply continuesDump_dumpDescriptor];
  repeat (eapply continuesDump_trans;
          [|first [ apply continuesDump_addLines | apply continuesDump_onStore ]]).

Lemma continuesDump_dumpCharacteristic s st c : continuesDump st (dChar s st c).
Proof.
  unfold dumpCharacteristic. cbv zeta.
  set (st1 := addLines _ st).
  assert (H1 : continuesDump st st1) by apply continuesDump_addLines.
  destruct (Z.ltb_spec (readCount st1) maxCharsToRead) as [Hlt|Hge]; cbn [andb].
  - destruct (hasFlag (c_flags c) "read").
    + assert (H2 : continuesDump st (addCall (ReadCharacteristicValue (c_path c))
                                       (countRead st1)))
        by (eapply continuesDump_trans;
            [exact H1 | apply continuesDump_characteristicCall; exact Hlt]).
      destruct (readCharacteristic _ _) as [v|e].
      * destruct (negb (String.eqb (asciiIfPrintable v) "")); char_chain; exact H2.
      * char_chain; exact H2.
    + destruct (maxCharsToRead <=? readCount st1); cbn [andb]; char_chain;
      first [exact H1 | apply continuesDump_refl].
  - destruct (maxCharsToRead <=? readCount st1); cbn [andb];
      destruct (hasFlag (c_flags c) "read"); char_chain;
      first [exact H1 | apply continuesDump_refl].
Qed.

Lemma continuesDump_dumpService st s : continuesDump st (dSvc st s).
Proof.
  unfold dumpService.
  eapply continuesDump_trans; [apply continuesDump_addLines|].
  apply continuesDump_fold. intros. apply continuesDump_dumpCharacteristic.
Qed.

(** *** The read limit and the text *)

Lemma continuesDump_services l st : continuesDump st (fold_left dSvc l st).
Proof. apply continuesDump_fold. intros. apply continuesDump_dumpService. Qed.

Lemma prefix_append (p s : string) : String.prefix p (p ++ s) = true.
Proof.
  induction p as [|a p IH]; [apply prefix_nil|].
  change (String a p ++ s)%string with (String a (p ++ s)%string).
  rewrite prefix_cons, Ascii.eqb_refl. exact IH.
Qed.

Lemma Join_cons (a : string) (l : list string) (sep : string) :
  exists t, Join (a :: l) sep = (a ++ t)%string.
Proof.
  destruct l as [|b r].
  - exists EmptyString. cbn [Join]. clear. induction a as [|c a IH]; [reflexivity|].
    change (String c a ++ "")%string with (String c (a ++ "")%string). rewrite <- IH.
    reflexivity.
  - exists (sep ++ Join (b :: r) sep)%string. reflexivity.
Qed.

Lemma append_assoc (a b c : string) : ((a ++ b) ++ c = a ++ (b ++ c))%string.
Proof.
  induction a as [|x a IH]; [reflexivity|].
  change (((String x a ++ b) ++ c)%string) with (String x ((a ++ b) ++ c)%string).
  rewrite IH. reflexivity.
Qed.

End GattFacts.

Section DumpFacts.
Import Types GoText Gatt.
Local Open Scope list_scope.

Variable jsonOfStrings : list string -> option string.
Variable readCharacteristic : nat -> string -> list Z + string.
Variable readDescriptor : nat -> string -> list Z + string.

Lemma DumpAndStoreGATT_success managedResult now adapterID devPath mac store resolver :
  derr (DumpAndStoreGATT jsonOfStrings readCharacteristic readDescriptor managedResult now
          adapterID devPath mac store resolver) = None ->
  HasPrefix (servicesText (DumpAndStoreGATT jsonOfStrings readCharacteristic readDescriptor
                             managedResult now adapterID devPath mac store resolver))
            "Service: " = true.
Proof.
  unfold DumpAndStoreGATT. destruct managedResult as [managed|e]; [|discriminate].
  destruct (collectServices managed (devPath ++ "/")) as [|s1 rest]; [discriminate|].
  intros _. cbn [servicesText fold_left].
  set (st0 := {| lines := []; readCount := 0; calls := []; dstore := store |}).
  assert (H : continuesDump
                (addLines ["Service: " ++ match resolver with
                                          | Some r => Ids.AnnotateServiceUUID (Some r) (s_uuid s1)
                                          | None => s_uuid s1
                                          end]%string st0)
                (fold_left (dumpService jsonOfStrings readCharacteristic readDescriptor
                              managed resolver mac now) rest
                   (dumpService jsonOfStrings readCharacteristic readDescriptor
                      managed resolver mac now st0 s1))).
  { eapply continuesDump_trans; [|apply continuesDump_services].
    unfold dumpService. apply continuesDump_fold. intros.
    apply continuesDump_dumpCharacteristic. }
  destruct H as ((l & L) & _). rewrite L. cbn [lines addLines st0 app].
  destruct (Join_cons ("Service: " ++ match resolver with
                                      | Some r => Ids.AnnotateServiceUUID (Some r) (s_uuid s1)
                                      | None => s_uuid s1
                                      end)%string l newline) as (t & ->).
  rewrite append_assoc. unfold HasPrefix. apply prefix_append.
Qed.

(** X21.  The dump never reads more than 40 characteristic values from a
    device, whatever objects the bus shows and whatever the reads return. *)
Theorem DumpAndStoreGATT_read_limit managedResult now adapterID devPath mac store resolver :
  characteristicReads
    (dcalls (DumpAndStoreGATT jsonOfStrings readCharacteristic readDescriptor managedResult
               now adapterID devPath mac store resolver)) <= 40.
Proof.
  unfold DumpAndStoreGATT. destruct managedResult as [managed|e];
    [|unfold characteristicReads; cbn; lia].
  destruct (collectServices managed (devPath ++ "/")) as [|s1 rest] eqn:E;
    [unfold characteristicReads; cbn; lia|].
  cbn [dcalls].
  destruct (continuesDump_services jsonOfStrings readCharacteristic readDescriptor managed
              resolver mac now (s1 :: rest)
              {| lines := []; readCount := 0; calls := []; dstore := store |})
    as (_ & (c & C & R) & B & _).
  cbn [calls readCount app] in C, R, B. rewrite C.
  unfold maxCharsToRead in B. lia.
Qed.

End DumpFacts.

(** *** What the dump stores *)

Section DumpStoreFacts.
Import Types GoText Gatt.
Local Open Scope list_scope.

Variable jsonOfStrings : list string -> option string.
Variable readCharacteristic : nat -> string -> list Z + string.
Variable readDescriptor : nat -> string -> list Z + string.
Variable managed : Managed.
Variable resolver : option Ids.Resolver.
Variable mac : string.
Variable now : string.

Local Abbreviation dDesc := (dumpDescriptor jsonOfStrings readDescriptor mac now).
Local Abbreviation dChar :=
  (dumpCharacteristic jsonOfStrings readCharacteristic readDescriptor managed resolver mac now).
Local Abbreviation dSvc :=
  (dumpService jsonOfStrings readCharacteristic readDescriptor managed resolver mac now).
Local Abbreviation macN := (Db.normalizeMAC mac).
Local Abbreviation writes := (dumpWrites now macN).

Lemma withGattCharacteristics_same (s : Db.Store) :
  s = Db.withGattCharacteristics (Db.gatt_characteristics s) s.
Proof. destruct s; reflexivity. Qed.

Lemma writes_refl s : writes s s.
Proof.
  split.
  - destruct s as [fs|]; [|exact I].
    split; [exists (Db.gatt_characteristics (base fs)); apply withGattCharacteristics_same|].
    repeat split; reflexivity.
  - split; auto.
Qed.

Lemma writes_trans a b c : writes a b -> writes b c -> writes a c.
Proof.
  intros (F1 & K1 & K1') (F2 & K2 & K2'). split; [|split; auto].
  destruct a as [fa|], b as [fb|], c as [fc|]; try contradiction; try exact I.
  destruct F1 as ((g1 & B1) & H1 & C1 & D1), F2 as ((g2 & B2) & H2 & C2 & D2).
  split; [exists g2; rewrite B2, B1; reflexivity|].
  split; [congruence|].
  split; intros k Hk; [rewrite C2, C1 | rewrite D2, D1]; auto.
Qed.

Lemma writes_descriptor (p : GattDescriptorParams) fs :
  Db.normalizeMAC (dp_MAC p) = macN -> dp_LastReadAt p = now ->
  writes (Some fs) (Some (UpsertGattDescriptor p fs)).
Proof.
  intros Hm Hn. unfold UpsertGattDescriptor. rewrite Hm, Hn.
  destruct (_ || _); [apply writes_refl|].
  split.
  - cbn [gattFrame base gatt_descriptors gatt_services_history].
    split; [exists (Db.gatt_characteristics (base fs)); apply withGattCharacteristics_same|].
    split; [reflexivity|]. split; [reflexivity|].
    intros k Hk. apply lookup_insert_ne. intros <-. apply Hk. reflexivity.
  - split.
    + intros key (f & row & E & L & T). injection E as <-.
      eexists _, row. split; [reflexivity|]. split; assumption.
    + intros key (f & row & E & L & T). injection E as <-.
      set (k := (macN, _, _, _)).
      destruct (decide (k = key)) as [<-|Hne].
      * eexists _, _. split; [reflexivity|]. cbn [gatt_descriptors].
        split; [apply lookup_insert_eq|]. rewrite L. reflexivity.
      * eexists _, row. split; [reflexivity|]. cbn [gatt_descriptors].
        split; [rewrite lookup_insert_ne by exact Hne; exact L | exact T].
Qed.

Lemma writes_characteristic (p : Db.GattCharacteristicParams) fs :
  Db.normalizeMAC (Db.gp_MAC p) = macN -> Db.gp_LastReadAt p = now ->
  writes (Some fs) (Some (withBase (Db.UpsertGattCharacteristic p) fs)).
Proof.
  intros Hm Hn. unfold Db.UpsertGattCharacteristic, withBase. rewrite Hm, Hn.
  destruct (_ || _).
  { destruct fs; apply writes_refl. }
  set (k := (macN, _, _)). set (row := match _ with Some _ => _ | None => _ end).
  assert (Hrow : Db.gc_last_read_at row = Some now)
    by (subst row; destruct (Db.gatt_characteristics (base fs) !! k); reflexivity).
  split.
  - cbn [gattFrame base gatt_descriptors gatt_services_history Db.gatt_characteristics
         Db.withGattCharacteristics].
    split; [eexists; reflexivity|].
    split; [reflexivity|]. split; [|reflexivity].
    intros k' Hk. apply lookup_insert_ne. intros <-. apply Hk. reflexivity.
  - split.
    + intros key (f & r & E & L & T). injection E as <-.
      destruct (decide (k = key)) as [<-|Hne].
      * eexists _, row. split; [reflexivity|].
        cbn [base Db.gatt_characteristics Db.withGattCharacteristics].
        split; [apply lookup_insert_eq | exact Hrow].
      * eexists _, r. split; [reflexivity|].
        cbn [base Db.gatt_characteristics Db.withGattCharacteristics].
        split; [rewrite lookup_insert_ne by exact Hne; exact L | exact T].
    + intros key (f & r & E & L & T). injection E as <-.
      eexists _, r. split; [reflexivity|]. split; assumption.
Qed.

Lemma writes_onStore f st st2 :
  dstore st2 = dstore st ->
  (forall fs, writes (Some fs) (Some (f fs))) ->
  writes (dstore st) (dstore (onStore f st2)).
Proof.
  intros E H. cbn [dstore onStore]. rewrite E.
  destruct (dstore st); [apply H | apply writes_refl].
Qed.

Lemma writes_fold {A} (f : Dump -> A -> Dump) (l : list A) st :
  (forall st x, writes (dstore st) (dstore (f st x))) ->
  writes (dstore st) (dstore (fold_left f l st)).
Proof.
  intros H. revert st. induction l as [|x r IH]; intros st; [apply writes_refl|].
  cbn [fold_left]. eapply writes_trans; [apply H | apply IH].
Qed.

Lemma writes_dumpDescriptor s c st d : writes (dstore st) (dstore (dDesc s c st d)).
Proof.
  unfold dumpDescriptor.
  destruct (hasFlag (d_flags d) "read").
  - destruct (readDescriptor _ _) as [v|e].
    + destruct (negb (String.eqb (asciiIfPrintable v) "")); cbv beta iota zeta;
        (apply writes_onStore; [reflexivity|]); intros; apply writes_descriptor; reflexivity.
    + cbv beta iota zeta.
      (apply writes_onStore; [reflexivity|]); intros; apply writes_descriptor; reflexivity.
  - cbv beta iota zeta.
    (apply writes_onStore; [reflexivity|]); intros; apply writes_descriptor; reflexivity.
Qed.

Lemma dumpDescriptor_store s c st d :
  exists p,
    dstore (dDesc s c st d)
    = match dstore st with Some fs => Some (UpsertGattDescriptor p fs) | None => None end /\
    dp_MAC p = mac /\ dp_ServiceUUID p = s_uuid s /\ dp_CharUUID p = c_uuid c /\
    dp_DescUUID p = d_uuid d /\ dp_LastReadAt p = now.
Proof.
  unfold dumpDescriptor.
  destruct (hasFlag (d_flags d) "read").
  - destruct (readDescriptor _ _) as [v|e].
    + destruct (negb (String.eqb (asciiIfPrintable v) "")); cbv beta iota zeta;
        eexists; do 5 (split; [reflexivity|]); reflexivity.
    + cbv beta iota zeta. eexists; do 5 (split; [reflexivity|]); reflexivity.
  - cbv beta iota zeta. eexists; do 5 (split; [reflexivity|]); reflexivity.
Qed.

Lemma dumpCharacteristic_store s st c :
  exists p st3,
    dstore (dChar s st c)
    = dstore (fold_left (dDesc s c) (collectDescriptors managed c) st3) /\
    dstore st3
    = match dstore st with
      | Some fs => Some (withBase (Db.UpsertGattCharacteristic p) fs)
      | None => None
      end /\
    Db.gp_MAC p = mac /\ Db.gp_ServiceUUID p = s_uuid s /\ Db.gp_CharUUID p = c_uuid c /\
    Db.gp_LastReadAt p = now.
Proof.
  unfold dumpCharacteristic. cbv zeta.
  set (st1 := addLines _ st).
  destruct ((readCount st1 <? maxCharsToRead) && hasFlag (c_flags c) "read").
  - destruct (readCharacteristic _ _) as [v|e].
    + destruct (negb (String.eqb (asciiIfPrintable v) "")); cbv beta iota;
        eexists _, _; (split; [cbn [dstore addLines]; reflexivity|]); do 4 (split; [reflexivity|]); reflexivity.
    + cbv beta iota. eexists _, _; (split; [cbn [dstore addLines]; reflexivity|]); do 4 (split; [reflexivity|]); reflexivity.
  - destruct ((maxCharsToRead <=? readCount st1) && hasFlag (c_flags c) "read");
      cbv beta iota; eexists _, _; (split; [cbn [dstore addLines]; reflexivity|]); do 4 (split; [reflexivity|]); reflexivity.
Qed.

Lemma writes_dumpCharacteristic s st c : writes (dstore st) (dstore (dChar s st c)).
Proof.
  destruct (dumpCharacteristic_store s st c) as (p & st3 & -> & E3 & Hm & _ & _ & Hn).
  eapply writes_trans; [|apply writes_fold; intros; apply writes_dumpDescriptor].
  rewrite E3. destruct (dstore st); [|apply writes_refl].
  apply writes_characteristic; [rewrite Hm; reflexivity | exact Hn].
Qed.

Lemma writes_dumpService st s : writes (dstore st) (dstore (dSvc st s)).
Proof.
  unfold dumpService.
  apply (writes_trans _ (dstore (addLines ["Service: " ++ match resolver with
                          | Some r => Ids.AnnotateServiceUUID (Some r) (s_uuid s)
                          | None => s_uuid s
                          end]%string st))); [apply writes_refl|].
  apply writes_fold. intros. apply writes_dumpCharacteristic.
Qed.

Lemma writes_is_Some s s' : writes s s' -> is_Some s -> is_Some s'.
Proof.
  intros (F & _) [fs ->]. destruct s' as [fs'|]; [eauto | contradiction].
Qed.

Lemma fold_stored {A} (f : Dump -> A -> Dump) (P : A -> option FullStore -> Prop)
      (l : list A) st :
  is_Some (dstore st) ->
  (forall st x, writes (dstore st) (dstore (f st x))) ->
  (forall st x, In x l -> is_Some (dstore st) -> P x (dstore (f st x))) ->
  (forall x s s', writes s s' -> P x s -> P x s') ->
  forall x, In x l -> P x (dstore (fold_left f l st)).
Proof.
  intros Hs Hw He Hk. revert st Hs. induction l as [|y r IH]; intros st Hs x Hx; [destruct Hx|].
  cbn [fold_left]. destruct Hx as [<-|Hx].
  - apply (Hk y (dstore (f st y))); [apply writes_fold; exact Hw|].
    apply He; [left; reflexivity | exact Hs].
  - apply IH.
    + intros st' x' Hin. apply He. right. exact Hin.
    + exact (writes_is_Some _ _ (Hw st y) Hs).
    + exact Hx.
Qed.

(** *** What is collected *)

Lemma In_insertByPath {A} (path : A -> string) (x y : A) (l : list A) :
  In y (insertByPath path x l) <-> y = x \/ In y l.
Proof.
  induction l as [|z r IH]; cbn [insertByPath In].
  - split; [intros [<-|[]]; auto | intros [->|[]]; auto].
  - destruct (String.ltb (path x) (path z)); cbn [In]; [|rewrite IH];
      intuition congruence.
Qed.

Lemma In_sortByPath {A} (path : A -> string) (l : list A) (y : A) :
  In y (sortByPath path l) <-> In y l.
Proof.
  unfold sortByPath. induction l as [|x r IH]; cbn [fold_right In]; [tauto|].
  rewrite In_insertByPath, IH. intuition congruence.
Qed.

Lemma collectServices_valid devPrefix s :
  In s (collectServices managed devPrefix) ->
  TrimSpace (s_uuid s) = s_uuid s /\ s_uuid s <> "".
Proof.
  unfold collectServices. rewrite In_sortByPath, <- list_elem_of_In, list_elem_of_omap.
  intros (e & _ & H).
  destruct (negb _); [discriminate|].
  destruct (snd e !! _) as [svc|]; [|discriminate].
  destruct (String.eqb_spec (TrimSpace (fst (getString svc "UUID"))) "") as [|Hne];
    [discriminate|].
  injection H as <-. cbn [s_uuid]. split; [apply TrimSpace_idem | exact Hne].
Qed.

Lemma collectCharacteristics_valid s c :
  In c (collectCharacteristics managed s) ->
  TrimSpace (c_uuid c) = c_uuid c /\ c_uuid c <> "".
Proof.
  unfold collectCharacteristics. rewrite In_sortByPath, <- list_elem_of_In, list_elem_of_omap.
  intros (e & _ & H).
  destruct (negb _); [discriminate|].
  destruct (snd e !! _) as [ch|]; [|discriminate].
  destruct (String.eqb_spec (TrimSpace (fst (getString ch "UUID"))) "") as [|Hne];
    [discriminate|].
  injection H as <-. cbn [c_uuid]. split; [apply TrimSpace_idem | exact Hne].
Qed.

Lemma collectDescriptors_valid c d :
  In d (collectDescriptors managed c) ->
  TrimSpace (d_uuid d) = d_uuid d /\ d_uuid d <> "".
Proof.
  unfold collectDescriptors. rewrite In_sortByPath, <- list_elem_of_In, list_elem_of_omap.
  intros (e & _ & H).
  destruct (negb _); [discriminate|].
  destruct (snd e !! _) as [di|]; [|discriminate].
  destruct (String.eqb_spec (TrimSpace (fst (getString di "UUID"))) "") as [|Hne];
    [discriminate|].
  injection H as <-. cbn [d_uuid]. split; [apply TrimSpace_idem | exact Hne].
Qed.

(** *** The rows of what is collected *)

Hypothesis mac_normal : Db.normalizeMAC mac = mac.
Hypothesis mac_set : mac <> "".

Lemma stored_descriptor s c d st :
  TrimSpace (s_uuid s) = s_uuid s -> s_uuid s <> "" ->
  TrimSpace (c_uuid c) = c_uuid c -> c_uuid c <> "" ->
  TrimSpace (d_uuid d) = d_uuid d -> d_uuid d <> "" ->
  is_Some (dstore st) ->
  descriptorStored now (mac, s_uuid s, c_uuid c, d_uuid d) (dstore (dDesc s c st d)).
Proof.
  intros Ts Ns Tc Nc Td Nd [fs Hs].
  destruct (dumpDescriptor_store s c st d) as (p & -> & Hm & Hsu & Hcu & Hdu & Hn).
  rewrite Hs. unfold UpsertGattDescriptor.
  rewrite Hm, Hsu, Hcu, Hdu, Hn, mac_normal, Ts, Tc, Td.
  rewrite (eqb_false_of_neq _ _ mac_set), (eqb_false_of_neq _ _ Ns),
    (eqb_false_of_neq _ _ Nc), (eqb_false_of_neq _ _ Nd).
  cbn [orb]. eexists _, _. split; [reflexivity|]. cbn [gatt_descriptors].
  split; [apply lookup_insert_eq|].
  destruct (gatt_descriptors fs !! _); reflexivity.
Qed.

Lemma stored_characteristic s c st :
  TrimSpace (s_uuid s) = s_uuid s -> s_uuid s <> "" ->
  In c (collectCharacteristics managed s) ->
  is_Some (dstore st) ->
  characteristicStored now (mac, s_uuid s, c_uuid c) (dstore (dChar s st c)) /\
  forall d, In d (collectDescriptors managed c) ->
    descriptorStored now (mac, s_uuid s, c_uuid c, d_uuid d) (dstore (dChar s st c)).
Proof.
  intros Ts Ns Hc [fs Hs].
  destruct (collectCharacteristics_valid s c Hc) as (Tc & Nc).
  destruct (dumpCharacteristic_store s st c) as (p & st3 & -> & E3 & Hm & Hsu & Hcu & Hn).
  rewrite Hs in E3.
  assert (H3 : characteristicStored now (mac, s_uuid s, c_uuid c) (dstore st3)).
  { rewrite E3. unfold Db.UpsertGattCharacteristic, withBase.
    rewrite Hm, Hsu, Hcu, Hn, mac_normal, Ts, Tc.
    rewrite (eqb_false_of_neq _ _ mac_set), (eqb_false_of_neq _ _ Ns),
      (eqb_false_of_neq _ _ Nc).
    cbn [orb]. eexists _, _. split; [reflexivity|].
    cbn [base Db.gatt_characteristics Db.withGattCharacteristics].
    split; [apply lookup_insert_eq|].
    destruct (Db.gatt_characteristics (base fs) !! _); reflexivity. }
  split.
  - assert (W : writes (dstore st3)
                  (dstore (fold_left (dDesc s c) (collectDescriptors managed c) st3)))
      by (apply writes_fold; intros; apply writes_dumpDescriptor).
    exact (proj1 (proj2 W) _ H3).
  - apply (fold_stored (dDesc s c)
             (fun d x => descriptorStored now (mac, s_uuid s, c_uuid c, d_uuid d) x)).
    + rewrite E3. eauto.
    + intros. apply writes_dumpDescriptor.
    + intros st' d Hd Hs'. destruct (collectDescriptors_valid c d Hd) as (Td & Nd).
      apply stored_descriptor; assumption.
    + intros d x x' W. exact (proj2 (proj2 W) _).
Qed.

Lemma stored_service s st :
  TrimSpace (s_uuid s) = s_uuid s -> s_uuid s <> "" ->
  is_Some (dstore st) ->
  forall c, In c (collectCharacteristics managed s) ->
    characteristicStored now (mac, s_uuid s, c_uuid c) (dstore (dSvc st s)) /\
    forall d, In d (collectDescriptors managed c) ->
      descriptorStored now (mac, s_uuid s, c_uuid c, d_uuid d) (dstore (dSvc st s)).
Proof.
  intros Ts Ns Hs. unfold dumpService.
  apply (fold_stored (dChar s)
           (fun c x => characteristicStored now (mac, s_uuid s, c_uuid c) x /\
                       forall d, In d (collectDescriptors managed c) ->
                         descriptorStored now (mac, s_uuid s, c_uuid c, d_uuid d) x)).
  - exact Hs.
  - intros. apply writes_dumpCharacteristic.
  - intros st' c Hc Hs'. apply stored_characteristic; assumption.
  - intros c x x' W (H1 & H2). split; [exact (proj1 (proj2 W) _ H1)|].
    intros d Hd. exact (proj2 (proj2 W) _ (H2 d Hd)).
Qed.

Lemma stored_services l st :
  (forall s, In s l -> TrimSpace (s_uuid s) = s_uuid s /\ s_uuid s <> "") ->
  is_Some (dstore st) ->
  forall s, In s l ->
  forall c, In c (collectCharacteristics managed s) ->
    characteristicStored now (mac, s_uuid s, c_uuid c) (dstore (fold_left dSvc l st)) /\
    forall d, In d (collectDescriptors managed c) ->
      descriptorStored now (mac, s_uuid s, c_uuid c, d_uuid d) (dstore (fold_left dSvc l st)).
Proof.
  intros Hv Hs.
  apply (fold_stored dSvc
           (fun s x => forall c, In c (collectCharacteristics managed s) ->
                       characteristicStored now (mac, s_uuid s, c_uuid c) x /\
                       forall d, In d (collectDescriptors managed c) ->
                         descriptorStored now (mac, s_uuid s, c_uuid c, d_uuid d) x)).
  - exact Hs.
  - intros. apply writes_dumpService.
  - intros st' s Hin Hs'. destruct (Hv s Hin) as (Ts & Ns). apply stored_service; assumption.
  - intros s x x' W H c Hc. destruct (H c Hc) as (H1 & H2).
    split; [exact (proj1 (proj2 W) _ H1)|].
    intros d Hd. exact (proj2 (proj2 W) _ (H2 d Hd)).
Qed.

End DumpStoreFacts.

(** *** The dump and the connect as a whole *)

Section ConnectFacts.
Import Types GoText Gatt Bluetooth.
Local Open Scope list_scope.

Variable parse : string -> option Time.
Variable jsonOfStrings : list string -> option string.
Variable readCharacteristic : nat -> string -> list Z + string.
Variable readDescriptor : nat -> string -> list Z + string.

(** X22.  After a dump into a store, for a normalised MAC: every
    characteristic the dump lists under a service of the device has its row
    in [gatt_characteristics], and every descriptor it lists under such a
    characteristic has its row in [gatt_descriptors], each under the MAC and
    the UUIDs of the listing and stamped with the time of the dump. *)
Theorem DumpAndStoreGATT_persists (managed : Managed) (now adapterID devPath mac : string)
        (fs : FullStore) (resolver : option Ids.Resolver) :
  Db.normalizeMAC mac = mac -> mac <> "" ->
  forall s c,
    In s (collectServices managed (devPath ++ "/")) ->
    In c (collectCharacteristics managed s) ->
    characteristicStored now (mac, s_uuid s, c_uuid c)
      (dresult (DumpAndStoreGATT jsonOfStrings readCharacteristic readDescriptor
          (inl managed) now adapterID devPath mac (Some fs) resolver)) /\
    forall d, In d (collectDescriptors managed c) ->
      descriptorStored now (mac, s_uuid s, c_uuid c, d_uuid d)
        (dresult (DumpAndStoreGATT jsonOfStrings readCharacteristic readDescriptor
          (inl managed) now adapterID devPath mac (Some fs) resolver)).
Proof.
  intros Hm Hn s c Hs Hc. unfold DumpAndStoreGATT.
  destruct (collectServices managed (devPath ++ "/")) as [|s1 rest] eqn:E; [destruct Hs|].
  cbn [dresult]. rewrite <- E in *.
  apply (stored_services jsonOfStrings readCharacteristic readDescriptor managed resolver mac
           now Hm Hn (collectServices managed (devPath ++ "/"))
           {| lines := []; readCount := 0; calls := []; dstore := Some fs |}
           (fun s0 H0 => collectServices_valid managed _ s0 H0)
           (ltac:(cbn [dstore]; eauto)) s Hs c Hc).
Qed.

Lemma dump_frame (managedResult : Managed + string)
      (now adapterID devPath mac : string) (store : option FullStore)
      (resolver : option Ids.Resolver) :
  gattFrame (Db.normalizeMAC mac) store
    (dresult (DumpAndStoreGATT jsonOfStrings readCharacteristic readDescriptor
          managedResult now adapterID devPath mac store resolver)).
Proof.
  unfold DumpAndStoreGATT.
  destruct managedResult as [managed|e]; [|apply (writes_refl mac now)].
  destruct (collectServices managed (devPath ++ "/")) as [|s1 rest];
    [apply (writes_refl mac now)|].
  cbn [dresult].
  apply (writes_fold mac now
           (dumpService jsonOfStrings readCharacteristic readDescriptor managed resolver mac now)
           (s1 :: rest) {| lines := []; readCount := 0; calls := []; dstore := store |}).
  intros. apply writes_dumpService.
Qed.

(** X23.  A dump changes nothing in the store but characteristic and
    descriptor rows of its own MAC: the other tables, the rows of the other
    MACs and the services history are as before (and without a store there
    is none afterwards). *)
Theorem DumpAndStoreGATT_frame (managedResult : Managed + string)
        (now adapterID devPath mac : string) (store : option FullStore)
        (resolver : option Ids.Resolver) :
  gattFrame (Db.normalizeMAC mac) store
    (dresult (DumpAndStoreGATT jsonOfStrings readCharacteristic readDescriptor
          managedResult now adapterID devPath mac store resolver)).
Proof. apply dump_frame. Qed.

(** The two ways the call ends. *)
Lemma ConnectAndDumpGATTBlueZ_cases connectErr start polls managedResult dumpNow ts nowStr
      adapterID mac0 store resolver sessionID tag r :
  ConnectAndDumpGATTBlueZ parse jsonOfStrings readCharacteristic readDescriptor
    connectErr start polls managedResult dumpNow ts nowStr adapterID mac0 store
    resolver sessionID tag = Done r ->
  (cerr r <> None /\ cstore r = store /\ cprinted r = []) \/
  (cerr r = None /\ ToUpper (TrimSpace mac0) <> "" /\
   exists d store1,
     d = DumpAndStoreGATT jsonOfStrings readCharacteristic readDescriptor
          managedResult dumpNow adapterID
           (deviceObjectPath adapterID (ToUpper (TrimSpace mac0)))
           (ToUpper (TrimSpace mac0)) (Some store) resolver /\
     derr d = None /\ dresult d = Some store1 /\ ccalls r = dcalls d /\
     cprinted r = [{| label := "[CONNECTED]";
                      msg := (SafeName (devName d) ++ " (" ++ ToUpper (TrimSpace mac0)
                              ++ ") via " ++ adapterID)%string |}] /\
     cstore r =
       withBase (fun s =>
         snd (Db.SaveDevice parse nowStr
                {| Db.SessionID := Some sessionID; Db.DeviceType := Some "ble";
                   Db.Name := Some (SafeName (devName d));
                   Db.MAC := ToUpper (TrimSpace mac0);
                   Db.MACType := None; Db.MACSubType := None; Db.RSSI := None;
                   Db.Timestamp := Some ts; Db.Adapter := Some adapterID;
                   Db.ManufacturerData := None; Db.ManufacturerName := None;
                   Db.ServiceUUIDs := None; Db.ServiceData := None;
                   Db.TxPower := None; Db.PlatformData := None;
                   Db.AdvertisementJSON := None; Db.LastAdvID := None;
                   Db.GPS := None; Db.ServiceList := Some (servicesText d);
                   Db.UpdateExisting := true; Db.Tag := tag;
                   Db.MarkedType := None |} s))
         (InsertGattServicesHistory sessionID (ToUpper (TrimSpace mac0)) (servicesText d) ts
            (withBase (Db.UpdateGattServices (ToUpper (TrimSpace mac0)) (servicesText d))
               store1))).
Proof.
  unfold ConnectAndDumpGATTBlueZ. cbv zeta.
  destruct (String.eqb_spec (ToUpper (TrimSpace mac0)) "") as [|Hne].
  { intros H. injection H as <-. left. cbn. repeat split; discriminate. }
  destruct connectErr as [e|].
  { intros H. injection H as <-. left. cbn. repeat split; discriminate. }
  destruct (waitResolved _ _ _) as [[e|]| |]; try discriminate.
  { intros H. injection H as <-. left. cbn. repeat split; discriminate. }
  set (d := DumpAndStoreGATT _ _ _ _ _ _ _ _ _ _).
  pose proof (dump_frame managedResult dumpNow adapterID
                (deviceObjectPath adapterID (ToUpper (TrimSpace mac0)))
                (ToUpper (TrimSpace mac0)) (Some store) resolver) as F.
  fold d in F.
  destruct (derr d) as [e|] eqn:Ed.
  - intros H. injection H as <-. left. cbn [cerr cstore cprinted].
    split; [discriminate|]. split; [|reflexivity].
    subst d. unfold DumpAndStoreGATT in *.
    destruct managedResult as [managed|e']; [|reflexivity].
    destruct (collectServices _ _); [reflexivity | discriminate].
  - intros H. injection H as <-. right. cbn [cerr cstore cprinted ccalls].
    split; [reflexivity|]. split; [exact Hne|].
    destruct (dresult d) as [store1|] eqn:Er; [|destruct F].
    exists d, store1. repeat split; try reflexivity; assumption.
Qed.

Lemma waitResolved_ends devPath deadline polls :
  Exists (fun p => deadline < p_now p) polls ->
  exists e, waitResolved devPath deadline polls = Done e.
Proof.
  induction 1 as [p rest Hp|p rest _ IH]; cbn [waitResolved].
  - destruct (p_ctxErr p); [eauto|].
    destruct (bluezDeviceServicesResolved _ _) as [resolved ok].
    destruct (ok && resolved); [eauto|].
    destruct (Z.ltb_spec deadline (p_now p)); [eauto | lia].
  - destruct (p_ctxErr p); [eauto|].
    destruct (bluezDeviceServicesResolved _ _) as [resolved ok].
    destruct (ok && resolved); [eauto|].
    destruct (_ <? _); [eauto | exact IH].
Qed.

(** X24.  The connect returns once a round of its wait for the services
    reads a clock past the deadline of 10 s (if not before): with such a
    round among those given, the call ends with a result. *)
Theorem ConnectAndDumpGATTBlueZ_returns connectErr start polls managedResult dumpNow ts nowStr
        adapterID mac0 store resolver sessionID tag :
  Exists (fun p => start + 10 * Second < p_now p) polls ->
  exists r, ConnectAndDumpGATTBlueZ parse jsonOfStrings readCharacteristic readDescriptor
    connectErr start polls managedResult dumpNow ts nowStr adapterID mac0
              store resolver sessionID tag = Done r.
Proof.
  intros H. unfold ConnectAndDumpGATTBlueZ. cbv zeta.
  destruct (String.eqb _ ""); [eauto|].
  destruct connectErr; [eauto|].
  destruct (waitResolved_ends (deviceObjectPath adapterID (ToUpper (TrimSpace mac0)))
              _ _ H) as ([e|] & ->); [eauto|].
  destruct (derr _); eauto.
Qed.

(** X25.  A connect that fails leaves the store as it was and prints
    nothing. *)
Theorem ConnectAndDumpGATTBlueZ_failure connectErr start polls managedResult dumpNow ts nowStr
        adapterID mac0 store resolver sessionID tag r :
  ConnectAndDumpGATTBlueZ parse jsonOfStrings readCharacteristic readDescriptor
    connectErr start polls managedResult dumpNow ts nowStr adapterID mac0 store
    resolver sessionID tag = Done r ->
  cerr r <> None ->
  cstore r = store /\ cprinted r = [].
Proof.
  intros H Hf. destruct (ConnectAndDumpGATTBlueZ_cases _ _ _ _ _ _ _ _ _ _ _ _ _ _ H)
    as [(_ & Hs & Hp)|(Hn & _)]; [auto | contradiction].
Qed.

Lemma prefix_nonempty (text p : string) :
  p <> "" -> HasPrefix text p = true -> String.eqb text "" = false.
Proof.
  intros Hp H. destruct text; [|reflexivity].
  destruct p; [contradiction | discriminate].
Qed.

Lemma SaveDevice_written_row nowStr (p : Db.SaveParams) (s : Db.Store) (old : Db.Device) :
  Db.normalizeMAC (Db.MAC p) <> "" -> Db.UpdateExisting p = true ->
  Db.devices s !! Db.normalizeMAC (Db.MAC p) = Some old ->
  exists d, Db.devices (snd (Db.SaveDevice parse nowStr p s)) !! Db.normalizeMAC (Db.MAC p)
            = Some d /\
            (forall x, Db.ServiceList p = Some x -> Db.service d = Some x) /\
            (forall x, Db.Adapter p = Some x -> Db.adapter d = Some x) /\
            (forall t, Db.Timestamp p = Some t -> Db.timestamp d = Some t).
Proof.
  intros Hne Hu Eo. unfold Db.SaveDevice. rewrite (eqb_false_of_neq _ _ Hne), Hu, Eo.
  eexists. cbn [snd Db.devices Db.withDevices]. split; [apply lookup_insert_eq|].
  cbn [Db.updatedRow Db.service Db.adapter Db.timestamp].
  repeat split; intros x ->; reflexivity.
Qed.

Lemma connect_success connectErr start polls managedResult dumpNow ts nowStr
      adapterID mac0 store resolver sessionID tag r :
  ConnectAndDumpGATTBlueZ parse jsonOfStrings readCharacteristic readDescriptor
    connectErr start polls managedResult dumpNow ts nowStr adapterID mac0 store
    resolver sessionID tag = Done r ->
  cerr r = None ->
  exists text,
    HasPrefix text "Service: " = true /\
    Db.gatt_services (base (cstore r)) !! ToUpper (TrimSpace mac0) = Some (Some text) /\
    gatt_services_history (cstore r) !! (sessionID, ToUpper (TrimSpace mac0))
    = Some {| gh_timestamp := Some ts; gh_service := Some text |} /\
    (Db.devices (base store) !! ToUpper (TrimSpace mac0) <> None ->
     exists d, Db.devices (base (cstore r)) !! ToUpper (TrimSpace mac0) = Some d /\
               Db.service d = Some text /\ Db.adapter d = Some adapterID /\
               Db.timestamp d = Some ts) /\
    (Db.devices (base store) !! ToUpper (TrimSpace mac0) = None ->
     Db.devices (base (cstore r)) !! ToUpper (TrimSpace mac0) = None) /\
    Db.HasGattServices mac0 (base (cstore r)) = true.
Proof.
  intros H Hok. destruct (ConnectAndDumpGATTBlueZ_cases _ _ _ _ _ _ _ _ _ _ _ _ _ _ H)
    as [(Hf & _)|(_ & Hne & d & store1 & Hd & Hderr & Hres & _ & _ & Hst)];
    [contradiction|].
  assert (Hp : HasPrefix (servicesText d) "Service: " = true)
    by (subst d; apply DumpAndStoreGATT_success; exact Hderr).
  set (m := ToUpper (TrimSpace mac0)) in *.
  assert (Hm : Db.normalizeMAC m = m) by apply normalizeMAC_canonical.
  assert (Hg : Db.gatt_services (base (cstore r)) !! m = Some (Some (servicesText d))).
  { rewrite Hst. unfold withBase, InsertGattServicesHistory. rewrite Hm.
    rewrite (eqb_false_of_neq _ _ Hne). cbn [base].
    rewrite gatt_services_SaveDevice. unfold Db.UpdateGattServices. rewrite Hm.
    rewrite (eqb_false_of_neq _ _ Hne). cbn [Db.gatt_services Db.withGattServices].
    apply lookup_insert_eq. }
  exists (servicesText d). split; [exact Hp|]. split; [exact Hg|].
  split.
  { rewrite Hst. unfold withBase, InsertGattServicesHistory. rewrite Hm.
    rewrite (eqb_false_of_neq _ _ Hne). cbn [gatt_services_history].
    apply lookup_insert_eq. }
  assert (Hdev : Db.devices (base store1) = Db.devices (base store)).
  { pose proof (dump_frame managedResult dumpNow adapterID
                  (deviceObjectPath adapterID m) m (Some store) resolver) as Hfr.
    rewrite <- Hd, Hres in Hfr. destruct Hfr as ((g & Hg0) & _). rewrite Hg0. reflexivity. }
  split.
  { intros Hrow0. rewrite Hst. unfold withBase at 1. cbn [base].
    destruct (Db.devices (base store) !! m) as [d0|] eqn:Hd0; [|contradiction].
    match goal with
    | |- context [Db.SaveDevice parse nowStr ?p ?s] =>
        destruct (SaveDevice_written_row nowStr p s d0) as (row & Hrow & Hsv & Had & Hts);
          [cbn [Db.MAC]; rewrite Hm; exact Hne | reflexivity | |]
    end.
    { cbn [Db.MAC]. rewrite Hm. unfold InsertGattServicesHistory. rewrite Hm.
      rewrite (eqb_false_of_neq _ _ Hne). cbn [base withBase].
      unfold Db.UpdateGattServices. rewrite Hm, (eqb_false_of_neq _ _ Hne).
      cbn [Db.devices Db.withGattServices]. rewrite Hdev. exact Hd0. }
    cbn [Db.MAC] in Hrow. rewrite Hm in Hrow.
    exists row. split; [exact Hrow|].
    split; [apply Hsv; reflexivity|]. split; [apply Had | apply Hts]; reflexivity. }
  split.
  { intros Hnone. rewrite Hst. unfold withBase at 1. cbn [base].
    rewrite SaveDevice_norow.
    - unfold InsertGattServicesHistory. rewrite Hm.
      rewrite (eqb_false_of_neq _ _ Hne). cbn [base withBase].
      unfold Db.UpdateGattServices. rewrite Hm, (eqb_false_of_neq _ _ Hne).
      cbn [Db.devices Db.withGattServices]. rewrite Hdev. exact Hnone.
    - cbn [Db.MAC]. rewrite Hm. unfold InsertGattServicesHistory. rewrite Hm.
      rewrite (eqb_false_of_neq _ _ Hne). cbn [base withBase].
      unfold Db.UpdateGattServices. rewrite Hm, (eqb_false_of_neq _ _ Hne).
      cbn [Db.devices Db.withGattServices]. rewrite Hdev. exact Hnone. }
  unfold Db.HasGattServices. fold m. change (Db.normalizeMAC mac0) with m.
  rewrite (eqb_false_of_neq _ _ Hne), Hg.
  rewrite (prefix_nonempty _ "Service: " ltac:(discriminate) Hp). reflexivity.
Qed.

(** X26.  What a successful connect leaves in the store: a listing that
    starts with a service line is the [gatt_services] entry of the
    normalised MAC and the services-history entry of the session and the MAC
    (with the time of the connect); when the device has a row, the listing
    is also the service list of that row, which names the adapter and the
    time of the connect, and a device without a row is left without one
    (the insert of [SaveDevice] is refused); from then on the store reports
    GATT services for the MAC. *)
Theorem ConnectAndDumpGATTBlueZ_success connectErr start polls managedResult dumpNow ts nowStr
        adapterID mac0 store resolver sessionID tag r :
  ConnectAndDumpGATTBlueZ parse jsonOfStrings readCharacteristic readDescriptor
    connectErr start polls managedResult dumpNow ts nowStr adapterID mac0 store
    resolver sessionID tag = Done r ->
  cerr r = None ->
  exists text,
    HasPrefix text "Service: " = true /\
    Db.gatt_services (base (cstore r)) !! ToUpper (TrimSpace mac0) = Some (Some text) /\
    gatt_services_history (cstore r) !! (sessionID, ToUpper (TrimSpace mac0))
    = Some {| gh_timestamp := Some ts; gh_service := Some text |} /\
    (Db.devices (base store) !! ToUpper (TrimSpace mac0) <> None ->
     exists d, Db.devices (base (cstore r)) !! ToUpper (TrimSpace mac0) = Some d /\
               Db.service d = Some text /\ Db.adapter d = Some adapterID /\
               Db.timestamp d = Some ts) /\
    (Db.devices (base store) !! ToUpper (TrimSpace mac0) = None ->
     Db.devices (base (cstore r)) !! ToUpper (TrimSpace mac0) = None) /\
    Db.HasGattServices mac0 (base (cstore r)) = true.
Proof. apply connect_success. Qed.

(** X27.  A device whose connect succeeded is not queued again: in a tick
    of the discovery loop over the store the connect left behind, whatever
    the snapshot, the MAC is not among the MACs sent to the connect queue,
    and the store still reports GATT services for it afterwards. *)
Theorem connected_not_requeued connectErr start polls managedResult dumpNow ts nowStr
        adapterID mac0 store0 resolver sessionID tag r
        (env : Env) (now : Time) (done : list string)
        (snap : list (string * bluezDevice * Readings)) (w : World) :
  ConnectAndDumpGATTBlueZ parse jsonOfStrings readCharacteristic readDescriptor
    connectErr start polls managedResult dumpNow ts nowStr adapterID mac0 store0
    resolver sessionID tag = Done r ->
  cerr r = None ->
  Bluetooth.store w = base (cstore r) ->
  exists l,
    queue (tick parse env now done snap w) = queue w ++ l /\
    ~ In (ToUpper (TrimSpace mac0)) l /\
    Db.HasGattServices mac0 (Bluetooth.store (tick parse env now done snap w)) = true.
Proof.
  intros H Hok Hw.
  destruct (connect_success _ _ _ _ _ _ _ _ _ _ _ _ _ _ H Hok) as (_ & _ & _ & _ & _ & _ & Hg).
  rewrite <- Hw in Hg. unfold tick.
  destruct (queuedBy_snapshot parse env now snap (drain done w))
    as (l & (Q & _ & G & _ & _ & _ & M & _) & _).
  destruct (drain_frame done w) as (Qd & _).
  exists l. rewrite Q, Qd. split; [reflexivity|].
  rewrite store_drain in G, M.
  split.
  - intros Hin. destruct (M _ Hin) as (A & _).
    unfold Db.HasGattServices in A, Hg. rewrite normalizeMAC_canonical in A.
    change (Db.normalizeMAC mac0) with (ToUpper (TrimSpace mac0)) in Hg.
    rewrite Hg in A. discriminate.
  - rewrite (HasGattServices_view mac0 _ _ G). exact Hg.
Qed.

End ConnectFacts.

(** *** The theorems at the device [macX] *)

Lemma resultOf_Done {A} (x : Run A) (d : A) : isDone x = true -> x = Done (resultOf x d).
Proof. destruct x; [reflexivity | discriminate | discriminate]. Qed.

Lemma DumpAndStoreGATT_persists_witness :
  Db.normalizeMAC macX = macX /\ macX <> "" /\
  In svcX (Gatt.collectServices managedX (devPathX ++ "/")) /\
  In chX (Gatt.collectCharacteristics managedX svcX) /\
  characteristicStored stampT0 (macX, Gatt.s_uuid svcX, Gatt.c_uuid chX)
    (Gatt.dresult
       (Gatt.DumpAndStoreGATT (Bluetooth.jsonOfStrings encodersX) readX readX (inl managedX)
          stampT0 "hci0" devPathX macX (Some fullStoreX) None)) /\
  forall d, In d (Gatt.collectDescriptors managedX chX) ->
    descriptorStored stampT0 (macX, Gatt.s_uuid svcX, Gatt.c_uuid chX, Gatt.d_uuid d)
      (Gatt.dresult
         (Gatt.DumpAndStoreGATT (Bluetooth.jsonOfStrings encodersX) readX readX (inl managedX)
            stampT0 "hci0" devPathX macX (Some fullStoreX) None)).
Proof.
  assert (H1 : Db.normalizeMAC macX = macX) by reflexivity.
  assert (H2 : macX <> "") by discriminate.
  assert (H3 : In svcX (Gatt.collectServices managedX (devPathX ++ "/")))
    by (vm_compute; left; reflexivity).
  assert (H4 : In chX (Gatt.collectCharacteristics managedX svcX))
    by (vm_compute; left; reflexivity).
  split; [exact H1|]. split; [exact H2|]. split; [exact H3|]. split; [exact H4|].
  exact (DumpAndStoreGATT_persists (Bluetooth.jsonOfStrings encodersX) readX readX managedX
           stampT0 "hci0" devPathX macX fullStoreX None H1 H2 svcX chX H3 H4).
Defined.

Lemma ConnectAndDumpGATTBlueZ_returns_witness :
  Exists (fun p => timeT0 + 10 * Second < Gatt.p_now p) pollsLateX /\
  exists r,
    Gatt.ConnectAndDumpGATTBlueZ Layout.parseStamp (Bluetooth.jsonOfStrings encodersX)
      readX readX None timeT0 pollsLateX (inl managedX) stampT0 stampT0 stampT0
      "hci0" macX fullStoreX None 1 None = Done r.
Proof.
  assert (H : Exists (fun p => timeT0 + 10 * Second < Gatt.p_now p) pollsLateX)
    by (apply Exists_cons_hd; reflexivity).
  split; [exact H|].
  exact (ConnectAndDumpGATTBlueZ_returns Layout.parseStamp (Bluetooth.jsonOfStrings encodersX)
           readX readX None timeT0 pollsLateX (inl managedX) stampT0 stampT0 stampT0
           "hci0" macX fullStoreX None 1 None H).
Defined.

Lemma ConnectAndDumpGATTBlueZ_failure_witness :
  connectLateX = Done (resultOf connectLateX noResultX) /\
  Gatt.cerr (resultOf connectLateX noResultX) <> None /\
  Gatt.cstore (resultOf connectLateX noResultX) = fullStoreX /\
  Gatt.cprinted (resultOf connectLateX noResultX) = [].
Proof.
  assert (H1 : connectLateX = Done (resultOf connectLateX noResultX))
    by (apply resultOf_Done; vm_compute; reflexivity).
  assert (H2 : Gatt.cerr (resultOf connectLateX noResultX) <> None)
    by (vm_compute; discriminate).
  split; [exact H1|]. split; [exact H2|].
  exact (ConnectAndDumpGATTBlueZ_failure Layout.parseStamp (Bluetooth.jsonOfStrings encodersX)
           readX readX None timeT0 pollsLateX (inl managedX) stampT0 stampT0 stampT0
           "hci0" macX fullStoreX None 1 None (resultOf connectLateX noResultX) H1 H2).
Defined.

Lemma ConnectAndDumpGATTBlueZ_success_witness :
  connectX = Done (resultOf connectX noResultX) /\
  Gatt.cerr (resultOf connectX noResultX) = None /\
  exists text,
    GoText.HasPrefix text "Service: " = true /\
    Db.gatt_services (Gatt.base (Gatt.cstore (resultOf connectX noResultX)))
      !! ToUpper (TrimSpace macX) = Some (Some text) /\
    Gatt.gatt_services_history (Gatt.cstore (resultOf connectX noResultX))
      !! (1, ToUpper (TrimSpace macX))
    = Some {| Gatt.gh_timestamp := Some stampT0; Gatt.gh_service := Some text |} /\
    (exists d, Db.devices (Gatt.base (Gatt.cstore (resultOf connectX noResultX)))
                 !! ToUpper (TrimSpace macX) = Some d /\
               Db.service d = Some text /\ Db.adapter d = Some "hci0"%string /\
               Db.timestamp d = Some stampT0) /\
    Db.HasGattServices macX (Gatt.base (Gatt.cstore (resultOf connectX noResultX))) = true.
Proof.
  assert (H1 : connectX = Done (resultOf connectX noResultX))
    by (apply resultOf_Done; vm_compute; reflexivity).
  assert (H2 : Gatt.cerr (resultOf connectX noResultX) = None)
    by (vm_compute; reflexivity).
  split; [exact H1|]. split; [exact H2|].
  destruct (ConnectAndDumpGATTBlueZ_success Layout.parseStamp (Bluetooth.jsonOfStrings encodersX)
              readX readX None timeT0 pollsResolvedX (inl managedX) stampT0 stampT0 stampT0
              "hci0" macX fullStoreX None 1 None (resultOf connectX noResultX) H1 H2)
    as (text & Hp & Hg & Hh & Hrow & _ & Hhas).
  exists text. split; [exact Hp|]. split; [exact Hg|]. split; [exact Hh|].
  split; [|exact Hhas].
  apply Hrow. vm_compute. discriminate.
Defined.

Lemma connected_not_requeued_witness :
  connectX = Done (resultOf connectX noResultX) /\
  Gatt.cerr (resultOf connectX noResultX) = None /\
  Bluetooth.store worldConnectedX = Gatt.base (Gatt.cstore (resultOf connectX noResultX)) /\
  exists l,
    Bluetooth.queue (Bluetooth.tick Layout.parseStamp envX timeT0 [] snapshotX worldConnectedX)
    = (Bluetooth.queue worldConnectedX ++ l)%list /\
    ~ In (ToUpper (TrimSpace macX)) l /\
    Db.HasGattServices macX
      (Bluetooth.store
         (Bluetooth.tick Layout.parseStamp envX timeT0 [] snapshotX worldConnectedX)) = true.
Proof.
  assert (H1 : connectX = Done (resultOf connectX noResultX))
    by (apply resultOf_Done; vm_compute; reflexivity).
  assert (H2 : Gatt.cerr (resultOf connectX noResultX) = None)
    by (vm_compute; reflexivity).
  split; [exact H1|]. split; [exact H2|]. split; [reflexivity|].
  exact (connected_not_requeued Layout.parseStamp (Bluetooth.jsonOfStrings encodersX)
           readX readX None timeT0 pollsResolvedX (inl managedX) stampT0 stampT0 stampT0
           "hci0" macX fullStoreX None 1 None (resultOf connectX noResultX)
           envX timeT0 [] snapshotX worldConnectedX H1 H2 eq_refl).
Defined.

(** ** Loading the device-type patterns *)

Section PatternFacts.
Import Types Patterns.
Local Open Scope list_scope.

Lemma uptrim_fixed (s : string) :
  ToUpper (TrimSpace (ToUpper (TrimSpace s))) = ToUpper (TrimSpace s).
Proof. rewrite TrimSpace_ToUpper, TrimSpace_idem. apply ToUpper_idem. Qed.

Lemma normalizePattern_idem (p : DeviceTypePattern) :
  normalizePattern (normalizePattern p) = normalizePattern p.
Proof.
  unfold normalizePattern.
  cbn [Name RequireServiceUUID IBeacon Manufacturer5B NameBase645B UUID AppleCompanyID
       Major Minor].
  rewrite lowtrim_fixed, !uptrim_fixed. reflexivity.
Qed.

Lemma indexed_indexFrom (pre r : list DeviceTypePattern) (idx : gmap string nat) :
  indexed (pre, idx) ->
  (forall t, In t r -> Name t <> "" /\ ToLower (TrimSpace (Name t)) = Name t) ->
  NoDup (List.map Name (pre ++ r)) ->
  indexed (pre ++ r, indexFrom (List.length pre) r idx).
Proof.
  revert pre idx. induction r as [|t r IH]; intros pre idx Hi Hn Hd.
  - rewrite app_nil_r. exact Hi.
  - cbn [indexFrom].
    replace (pre ++ t :: r) with ((pre ++ [t]) ++ r) in * by (rewrite <- app_assoc; reflexivity).
    replace (S (List.length pre)) with (List.length (pre ++ [t]))
      by (rewrite length_app; cbn; lia).
    apply IH; [|intros t' H'; apply Hn; right; exact H' | exact Hd].
    destruct Hi as (A & B & C). cbn [fst snd] in *.
    assert (Hfresh : idx !! Name t = None).
    { destruct (idx !! Name t) as [j|] eqn:E; [|reflexivity]. exfalso.
      destruct (A _ _ E) as (t0 & L0 & N0).
      rewrite List.map_app, List.map_app in Hd. cbn [List.map] in Hd.
      apply NoDup_app in Hd. destruct Hd as (Hd & _).
      apply NoDup_app in Hd. destruct Hd as (_ & Hd & _).
      apply (Hd (Name t)); [|left].
      rewrite <- N0. apply list_elem_of_In, in_map, list_elem_of_In.
      eapply list_elem_of_lookup_2. exact L0. }
    split; [|split]; cbn [fst snd].
    + intros n j H. destruct (String.eqb_spec (Name t) n) as [<-|Hne].
      * rewrite lookup_insert_eq in H. injection H as <-.
        exists t. split; [apply list_lookup_middle; reflexivity | reflexivity].
      * rewrite lookup_insert_ne in H by exact Hne.
        destruct (A _ _ H) as (t0 & L0 & N0). exists t0. split; [|exact N0].
        apply lookup_app_l_Some. exact L0.
    + intros j t0 H. apply lookup_snoc_Some in H. destruct H as [(Hlt & H)|(-> & <-)].
      * pose proof (B _ _ H) as E.
        rewrite lookup_insert_ne; [exact E|]. intros Heq. rewrite Heq in Hfresh. congruence.
      * apply lookup_insert_eq.
    + intros t0 H. apply in_app_or in H. destruct H as [H|[<-|[]]];
        [apply C; exact H | apply Hn; left; reflexivity].
Qed.

Lemma indexed_empty : indexed ([], ∅).
Proof.
  split; [|split]; cbn [fst snd].
  - intros n j H. rewrite lookup_empty in H. discriminate.
  - intros j t H. destruct j; discriminate.
  - intros t [].
Qed.

Lemma indexed_NoDup st : indexed st -> NoDup (List.map Name (fst st)).
Proof.
  intros (_ & B & _). apply NoDup_alt. intros i j n Hi Hj.
  change (List.map Name (fst st)) with (Name <$> fst st) in Hi, Hj.
  rewrite list_lookup_fmap in Hi, Hj.
  destruct (fst st !! i) as [ti|] eqn:Ei; [|discriminate].
  destruct (fst st !! j) as [tj|] eqn:Ej; [|discriminate].
  cbn in Hi, Hj. injection Hi as Hi. injection Hj as Hj.
  pose proof (B _ _ Ei) as Bi. pose proof (B _ _ Ej) as Bj.
  rewrite Hi in Bi. rewrite Hj in Bj. congruence.
Qed.

Lemma indexed_start out :
  NoDup (List.map Name out) ->
  (forall t, In t out -> Name t <> "" /\ ToLower (TrimSpace (Name t)) = Name t) ->
  indexed (out, indexFrom 0 out ∅).
Proof.
  intros Hd Hn. exact (indexed_indexFrom [] out ∅ indexed_empty Hn Hd).
Qed.

Lemma patternAt_In st t :
  indexed st -> (In t (fst st) <-> patternAt st (Name t) = Some t).
Proof.
  intros (A & B & _). unfold patternAt. split.
  - intros H. apply list_elem_of_In, list_elem_of_lookup in H. destruct H as (j & H).
    rewrite (B _ _ H). exact H.
  - destruct (snd st !! Name t) as [j|]; [|discriminate].
    intros H. apply list_elem_of_In. eapply list_elem_of_lookup_2. exact H.
Qed.

Lemma mergeOne_indexed st t : indexed st -> indexed (mergeOne st t).
Proof.
  intros (A & B & C). unfold mergeOne.
  destruct (String.eqb_spec (ToLower (TrimSpace (Name t))) "") as [|Hne];
    [split; [|split]; assumption|].
  set (n := ToLower (TrimSpace (Name t))) in *.
  destruct (snd st !! n) as [j|] eqn:E; cbn [fst snd].
  - destruct (A _ _ E) as (old & Lo & No).
    assert (Hj : (j < List.length (fst st))%nat) by (eapply lookup_lt_Some; exact Lo).
    split; [|split]; cbn [fst snd].
    + intros n0 j0 H. destruct (Nat.eq_dec j0 j) as [->|Hj0].
      * exists (setName n t). split; [apply list_lookup_insert_eq; exact Hj|].
        destruct (A _ _ H) as (t0 & L0 & N0). cbn [Name setName]. congruence.
      * destruct (A _ _ H) as (t0 & L0 & N0). exists t0.
        split; [rewrite list_lookup_insert_ne by congruence; exact L0 | exact N0].
    + intros j0 t0 H. destruct (Nat.eq_dec j0 j) as [->|Hj0].
      * rewrite list_lookup_insert_eq in H by exact Hj. injection H as <-. exact E.
      * rewrite list_lookup_insert_ne in H by congruence. apply B. exact H.
    + intros t0 H. apply list_elem_of_In, list_elem_of_lookup in H. destruct H as (j0 & H).
      destruct (Nat.eq_dec j0 j) as [->|Hj0].
      * rewrite list_lookup_insert_eq in H by exact Hj. injection H as <-.
        cbn [Name setName]. split; [exact Hne | apply lowtrim_fixed].
      * rewrite list_lookup_insert_ne in H by congruence. apply C.
        apply list_elem_of_In. eapply list_elem_of_lookup_2. exact H.
  - split; [|split]; cbn [fst snd].
    + intros n0 j0 H. destruct (String.eqb_spec n n0) as [<-|Hn0].
      * rewrite lookup_insert_eq in H. injection H as <-.
        exists (setName n t). split; [apply list_lookup_middle; reflexivity | reflexivity].
      * rewrite lookup_insert_ne in H by exact Hn0.
        destruct (A _ _ H) as (t0 & L0 & N0). exists t0. split; [|exact N0].
        apply lookup_app_l_Some. exact L0.
    + intros j0 t0 H. apply lookup_snoc_Some in H. destruct H as [(Hlt & H)|(-> & <-)].
      * pose proof (B _ _ H) as E0.
        rewrite lookup_insert_ne; [exact E0|]. intros Heq. rewrite <- Heq in E0. congruence.
      * apply lookup_insert_eq.
    + intros t0 H. apply in_app_or in H. destruct H as [H|[<-|[]]]; [apply C; exact H|].
      cbn [Name setName]. split; [exact Hne | apply lowtrim_fixed].
Qed.

Lemma mergeOne_patternAt st t n :
  indexed st -> n <> "" ->
  patternAt (mergeOne st t) n
  = if String.eqb (ToLower (TrimSpace (Name t))) n then Some (setName n t)
    else patternAt st n.
Proof.
  intros (A & B & C) Hn. unfold mergeOne, patternAt.
  destruct (String.eqb_spec (ToLower (TrimSpace (Name t))) "") as [E0|Hne].
  { rewrite E0. destruct (String.eqb_spec "" n) as [<-|]; [contradiction | reflexivity]. }
  set (m := ToLower (TrimSpace (Name t))) in *.
  destruct (snd st !! m) as [j|] eqn:E; cbn [fst snd].
  - destruct (A _ _ E) as (old & Lo & No).
    assert (Hj : (j < List.length (fst st))%nat) by (eapply lookup_lt_Some; exact Lo).
    destruct (String.eqb_spec m n) as [<-|Hmn].
    + rewrite E. apply list_lookup_insert_eq. exact Hj.
    + destruct (snd st !! n) as [j0|] eqn:E0; [|reflexivity].
      apply list_lookup_insert_ne. intros <-.
      destruct (A _ _ E0) as (t0 & L0 & N0). congruence.
  - destruct (String.eqb_spec m n) as [<-|Hmn].
    + rewrite lookup_insert_eq. apply list_lookup_middle. reflexivity.
    + rewrite lookup_insert_ne by exact Hmn.
      destruct (snd st !! n) as [j0|] eqn:E0; [|reflexivity].
      destruct (A _ _ E0) as (t0 & L0 & N0). rewrite L0.
      apply lookup_app_l_Some. exact L0.
Qed.

Lemma merge_fold n tmp st acc base :
  n <> "" -> indexed st ->
  patternAt st n = match acc with Some t => Some (setName n t) | None => base end ->
  indexed (fold_left mergeOne tmp st) /\
  patternAt (fold_left mergeOne tmp st) n
  = match lastNamedFrom n acc tmp with
    | Some t => Some (setName n t)
    | None => base
    end.
Proof.
  intros Hn. revert st acc. induction tmp as [|t r IH]; intros st acc Hi Hp.
  - split; [exact Hi | exact Hp].
  - cbn [fold_left]. unfold lastNamedFrom. cbn [fold_left]. fold (lastNamedFrom n).
    apply IH; [apply mergeOne_indexed; exact Hi|].
    rewrite (mergeOne_patternAt st t n Hi Hn).
    destruct (String.eqb (ToLower (TrimSpace (Name t))) n); [reflexivity | exact Hp].
Qed.

Lemma patternAt_iff st n t :
  indexed st -> (patternAt st n = Some t <-> In t (fst st) /\ Name t = n).
Proof.
  intros Hi. split.
  - intros H. assert (Hn : Name t = n).
    { unfold patternAt in H. destruct (snd st !! n) as [j|] eqn:E; [|discriminate].
      destruct Hi as (A & _). destruct (A _ _ E) as (t0 & L0 & N0). congruence. }
    split; [|exact Hn]. apply (patternAt_In st t Hi). rewrite Hn. exact H.
  - intros (H & <-). apply (patternAt_In st t Hi). exact H.
Qed.

Lemma loadPatternsFile_spec file out :
  NoDup (List.map Name out) ->
  (forall t, In t out -> Name t <> "" /\ ToLower (TrimSpace (Name t)) = Name t) ->
  NoDup (List.map Name (loadPatternsFile file out)) /\
  (forall t, In t (loadPatternsFile file out) ->
     Name t <> "" /\ ToLower (TrimSpace (Name t)) = Name t) /\
  forall n t', n <> "" ->
    (In t' (loadPatternsFile file out) /\ Name t' = n <->
     match lastNamed n file with
     | Some t => t' = setName n t
     | None => In t' out /\ Name t' = n
     end).
Proof.
  intros Hd Hn.
  assert (Hsame : NoDup (List.map Name out) /\
                  (forall t, In t out ->
                     Name t <> "" /\ ToLower (TrimSpace (Name t)) = Name t) /\
                  forall n t', n <> "" ->
                    (In t' out /\ Name t' = n <-> In t' out /\ Name t' = n))
    by (split; [exact Hd | split; [exact Hn | tauto]]).
  destruct file as [[|t0 r]|]; [exact Hsame | | exact Hsame].
  unfold loadPatternsFile, lastNamed.
  pose proof (indexed_start out Hd Hn) as Hi.
  set (st := (out, indexFrom 0 out ∅)) in *.
  assert (F : forall n, n <> "" ->
            indexed (fold_left mergeOne (t0 :: r) st) /\
            patternAt (fold_left mergeOne (t0 :: r) st) n
            = match lastNamedFrom n None (t0 :: r) with
              | Some t => Some (setName n t)
              | None => patternAt st n
              end)
    by (intros n Hne; apply (merge_fold n (t0 :: r) st None (patternAt st n) Hne Hi);
        reflexivity).
  destruct (F "x"%string ltac:(discriminate)) as (Hi' & _).
  split; [apply indexed_NoDup; exact Hi'|].
  split; [exact (proj2 (proj2 Hi'))|].
  intros n t' Hne. destruct (F n Hne) as (_ & Hp).
  rewrite <- (patternAt_iff _ n t' Hi'), Hp.
  destruct (lastNamedFrom n None (t0 :: r)) as [t|].
  - split; [intros H; injection H as <-; reflexivity | intros ->; reflexivity].
  - apply (patternAt_iff st n t' Hi).
Qed.

Lemma Name_normalizePattern (t : DeviceTypePattern) :
  Name (normalizePattern t) = ToLower (TrimSpace (Name t)).
Proof. reflexivity. Qed.

(** X28.  The pattern set that [LoadDeviceTypePatterns] builds from a
    default and a custom file of ASCII text: it holds one pattern for each
    non-blank normalised (trimmed, lower-case) name that occurs in either
    file, namely the last custom pattern of that name or, when the custom
    file has none, the last default pattern of that name; no name occurs
    twice; and every pattern is in normal form. *)
Theorem LoadDeviceTypePatterns_merge (defFile customFile : option (list DeviceTypePattern)) :
  asciiFile defFile -> asciiFile customFile ->
  NoDup (List.map Name (Types (LoadDeviceTypePatterns defFile customFile))) /\
  (forall p, In p (Types (LoadDeviceTypePatterns defFile customFile)) ->
     Name p <> "" /\ normalizePattern p = p) /\
  forall p,
    In p (Types (LoadDeviceTypePatterns defFile customFile)) <->
    exists n t,
      n <> "" /\ p = normalizePattern (setName n t) /\
      (lastNamed n customFile = Some t \/
       lastNamed n customFile = None /\ lastNamed n defFile = Some t).
Proof.
  intros _ _.
  unfold LoadDeviceTypePatterns. cbn [Types].
  destruct (loadPatternsFile_spec defFile [] (NoDup_nil_2 : NoDup (List.map Name [])) ltac:(intros t []))
    as (D1 & N1 & M1).
  destruct (loadPatternsFile_spec customFile (loadPatternsFile defFile []) D1 N1)
    as (D2 & N2 & M2).
  set (out2 := loadPatternsFile customFile (loadPatternsFile defFile [])) in *.
  split; [|split].
  - rewrite List.map_map.
    rewrite (map_ext_in _ Name); [exact D2|].
    intros t Ht. rewrite Name_normalizePattern. apply (N2 t Ht).
  - intros p Hp. apply in_map_iff in Hp. destruct Hp as (t & <- & Ht).
    split; [|apply normalizePattern_idem].
    rewrite Name_normalizePattern, (proj2 (N2 t Ht)). apply (N2 t Ht).
  - intros p. rewrite in_map_iff. split.
    + intros (t' & <- & Ht). destruct (N2 t' Ht) as (Hne & _).
      pose proof (proj1 (M2 (Name t') t' Hne) (conj Ht eq_refl)) as H2.
      exists (Name t'). destruct (lastNamed (Name t') customFile) as [t|] eqn:Ec.
      * exists t. rewrite H2. split; [exact Hne|]. split; [reflexivity | left; reflexivity].
      * pose proof (proj1 (M1 (Name t') t' Hne) H2) as H1.
        destruct (lastNamed (Name t') defFile) as [t|] eqn:Ed.
        -- exists t. rewrite H1 at 2. split; [exact Hne|].
           split; [reflexivity | right; split; reflexivity].
        -- destruct H1 as ([] & _).
    + intros (n & t & Hne & -> & [Hc|(Hc & Hd)]).
      * exists (setName n t). split; [reflexivity|].
        apply (proj2 (M2 n (setName n t) Hne)). rewrite Hc. reflexivity.
      * exists (setName n t). split; [reflexivity|].
        apply (proj2 (M2 n (setName n t) Hne)). rewrite Hc.
        apply (proj2 (M1 n (setName n t) Hne)). rewrite Hd. reflexivity.
Qed.

End PatternFacts.

(** The default file holds the pattern "cokeon" and there is no custom
    file. *)
Lemma LoadDeviceTypePatterns_merge_witness :
  In cokeon (Types.Types (Patterns.LoadDeviceTypePatterns (Some [cokeon]) None)).
Proof.
  apply (proj2 (proj2 (LoadDeviceTypePatterns_merge (Some [cokeon]) None
                         ltac:(repeat constructor) I))).
  exists "cokeon"%string, cokeon. split; [discriminate|].
  split; [reflexivity|]. right. split; reflexivity.
Defined.

(** ** What the dump lists, and in which order *)

Section CollectFacts.
Import Types GoText Gatt.
Local Open Scope list_scope.

Lemma ascii_compare_trans (a b c : ascii) :
  Ascii.compare a b = Lt -> Ascii.compare b c = Lt -> Ascii.compare a c = Lt.
Proof.
  unfold Ascii.compare. rewrite !N.compare_lt_iff. lia.
Qed.

Lemma string_compare_trans (a b c : string) :
  String.compare a b = Lt -> String.compare b c = Lt -> String.compare a c = Lt.
Proof.
  revert b c. induction a as [|x a IH]; intros [|y b] [|z c]; cbn [String.compare];
    try discriminate; try reflexivity.
  destruct (Ascii.compare x y) eqn:Exy; try discriminate;
    destruct (Ascii.compare y z) eqn:Eyz; try discriminate; intros H1 H2.
  - apply Ascii.compare_eq_iff in Exy, Eyz. subst. 
    assert (E : Ascii.compare z z = Eq)
      by (unfold Ascii.compare; apply N.compare_refl).
    rewrite E. exact (IH _ _ H1 H2).
  - apply Ascii.compare_eq_iff in Exy. subst. rewrite Eyz. reflexivity.
  - apply Ascii.compare_eq_iff in Eyz. subst. rewrite Exy. reflexivity.
  - rewrite (ascii_compare_trans _ _ _ Exy Eyz). reflexivity.
Qed.

Lemma ltb_trans (a b c : string) :
  String.ltb a b = true -> String.ltb b c = true -> String.ltb a c = true.
Proof.
  unfold String.ltb.
  destruct (String.compare a b) eqn:E1; try discriminate.
  destruct (String.compare b c) eqn:E2; try discriminate.
  rewrite (string_compare_trans _ _ _ E1 E2). reflexivity.
Qed.

Lemma ltb_total (a b : string) :
  a <> b -> String.ltb a b = false -> String.ltb b a = true.
Proof.
  unfold String.ltb. intros Hne. rewrite (String.compare_antisym b a).
  destruct (String.compare a b) eqn:E; cbn [CompOpp]; try discriminate; try reflexivity.
  apply String.compare_eq_iff in E. contradiction.
Qed.

Lemma insertByPath_ascending {A} (path : A -> string) (x : A) (l : list A) :
  ascendingBy path l -> ~ In (path x) (List.map path l) ->
  ascendingBy path (insertByPath path x l).
Proof.
  unfold ascendingBy. induction 1 as [|y r Hr IH Hy]; intros Hx; cbn [insertByPath].
  - constructor; constructor.
  - destruct (String.ltb (path x) (path y)) eqn:E.
    + constructor; [constructor; assumption|].
      constructor; [exact E|].
      eapply Forall_impl; [exact Hy|]. cbn. intros z Hz. exact (ltb_trans _ _ _ E Hz).
    + assert (Hyx : String.ltb (path y) (path x) = true).
      { apply ltb_total; [|exact E]. intros Heq. apply Hx. left. symmetry. exact Heq. }
      constructor; [apply IH; intros H; apply Hx; right; exact H|].
      apply List.Forall_forall. intros z Hz. apply In_insertByPath in Hz.
      destruct Hz as [->|Hz]; [exact Hyx|].
      rewrite List.Forall_forall in Hy. exact (Hy z Hz).
Qed.

Lemma sortByPath_ascending {A} (path : A -> string) (l : list A) :
  NoDup (List.map path l) -> ascendingBy path (sortByPath path l).
Proof.
  unfold sortByPath. induction l as [|x r IH]; cbn [fold_right List.map]; intros Hd.
  - constructor.
  - apply NoDup_cons in Hd. destruct Hd as (Hx & Hd).
    apply insertByPath_ascending; [apply IH; exact Hd|].
    intros H. apply Hx. apply list_elem_of_In.
    apply in_map_iff in H. destruct H as (z & Ez & Hz).
    apply (In_sortByPath path r z) in Hz.
    rewrite <- Ez. apply in_map. exact Hz.
Qed.

Lemma omap_paths {A B} (key : B -> string) (path : A -> string) (sel : B -> option A)
      (l : list B) :
  (forall e x, sel e = Some x -> path x = key e) ->
  NoDup (List.map key l) -> NoDup (List.map path (omap sel l)).
Proof.
  intros Hp. induction l as [|e r IH]; intros Hd; [constructor|].
  cbn [List.map] in Hd.
  apply NoDup_cons in Hd. destruct Hd as (He & Hd).
  assert (Eo : omap sel (e :: r) = match sel e with Some y => y :: omap sel r
                                                | None => omap sel r end) by reflexivity.
  rewrite Eo. clear Eo.
  destruct (sel e) as [x|] eqn:E; [|apply IH; exact Hd].
  cbn [List.map]. apply NoDup_cons. split; [|apply IH; exact Hd].
  intros H. apply He. apply list_elem_of_In in H. apply list_elem_of_In.
  apply in_map_iff in H. destruct H as (z & Ez & Hz).
  apply list_elem_of_In, list_elem_of_omap in Hz. destruct Hz as (e' & He' & Se').
  rewrite (Hp _ _ E) in Ez. rewrite (Hp _ _ Se') in Ez.
  rewrite <- Ez. apply in_map. apply list_elem_of_In. exact He'.
Qed.

Lemma collected {A} (path : A -> string) (sel : string * Ifaces -> option A)
      (managed : Managed) :
  (forall e x, sel e = Some x -> path x = fst e) ->
  ascendingBy path (sortByPath path (omap sel (map_to_list managed))) /\
  forall x, In x (sortByPath path (omap sel (map_to_list managed))) <->
            exists ifaces, managed !! path x = Some ifaces /\ sel (path x, ifaces) = Some x.
Proof.
  intros Hp. split.
  - apply sortByPath_ascending. apply (omap_paths fst path sel); [exact Hp|].
    apply NoDup_fst_map_to_list.
  - intros x. rewrite In_sortByPath, <- list_elem_of_In, list_elem_of_omap. split.
    + intros ([p ifaces] & He & Hs). apply elem_of_map_to_list in He.
      pose proof (Hp _ _ Hs) as E. cbn [fst] in E. subst p. eauto.
    + intros (ifaces & Hm & Hs). exists (path x, ifaces).
      split; [apply elem_of_map_to_list; exact Hm | exact Hs].
Qed.

Variable managed : Managed.

Lemma collectServices_exact (devPrefix : string) :
  ascendingBy s_path (collectServices managed devPrefix) /\
  forall x, In x (collectServices managed devPrefix) <->
    exists ifaces svc,
      managed !! s_path x = Some ifaces /\ HasPrefix (s_path x) devPrefix = true /\
      ifaces !! "org.bluez.GattService1" = Some svc /\
      s_uuid x = TrimSpace (fst (getString svc "UUID")) /\ s_uuid x <> "" /\
      s_handle x = getUint16Ptr svc "Handle".
Proof.
  unfold collectServices.
  match goal with
  | |- context [omap ?f _] =>
      destruct (collected s_path f managed) as (Hs & Hm)
  end.
  { intros e x H. destruct (negb _); [discriminate|].
    destruct (snd e !! _); [|discriminate]. destruct (String.eqb _ ""); [discriminate|].
    injection H as <-. reflexivity. }
  split; [exact Hs|]. intros x. rewrite Hm. cbn [fst snd]. split.
  - intros (ifaces & Hi & H). exists ifaces.
    destruct (HasPrefix (s_path x) devPrefix); [|discriminate]. cbn [negb] in H.
    destruct (ifaces !! "org.bluez.GattService1") as [svc|]; [|discriminate].
    exists svc.
    destruct (String.eqb_spec (TrimSpace (fst (getString svc "UUID"))) "") as [|Hne];
      [discriminate|].
    injection H as <-. cbn [s_uuid s_handle]. repeat split; auto.
  - intros (ifaces & svc & Hi & Hp & Hs' & Hu & Hne & Hh). exists ifaces.
    split; [exact Hi|]. rewrite Hp, Hs'. cbn [negb]. rewrite <- Hu.
    rewrite (eqb_false_of_neq _ _ Hne), <- Hh. destruct x; reflexivity.
Qed.

Lemma collectCharacteristics_exact (s : svcItem) :
  ascendingBy c_path (collectCharacteristics managed s) /\
  forall x, In x (collectCharacteristics managed s) <->
    exists ifaces ch,
      managed !! c_path x = Some ifaces /\
      HasPrefix (c_path x) (s_path s ++ "/") = true /\
      ifaces !! "org.bluez.GattCharacteristic1" = Some ch /\
      c_uuid x = TrimSpace (fst (getString ch "UUID")) /\ c_uuid x <> "" /\
      c_handle x = getUint16Ptr ch "Handle" /\ c_flags x = getStringSlice ch "Flags".
Proof.
  unfold collectCharacteristics.
  match goal with
  | |- context [omap ?f _] =>
      destruct (collected c_path f managed) as (Hs & Hm)
  end.
  { intros e x H. destruct (negb _); [discriminate|].
    destruct (snd e !! _); [|discriminate]. destruct (String.eqb _ ""); [discriminate|].
    injection H as <-. reflexivity. }
  split; [exact Hs|]. intros x. rewrite Hm. cbn [fst snd]. split.
  - intros (ifaces & Hi & H). exists ifaces.
    destruct (HasPrefix (c_path x) (s_path s ++ "/")); [|discriminate]. cbn [negb] in H.
    destruct (ifaces !! "org.bluez.GattCharacteristic1") as [ch|]; [|discriminate].
    exists ch.
    destruct (String.eqb_spec (TrimSpace (fst (getString ch "UUID"))) "") as [|Hne];
      [discriminate|].
    injection H as <-. cbn [c_uuid c_handle c_flags]. repeat split; auto.
  - intros (ifaces & ch & Hi & Hp & Hs' & Hu & Hne & Hh & Hf). exists ifaces.
    split; [exact Hi|]. rewrite Hp, Hs'. cbn [negb]. rewrite <- Hu.
    rewrite (eqb_false_of_neq _ _ Hne), <- Hh, <- Hf. destruct x; reflexivity.
Qed.

Lemma collectDescriptors_exact (c : chItem) :
  ascendingBy d_path (collectDescriptors managed c) /\
  forall x, In x (collectDescriptors managed c) <->
    exists ifaces di,
      managed !! d_path x = Some ifaces /\
      HasPrefix (d_path x) (c_path c ++ "/") = true /\
      ifaces !! "org.bluez.GattDescriptor1" = Some di /\
      d_uuid x = TrimSpace (fst (getString di "UUID")) /\ d_uuid x <> "" /\
      d_handle x = getUint16Ptr di "Handle" /\ d_flags x = getStringSlice di "Flags".
Proof.
  unfold collectDescriptors.
  match goal with
  | |- context [omap ?f _] =>
      destruct (collected d_path f managed) as (Hs & Hm)
  end.
  { intros e x H. destruct (negb _); [discriminate|].
    destruct (snd e !! _); [|discriminate]. destruct (String.eqb _ ""); [discriminate|].
    injection H as <-. reflexivity. }
  split; [exact Hs|]. intros x. rewrite Hm. cbn [fst snd]. split.
  - intros (ifaces & Hi & H). exists ifaces.
    destruct (HasPrefix (d_path x) (c_path c ++ "/")); [|discriminate]. cbn [negb] in H.
    destruct (ifaces !! "org.bluez.GattDescriptor1") as [di|]; [|discriminate].
    exists di.
    destruct (String.eqb_spec (TrimSpace (fst (getString di "UUID"))) "") as [|Hne];
      [discriminate|].
    injection H as <-. cbn [d_uuid d_handle d_flags]. repeat split; auto.
  - intros (ifaces & di & Hi & Hp & Hs' & Hu & Hne & Hh & Hf). exists ifaces.
    split; [exact Hi|]. rewrite Hp, Hs'. cbn [negb]. rewrite <- Hu.
    rewrite (eqb_false_of_neq _ _ Hne), <- Hh, <- Hf. destruct x; reflexivity.
Qed.

(** X29.  What the dump lists: the services are the objects below the
    device path that carry the GATT service interface and a non-blank UUID,
    each once, in ascending order of their paths and with the UUID trimmed;
    the characteristics of a service are the objects below the service path
    that carry the characteristic interface and a non-blank UUID, likewise;
    the descriptors of a characteristic likewise. *)
Theorem dump_listing (devPrefix : string) (s : svcItem) (c : chItem) :
  (ascendingBy s_path (collectServices managed devPrefix) /\
   forall x, In x (collectServices managed devPrefix) <->
     exists ifaces svc,
       managed !! s_path x = Some ifaces /\ HasPrefix (s_path x) devPrefix = true /\
       ifaces !! "org.bluez.GattService1" = Some svc /\
       s_uuid x = TrimSpace (fst (getString svc "UUID")) /\ s_uuid x <> "" /\
       s_handle x = getUint16Ptr svc "Handle") /\
  (ascendingBy c_path (collectCharacteristics managed s) /\
   forall x, In x (collectCharacteristics managed s) <->
     exists ifaces ch,
       managed !! c_path x = Some ifaces /\
       HasPrefix (c_path x) (s_path s ++ "/") = true /\
       ifaces !! "org.bluez.GattCharacteristic1" = Some ch /\
       c_uuid x = TrimSpace (fst (getString ch "UUID")) /\ c_uuid x <> "" /\
       c_handle x = getUint16Ptr ch "Handle" /\ c_flags x = getStringSlice ch "Flags") /\
  (ascendingBy d_path (collectDescriptors managed c) /\
   forall x, In x (collectDescriptors managed c) <->
     exists ifaces di,
       managed !! d_path x = Some ifaces /\
       HasPrefix (d_path x) (c_path c ++ "/") = true /\
       ifaces !! "org.bluez.GattDescriptor1" = Some di /\
       d_uuid x = TrimSpace (fst (getString di "UUID")) /\ d_uuid x <> "" /\
       d_handle x = getUint16Ptr di "Handle" /\ d_flags x = getStringSlice di "Flags").
Proof.
  split; [apply collectServices_exact|].
  split; [apply collectCharacteristics_exact | apply collectDescriptors_exact].
Qed.

End CollectFacts.

(** ** The classic tables in the discovery loop *)

Section ClassicFacts.
Import Types Bluetooth.
Local Open Scope list_scope.

Variable parse : string -> option Time.
Variable env : Env.

Lemma classic_updateDevice f m s :
  classicTables (Db.updateDevice f m s) = classicTables s.
Proof. unfold Db.updateDevice. destruct (Db.devices s !! m); reflexivity. Qed.

Lemma classic_UpdateDeviceGPS m t s :
  classicTables (Db.UpdateDeviceGPS m t s) = classicTables s.
Proof.
  unfold Db.UpdateDeviceGPS.
  repeat match goal with |- context [if ?c then _ else _] => destruct c end;
    try reflexivity; apply classic_updateDevice.
Qed.

Lemma classic_UpdateDeviceMarkedType m t s :
  classicTables (Db.UpdateDeviceMarkedType m t s) = classicTables s.
Proof.
  unfold Db.UpdateDeviceMarkedType.
  repeat match goal with |- context [if ?c then _ else _] => destruct c end;
    try reflexivity; apply classic_updateDevice.
Qed.

Lemma classic_UpdateDeviceLastAdvID m i s :
  classicTables (Db.UpdateDeviceLastAdvID m i s) = classicTables s.
Proof.
  unfold Db.UpdateDeviceLastAdvID.
  repeat match goal with |- context [if ?c then _ else _] => destruct c end;
    try reflexivity; apply classic_updateDevice.
Qed.

Lemma classic_RecordHistory c w sid m ts lat lon t cached src s :
  classicTables (Db.RecordDeviceGPSHistoryIfChanged c w sid m ts lat lon t cached src s)
  = classicTables s.
Proof.
  unfold Db.RecordDeviceGPSHistoryIfChanged.
  repeat match goal with |- context [if ?c then _ else _] => destruct c end; reflexivity.
Qed.

Lemma classic_SaveDevice nowStr p s :
  classicTables (snd (Db.SaveDevice parse nowStr p s)) = classicTables s.
Proof.
  unfold Db.SaveDevice.
  destruct (String.eqb (Db.normalizeMAC (Db.MAC p)) ""); [reflexivity|].
  destruct (if Db.UpdateExisting p then _ else _); reflexivity.
Qed.

Lemma classic_InsertAdvertisement p s :
  classicTables (snd (Db.InsertAdvertisement p s)) = classicTables s.
Proof.
  unfold Db.InsertAdvertisement.
  destruct (String.eqb (Db.normalizeMAC (Db.ap_MAC p)) ""); [reflexivity|].
  destruct (Db.devices s !! _); reflexivity.
Qed.

Ltac classic_frame :=
  cbn [queue maps store trace emit Linef withMaps withStore withQueue];
  repeat first
    [ rewrite classic_UpdateDeviceGPS | rewrite classic_UpdateDeviceMarkedType
    | rewrite classic_UpdateDeviceLastAdvID | rewrite classic_RecordHistory
    | rewrite classic_SaveDevice | rewrite classic_InsertAdvertisement ];
  try reflexivity.

Lemma classic_sight o bd w : classicTables (store (sight env o bd w)) = classicTables (store w).
Proof. unfold sight. destruct (negb _); classic_frame. Qed.

Lemma classic_gpsWrite now rd o t w :
  classicTables (store (gpsWrite env now rd o t w)) = classicTables (store w).
Proof. unfold gpsWrite. classic_frame. Qed.

Lemma classic_markerUpdate o w :
  classicTables (store (markerUpdate o w)) = classicTables (store w).
Proof.
  unfold markerUpdate. destruct (String.eqb _ ""); [reflexivity|].
  destruct (match lastMarked (maps w) !! o_mac o with Some _ => _ | None => _ end);
    classic_frame.
Qed.

Lemma classic_throttledUpdate now rd o w :
  classicTables (store (throttledUpdate env now rd o w)) = classicTables (store w).
Proof.
  unfold throttledUpdate. rewrite classic_markerUpdate.
  destruct (o_gpsStr o); [|reflexivity].
  destruct (String.eqb _ ""); [reflexivity|].
  destruct (match lastGPSVal (maps w) !! o_mac o with Some _ => _ | None => _ end);
    [apply classic_gpsWrite | reflexivity].
Qed.

Lemma classic_fullWrite now rd o bd w :
  classicTables (store (fullWrite parse env now rd o bd w)) = classicTables (store w).
Proof.
  unfold fullWrite. rewrite classic_markerUpdate.
  set (w1 := withMaps _ w).
  set (w2 := if 1 <? _ then _ else w1).
  assert (H2 : classicTables (store w2) = classicTables (store w))
    by (subst w2 w1; destruct (1 <? _); classic_frame).
  set (w3 := match o_gpsStr o with Some _ => _ | None => w2 end).
  assert (H3 : classicTables (store w3) = classicTables (store w)).
  { subst w3. destruct (o_gpsStr o); [|exact H2].
    destruct (String.eqb _ ""); [exact H2|]. rewrite classic_gpsWrite. exact H2. }
  rewrite <- H3. classic_frame.
Qed.

Lemma classic_deviceWrite now rd o bd w :
  classicTables (store (deviceWrite parse env now rd o bd w)) = classicTables (store w).
Proof.
  unfold deviceWrite. destruct (lastDeviceWrite (maps w) !! o_mac o).
  - destruct (_ <? _); [apply classic_throttledUpdate | apply classic_fullWrite].
  - apply classic_fullWrite.
Qed.

Lemma classic_advertisementWrite now o bd w :
  classicTables (store (advertisementWrite env now o bd w)) = classicTables (store w).
Proof.
  unfold advertisementWrite.
  destruct (match lastAdvWrite (maps w) !! o_mac o with Some _ => _ | None => _ end);
    [|reflexivity].
  destruct (0 <? _); classic_frame.
Qed.

Lemma classicGrows_refl P s : classicGrows P s s.
Proof.
  split; [auto|]. split; [auto|]. exists []. rewrite app_nil_r. split; [reflexivity|].
  intros r [].
Qed.

Lemma classicGrows_trans P a b c :
  classicGrows P a b -> classicGrows P b c -> classicGrows P a c.
Proof.
  intros (A1 & B1 & l1 & C1 & D1) (A2 & B2 & l2 & C2 & D2).
  split; [intros k Hk; rewrite A2, A1; auto|]. split; [auto|].
  exists (l1 ++ l2). rewrite C2, C1, app_assoc. split; [reflexivity|].
  intros r H. apply in_app_or in H. destruct H; auto.
Qed.

Lemma classicGrows_same P s s' : classicTables s' = classicTables s -> classicGrows P s s'.
Proof.
  unfold classicTables. intros E. injection E as E1 E2.
  split; [intros; rewrite E1; reflexivity|]. split; [rewrite E1; auto|].
  exists []. rewrite app_nil_r. split; [exact E2 | intros r []].
Qed.

Lemma classicGrows_classicWrite (P : string -> Prop) now o bd w :
  (isClassicLikely bd = true -> P (Db.normalizeMAC (o_mac o))) ->
  classicGrows P (store w) (store (classicWrite env now o bd w)) /\
  (isClassicLikely bd = true -> Db.normalizeMAC (o_mac o) <> "" ->
   is_Some (Db.classic_devices (store (classicWrite env now o bd w))
              !! Db.normalizeMAC (o_mac o))).
Proof.
  intros HP. unfold classicWrite.
  destruct (isClassicLikely bd); [|split; [apply classicGrows_refl | discriminate]].
  specialize (HP eq_refl). cbv zeta.
  set (w1 := if match lastClassicHist (maps w) !! o_mac o with
                | Some last => _ | None => true end then _ else w).
  assert (H1 : classicGrows P (store w) (store w1)).
  { subst w1.
    destruct (match lastClassicHist (maps w) !! o_mac o with
              | Some last => _ | None => true end); [|apply classicGrows_refl].
    cbn [store emit withStore withMaps]. unfold Db.InsertClassicDiscovery. cbn [Db.cp_MAC].
    destruct (String.eqb _ ""); [apply classicGrows_refl|].
    split; [reflexivity|]. split; [auto|].
    eexists. split; [reflexivity|]. intros r [<-|[]]. exact HP. }
  cbn [store emit withStore]. unfold Db.UpsertClassicInfo. cbn [Db.ci_MAC].
  destruct (String.eqb_spec (Db.normalizeMAC (o_mac o)) "") as [E|Hne].
  { split; [exact H1 | intros _ H; contradiction]. }
  split.
  - eapply classicGrows_trans; [exact H1|].
    split; [|split].
    + intros k Hk. cbn [Db.classic_devices Db.withClassicDevices].
      apply lookup_insert_ne. intros <-. exact (Hk HP).
    + intros k Hk. cbn [Db.classic_devices Db.withClassicDevices].
      destruct (String.eqb_spec (Db.normalizeMAC (o_mac o)) k) as [<-|Hk'].
      * rewrite lookup_insert_eq. eauto.
      * rewrite lookup_insert_ne by exact Hk'. exact Hk.
    + exists []. rewrite app_nil_r. split; [reflexivity | intros r []].
  - intros _ _. cbn [Db.classic_devices Db.withClassicDevices].
    rewrite lookup_insert_eq. eauto.
Qed.

Lemma classicGrows_observe (P : string -> Prop) now mac0 bd rd w :
  (isClassicLikely bd = true -> P (ToUpper (TrimSpace mac0))) ->
  classicGrows P (store w) (store (observe parse env now mac0 bd rd w)) /\
  (isClassicLikely bd = true -> ToUpper (TrimSpace mac0) <> "" ->
   is_Some (Db.classic_devices (store (observe parse env now mac0 bd rd w))
              !! ToUpper (TrimSpace mac0))).
Proof.
  intros HP. unfold observe.
  destruct (String.eqb_spec (ToUpper (TrimSpace mac0)) "") as [E|Hne].
  { split; [apply classicGrows_refl | intros _ H; contradiction]. }
  cbv zeta. rewrite steps_connectSchedule.
  set (o := buildObs env (ToUpper (TrimSpace mac0)) bd rd).
  set (w3 := advertisementWrite env now o bd _).
  assert (H3 : classicTables (store w3) = classicTables (store w)).
  { subst w3. rewrite classic_advertisementWrite, classic_deviceWrite, classic_sight.
    reflexivity. }
  assert (Hm : Db.normalizeMAC (o_mac o) = ToUpper (TrimSpace mac0))
    by apply normalizeMAC_canonical.
  destruct (classicGrows_classicWrite P now o bd w3) as (G & S).
  { rewrite Hm. exact HP. }
  rewrite Hm in S.
  split; [|exact S].
  eapply classicGrows_trans; [apply classicGrows_same; exact H3 | exact G].
Qed.

Lemma classicGrows_snapshot now snap0 snap w :
  (forall e, In e snap -> In e snap0) ->
  classicGrows (classicSeen snap0) (store w)
    (store (fold_left (fun w e => observe parse env now (fst (fst e)) (snd (fst e)) (snd e) w)
              snap w)) /\
  forall e, In e snap -> isClassicLikely (snd (fst e)) = true ->
    ToUpper (TrimSpace (fst (fst e))) <> "" ->
    is_Some (Db.classic_devices
               (store (fold_left
                         (fun w e => observe parse env now (fst (fst e)) (snd (fst e))
                                       (snd e) w) snap w))
               !! ToUpper (TrimSpace (fst (fst e)))).
Proof.
  revert w. induction snap as [|e r IH]; intros w Hin.
  - split; [apply classicGrows_refl | intros e []].
  - cbn [fold_left].
    destruct (classicGrows_observe (classicSeen snap0) now (fst (fst e)) (snd (fst e))
                (snd e) w) as (G1 & S1).
    { intros Hc. exists e. split; [apply Hin; left; reflexivity|]. split; [exact Hc|].
      reflexivity. }
    destruct (IH (observe parse env now (fst (fst e)) (snd (fst e)) (snd e) w))
      as (G2 & S2); [intros e' H'; apply Hin; right; exact H'|].
    split; [exact (classicGrows_trans _ _ _ _ G1 G2)|].
    intros e' [<-|H'] Hc Hne; [|exact (S2 e' H' Hc Hne)].
    exact (proj1 (proj2 G2) _ (S1 Hc Hne)).
Qed.

(** X30.  The classic tables in a tick of the discovery loop: rows of
    [classic_devices] change only for the MACs of snapshot entries that look
    like classic (BR/EDR) devices, and no row is removed; the discoveries
    added to [classic_discoveries] are discoveries of such MACs, added at
    the end; and every such entry with a non-blank MAC has its
    [classic_devices] row after the tick. *)
Theorem tick_classic_tables (now : Time) (done : list string)
        (snap : list (string * bluezDevice * Readings)) (w : World) :
  let w' := tick parse env now done snap w in
  (forall k, ~ classicSeen snap k ->
     Db.classic_devices (store w') !! k = Db.classic_devices (store w) !! k) /\
  (forall k, is_Some (Db.classic_devices (store w) !! k) ->
     is_Some (Db.classic_devices (store w') !! k)) /\
  (exists l, Db.classic_discoveries (store w') = Db.classic_discoveries (store w) ++ l /\
             forall r, In r l -> classicSeen snap (Db.cdi_mac r)) /\
  forall e, In e snap -> isClassicLikely (snd (fst e)) = true ->
    ToUpper (TrimSpace (fst (fst e))) <> "" ->
    is_Some (Db.classic_devices (store w') !! ToUpper (TrimSpace (fst (fst e)))).
Proof.
  intros w'. subst w'. unfold tick.
  destruct (classicGrows_snapshot now snap snap (drain done w) (fun e H => H))
    as ((A & B & C) & S).
  rewrite store_drain in A, B, C.
  split; [exact A|]. split; [exact B|]. split; [exact C | exact S].
Qed.

End ClassicFacts.
